(* ===== verification/_CoqProject ===== *)
-Q . S2P
Prelude.v
Fifo.v
Md4.v
Crc.v
Siphash.v
Blake2.v
Hashing.v
Packet.v
Factory.v
DeferQueue.v
World.v
Config.v
State.v
Sample.v
Transport.v
Redundancy.v
Connection.v
Retransmission.v
Handlers.v
Session.v
Events.v
EventLoop.v
EventList.v
Rasta.v
Service.v
Peers.v
Recovery.v
Network.v
Dictionary.v
ConfigParser.v
Logging.v
ConfigFile.v
Startup.v
KeyExchange.v
KexHandlers.v
KeyBlind.v
SessionKey.v
Tls.v
TlsTransport.v
TlsLog.v
TlsSafety.v
Rcat.v
