(* ===== verification/Prelude.v ===== *)
(** * librasta: a verified model of the RaSTA protocol stack

    RaSTA (DIN VDE V 0831-200) carries messages between railway systems over
    several unreliable transport channels.  The library is written in C; this
    development translates it into executable definitions and proves what they
    guarantee.

    ** The program

    An endpoint is reached through a [rasta_handle].  It is a stack of layers in
    one thread, driven by one event loop:
    - the user calls rasta.c: bind, listen, connect, accept, send, receive,
      disconnect.  Those that wait run the event loop (util/event_system.c) until
      a handler ends it;
    - the safety and retransmission layer (retransmission/, rastafactory.c,
      util/rastamodule.c) keeps one connection: a state machine over the types of
      packets, sequence numbers, confirmed packets, retransmission, timeliness, and
      a safety code over every packet (util/rastahashing.c with MD4, BLAKE2b or
      SipHash);
    - the redundancy layer (redundancy/) sends every packet as a frame with a CRC
      over all transport channels, drops duplicates, puts what is early into a
      defer queue and delivers in order;
    - the transports (transport/) are UDP or TCP sockets, or DTLS or TLS ones,
      chosen when the program is linked;
    - with ENABLE_OPAQUE the ends agree on a session key (experimental/);
    - the example programs read a configuration file (examples/common/c/).

    ** The files, and the code they model

    All paths are below src/src/c unless they start with examples/ or include/.

    Groundwork.
    - Prelude: errors ([fault]: out of bounds, uninitialised, NULL or freed, abort,
      out of fuel), the state and error monad [M], its specifications in continuation style
      ([wp]: ends without a fault; [wlp]: faults allowed), record updates, machine
      integers ([u8] to [u64], [s32]), byte lists, hints and tactics.
    - World (include/rasta/events.h): the clock, the outcome of system calls and
      what was sent, as functions and lists.  Config (include/rasta/config.h,
      retransmission/protocol.c).  State (rasta_connection.h, rastahandle.h and the
      headers of the layers): the record [sys] of everything an endpoint is.
      Sample: a concrete endpoint for examples.

    Data structures and algorithms.
    - Fifo (util/fifo.c), DeferQueue (util/rastadeferqueue.c).
    - Md4, Crc, Siphash, Blake2 (util/rastamd4.c, rastacrc.c, rastasiphash24.c,
      rastablake2.c), Hashing (util/rastahashing.c, rastautil.c).
    - Packet (util/rastamodule.c), Factory (rastafactory.c).

    The protocol.  An operation of the code is a definition of the same name in
    the monad over [sys].
    - Transport (udp.c, udp_base.c, tcp.c, tcp_base.c, bsd_utils.c, transport.c):
      the class [Transport] with its instances, and the laws [TransportOk].
    - Redundancy (redundancy/, diagnostics.c), against [Transport] and the class
      [UpperLayer] of the layer it delivers to.
    - Connection, Retransmission, Handlers (safety_retransmission.c, messages.c,
      handlers.c) with [sr_receive]; Session discharges [UpperOk] for it.
    - Events (transport/events.c), EventLoop and EventList (util/event_system.c;
      EventList has the linked lists on a heap that EventLoop takes as sequences).
    - Rasta (rasta.c, rasta_init.c, rastahandle.c), Service (its theorems).
    - Peers, Recovery: two endpoints that exchange packets.  Network: two
      endpoints with any applications and a network between them.

    Around it.
    - Dictionary, ConfigParser, ConfigFile (examples/common/c/dictionary.c and
      configfile.c), Startup (from the text of a file to an endpoint), Logging
      (logging.c).  Rcat (examples/rcat/c/rcat.c): a client of the library, whose
      input callback runs inside of the event loop.
    - KeyExchange, KexHandlers (experimental/key_exchange.c, handlers.c and the
      parts other files have with ENABLE_OPAQUE) over [kex_sys], which extends
      [sys]; KeyBlind and SessionKey hold their theorems.
    - Tls, TlsTransport (transport/ssl_utils.c, tls.c, dtls.c, and tcp_base.c,
      udp_base.c and the accept handler with ENABLE_TLS) over [tls_sys], which
      extends [sys]; TlsLog and TlsSafety hold their theorems.

    ** What the theorems show

    - Safety of the whole: in every run of two endpoints over a faulty network no
      memory is accessed wrongly and nothing aborts (Network); the event loop and
      all handlers keep the invariant of the endpoint (EventLoop, Events, Session);
      set-up and the service primitives establish and keep it (Service, Startup);
      a whole client runs safely from its sockets to the clean-up (Rcat).
    - What the protocol does: the handshake, the transfer of messages, the
      recovery after a loss and the case in which recovery loses messages (Peers,
      Recovery); the state machine that [sr_receive] refines and what it rejects
      (Session); delivery in order and what a frame does to the defer queue
      (Redundancy); how a lost frame stalls a channel (Events).
    - Refinement of abstract data types: the queue (Fifo), the defer queue, the
      lists of events, the dictionary.
    - Round trips: both packet formats, messages in a data packet, and the
      configuration file.
    - Equivalence with the published algorithms: MD4 and BLAKE2b with their
      streaming interface, SipHash, the table-driven CRC, the safety code.
    - The key exchange: agreement, refusal of a wrong key, and that the session
      key is never used (SessionKey).
    - TLS and DTLS: application data goes only through sessions that were set up
      as the configuration asks, and a read stays in its buffer (TlsSafety).

    ** Conventions

    - A byte is a [Z] from 0 to 255, a word a [Z] that is reduced where the code
      computes at its width; the platform is x86-64 Linux, little-endian.
    - Undefined behaviour, [abort] and failed assertions are a [Fail] of the
      monad, so that a theorem that excludes [Fail] excludes them.  Memory that is
      read before it is written is an argument of the model.
    - Pointers are resolved where each thing exists once (the connection, the
      redundancy channel, the multiplexer); a heap is explicit where sharing
      matters (Fifo, EventList, the arrays of the dictionary).
    - The [n]-th reading of the clock and the answer of the [n]-th system call are
      given functions: theorems hold for all of them.  Libraries that are not part
      of the repository (libopaque, wolfSSL) are classes, with their documented
      behaviour as laws, and a concrete instance shows that the laws can hold.
    - Fuel.  Loops over a buffer, a line or a queue have its length, or one more,
      as fuel, and theorems show that it does not run out ([receive_packet_total],
      [load_file_total], [wolfssl_receive_tls_total], the delivery of the defer
      queue).  The event loop of a server need not end, so that its fuel is an
      argument and the theorems hold for every amount; that the waiting calls
      return is shown where it is true ([accept_cancelled]).

    ** Not modelled

    - The notifications (rastahandle.c): the bodies of the fire_ functions are
      commented out, and the callbacks that remain are unset.
    - rmalloc and rfree (util/rmemory.c): an allocation that fails aborts; blocks
      appear as the data they hold.
    - What the protocol layers write to the log, and output to stderr.  The
      logger itself is modelled.
    - In the build with ENABLE_OPAQUE the event loop with its fifth timer; the
      handler of that timer is modelled.
    - In the builds with ENABLE_TLS the layers above the transport, which appear
      as the steps they take at its interface, and the key log for Wireshark.
    - The other example programs: the variants of rcat for TLS and OPAQUE, which
      check their arguments first, the gRPC bridge in C++, the event test and the
      generator of OPAQUE records.  The tests, and the code of third parties. *)

From stdpp Require Import base numbers list.
From Stdlib Require Import ZArith Lia.

Local Open Scope Z_scope.

(** ** Faults and results

    The C code has no exceptions.  What it does have is undefined behaviour
    (an access outside of an object, a read of an object that was never
    written, a dereference of NULL), [abort()], and loops that need not end.
    Each of these is a value of [fault]; a computation returns a [res]. *)

Inductive fault : Set :=
| OutOfBounds    (* an access outside of the object *)
| Uninitialised  (* a read of bytes nobody wrote *)
| NullDeref      (* NULL or a freed cell is dereferenced *)
| AbortCalled    (* abort() or a failing assert() *)
| OutOfFuel.     (* the loop was still running when the fuel was used up *)

Global Instance fault_eq_dec : EqDecision fault.
Proof. solve_decision. Defined.

Inductive res (A : Type) : Type :=
| Ok (a : A)
| Fail (e : fault).
Arguments Ok {A} a.
Arguments Fail {A} e.

Global Instance res_ret : MRet res := fun _ a => Ok a.
Global Instance res_bind : MBind res := fun _ _ k m =>
  match m with Ok a => k a | Fail e => Fail e end.
Global Instance res_fmap : FMap res := fun _ _ f m =>
  match m with Ok a => Ok (f a) | Fail e => Fail e end.

Definition ensure (b : bool) (e : fault) : res unit :=
  if b then Ok tt else Fail e.

Definition is_ok {A} (m : res A) : bool :=
  match m with Ok _ => true | Fail _ => false end.

Lemma bind_ok {A B} (m : res A) (k : A -> res B) (b : B) :
  (m ≫= k) = Ok b <-> exists a, m = Ok a /\ k a = Ok b.
Proof.
  split; [destruct m as [a|e]; cbn; [eauto|done]|].
  by intros (a & -> & <-).
Qed.

Lemma ensure_ok b e u : ensure b e = Ok u <-> b = true.
Proof. destruct b, u; cbn; naive_solver. Qed.

(** The result is there and satisfies [Q]. *)
Definition rwp {A} (m : res A) (Q : A -> Prop) : Prop :=
  match m with Ok a => Q a | Fail _ => False end.

Lemma rwp_ok {A} (m : res A) Q : rwp m Q <-> exists a, m = Ok a /\ Q a.
Proof.
  unfold rwp. destruct m as [a|e]; split; [eauto|by intros (? & [= <-] & ?)|done|by intros (? & ? & ?)].
Qed.
Lemma rwp_bind {A B} (m : res A) (k : A -> res B) Q : rwp m (fun a => rwp (k a) Q) -> rwp (m ≫= k) Q.
Proof. by destruct m. Qed.
Lemma rwp_seq {A B} (m : res A) (k : A -> res B) R Q : rwp m R -> (forall a, R a -> rwp (k a) Q) -> rwp (m ≫= k) Q.
Proof. destruct m; cbn; eauto. Qed.
Lemma rwp_mono {A} (m : res A) (R Q : A -> Prop) : rwp m R -> (forall a, R a -> Q a) -> rwp m Q.
Proof. destruct m; cbn; eauto. Qed.

(** Compute the monadic structure of the goal. *)
Ltac mcbn := cbn [mbind res_bind mret res_ret fmap res_fmap].

(** ** State and fault monad

    [M S A] is a C function that works on the state [S] (its out-parameters,
    the structs reached through its pointer arguments, globals, the outside
    world), and returns an [A] unless it faults. *)

Definition M (S A : Type) : Type := S -> res (A * S).

Global Instance M_ret {S} : MRet (M S) := fun _ a s => Ok (a, s).
Global Instance M_bind {S} : MBind (M S) := fun _ _ k m s =>
  match m s with Ok (a, s') => k a s' | Fail e => Fail e end.

Definition gets {S A} (f : S -> A) : M S A := fun s => Ok (f s, s).
Definition modify {S} (f : S -> S) : M S unit := fun s => Ok (tt, f s).
Definition lift {S A} (m : res A) : M S A := fun s =>
  match m with Ok a => Ok (a, s) | Fail e => Fail e end.
Definition fail {S A} (e : fault) : M S A := fun _ => Fail e.
Definition when {S} (b : bool) (m : M S unit) : M S unit :=
  if b then m else mret tt.

(** [for (i = start; i < start + n; i++) body(i)] *)
Fixpoint for_up {S} (n : nat) (start : nat) (body : nat -> M S unit) : M S unit :=
  match n with
  | O => mret tt
  | Datatypes.S n' => body start ≫= fun _ => for_up n' (Datatypes.S start) body
  end.

(** Weakest precondition for total correctness: the run does not fault and its
    result satisfies [Q]. *)
Definition wp {S A} (m : M S A) (Q : A -> S -> Prop) (s : S) : Prop :=
  match m s with Ok (a, s') => Q a s' | Fail _ => False end.

Lemma run_ok {S A B} (m : M S A) (k : A -> M S B) s a s' : m s = Ok (a, s') -> (m ≫= k) s = k a s'.
Proof. unfold mbind, M_bind. by intros ->. Qed.
Lemma run_fail {S A B} (m : M S A) (k : A -> M S B) s e : m s = Fail e -> (m ≫= k) s = Fail e.
Proof. unfold mbind, M_bind. by intros ->. Qed.
Lemma run_lift {S A} (m : res A) (s : S) a : m = Ok a -> lift m s = Ok (a, s).
Proof. by intros ->. Qed.

Section wp_rules.
Context {S : Type}.
Implicit Types s : S.

Lemma wp_ok {A} (m : M S A) Q s :
  wp m Q s <-> exists a s', m s = Ok (a, s') /\ Q a s'.
Proof.
  unfold wp. destruct (m s) as [[a s']|e]; split; [eauto| | |].
  - intros (? & ? & [= <- <-] & ?); done.
  - done.
  - by intros (? & ? & ? & ?).
Qed.

Lemma wp_mono {A} (m : M S A) (Q Q' : A -> S -> Prop) s :
  wp m Q s -> (forall a s', Q a s' -> Q' a s') -> wp m Q' s.
Proof. unfold wp. destruct (m s) as [[??]|]; naive_solver. Qed.

Lemma wp_bind {A B} (m : M S A) (k : A -> M S B) Q s :
  wp m (fun a => wp (k a) Q) s -> wp (m ≫= k) Q s.
Proof. unfold wp, mbind, M_bind. destruct (m s) as [[??]|]; done. Qed.

Lemma wp_seq {A B} (m : M S A) (k : A -> M S B) R Q s :
  wp m R s -> (forall a s', R a s' -> wp (k a) Q s') -> wp (m ≫= k) Q s.
Proof. intros H1 H2. apply wp_bind. eapply wp_mono; eauto. Qed.

Lemma wp_ret {A} (a : A) Q s : Q a s -> wp (mret a) Q s.
Proof. done. Qed.
Lemma wp_gets {A} (f : S -> A) Q s : Q (f s) s -> wp (gets f) Q s.
Proof. done. Qed.
Lemma wp_modify (f : S -> S) (Q : unit -> S -> Prop) s :
  Q tt (f s) -> wp (modify f) Q s.
Proof. done. Qed.
Lemma wp_lift {A} (m : res A) Q s :
  (exists a, m = Ok a /\ Q a s) -> wp (lift m) Q s.
Proof. intros (a & -> & ?). done. Qed.
Lemma wp_conj {A} (m : M S A) (Q Q' : A -> S -> Prop) s :
  wp m Q s -> wp m Q' s -> wp m (fun a s' => Q a s' /\ Q' a s') s.
Proof. unfold wp. destruct (m s) as [[??]|]; done. Qed.

Lemma for_up_inv n : forall start body (I : nat -> S -> Prop) s,
  I start s ->
  (forall i s', (start <= i < start + n)%nat -> I i s' ->
     wp (body i) (fun _ => I (Datatypes.S i)) s') ->
  wp (for_up n start body) (fun _ => I (start + n)%nat) s.
Proof.
  induction n as [|n IH]; intros start body I s HI Hbody; cbn [for_up].
  - apply wp_ret. by rewrite Nat.add_0_r.
  - eapply wp_seq; [apply Hbody; [lia|done]|].
    intros ? s' HI'. rewrite Nat.add_succ_r. apply (IH (Datatypes.S start)); [exact HI'|].
    intros i s'' Hi. apply Hbody. lia.
Qed.
End wp_rules.

(** Weakest liberal precondition: if the run does not fault, its result satisfies
    [Q].  For safety properties of code that ends the process on failure. *)
Definition wlp {S A} (m : M S A) (Q : A -> S -> Prop) (s : S) : Prop :=
  match m s with Ok (a, s') => Q a s' | Fail _ => True end.

Section wlp_rules.
Context {S : Type}.
Implicit Types s : S.

Lemma wlp_run {A} (m : M S A) Q s a s' : wlp m Q s -> m s = Ok (a, s') -> Q a s'.
Proof. unfold wlp. intros Hm E. by rewrite E in Hm. Qed.
Lemma wlp_mono {A} (m : M S A) (Q Q' : A -> S -> Prop) s : wlp m Q s -> (forall a s', Q a s' -> Q' a s') -> wlp m Q' s.
Proof. unfold wlp. destruct (m s) as [[??]|]; naive_solver. Qed.
Lemma wlp_bind {A B} (m : M S A) (k : A -> M S B) Q s : wlp m (fun a => wlp (k a) Q) s -> wlp (m ≫= k) Q s.
Proof. unfold wlp, mbind, M_bind. by destruct (m s) as [[??]|]. Qed.
Lemma wlp_seq {A B} (m : M S A) (k : A -> M S B) R Q s :
  wlp m R s -> (forall a s', R a s' -> wlp (k a) Q s') -> wlp (m ≫= k) Q s.
Proof. intros H1 H2. apply wlp_bind. eapply wlp_mono; eauto. Qed.
Lemma wlp_ret {A} (a : A) Q s : Q a s -> wlp (mret a) Q s.
Proof. done. Qed.
Lemma wlp_gets {A} (f : S -> A) Q s : Q (f s) s -> wlp (gets f) Q s.
Proof. done. Qed.
Lemma wlp_modify (f : S -> S) (Q : unit -> S -> Prop) s : Q tt (f s) -> wlp (modify f) Q s.
Proof. done. Qed.
Lemma wlp_fail {A} e (Q : A -> S -> Prop) s : wlp (fail e) Q s.
Proof. done. Qed.
Lemma wlp_when b (m : M S unit) Q s : (b = true -> wlp m Q s) -> (b = false -> Q tt s) -> wlp (when b m) Q s.
Proof. intros H1 H2. destruct b; [by apply H1|by apply H2]. Qed.
End wlp_rules.

(** ** Fixed-width unsigned integers, written out as remainders *)

Definition u8 (x : Z) : Z := x mod 256.
Definition u16 (x : Z) : Z := x mod 65536.
Definition u32 (x : Z) : Z := x mod 4294967296.
Definition u64 (x : Z) : Z := x mod 18446744073709551616.

Definition is_u8 (x : Z) : Prop := 0 <= x < 256.
Definition is_u16 (x : Z) : Prop := 0 <= x < 65536.
Definition is_u32 (x : Z) : Prop := 0 <= x < 4294967296.
Definition is_u64 (x : Z) : Prop := 0 <= x < 18446744073709551616.

(** Signed 32-bit conversion, as the implementation-defined cast of gcc. *)
Definition s32 (x : Z) : Z := (x + 2147483648) mod 4294967296 - 2147483648.

(** [mlia]: [lia] with the remainders of the wrap-around unfolded. *)
Ltac mlia :=
  intros; unfold is_u8, is_u16, is_u32, is_u64, u8, u16, u32, u64, s32 in *;
  Z.to_euclidean_division_equations; lia.

(** [ztest b]: the integer test [b] of the goal is decided by [lia]. *)
Ltac ztest b :=
  let H := fresh in
  first
    [ assert (H : b = true) by
        (first [apply Z.leb_le | apply Z.ltb_lt | apply Z.eqb_eq]; lia)
    | assert (H : b = false) by
        (first [apply Z.leb_gt | apply Z.ltb_ge | apply Z.eqb_neq]; lia) ];
  rewrite H; clear H.
Ltac ztests := repeat match goal with
  | |- context [Z.leb ?a ?b] => ztest (Z.leb a b)
  | |- context [Z.ltb ?a ?b] => ztest (Z.ltb a b)
  | |- context [Z.eqb ?a ?b] => ztest (Z.eqb a b)
  end.

(** [zbool]: turn the boolean tests among the hypotheses into propositions. *)
Ltac zbool := repeat match goal with
  | H : _ && _ = true |- _ => apply andb_prop in H; destruct H
  | H : _ || _ = false |- _ => apply orb_false_iff in H; destruct H
  | H : negb _ = true |- _ => apply negb_true_iff in H
  | H : negb _ = false |- _ => apply negb_false_iff in H
  | H : (_ <=? _) = true |- _ => apply Z.leb_le in H
  | H : (_ <=? _) = false |- _ => apply Z.leb_gt in H
  | H : (_ <? _) = true |- _ => apply Z.ltb_lt in H
  | H : (_ <? _) = false |- _ => apply Z.ltb_ge in H
  | H : (_ =? _) = true |- _ => apply Z.eqb_eq in H
  | H : (_ =? _) = false |- _ => apply Z.eqb_neq in H
  end.

Lemma u8_range x : is_u8 (u8 x). Proof. mlia. Qed.
Lemma u16_range x : is_u16 (u16 x). Proof. mlia. Qed.
Lemma u32_range x : is_u32 (u32 x). Proof. mlia. Qed.
Lemma u64_range x : is_u64 (u64 x). Proof. mlia. Qed.
Lemma u8_small x : is_u8 x -> u8 x = x. Proof. mlia. Qed.
Lemma u16_small x : is_u16 x -> u16 x = x. Proof. mlia. Qed.
Lemma u32_small x : is_u32 x -> u32 x = x. Proof. mlia. Qed.
Lemma u64_small x : is_u64 x -> u64 x = x. Proof. mlia. Qed.
Lemma u32_u32 x : u32 (u32 x) = u32 x. Proof. mlia. Qed.
Lemma u32_add_u32_l x y : u32 (u32 x + y) = u32 (x + y). Proof. mlia. Qed.
Lemma u32_add_u32_r x y : u32 (x + u32 y) = u32 (x + y). Proof. mlia. Qed.

Lemma u64_add_l x y : u64 (u64 x + y) = u64 (x + y). Proof. mlia. Qed.

Create HintDb rasta.
Create Rewrite HintDb wrap.
Create Rewrite HintDb zlen.
#[export] Hint Resolve u8_range u16_range u32_range u64_range : rasta.
#[export] Hint Rewrite u32_u32 u32_add_u32_l u32_add_u32_r : wrap.

(** ** Little-endian byte strings

    [le_enc n v] is the object representation of an [n]-byte unsigned integer
    on the little-endian machines the library is written for. *)

Fixpoint le_enc (n : nat) (v : Z) : list Z :=
  match n with
  | O => []
  | S n' => v mod 256 :: le_enc n' (v / 256)
  end.

Fixpoint le_dec (bs : list Z) : Z :=
  match bs with
  | [] => 0
  | b :: bs' => b + 256 * le_dec bs'
  end.

Definition bytes_ok (bs : list Z) : Prop := Forall is_u8 bs.

Lemma length_le_enc n : forall v, length (le_enc n v) = n.
Proof. induction n; intros v; cbn; [done|by rewrite IHn]. Qed.

Lemma le_enc_bytes n : forall v, bytes_ok (le_enc n v).
Proof. induction n; intros v; constructor; [mlia|apply IHn]. Qed.

Lemma le_dec_enc n : forall v, le_dec (le_enc n v) = v mod 256 ^ Z.of_nat n.
Proof.
  induction n as [|n IH]; intros v; cbn [le_enc le_dec].
  - by rewrite Z.mod_1_r.
  - rewrite IH, Nat2Z.inj_succ, Z.pow_succ_r by lia.
    rewrite Z.rem_mul_r by lia. lia.
Qed.

Lemma le_enc_app n : forall m v, le_enc (n + m) v = le_enc n v ++ le_enc m (v / 256 ^ Z.of_nat n).
Proof.
  induction n as [|n IH]; intros m v; cbn [Nat.add le_enc app]; [by rewrite Z.div_1_r|].
  rewrite IH, Nat2Z.inj_succ, Z.pow_succ_r by lia. do 3 f_equal.
  rewrite Z.div_div by lia. done.
Qed.

Lemma le_enc_mod n : forall v, le_enc n (v mod 256 ^ Z.of_nat n) = le_enc n v.
Proof.
  induction n as [|n IH]; intros v; cbn [le_enc]; [done|].
  rewrite Nat2Z.inj_succ, Z.pow_succ_r by lia.
  rewrite Z.rem_mul_r by lia. f_equal; [mlia|].
  rewrite <- (IH (v / 256)). f_equal.
  rewrite Z.mul_comm, Z.div_add, Z.div_small by mlia. lia.
Qed.

Lemma le_dec_bound bs : bytes_ok bs -> 0 <= le_dec bs < 256 ^ Z.of_nat (length bs).
Proof.
  induction 1 as [|b bs Hb _ IH]; cbn [le_dec length]; [done|].
  rewrite Nat2Z.inj_succ, Z.pow_succ_r by lia. unfold is_u8 in Hb. lia.
Qed.

Lemma le_enc_dec bs : bytes_ok bs -> le_enc (length bs) (le_dec bs) = bs.
Proof.
  induction 1 as [|b bs Hb _ IH]; cbn [le_dec length le_enc]; [done|].
  unfold is_u8 in Hb. rewrite (Z.mul_comm 256), Z_mod_plus_full, Z.mod_small by lia.
  rewrite Z.div_add, Z.div_small by lia. by rewrite Z.add_0_l, IH.
Qed.

Lemma le_dec_enc_u16 v : is_u16 v -> le_dec (le_enc 2 v) = v.
Proof. intros H. rewrite le_dec_enc. by apply u16_small. Qed.
Lemma le_dec_enc_u32 v : is_u32 v -> le_dec (le_enc 4 v) = v.
Proof. intros H. rewrite le_dec_enc. by apply u32_small. Qed.

Lemma le_dec_app l : forall k, le_dec (l ++ k) = le_dec l + 256 ^ Z.of_nat (length l) * le_dec k.
Proof.
  induction l as [|b l IH]; intros k; cbn [app le_dec length]; [lia|].
  rewrite IH, Nat2Z.inj_succ, Z.pow_succ_r by lia. lia.
Qed.

(** Or-ing a shifted value over smaller low bits is addition. *)
Lemma lor_shift_add x y n : 0 <= n -> 0 <= x < 2 ^ n -> Z.lor (Z.shiftl y n) x = y * 2 ^ n + x.
Proof.
  intros Hn Hx. assert (Hz : Z.land (Z.shiftl y n) x = 0).
  { apply Z.bits_inj'. intros i Hi. rewrite Z.land_spec, Z.shiftl_spec, Z.testbit_0_l by done.
    destruct (decide (i < n)) as [?|?].
    - by rewrite (Z.testbit_neg_r y) by lia.
    - rewrite <- (Z.mod_small x (2 ^ n)) by done. rewrite Z.mod_pow2_bits_high by lia.
      apply andb_false_r. }
  rewrite <- Z.lxor_lor, <- Z.add_nocarry_lxor, Z.shiftl_mul_pow2 by done. done.
Qed.

(** ** Byte buffers

    A [struct RastaByteArray] is the list of its bytes; its [length] field is
    the length of the list.  [read_at]/[write_at] are [memcpy] out of and into
    an object at an offset, with the bounds of the object checked: what C
    leaves undefined is [Fail OutOfBounds] here. *)

Definition zlen {A} (l : list A) : Z := Z.of_nat (length l).

Definition read_at (b : list Z) (off n : Z) : res (list Z) :=
  _ ← ensure ((0 <=? off) && (0 <=? n) && (off + n <=? zlen b)) OutOfBounds;
  mret (take (Z.to_nat n) (drop (Z.to_nat off) b)).

Definition write_at (b : list Z) (off : Z) (src : list Z) : res (list Z) :=
  _ ← ensure ((0 <=? off) && (off + zlen src <=? zlen b)) OutOfBounds;
  mret (take (Z.to_nat off) b ++ src ++ drop (Z.to_nat off + length src) b).

(** [rmalloc(n); memset(.., 0, n)]: [allocateRastaByteArray]. *)
Definition zeros (n : Z) : list Z := replicate (Z.to_nat n) 0.

Lemma le_dec_zeros n : le_dec (zeros n) = 0.
Proof. unfold zeros. induction (Z.to_nat n) as [|m IH]; cbn; lia. Qed.

Lemma zlen_nil {A} : zlen (@nil A) = 0. Proof. done. Qed.
Lemma zlen_cons {A} (x : A) l : zlen (x :: l) = 1 + zlen l.
Proof. unfold zlen. cbn [length]. lia. Qed.
Lemma zlen_app {A} (l k : list A) : zlen (l ++ k) = zlen l + zlen k.
Proof. unfold zlen. rewrite length_app. lia. Qed.
Lemma zlen_nonneg {A} (l : list A) : 0 <= zlen l.
Proof. unfold zlen. lia. Qed.
Lemma zlen_le_enc n v : zlen (le_enc n v) = Z.of_nat n.
Proof. unfold zlen. by rewrite length_le_enc. Qed.
Lemma zlen_zeros n : 0 <= n -> zlen (zeros n) = n.
Proof. intros. unfold zlen, zeros. rewrite length_replicate. lia. Qed.
Lemma zlen_to_nat {A} (l : list A) : Z.to_nat (zlen l) = length l.
Proof. unfold zlen. lia. Qed.
#[export] Hint Rewrite @zlen_nil @zlen_cons @zlen_app zlen_le_enc @zlen_to_nat : zlen.

Lemma read_at_ok b off n :
  0 <= off -> 0 <= n -> off + n <= zlen b ->
  read_at b off n = Ok (take (Z.to_nat n) (drop (Z.to_nat off) b)).
Proof.
  intros. unfold read_at. by ztests.
Qed.

Lemma read_at_app l x r off n :
  off = zlen l -> n = zlen x -> read_at (l ++ x ++ r) off n = Ok x.
Proof.
  intros -> ->. rewrite read_at_ok; rewrite ?zlen_app; try (pose proof (zlen_nonneg r);
    pose proof (zlen_nonneg x); pose proof (zlen_nonneg l); lia).
  rewrite !zlen_to_nat, drop_app_length. by rewrite take_app_length.
Qed.

Lemma read_at_fail b off n :
  off < 0 \/ n < 0 \/ zlen b < off + n -> read_at b off n = Fail OutOfBounds.
Proof.
  intros H. unfold read_at. 
  destruct (0 <=? off) eqn:?, (0 <=? n) eqn:?, (off + n <=? zlen b) eqn:?; cbn; done || lia.
Qed.

Lemma read_at_inv b off n r :
  read_at b off n = Ok r ->
  0 <= off /\ 0 <= n /\ off + n <= zlen b /\ zlen r = n.
Proof.
  unfold read_at. intros (u & Hu & Hr)%bind_ok. apply ensure_ok in Hu.
  zbool. injection Hr as <-.
  unfold zlen in *. repeat split; [lia..|].
  rewrite length_take_le; rewrite ?length_drop; lia.
Qed.

Lemma write_at_app l x r off src :
  off = zlen l -> length src = length x ->
  write_at (l ++ x ++ r) off src = Ok (l ++ src ++ r).
Proof.
  intros -> Hlen. unfold write_at, zlen. rewrite !length_app, Hlen.
  ztests. cbn.
  rewrite Nat2Z.id, take_app_length. do 2 f_equal.
  rewrite drop_app_add. by rewrite drop_app_length.
Qed.

Lemma take_Z_zlen {A} (l : list A) : take (Z.to_nat (zlen l)) l = l.
Proof. by rewrite zlen_to_nat, firstn_all. Qed.

Lemma read_all d : read_at d 0 (zlen d) = Ok d.
Proof.
  rewrite read_at_ok by (pose proof (zlen_nonneg d); lia). by rewrite drop_0, take_Z_zlen.
Qed.

(** Storing behind a prefix of the buffer. *)
Lemma write_junk tail junk d : (length d <= length junk)%nat ->
  write_at (tail ++ junk) (zlen tail) d = Ok ((tail ++ d) ++ drop (length d) junk).
Proof.
  intros Hd. rewrite <- (take_drop (length d) junk) at 1.
  rewrite write_at_app; [by rewrite app_assoc|done|]. rewrite length_take. lia.
Qed.

Lemma write_next tail junk off d : off = zlen tail -> (length d <= length junk)%nat ->
  write_at (tail ++ junk) off d = Ok ((tail ++ d) ++ drop (length d) junk).
Proof. intros ->. apply write_junk. Qed.

Lemma write_front b d : (length d <= length b)%nat ->
  write_at b 0 d = Ok (d ++ drop (length d) b).
Proof. apply (write_junk []). Qed.

Lemma write_at_all b d : zlen d = zlen b -> write_at b 0 d = Ok d.
Proof.
  unfold zlen. intros Hl. rewrite write_front by lia. by rewrite drop_ge, app_nil_r by lia.
Qed.

(** Reading a prefix that is known. *)
Lemma read_front l r n : n = zlen l -> read_at (l ++ r) 0 n = Ok l.
Proof. intros ->. apply (read_at_app []); [done|done]. Qed.

Lemma read_back l r off n : off = zlen l -> n = zlen r -> read_at (l ++ r) off n = Ok r.
Proof. intros. rewrite <- (app_nil_r r) at 1. by apply read_at_app. Qed.

Lemma write_at_inv b off src r : write_at b off src = Ok r ->
  0 <= off /\ off + zlen src <= zlen b /\ zlen r = zlen b.
Proof.
  unfold write_at. intros (u & Hu & Hr)%bind_ok. apply ensure_ok in Hu.
  zbool. injection Hr as <-. split; [done|]. split; [done|]. unfold zlen in *.
  rewrite !length_app, length_take_le, length_drop; lia.
Qed.

Lemma write_at_fails b off src : zlen b < off + zlen src -> write_at b off src = Fail OutOfBounds.
Proof.
  intros H. unfold write_at. destruct (0 <=? off); cbn [andb]; [|done].
  ztest (off + zlen src <=? zlen b). done.
Qed.

Lemma length_write_at b off src r : write_at b off src = Ok r -> length r = length b.
Proof.
  unfold write_at. intros (u & Hu & Hr)%bind_ok. apply ensure_ok in Hu.
  zbool. injection Hr as <-. unfold zlen in *.
  rewrite !length_app, length_take_le, length_drop; lia.
Qed.

Lemma bytes_ok_app l k : bytes_ok (l ++ k) <-> bytes_ok l /\ bytes_ok k.
Proof. apply Forall_app. Qed.
Lemma bytes_ok_zeros n : bytes_ok (zeros n).
Proof. apply Forall_replicate. by unfold is_u8. Qed.
Lemma bytes_ok_take n l : bytes_ok l -> bytes_ok (take n l).
Proof. apply Forall_take. Qed.
Lemma bytes_ok_drop n l : bytes_ok l -> bytes_ok (drop n l).
Proof. apply Forall_drop. Qed.
#[export] Hint Resolve le_enc_bytes bytes_ok_zeros bytes_ok_take bytes_ok_drop : rasta.

(** ** Lists *)

Lemma NoDup_snoc {A} (l : list A) x : NoDup l -> x ∉ l -> NoDup (l ++ [x]).
Proof.
  intros Hl Hx. apply NoDup_app. split; [done|]. split; [|apply NoDup_singleton].
  intros y Hy Hyx. apply list_elem_of_singleton in Hyx as ->. done.
Qed.

Lemma fmap_alter_at {A B} (g : A -> B) (f : A -> A) (i : nat) (l : list A) :
  (forall x, l !! i = Some x -> g (f x) = g x) -> g <$> alter f i l = g <$> l.
Proof.
  revert i. induction l as [|x l IH]; intros [|i] Hf; cbn; [done..| |]; f_equal; [by apply Hf|by apply IH].
Qed.

Lemma fmap_alter_id {A B} (g : A -> B) (f : A -> A) i (l : list A) :
  (forall x, g (f x) = g x) -> g <$> alter f i l = g <$> l.
Proof.
  intros Hf. revert i. induction l as [|x l IH]; intros [|i]; cbn; [done..| |].
  - by rewrite Hf.
  - f_equal. apply IH.
Qed.

Lemma last_split2 {A B} (l : list A) (k : list B) :
  length l = length k ->
  (l = [] /\ k = []) \/
  exists l' x k' y, l = l' ++ [x] /\ k = k' ++ [y] /\ length l' = length k'.
Proof.
  intros Hlen. induction l as [|x l' _] using rev_ind;
    induction k as [|y k' _] using rev_ind.
  - by left.
  - rewrite length_app in Hlen. cbn in Hlen. lia.
  - rewrite length_app in Hlen. cbn in Hlen. lia.
  - right. exists l', x, k', y. rewrite !length_app in Hlen. cbn in Hlen.
    repeat split. lia.
Qed.

(** ** Record update

    [r <| f := v |>] is the C assignment [r.f = v].  A record type announces
    its fields once, with an [Eta] instance; the setter of a field is found by
    abstracting that term over the projection. *)

Class Eta (R : Type) := eta_term : R -> R.
Class Setter {R E : Type} (getter : R -> E) := setf : (E -> E) -> R -> R.

Ltac derive_setter g :=
  let T := type of g in
  lazymatch T with
  | ?R -> ?E =>
      let inst := constr:(_ : Eta R) in
      let e := eval hnf in inst in
      let e' := eval pattern g in e in
      lazymatch e' with
      | ?F _ =>
          let body := constr:(fun (f : E -> E) (r : R) => F (fun r' => f (g r')) r) in
          let body' := eval cbv beta in body in
          exact (body' : Setter g)
      end
  end.
#[export] Hint Extern 1 (Setter ?g) => derive_setter g : typeclass_instances.

Declare Scope record_scope.
Delimit Scope record_scope with record.
Notation "r <| g := v |>" := (setf (getter := g) (fun _ => v) r)
  (at level 1, g at level 9, v at level 200, left associativity,
   format "r  <| g  :=  v |>") : record_scope.
Notation "r <| g ::= f |>" := (setf (getter := g) f r)
  (at level 1, g at level 9, f at level 200, left associativity,
   format "r  <| g  ::=  f |>") : record_scope.
#[export] Set Warnings "-notation-overridden".

(** [fields]: compute the projections of updated records in the goal. *)
Ltac head_of p := lazymatch p with ?q _ => head_of q | _ => p end.
Ltac fields_step :=
  match goal with
  | |- context [?p (@setf ?R ?E ?g ?s ?f ?r)] =>
      let t := constr:(p (@setf R E g s f r)) in
      let h := head_of p in
      let t' := eval cbn [h setf] in t in
      progress change t with t'
  end.
Ltac fields := repeat fields_step.

(** Inequalities between closed terms, by computation. *)
Ltac nle := apply Nat.leb_le; reflexivity.
Ltac zle := first [apply Z.leb_le; reflexivity | apply Z.ltb_lt; reflexivity].

(** Case split on the innermost boolean test of the goal, with its equation. *)
Ltac case_if :=
  match goal with
  | |- context [if ?b then _ else _] =>
      lazymatch b with
      | context [if _ then _ else _] => fail
      | _ => destruct b eqn:?
      end
  end.
