(* ===== verification/Fifo.v ===== *)
(** * The FIFO queue (src/c/util/fifo.c)

    The queue is a singly linked list of heap cells with a head and a tail
    pointer.  [fifo_*] are the operations on the cells, translated from the
    source; [queue] is the abstract queue the rest of the library relies on,
    and [fifo_refines_queue] shows that no client can tell the two apart. *)

From stdpp Require Import base numbers list gmap.
From Stdlib Require Import ZArith Lia.
From S2P Require Import Prelude.

Local Open Scope Z_scope.
Local Open Scope record_scope.

(** ** The abstract queue *)

Record queue (A : Type) := mkQueue { q_max : Z; q_items : list A }.
Arguments mkQueue {A} _ _.
Arguments q_max {A} _.
Arguments q_items {A} _.

Section Queue.
Context {A : Type}.
Implicit Types q : queue A.

Definition queue_init (max : Z) : queue A := mkQueue max [].
Definition queue_size q : Z := zlen (q_items q).
Definition queue_full q : bool := queue_size q =? q_max q.

Definition queue_push q (x : option A) : bool * queue A :=
  match x with
  | None => (false, q)
  | Some x => if queue_full q then (false, q)
              else (true, mkQueue (q_max q) (q_items q ++ [x]))
  end.

Definition queue_pop q : option A * queue A :=
  match q_items q with
  | [] => (None, q)
  | x :: xs => (Some x, mkQueue (q_max q) xs)
  end.

(** The invariant every operation keeps: the capacity is respected. *)
Definition queue_ok q : Prop := is_u32 (q_max q) /\ queue_size q <= q_max q.

Lemma queue_init_ok max : is_u32 max -> queue_ok (queue_init max).
Proof. intros H. split; [done|]. unfold is_u32 in H. unfold queue_size; cbn; unfold zlen; cbn. lia. Qed.

Lemma queue_push_ok q x : queue_ok q -> queue_ok (queue_push q x).2.
Proof.
  unfold queue_push, queue_ok, queue_full, queue_size. intros [? ?].
  destruct x as [x|]; [|done]. case_if; [done|]. zbool.
  split; [done|]. cbn [snd q_items q_max]. autorewrite with zlen. lia.
Qed.

Lemma queue_pop_ok q : queue_ok q -> queue_ok (queue_pop q).2.
Proof.
  unfold queue_pop, queue_ok, queue_size. intros [? ?].
  destruct (q_items q) as [|x xs] eqn:E; cbn; [by rewrite E|].
  rewrite zlen_cons in *. split; [done|lia].
Qed.

Lemma queue_push_fits q x :
  queue_size q < q_max q ->
  queue_push q (Some x) = (true, mkQueue (q_max q) (q_items q ++ [x])).
Proof. intros H. unfold queue_push, queue_full. ztests. done. Qed.
End Queue.
#[export] Hint Resolve queue_init_ok queue_push_ok queue_pop_ok : rasta.

(** ** The linked list *)

(* fifo.h fifo_element *)
Record fifo_element (A : Type) := mkElement { data : A; next : option positive }.
Arguments mkElement {A} _ _.
Arguments data {A} _.
Arguments next {A} _.

(* fifo.h fifo_t *)
Record fifo_t := mkFifo {
  size : Z;
  max_size : Z;
  head : option positive;
  tail : option positive
}.
#[export] Instance eta_fifo : Eta fifo_t := fun f =>
  mkFifo (size f) (max_size f) (head f) (tail f).

(** The heap: the live cells, and the next address [rmalloc] hands out. *)
Record fstate (A : Type) := mkFstate {
  fifo : fifo_t;
  cells : gmap positive (fifo_element A);
  brk : positive
}.
Arguments mkFstate {A} _ _ _.
Arguments fifo {A} _.
Arguments cells {A} _.
Arguments brk {A} _.
#[export] Instance eta_fstate A : Eta (fstate A) := fun s =>
  mkFstate (fifo s) (cells s) (brk s).

Section Fifo.
Context {A : Type}.
#[local] Abbreviation FM := (M (fstate A)).

Definition malloc_element (n : fifo_element A) : FM positive := fun s =>
  Ok (brk s, s <| cells ::= <[brk s := n]> |> <| brk ::= Pos.succ |>).
Definition load_element (p : positive) : FM (fifo_element A) := fun s =>
  match cells s !! p with Some n => Ok (n, s) | None => Fail NullDeref end.
Definition store_next (p : positive) (nx : option positive) : FM unit :=
  n ← load_element p;
  modify (fun s => s <| cells ::= <[p := mkElement (data n) nx]> |>).
Definition free_element (p : positive) : FM unit :=
  _ ← load_element p;
  modify (fun s => s <| cells ::= delete p |>).
Definition set_fifo (f : fifo_t -> fifo_t) : FM unit :=
  modify (fun s => s <| fifo ::= f |>).

(* fifo.c fifo_init *)
Definition fifo_init (max : Z) : fifo_t := mkFifo 0 max None None.

(* fifo.c fifo_pop *)
Definition fifo_pop : FM (option A) :=
  f ← gets fifo;
  match head f, tail f with
  | Some element, Some _ =>
      if 0 <? size f then
        n ← load_element element;
        _ ← set_fifo (fun f => f <| head := next n |>);
        _ ← when (size f =? 1) (set_fifo (fun f => f <| tail := None |>));
        _ ← free_element element;
        _ ← set_fifo (fun f => f <| size := u32 (size f - 1) |>);
        mret (Some (data n))
      else mret None
  | _, _ => mret None
  end.

(* fifo.c fifo_push *)
Definition fifo_push (element : option A) : FM bool :=
  f ← gets fifo;
  match element with
  | None => mret false
  | Some x =>
      if size f =? max_size f then mret false
      else
        new_entry ← malloc_element (mkElement x None);
        _ ← (if size f =? 0 then
               set_fifo (fun f => f <| head := Some new_entry |>
                                    <| tail := Some new_entry |>)
             else
               match tail f with
               | Some t => _ ← store_next t (Some new_entry);
                           set_fifo (fun f => f <| tail := Some new_entry |>)
               | None => fail NullDeref
               end);
        _ ← set_fifo (fun f => f <| size := u32 (size f + 1) |>);
        mret true
  end.

(* fifo.c fifo_get_size *)
Definition fifo_get_size : FM Z := gets (fun s => size (fifo s)).
(* fifo.c fifo_full *)
Definition fifo_full : FM bool :=
  gets (fun s => size (fifo s) =? max_size (fifo s)).

(** The loop of [fifo_destroy]: the counter runs up while the size it is
    compared with runs down. *)
(* fifo.c:73-75 fifo_destroy *)
Fixpoint fifo_destroy_loop (fuel : nat) (i : Z) : FM unit :=
  match fuel with
  | O => fail OutOfFuel
  | S fuel =>
      n ← fifo_get_size;
      if i <? n then
        _ ← fifo_pop; fifo_destroy_loop fuel (u32 (i + 1))
      else mret tt
  end.

(** [fifo_destroy(&fifo)]: the cells that are still allocated afterwards. *)
(* fifo.c fifo_destroy *)
Definition fifo_destroy (p : option fifo_t) (h : gmap positive (fifo_element A))
    (b : positive) : res (option fifo_t * gmap positive (fifo_element A)) :=
  match p with
  | None => Ok (None, h)
  | Some f =>
      match fifo_destroy_loop (S (Z.to_nat (size f))) 0 (mkFstate f h b) with
      | Ok (_, s) => Ok (None, cells s)
      | Fail e => Fail e
      end
  end.

(** ** Representation

    [own locs xs] is the part of the heap that a list of cells at [locs]
    with contents [xs] occupies; [repr rest s q] says that the struct and
    the heap of [s] hold the queue [q], next to the unrelated cells [rest]. *)

Fixpoint own (locs : list positive) (xs : list A) : gmap positive (fifo_element A) :=
  match locs, xs with
  | l :: locs, x :: xs => <[l := mkElement x (list.head locs)]> (own locs xs)
  | _, _ => ∅
  end.

Record repr_at (rest : gmap positive (fifo_element A)) (s : fstate A) (q : queue A)
    (locs : list positive) : Prop := {
  repr_len : length locs = length (q_items q);
  repr_nodup : NoDup locs;
  repr_cells : cells s = own locs (q_items q) ∪ rest;
  repr_disj : forall l, l ∈ locs -> rest !! l = None;
  repr_head : head (fifo s) = list.head locs;
  repr_tail : tail (fifo s) = list.last locs;
  repr_size : size (fifo s) = queue_size q;
  repr_max : max_size (fifo s) = q_max q;
  repr_brk : forall l, (brk s <= l)%positive -> cells s !! l = None;
  repr_ok : queue_ok q
}.
Definition repr rest s q : Prop := exists locs, repr_at rest s q locs.

Lemma own_lookup_None locs : forall xs l, l ∉ locs -> own locs xs !! l = None.
Proof.
  induction locs as [|l' locs IH]; intros xs l Hl; [done|].
  destruct xs as [|x xs]; [done|]. cbn. apply not_elem_of_cons in Hl as [? ?].
  rewrite lookup_insert_ne by done. by apply IH.
Qed.

Lemma own_lookup_Some locs : forall xs l, length locs = length xs -> l ∈ locs ->
  is_Some (own locs xs !! l).
Proof.
  induction locs as [|l' locs IH]; intros xs l Hlen Hl; [set_solver|].
  destruct xs as [|x xs]; [done|]. cbn. injection Hlen as Hlen.
  destruct (decide (l' = l)) as [->|]; [rewrite lookup_insert_eq; eauto|].
  rewrite lookup_insert_ne by done. apply elem_of_cons in Hl as [?|?]; [done|].
  by apply IH.
Qed.

Lemma own_snoc locs : forall xs t y new x,
  length locs = length xs -> NoDup (locs ++ [t; new]) ->
  own (locs ++ [t; new]) (xs ++ [y; x]) =
  <[t := mkElement y (Some new)]> (<[new := mkElement x None]> (own (locs ++ [t]) (xs ++ [y]))).
Proof.
  induction locs as [|l locs IH]; intros xs t y new x Hlen Hnd.
  - destruct xs; [|done]. cbn in *. apply NoDup_cons in Hnd as [Hnd _].
    rewrite (insert_insert_ne _ new t) by set_solver. by rewrite insert_insert_eq.
  - destruct xs as [|z xs]; [done|]. cbn [app own]. injection Hlen as Hlen.
    apply NoDup_cons in Hnd as [Hl Hnd]. rewrite IH by done.
    rewrite (insert_insert_ne _ l t), (insert_insert_ne _ l new) by set_solver.
    replace (list.head (locs ++ [t; new])) with (list.head (locs ++ [t]));
      [done|by destruct locs].
Qed.

(** ** The operations implement the abstract queue *)

Lemma own_union_live locs xs rest l :
  length locs = length xs -> l ∈ locs ->
  is_Some ((own locs xs ∪ rest) !! l).
Proof.
  intros Hlen Hl. destruct (own_lookup_Some locs xs l Hlen Hl) as [n Hn].
  exists n. by apply lookup_union_Some_l.
Qed.

Lemma wp_load p n (Q : fifo_element A -> fstate A -> Prop) s :
  cells s !! p = Some n -> Q n s -> wp (load_element p) Q s.
Proof. intros H HQ. unfold wp, load_element. by rewrite H. Qed.
Lemma wp_free p n (Q : unit -> fstate A -> Prop) s :
  cells s !! p = Some n -> Q tt (s <| cells ::= delete p |>) -> wp (free_element p) Q s.
Proof. intros H HQ. apply wp_bind. eapply wp_load; [exact H|exact HQ]. Qed.
Lemma wp_store_next p n nx (Q : unit -> fstate A -> Prop) s :
  cells s !! p = Some n ->
  Q tt (s <| cells ::= <[p := mkElement (data n) nx]> |>) -> wp (store_next p nx) Q s.
Proof. intros H HQ. apply wp_bind. eapply wp_load; [exact H|exact HQ]. Qed.
Lemma wp_set_fifo f (Q : unit -> fstate A -> Prop) s :
  Q tt (s <| fifo ::= f |>) -> wp (set_fifo f) Q s.
Proof. done. Qed.
Lemma wp_malloc n (Q : positive -> fstate A -> Prop) s :
  Q (brk s) (s <| cells ::= <[brk s := n]> |> <| brk ::= Pos.succ |>) ->
  wp (malloc_element n) Q s.
Proof. done. Qed.

Lemma fifo_pop_refines rest s q :
  repr rest s q ->
  wp fifo_pop (fun r s' => r = (queue_pop q).1 /\ repr rest s' (queue_pop q).2) s.
Proof.
  intros [locs [Hlen Hnd Hcells Hdisj Hhd Htl Hsize Hmax Hbrk Hok]].
  unfold fifo_pop, queue_pop. apply wp_bind, wp_gets.
  pose proof (queue_pop_ok q Hok) as Hok'. unfold queue_pop in Hok'.
  destruct (q_items q) as [|x xs] eqn:Eq, locs as [|l locs]; try discriminate Hlen.
  - rewrite Hhd. apply wp_ret. split; [done|]. exists [].
    split; cbn [snd]; rewrite ?Eq; eauto.
  - injection Hlen as Hlen. apply NoDup_cons in Hnd as [Hl Hnd].
    assert (Hlive : cells s !! l = Some (mkElement x (list.head locs))).
    { rewrite Hcells. apply lookup_union_Some_l. apply lookup_insert_eq. }
    assert (Hn : queue_size q = 1 + zlen xs) by (unfold queue_size; by rewrite Eq, zlen_cons).
    pose proof (zlen_nonneg xs) as Hpos. destruct Hok as [Hu32 Hle].
    assert (exists t, tail (fifo s) = Some t) as [t Ht].
    { rewrite Htl, last_cons. destruct (list.last locs); eauto. }
    rewrite Hhd, Ht. cbn [list.head].
    ztest (0 <? size (fifo s)). apply wp_bind. eapply wp_load; [exact Hlive|].
    apply wp_bind, wp_set_fifo, wp_bind.
    eapply wp_mono with (Q := fun _ s' => fifo s' = mkFifo (size (fifo s))
      (max_size (fifo s)) (list.head locs) (list.last locs) /\
      cells s' = cells s /\ brk s' = brk s).
    { destruct xs as [|x2 xs], locs as [|l2 locs]; try discriminate Hlen.
      - rewrite zlen_nil in Hn. ztests. apply wp_set_fifo. done.
      - rewrite zlen_cons in *. pose proof (zlen_nonneg xs). ztests. apply wp_ret.
        split; [|done]. fields. unfold setf.
        cbn [next]. f_equal. rewrite Htl, !last_cons. by destruct (list.last locs). }
    intros _ s' (Hf & Hc & Hb).
    apply wp_bind. eapply wp_free; [rewrite Hc; exact Hlive|].
    apply wp_bind, wp_set_fifo, wp_ret. split; [done|]. exists locs.
    split; fields; rewrite ?Hf, ?Hc, ?Hb; try done.
    + rewrite Hcells. cbn. rewrite delete_union, delete_insert_id, (delete_id rest).
      * done.
      * apply Hdisj. left.
      * by apply own_lookup_None.
    + intros l' ?. apply Hdisj. by right.
    + rewrite Hsize, Hn. unfold is_u32 in Hu32. unfold queue_size. cbn.
      rewrite u32_small; unfold is_u32; lia.
    + intros l' ?. apply lookup_delete_None. right. by apply Hbrk.
Qed.

Lemma own_last locs : forall xs t y, length locs = length xs -> NoDup (locs ++ [t]) ->
  own (locs ++ [t]) (xs ++ [y]) !! t = Some (mkElement y None).
Proof.
  induction locs as [|l locs IH]; intros [|x xs] t y Hlen Hnd; try discriminate Hlen.
  - apply lookup_insert_eq.
  - cbn [app own]. injection Hlen as Hlen. apply NoDup_cons in Hnd as [Hl Hnd].
    rewrite lookup_insert_ne; [by apply IH|]. intros ->. apply Hl. set_solver.
Qed.

Lemma repr_fresh rest s q locs : repr_at rest s q locs ->
  forall l, (brk s <= l)%positive -> (l ∉ locs) /\ rest !! l = None.
Proof.
  intros Hr l Hl. pose proof (repr_brk _ _ _ _ Hr l Hl) as Hn.
  rewrite (repr_cells _ _ _ _ Hr) in Hn. split; [|by apply lookup_union_None in Hn as [_ ?]].
  intros Hin. destruct (own_union_live locs (q_items q) rest l) as [n Hn'];
    [apply Hr|done|congruence].
Qed.

(** Appending a fresh cell, in an empty and in a non-empty queue. *)
Definition linked (new : positive) (s s' : fstate A) : Prop :=
  size (fifo s') = size (fifo s) /\ max_size (fifo s') = max_size (fifo s) /\
  tail (fifo s') = Some new /\ brk s' = Pos.succ (brk s).

Lemma fifo_link_refines rest s q locs x :
  repr_at rest s q locs -> queue_size q < q_max q ->
  wp (new_entry ← malloc_element (mkElement x None);
      if size (fifo s) =? 0 then
        set_fifo (fun f => f <| head := Some new_entry |> <| tail := Some new_entry |>)
      else match tail (fifo s) with
           | Some t => _ ← store_next t (Some new_entry);
                       set_fifo (fun f => f <| tail := Some new_entry |>)
           | None => fail NullDeref
           end)
     (fun _ s' => linked (brk s) s s' /\
        cells s' = own (locs ++ [brk s]) (q_items q ++ [x]) ∪ rest /\
        head (fifo s') = list.head (locs ++ [brk s])) s.
Proof.
  intros Hr Hroom. pose proof Hr as [Hlen Hnd Hcells Hdisj Hhd Htl Hsize Hmax Hbrk Hok].
  pose proof (repr_fresh rest s q locs Hr _ (Pos.le_refl _)) as [Hfresh _].
  apply wp_bind, wp_malloc. unfold queue_size, linked in *.
  destruct (last_split2 locs (q_items q) Hlen) as [[-> Eq]|(ls & t & xs & y & -> & Eq & Hl)];
    rewrite Eq in *.
  - rewrite Hsize, zlen_nil. ztests. apply wp_set_fifo. fields.
    split; [done|]. split; [|done]. rewrite Hcells. cbn. by rewrite <- insert_union_l.
  - rewrite Hsize, zlen_app, zlen_cons, zlen_nil. pose proof (zlen_nonneg xs). ztests.
    rewrite Htl, last_snoc. apply wp_bind. 
    assert (Ht : t <> brk s) by (intros ->; apply Hfresh; set_solver).
    eapply wp_store_next.
    { fields. rewrite lookup_insert_ne by done. rewrite Hcells.
      apply lookup_union_Some_l. by apply own_last. }
    apply wp_set_fifo. fields. rewrite Hsize. split; [split;
      [by autorewrite with zlen|done]|]. split.
    + rewrite Hcells, <- !app_assoc. cbn [app data]. rewrite own_snoc; [|done|].
      * by rewrite !insert_union_l.
      * change [t; brk s] with ([t] ++ [brk s]). rewrite app_assoc.
        by apply NoDup_snoc.
    + rewrite Hhd. by destruct ls.
Qed.

Lemma fifo_push_refines rest s q x :
  repr rest s q ->
  wp (fifo_push x) (fun r s' => r = (queue_push q x).1 /\
    repr rest s' (queue_push q x).2) s.
Proof.
  intros [locs Hr]. pose proof Hr as [Hlen Hnd Hcells Hdisj Hhd Htl Hsize Hmax Hbrk Hok].
  unfold fifo_push. apply wp_bind, wp_gets.
  destruct x as [x|]; [|apply wp_ret; split; [done|by exists locs]].
  cbn [queue_push]. unfold queue_full. rewrite Hsize, Hmax.
  destruct (queue_size q =? q_max q) eqn:Efull; zbool.
  { apply wp_ret. split; [done|by exists locs]. }
  assert (queue_size q < q_max q) as Hroom by (destruct Hok; lia).
  pose proof (fifo_link_refines rest s q locs x Hr Hroom) as Hlink.
  rewrite Hsize in Hlink. apply wp_ok in Hlink as ([] & s1 & Hrun & Hl & Hc & Hh).
  destruct Hl as (Hs1 & Hm1 & Ht1 & Hb1).
  unfold wp, mbind, M_bind in Hrun |- *. cbn [malloc_element] in Hrun |- *.
  unfold malloc_element in Hrun |- *. rewrite Hrun. cbn. split; [done|].
  pose proof (repr_fresh rest s q locs Hr _ (Pos.le_refl _)) as [Hfresh _].
  exists (locs ++ [brk s]).
  split; fields; cbn [q_items q_max]; try done.
  - rewrite !length_app. cbn. lia.
  - by apply NoDup_snoc.
  - intros l [?|?%list_elem_of_singleton]%elem_of_app; [by apply Hdisj|subst].
    by apply (repr_fresh rest s q locs Hr).
  - rewrite Ht1. by rewrite last_snoc.
  - rewrite Hs1, Hsize. unfold queue_size in *. destruct Hok as [Hu _].
    cbn [q_items]. autorewrite with zlen. unfold is_u32 in Hu.
    pose proof (zlen_nonneg (q_items q)). rewrite u32_small; unfold is_u32; lia.
  - by rewrite Hm1.
  - rewrite Hb1, Hc. intros l ?.
    destruct (repr_fresh rest s q locs Hr l) as [? ?]; [lia|].
    apply lookup_union_None. split; [|done]. apply own_lookup_None.
    intros [Hin|Hin%list_elem_of_singleton]%elem_of_app; [done|lia].
  - pose proof (queue_push_ok q (Some x) Hok) as Hp. cbn [queue_push] in Hp.
    unfold queue_full in Hp. by replace (queue_size q =? q_max q) with false in Hp by
      (symmetry; by apply Z.eqb_neq).
Qed.

(** ** No client can tell the list from the queue *)

Inductive fifo_op := OpPush (x : option A) | OpPop | OpSize | OpFull.
Inductive fifo_out := OutBool (b : bool) | OutItem (x : option A) | OutSize (n : Z).

Definition fifo_step (o : fifo_op) : FM fifo_out :=
  match o with
  | OpPush x => b ← fifo_push x; mret (OutBool b)
  | OpPop => x ← fifo_pop; mret (OutItem x)
  | OpSize => n ← fifo_get_size; mret (OutSize n)
  | OpFull => b ← fifo_full; mret (OutBool b)
  end.
Fixpoint fifo_run (ops : list fifo_op) : FM (list fifo_out) :=
  match ops with
  | [] => mret []
  | o :: ops => r ← fifo_step o; rs ← fifo_run ops; mret (r :: rs)
  end.

Definition queue_step (o : fifo_op) (q : queue A) : fifo_out * queue A :=
  match o with
  | OpPush x => let '(b, q') := queue_push q x in (OutBool b, q')
  | OpPop => let '(x, q') := queue_pop q in (OutItem x, q')
  | OpSize => (OutSize (queue_size q), q)
  | OpFull => (OutBool (queue_full q), q)
  end.
Fixpoint queue_run (ops : list fifo_op) (q : queue A) : list fifo_out * queue A :=
  match ops with
  | [] => ([], q)
  | o :: ops => let '(r, q1) := queue_step o q in
                let '(rs, q2) := queue_run ops q1 in (r :: rs, q2)
  end.

Lemma fifo_step_refines rest s q o : repr rest s q ->
  wp (fifo_step o) (fun r s' => r = (queue_step o q).1 /\ repr rest s' (queue_step o q).2) s.
Proof.
  intros Hr. destruct o as [x| | |]; cbn [fifo_step queue_step].
  - eapply wp_seq; [by apply fifo_push_refines|]. intros r s' [-> ?].
    apply wp_ret. by destruct (queue_push q x).
  - eapply wp_seq; [by apply fifo_pop_refines|]. intros r s' [-> ?].
    apply wp_ret. by destruct (queue_pop q).
  - apply wp_bind, wp_gets, wp_ret. split; [|done]. destruct Hr as [locs Hr].
    cbn. f_equal. apply Hr.
  - apply wp_bind, wp_gets, wp_ret. split; [|done]. destruct Hr as [locs Hr].
    cbn. unfold queue_full. by rewrite (repr_size _ _ _ _ Hr), (repr_max _ _ _ _ Hr).
Qed.

Lemma fifo_run_refines rest ops : forall s q, repr rest s q ->
  wp (fifo_run ops) (fun r s' => r = (queue_run ops q).1 /\ repr rest s' (queue_run ops q).2) s.
Proof.
  induction ops as [|o ops IH]; intros s q Hr; cbn [fifo_run queue_run]; [by apply wp_ret|].
  eapply wp_seq; [by apply fifo_step_refines|]. intros r s' [-> Hr'].
  destruct (queue_step o q) as [r q1]. eapply wp_seq; [by apply IH|].
  intros rs s'' [-> Hr'']. apply wp_ret. cbn in *. by destruct (queue_run ops q1).
Qed.

Lemma fifo_init_repr rest b max : is_u32 max ->
  (forall l, (b <= l)%positive -> rest !! l = None) ->
  repr rest (mkFstate (fifo_init max) rest b) (queue_init max).
Proof.
  intros Hmax Hb. exists []. split; cbn; try done.
  - apply NoDup_nil_2.
  - by rewrite (left_id_L ∅ (∪)).
  - intros l Hl. by apply not_elem_of_nil in Hl.
  - by apply queue_init_ok.
Qed.

(** C40. A client that creates a queue and performs any sequence of pushes
    (of NULL too), pops and size and fullness tests observes the results of the
    abstract queue; no operation touches a dead cell, NULL or a cell of the
    rest of the heap. *)
Theorem fifo_refines_queue rest b max ops : is_u32 max ->
  (forall l, (b <= l)%positive -> rest !! l = None) ->
  wp (fifo_run ops) (fun outs s' =>
    outs = (queue_run ops (queue_init max)).1 /\
    forall l n, rest !! l = Some n -> cells s' !! l = Some n)
    (mkFstate (fifo_init max) rest b).
Proof.
  intros Hmax Hb. eapply wp_mono; [by apply fifo_run_refines, fifo_init_repr|].
  intros outs s' [-> [locs Hr]]. split; [done|]. intros l n Hn.
  rewrite (repr_cells _ _ _ _ Hr). apply lookup_union_Some_raw. right. split; [|done].
  apply own_lookup_None. intros Hl. by rewrite (repr_disj _ _ _ _ Hr) in Hn.
Qed.

(** ** [fifo_destroy] stops half way *)

Lemma own_size locs : forall xs, length locs = length xs -> NoDup locs ->
  base.size (own locs xs) = length locs.
Proof.
  induction locs as [|l locs IH]; intros [|x xs] Hlen Hnd; try discriminate Hlen; [done|].
  injection Hlen as Hlen. apply NoDup_cons in Hnd as [Hl Hnd]. cbn [own length].
  rewrite map_size_insert_None by (by apply own_lookup_None). by rewrite IH.
Qed.

Lemma repr_heap_size rest s q : repr rest s q ->
  Z.of_nat (base.size (cells s)) = queue_size q + Z.of_nat (base.size rest).
Proof.
  intros [locs Hr]. rewrite (repr_cells _ _ _ _ Hr), map_size_disj_union, own_size.
  - unfold queue_size, zlen. rewrite (repr_len _ _ _ _ Hr). lia.
  - apply Hr.
  - apply Hr.
  - apply map_disjoint_spec. intros l n n' Ho Hn.
    destruct (decide (l ∈ locs)) as [Hl|Hl].
    + by rewrite (repr_disj _ _ _ _ Hr) in Hn.
    + by rewrite own_lookup_None in Ho.
Qed.

Lemma fifo_destroy_loop_spec rest fuel : forall s q i, repr rest s q ->
  0 <= i <= 1 + queue_size q -> Z.max 0 (queue_size q - i) < Z.of_nat fuel ->
  wp (fifo_destroy_loop fuel i)
    (fun _ s' => exists q', repr rest s' q' /\ queue_size q' = (queue_size q + i) / 2) s.
Proof.
  induction fuel as [|fuel IH]; intros s q i Hr Hi Hfuel; cbn [fifo_destroy_loop].
  { lia. }
  assert (Hsz : size (fifo s) = queue_size q) by (destruct Hr as [locs Hr]; apply Hr).
  apply wp_bind, wp_gets. rewrite Hsz. case_if; zbool.
  - eapply wp_seq; [by apply fifo_pop_refines|]. intros r s' [_ Hr'].
    assert (queue_ok q) as [Hu Hle] by (destruct Hr as [locs Hr]; apply Hr).
    assert (queue_size (queue_pop q).2 = queue_size q - 1) as Hq.
    { revert Heqb. unfold queue_size, queue_pop. destruct (q_items q); cbn [snd q_items].
      - rewrite zlen_nil. lia.
      - rewrite zlen_cons. lia. }
    unfold is_u32 in Hu. rewrite u32_small by (unfold is_u32; lia).
    eapply wp_mono; [apply IH; [exact Hr'|lia..]|]. rewrite Hq.
    intros _ s'' (q' & ? & Hq'). exists q'. split; [done|]. rewrite Hq'. f_equal. lia.
  - apply wp_ret. exists q. split; [done|]. apply Z.div_unique with (queue_size q + i - 2 * queue_size q); lia.
Qed.

(** [fifo_destroy] sets the caller's pointer to NULL but compares the
    running index with the shrinking size: a queue of [n] elements leaves
    [n / 2] cells allocated, to which no pointer is left. *)
Theorem fifo_destroy_leaks_half rest s q : repr rest s q ->
  exists h, fifo_destroy (Some (fifo s)) (cells s) (brk s) = Ok (None, h) /\
    Z.of_nat (base.size h) = queue_size q / 2 + Z.of_nat (base.size rest).
Proof.
  intros Hr. unfold fifo_destroy.
  assert (Hsz : size (fifo s) = queue_size q) by (destruct Hr as [locs Hr]; apply Hr).
  assert (0 <= queue_size q) by apply zlen_nonneg. rewrite Hsz.
  replace (mkFstate (fifo s) (cells s) (brk s)) with s by (by destruct s).
  pose proof (fifo_destroy_loop_spec rest (S (Z.to_nat (queue_size q))) s q 0 Hr
    ltac:(lia) ltac:(lia)) as Hw.
  apply wp_ok in Hw as (u & s' & -> & q' & Hr' & Hq'). exists (cells s'). split; [done|].
  rewrite (repr_heap_size _ _ _ Hr'), Hq'. by rewrite Z.add_0_r.
Qed.
End Fifo.

(** The cell 1 belongs to somebody else; the queue lives at 2, 3, ... *)
Definition witness_rest : gmap positive (fifo_element Z) := {[1%positive := mkElement 7 None]}.

Lemma witness_rest_fresh l : (2 <= l)%positive -> witness_rest !! l = None.
Proof. intros H. apply lookup_singleton_ne. lia. Qed.

Lemma fifo_refines_queue_witness :
  is_u32 2 /\
  wp (fifo_run [OpPush (Some 5); OpPush None; OpPush (Some 6); OpFull; OpPush (Some 8); OpPop; OpSize])
    (fun outs s' => outs = [OutBool true; OutBool false; OutBool true; OutBool true; OutBool false;
                            OutItem (Some 5); OutSize 1] /\
      forall l n, witness_rest !! l = Some n -> cells s' !! l = Some n)
    (mkFstate (fifo_init 2) witness_rest 2).
Proof.
  assert (is_u32 2) as H2 by (unfold is_u32; lia).
  split; [exact H2|].
  exact (fifo_refines_queue witness_rest 2%positive 2
    [OpPush (Some 5); OpPush None; OpPush (Some 6); OpFull; OpPush (Some 8); OpPop; OpSize]
    H2 witness_rest_fresh).
Defined.

Definition witness_state : fstate Z :=
  match fifo_run [OpPush (Some 5); OpPush (Some 6); OpPush (Some 8)]
          (mkFstate (fifo_init 9) witness_rest 2%positive) with
  | Ok (_, s) => s
  | Fail _ => mkFstate (fifo_init 9) witness_rest 2%positive
  end.

Lemma witness_state_repr : repr witness_rest witness_state (mkQueue 9 [5; 6; 8]).
Proof.
  assert (H : wp (fifo_run [OpPush (Some 5); OpPush (Some 6); OpPush (Some 8)])
    (fun _ s' => repr witness_rest s' (mkQueue 9 [5; 6; 8]))
    (mkFstate (fifo_init 9) witness_rest 2%positive)).
  { eapply wp_mono; [apply fifo_run_refines, fifo_init_repr|].
    - unfold is_u32; lia.
    - apply witness_rest_fresh.
    - intros r s' [_ Hr]. exact Hr. }
  unfold witness_state. unfold wp in H. by destruct (fifo_run _ _) as [[? ?]|].
Qed.

Lemma fifo_destroy_leaks_half_witness :
  repr witness_rest witness_state (mkQueue 9 [5; 6; 8]) /\
  exists h, fifo_destroy (Some (fifo witness_state)) (cells witness_state) (brk witness_state)
            = Ok (None, h) /\ Z.of_nat (base.size h) = 1 + 1.
Proof.
  split; [exact witness_state_repr|].
  exact (fifo_destroy_leaks_half witness_rest witness_state _ witness_state_repr).
Defined.
