(* ===== verification/Md4.v ===== *)
(** * MD4 (src/c/util/rastamd4.c, rastamd4.h)

    The context, the block transformation with its 48 unrolled steps, the
    streaming interface (Init, Update, Final) and the two entry points the
    safety code uses.  The transformation is proved equal to the table-driven
    definition of RFC 1320, and the streaming interface to hashing the
    concatenation of the pieces. *)

From stdpp Require Import base numbers list.
From Stdlib Require Import ZArith Lia.
From S2P Require Import Prelude.

Local Open Scope Z_scope.
Local Open Scope record_scope.

(** ** The block transformation *)

(* rastamd4.c F *)
Definition F (x y z : Z) : Z := Z.lxor z (Z.land x (Z.lxor y z)).
(* rastamd4.c G *)
Definition G (x y z : Z) : Z := Z.lor (Z.land x (Z.lor y z)) (Z.land y z).
(* rastamd4.c H *)
Definition H (x y z : Z) : Z := Z.lxor (Z.lxor x y) z.

(** [STEP] assigns its first register. *)
(* rastamd4.c STEP *)
Definition STEP (f : Z -> Z -> Z -> Z) (a b c d x s : Z) : Z :=
  let a := u32 (a + u32 (f b c d + x)) in
  Z.lor (u32 (Z.shiftl a s)) (Z.shiftr (Z.land a 0xffffffff) (32 - s)).

(** The 32-bit load of the x86 branch. *)
(* rastamd4.c:21-25 SET *)
Definition GET (ptr : list Z) (n : nat) : Z := le_dec (take 4 (drop (n * 4) ptr)).

Definition regs : Type := Z * Z * Z * Z.

(* rastamd4.c:60-76 body *)
Definition round1 (ptr : list Z) (r : regs) : regs :=
  let '(a, b, c, d) := r in
  let a := STEP F a b c d (GET ptr 0) 3 in
  let d := STEP F d a b c (GET ptr 1) 7 in
  let c := STEP F c d a b (GET ptr 2) 11 in
  let b := STEP F b c d a (GET ptr 3) 19 in
  let a := STEP F a b c d (GET ptr 4) 3 in
  let d := STEP F d a b c (GET ptr 5) 7 in
  let c := STEP F c d a b (GET ptr 6) 11 in
  let b := STEP F b c d a (GET ptr 7) 19 in
  let a := STEP F a b c d (GET ptr 8) 3 in
  let d := STEP F d a b c (GET ptr 9) 7 in
  let c := STEP F c d a b (GET ptr 10) 11 in
  let b := STEP F b c d a (GET ptr 11) 19 in
  let a := STEP F a b c d (GET ptr 12) 3 in
  let d := STEP F d a b c (GET ptr 13) 7 in
  let c := STEP F c d a b (GET ptr 14) 11 in
  let b := STEP F b c d a (GET ptr 15) 19 in
  (a, b, c, d).

Definition ac1 : Z := 0x5a827999.
Definition ac2 : Z := 0x6ed9eba1.

(* rastamd4.c:78-94 body *)
Definition round2 (ptr : list Z) (r : regs) : regs :=
  let '(a, b, c, d) := r in
  let a := STEP G a b c d (u32 (GET ptr 0 + ac1)) 3 in
  let d := STEP G d a b c (u32 (GET ptr 4 + ac1)) 5 in
  let c := STEP G c d a b (u32 (GET ptr 8 + ac1)) 9 in
  let b := STEP G b c d a (u32 (GET ptr 12 + ac1)) 13 in
  let a := STEP G a b c d (u32 (GET ptr 1 + ac1)) 3 in
  let d := STEP G d a b c (u32 (GET ptr 5 + ac1)) 5 in
  let c := STEP G c d a b (u32 (GET ptr 9 + ac1)) 9 in
  let b := STEP G b c d a (u32 (GET ptr 13 + ac1)) 13 in
  let a := STEP G a b c d (u32 (GET ptr 2 + ac1)) 3 in
  let d := STEP G d a b c (u32 (GET ptr 6 + ac1)) 5 in
  let c := STEP G c d a b (u32 (GET ptr 10 + ac1)) 9 in
  let b := STEP G b c d a (u32 (GET ptr 14 + ac1)) 13 in
  let a := STEP G a b c d (u32 (GET ptr 3 + ac1)) 3 in
  let d := STEP G d a b c (u32 (GET ptr 7 + ac1)) 5 in
  let c := STEP G c d a b (u32 (GET ptr 11 + ac1)) 9 in
  let b := STEP G b c d a (u32 (GET ptr 15 + ac1)) 13 in
  (a, b, c, d).

(* rastamd4.c:96-112 body *)
Definition round3 (ptr : list Z) (r : regs) : regs :=
  let '(a, b, c, d) := r in
  let a := STEP H a b c d (u32 (GET ptr 0 + ac2)) 3 in
  let d := STEP H d a b c (u32 (GET ptr 8 + ac2)) 9 in
  let c := STEP H c d a b (u32 (GET ptr 4 + ac2)) 11 in
  let b := STEP H b c d a (u32 (GET ptr 12 + ac2)) 15 in
  let a := STEP H a b c d (u32 (GET ptr 2 + ac2)) 3 in
  let d := STEP H d a b c (u32 (GET ptr 10 + ac2)) 9 in
  let c := STEP H c d a b (u32 (GET ptr 6 + ac2)) 11 in
  let b := STEP H b c d a (u32 (GET ptr 14 + ac2)) 15 in
  let a := STEP H a b c d (u32 (GET ptr 1 + ac2)) 3 in
  let d := STEP H d a b c (u32 (GET ptr 9 + ac2)) 9 in
  let c := STEP H c d a b (u32 (GET ptr 5 + ac2)) 11 in
  let b := STEP H b c d a (u32 (GET ptr 13 + ac2)) 15 in
  let a := STEP H a b c d (u32 (GET ptr 3 + ac2)) 3 in
  let d := STEP H d a b c (u32 (GET ptr 11 + ac2)) 9 in
  let c := STEP H c d a b (u32 (GET ptr 7 + ac2)) 11 in
  let b := STEP H b c d a (u32 (GET ptr 15 + ac2)) 15 in
  (a, b, c, d).

(** One iteration of the loop of [body]. *)
(* rastamd4.c:55-119 body *)
Definition compress (r : regs) (ptr : list Z) : regs :=
  let '(saved_a, saved_b, saved_c, saved_d) := r in
  let '(a, b, c, d) := round3 ptr (round2 ptr (round1 ptr r)) in
  (u32 (a + saved_a), u32 (b + saved_b), u32 (c + saved_c), u32 (d + saved_d)).

(** [do { ... } while (size -= 64)] on the bytes left at [ptr]; the fuel is an
    upper bound of the blocks in [ptr], beyond which a read would fault. *)
(* rastamd4.c:54-120 body *)
Fixpoint body_loop (fuel : nat) (r : regs) (ptr : list Z) (size : Z) : res (regs * list Z) :=
  match fuel with
  | O => Fail OutOfFuel
  | S fuel =>
      blk ← read_at ptr 0 64;
      let r := compress r blk in
      let ptr := drop 64 ptr in
      let size := u64 (size - 64) in
      if size =? 0 then Ok (r, ptr) else body_loop fuel r ptr size
  end.

(* rastamd4.h MD4_CTX_RASTA *)
Record MD4_CTX_RASTA := mkMD4 {
  lo : Z; hi : Z;
  abcd : regs;
  buffer : list Z
}.
#[export] Instance eta_md4 : Eta MD4_CTX_RASTA := fun r => mkMD4 (lo r) (hi r) (abcd r) (buffer r).

(* rastamd4.c body *)
Definition body (ctx : MD4_CTX_RASTA) (data : list Z) (size : Z) : res (MD4_CTX_RASTA * list Z) :=
  '(r, rest) ← body_loop (S (length data)) (abcd ctx) data size;
  mret (ctx <| abcd := r |>, rest).

(** ** Init, Update, Final *)

Definition MD4_IV : regs := (0x67452301, 0xefcdab89, 0x98badcfe, 0x10325476).

(* rastamd4.c MD4_Init_Rasta *)
Definition MD4_Init_Rasta (ctx : MD4_CTX_RASTA) : MD4_CTX_RASTA :=
  ctx <| abcd := MD4_IV |> <| lo := 0 |> <| hi := 0 |>.

(** The second half of [MD4_Update_Rasta]: the buffer is empty. *)
(* rastamd4.c:165-170 MD4_Update_Rasta *)
Definition update_blocks (ctx : MD4_CTX_RASTA) (data : list Z) (size : Z) : res MD4_CTX_RASTA :=
  '(ctx, data, size) ←
    (if 64 <=? size then
       '(ctx, data) ← body ctx data (Z.ldiff size 0x3f);
       mret (ctx, data, Z.land size 0x3f)
     else mret (ctx, data, size));
  d ← read_at data 0 size;
  b ← write_at (buffer ctx) 0 d;
  mret (ctx <| buffer := b |>).

(** The byte count, kept as 29 + 32 bits. *)
(* rastamd4.c:144-147 MD4_Update_Rasta *)
Definition update_count (ctx : MD4_CTX_RASTA) (size : Z) : MD4_CTX_RASTA :=
  let saved_lo := lo ctx in
  let ctx := ctx <| lo := Z.land (u64 (saved_lo + size)) 0x1fffffff |> in
  let ctx := if lo ctx <? saved_lo then ctx <| hi ::= fun h => u32 (h + 1) |> else ctx in
  ctx <| hi ::= fun h => u32 (h + Z.shiftr size 29) |>.

(* rastamd4.c MD4_Update_Rasta *)
Definition MD4_Update_Rasta (ctx : MD4_CTX_RASTA) (data : list Z) (size : Z) : res MD4_CTX_RASTA :=
  let saved_lo := lo ctx in
  let ctx := update_count ctx size in
  let used := Z.land saved_lo 0x3f in
  let available := 64 - used in
  if (negb (used =? 0)) && (size <? available) then
    d ← read_at data 0 size;
    b ← write_at (buffer ctx) used d;
    mret (ctx <| buffer := b |>)
  else
    '(ctx, data, size) ←
      (if negb (used =? 0) then
         d ← read_at data 0 available;
         b ← write_at (buffer ctx) used d;
         '(ctx, _) ← body (ctx <| buffer := b |>) b 64;
         mret (ctx, drop (Z.to_nat available) data, size - available)
       else mret (ctx, data, size));
    update_blocks ctx data size.

Definition out_regs (r : regs) : list Z :=
  let '(a, b, c, d) := r in le_enc 4 a ++ le_enc 4 b ++ le_enc 4 c ++ le_enc 4 d.

(* rastamd4.c MD4_Final_Rasta *)
Definition MD4_Final_Rasta (ctx : MD4_CTX_RASTA) : res (list Z * MD4_CTX_RASTA) :=
  let used := Z.land (lo ctx) 0x3f in
  b ← write_at (buffer ctx) used [0x80];
  let used := used + 1 in
  let available := 64 - used in
  '(ctx, used, available) ←
    (if available <? 8 then
       b ← write_at b used (zeros available);
       '(ctx, _) ← body (ctx <| buffer := b |>) b 64;
       mret (ctx, 0, 64)
     else mret (ctx <| buffer := b |>, used, available));
  b ← write_at (buffer ctx) used (zeros (available - 8));
  let ctx := ctx <| lo ::= fun l => u32 (Z.shiftl l 3) |> in
  b ← write_at b 56 (le_enc 4 (lo ctx));
  b ← write_at b 60 (le_enc 4 (hi ctx));
  '(ctx, _) ← body ctx b 64;
  mret (out_regs (abcd ctx), mkMD4 0 0 (0, 0, 0, 0) (zeros 64)).

(** The buffer of a fresh context is indeterminate in C; the model starts it
    with zeros, and [MD4_Final_Rasta_correct] holds for any contents. *)
(* rastamd4.c md4InitContext *)
Definition md4InitContext (a b c d : Z) : MD4_CTX_RASTA := mkMD4 0 0 (a, b, c, d) (zeros 64).

(** [result] is the caller's buffer.  The array [MD4code] has only 8 elements
    unless [type] is 2, and [MD4_Final_Rasta] stores 16 bytes in it; gcc rounds
    the array up to 16 bytes of stack, which is what is modelled. *)
(* rastamd4.c generateMD4WithVector *)
Definition generateMD4WithVector (data : list Z) (length : Z) (type : Z)
    (context : MD4_CTX_RASTA) (result : list Z) : res (list Z * MD4_CTX_RASTA) :=
  context ← MD4_Update_Rasta context data (u64 length);
  '(MD4code, context) ← MD4_Final_Rasta context;
  result ←
    (if type =? 0 then write_at result 0 (zeros 8)
     else if type =? 1 then write_at result 0 (take 8 MD4code)
     else if type =? 2 then write_at result 0 MD4code
     else mret result);
  mret (result, context).

(* rastamd4.c generateMD4 *)
Definition generateMD4 (data : list Z) (length : Z) (type : Z) (result : list Z) : res (list Z) :=
  '(result, _) ← generateMD4WithVector data length type
                   (MD4_Init_Rasta (mkMD4 0 0 (0, 0, 0, 0) (zeros 64))) result;
  mret result.

(** ** RFC 1320

    The reference: the auxiliary functions as the RFC gives them, and each
    round as a table of (word, shift) pairs driving one rotating step. *)

Definition rfc_F (x y z : Z) : Z := Z.lor (Z.land x y) (Z.land (Z.lnot x) z).
Definition rfc_G (x y z : Z) : Z := Z.lor (Z.lor (Z.land x y) (Z.land x z)) (Z.land y z).
Definition rfc_H (x y z : Z) : Z := Z.lxor x (Z.lxor y z).
Definition rotl32 (x s : Z) : Z := Z.lor (u32 (Z.shiftl x s)) (Z.shiftr x (32 - s)).

Definition rfc_step (f : Z -> Z -> Z -> Z) (ac : Z) (blk : list Z) (r : regs) (ks : nat * Z) : regs :=
  let '(a, b, c, d) := r in
  (d, rotl32 (u32 (a + f b c d + GET blk ks.1 + ac)) ks.2, b, c).

Definition rfc_round f ac (ks : list nat) (ss : list Z) (blk : list Z) (r : regs) : regs :=
  foldl (rfc_step f ac blk) r (zip ks (ss ++ ss ++ ss ++ ss)).

Definition rfc_compress (r : regs) (blk : list Z) : regs :=
  let r1 := rfc_round rfc_F 0 (seq 0 16) [3; 7; 11; 19] blk r in
  let r2 := rfc_round rfc_G 0x5a827999 [0; 4; 8; 12; 1; 5; 9; 13; 2; 6; 10; 14; 3; 7; 11; 15]%nat
              [3; 5; 9; 13] blk r1 in
  let r3 := rfc_round rfc_H 0x6ed9eba1 [0; 8; 4; 12; 2; 10; 6; 14; 1; 9; 5; 13; 3; 11; 7; 15]%nat
              [3; 9; 11; 15] blk r2 in
  let '(a, b, c, d) := r3 in
  let '(a0, b0, c0, d0) := r in
  (u32 (a + a0), u32 (b + b0), u32 (c + c0), u32 (d + d0)).

Lemma F_rfc x y z : F x y z = rfc_F x y z.
Proof.
  unfold F, rfc_F. apply Z.bits_inj'. intros n Hn.
  rewrite Z.lxor_spec, Z.lor_spec, !Z.land_spec, Z.lxor_spec, Z.lnot_spec by done.
  by destruct (Z.testbit x n), (Z.testbit y n), (Z.testbit z n).
Qed.
Lemma G_rfc x y z : G x y z = rfc_G x y z.
Proof.
  unfold G, rfc_G. apply Z.bits_inj'. intros n Hn.
  rewrite !Z.lor_spec, !Z.land_spec, !Z.lor_spec.
  by destruct (Z.testbit x n), (Z.testbit y n), (Z.testbit z n).
Qed.
Lemma H_rfc x y z : H x y z = rfc_H x y z.
Proof. apply Z.lxor_assoc. Qed.

Lemma land_u32 x : Z.land (u32 x) 0xffffffff = u32 x.
Proof.
  change 0xffffffff with (Z.ones 32). rewrite Z.land_ones by lia.
  change (2 ^ 32) with 4294967296. mlia.
Qed.

Lemma STEP_rfc f g ac blk a b c d k s :
  (forall x y z, f x y z = g x y z) ->
  rfc_step g ac blk (a, b, c, d) (k, s) = (d, STEP f a b c d (u32 (GET blk k + ac)) s, b, c).
Proof.
  intros Hfg. unfold rfc_step, STEP, rotl32. rewrite land_u32. cbn [fst snd].
  autorewrite with wrap. rewrite Hfg.
  replace (u32 (a + (g b c d + u32 (GET blk k + ac)))) with (u32 (a + g b c d + GET blk k + ac));
    [done|].
  by rewrite Z.add_assoc, u32_add_u32_r, !Z.add_assoc.
Qed.

Lemma STEP_u32 f a b c d x s : STEP f a b c d (u32 x) s = STEP f a b c d x s.
Proof. unfold STEP. by rewrite (u32_add_u32_r (f b c d)). Qed.

Lemma STEP_rfc0 f g blk a b c d k s :
  (forall x y z, f x y z = g x y z) ->
  rfc_step g 0 blk (a, b, c, d) (k, s) = (d, STEP f a b c d (GET blk k) s, b, c).
Proof. intros Hfg. by rewrite (STEP_rfc f), STEP_u32, Z.add_0_r. Qed.

(** One unrolled assignment against one entry of the table. *)
Ltac md4_step lem :=
  lazymatch goal with
  | |- (let x := ?v in @?b x) = _ =>
      let n := fresh "r" in let Hn := fresh "E" in
      remember v as n eqn:Hn in |- *;
      lazymatch goal with
      | |- (let x := _ in @?b' x) = ?R =>
          let t := eval cbv beta in (b' n) in change (t = R)
      end;
      rewrite lem, <- Hn; clear Hn
  end.

Lemma STEP_F blk a b c d k s :
  rfc_step rfc_F 0 blk (a, b, c, d) (k, s) = (d, STEP F a b c d (GET blk k) s, b, c).
Proof. apply STEP_rfc0, F_rfc. Qed.
Lemma STEP_G blk a b c d k s :
  rfc_step rfc_G ac1 blk (a, b, c, d) (k, s) = (d, STEP G a b c d (u32 (GET blk k + ac1)) s, b, c).
Proof. apply STEP_rfc, G_rfc. Qed.
Lemma STEP_H blk a b c d k s :
  rfc_step rfc_H ac2 blk (a, b, c, d) (k, s) = (d, STEP H a b c d (u32 (GET blk k + ac2)) s, b, c).
Proof. apply STEP_rfc, H_rfc. Qed.

Ltac md4_round r lem :=
  destruct r as [[[a b] c] d];
  lazy beta match fix delta [round1 round2 round3 rfc_round app zip zip_with seq foldl];
  do 16 md4_step lem; done.

Lemma round1_rfc blk r :
  round1 blk r = rfc_round rfc_F 0 (seq 0 16) [3; 7; 11; 19] blk r.
Proof. md4_round r STEP_F. Qed.
Lemma round2_rfc blk r :
  round2 blk r = rfc_round rfc_G ac1
    [0; 4; 8; 12; 1; 5; 9; 13; 2; 6; 10; 14; 3; 7; 11; 15]%nat [3; 5; 9; 13] blk r.
Proof. md4_round r STEP_G. Qed.
Lemma round3_rfc blk r :
  round3 blk r = rfc_round rfc_H ac2
    [0; 8; 4; 12; 2; 10; 6; 14; 1; 9; 5; 13; 3; 11; 7; 15]%nat [3; 9; 11; 15] blk r.
Proof. md4_round r STEP_H. Qed.

Lemma compress_rfc r blk : compress r blk = rfc_compress r blk.
Proof.
  unfold compress, rfc_compress. destruct r as [[[a0 b0] c0] d0].
  rewrite round1_rfc, round2_rfc, round3_rfc. done.
Qed.

(** ** Streaming

    [md4_rep iv msg ctx]: the context has absorbed [msg] since it was started
    with the chaining value [iv]. *)

Fixpoint absorb (n : nat) (r : regs) (msg : list Z) : regs :=
  match n with
  | O => r
  | S n => absorb n (compress r (take 64 msg)) (drop 64 msg)
  end.

Definition md4_data (iv : regs) (msg : list Z) (r : regs) (buf : list Z) : Prop :=
  exists q full tail junk,
    msg = full ++ tail /\ length full = (64 * q)%nat /\ (length tail < 64)%nat /\
    r = absorb q iv full /\ buf = tail ++ junk /\ (length tail + length junk = 64)%nat.

Record md4_rep (iv : regs) (msg : list Z) (ctx : MD4_CTX_RASTA) : Prop := {
  rep_data : md4_data iv msg (abcd ctx) (buffer ctx);
  rep_lo : lo ctx = zlen msg mod 2 ^ 29;
  rep_hi : hi ctx = (zlen msg / 2 ^ 29) mod 2 ^ 32
}.

Lemma absorb_app n : forall m r l, (64 * n <= length l)%nat ->
  absorb (n + m) r l = absorb m (absorb n r l) (drop (64 * n) l).
Proof.
  induction n as [|n IH]; intros m r l Hl; [done|].
  cbn [Nat.add absorb]. rewrite IH by (rewrite length_drop; lia).
  rewrite drop_drop. do 2 f_equal. lia.
Qed.

Lemma absorb_prefix n : forall r l x, (64 * n <= length l)%nat ->
  absorb n r (l ++ x) = absorb n r l.
Proof.
  induction n as [|n IH]; intros r l x Hl; [done|]. cbn [absorb].
  rewrite take_app_le, drop_app_le by lia. apply IH. rewrite length_drop. lia.
Qed.

Lemma absorb_snoc n m r full l : length full = (64 * n)%nat -> (64 * m <= length l)%nat ->
  absorb (n + m) r (full ++ l) = absorb m (absorb n r full) l.
Proof.
  intros Hf Hl. rewrite absorb_app by (rewrite length_app; lia).
  by rewrite absorb_prefix, <- Hf, drop_app_length by lia.
Qed.

Lemma body_loop_ok n : forall fuel r ptr,
  (n < fuel)%nat -> (64 * S n <= length ptr)%nat -> 64 * Z.of_nat (S n) < 2 ^ 64 ->
  body_loop fuel r ptr (64 * Z.of_nat (S n)) = Ok (absorb (S n) r ptr, drop (64 * S n) ptr).
Proof.
  induction n as [|n IH]; intros [|fuel] r ptr Hfuel Hlen Hsize; try lia;
    cbn [body_loop]; rewrite read_at_ok by (unfold zlen; lia); mcbn;
    change (Z.to_nat 64) with 64%nat; change (Z.to_nat 0) with 0%nat; rewrite drop_0.
  - done.
  - replace (u64 (64 * Z.of_nat (S (S n)) - 64)) with (64 * Z.of_nat (S n))
      by (rewrite u64_small; unfold is_u64; lia).
    ztests. rewrite IH by (rewrite ?length_drop; lia). rewrite drop_drop.
    do 3 f_equal. lia.
Qed.

Lemma body_ok ctx data n : (64 * S n <= length data)%nat -> 64 * Z.of_nat (S n) < 2 ^ 64 ->
  body ctx data (64 * Z.of_nat (S n)) =
  Ok (ctx <| abcd := absorb (S n) (abcd ctx) data |>, drop (64 * S n) data).
Proof. intros Hl Hn. unfold body. rewrite body_loop_ok by lia. done. Qed.

Lemma land_63 x : Z.land x 0x3f = x mod 64.
Proof. change 0x3f with (Z.ones 6). by rewrite Z.land_ones by lia. Qed.
Lemma ldiff_63 x : Z.ldiff x 0x3f = 64 * (x / 64).
Proof.
  change 0x3f with (Z.ones 6). rewrite Z.ldiff_ones_r by lia.
  rewrite Z.shiftl_mul_pow2, Z.shiftr_div_pow2 by lia. change (2 ^ 6) with 64. lia.
Qed.

Lemma update_blocks_ok iv full q ctx d :
  length full = (64 * q)%nat -> abcd ctx = absorb q iv full ->
  length (buffer ctx) = 64%nat -> zlen d < 2 ^ 64 ->
  exists r buf, update_blocks ctx d (zlen d) = Ok (ctx <| abcd := r |> <| buffer := buf |>) /\
    md4_data iv (full ++ d) r buf.
Proof.
  intros Hf Hr Hb Hd. unfold update_blocks.
  set (n := (length d / 64)%nat).
  assert (Hdiv : (length d = 64 * n + length d mod 64)%nat) by apply Nat.div_mod_eq.
  assert (Hmod : (length d mod 64 < 64)%nat) by (apply Nat.mod_upper_bound; lia).
  assert (Hn : zlen d / 64 = Z.of_nat n) by (unfold zlen, n; by rewrite Nat2Z.inj_div).
  rewrite ldiff_63, land_63, Hn.
  assert (Htl : forall c : MD4_CTX_RASTA, length (buffer c) = 64%nat ->
    write_at (buffer c) 0 (drop (64 * n) d) =
    Ok (drop (64 * n) d ++ drop (length (drop (64 * n) d)) (buffer c))).
  { intros c Hc. apply (write_junk []). rewrite length_drop. lia. }
  destruct n as [|n].
  - assert (zlen d < 64) by (unfold zlen; lia). ztests. mcbn.
    rewrite read_all. mcbn.
    specialize (Htl ctx Hb). rewrite drop_0 in Htl. rewrite Htl.
    eexists (abcd ctx), _. split; [by destruct ctx|].
    exists q, full, d, (drop (length d) (buffer ctx)). rewrite length_drop.
    repeat split; [done| |done|lia]. unfold zlen in *. lia.
  - assert (64 <= zlen d) by (unfold zlen; lia). ztests.
    rewrite body_ok by (unfold zlen in *; lia). mcbn.
    assert (Hsz : zlen d mod 64 = zlen (drop (64 * S n) d)).
    { unfold zlen. rewrite length_drop. rewrite Hdiv at 1.
      rewrite Nat2Z.inj_add, Nat2Z.inj_mul, Z.mul_comm, Z.add_comm, Z_mod_plus_full.
      rewrite Z.mod_small; lia. }
    rewrite Hsz, read_all. mcbn. rewrite Htl by done. mcbn.
    eexists _, _. split; [done|].
    exists (q + S n)%nat, (full ++ take (64 * S n) d), (drop (64 * S n) d), (drop (length (drop (64 * S n) d)) (buffer ctx)).
    rewrite !length_app, !length_drop, length_take, <- app_assoc, take_drop.
    repeat split; [lia|lia| |lia].
    rewrite absorb_snoc by (rewrite ?length_take; lia). rewrite <- Hr.
    rewrite <- (absorb_prefix (S n) _ (take (64 * S n) d) (drop (64 * S n) d)) by (rewrite length_take; lia).
    by rewrite take_drop.
Qed.

Lemma update_count_ok iv msg ctx size :
  md4_rep iv msg ctx -> 0 <= size ->
  abcd (update_count ctx size) = abcd ctx /\ buffer (update_count ctx size) = buffer ctx /\
  lo (update_count ctx size) = (zlen msg + size) mod 2 ^ 29 /\
  hi (update_count ctx size) = ((zlen msg + size) / 2 ^ 29) mod 2 ^ 32.
Proof.
  intros [_ Hlo Hhi] Hs. pose proof (zlen_nonneg msg) as Hm. unfold update_count. fields.
  change 0x1fffffff with (Z.ones 29). rewrite Z.land_ones, Z.shiftr_div_pow2 by lia.
  replace (u64 (lo ctx + size) mod 2 ^ 29) with ((lo ctx + size) mod 2 ^ 29) by (unfold u64; mlia).
  rewrite Hlo, Z.add_mod_idemp_l by lia.
  case_if; zbool; fields; (split; [done|split; [done|split; [done|]]]); rewrite Hhi; unfold u32;
    Z.to_euclidean_division_equations; lia.
Qed.

Lemma rep_used iv msg ctx full tail q :
  md4_rep iv msg ctx -> msg = full ++ tail -> length full = (64 * q)%nat -> (length tail < 64)%nat ->
  Z.land (lo ctx) 0x3f = zlen tail.
Proof.
  intros [_ Hlo _] -> Hf Ht. rewrite land_63, Hlo, zlen_app. unfold zlen. rewrite Hf.
  Z.to_euclidean_division_equations; lia.
Qed.

Lemma md4_rep_intro iv msg d ctx r buf :
  md4_rep iv msg ctx -> md4_data iv (msg ++ d) r buf ->
  md4_rep iv (msg ++ d) ((update_count ctx (zlen d)) <| abcd := r |> <| buffer := buf |>).
Proof.
  intros Hrep Hd. destruct (update_count_ok iv msg ctx (zlen d) Hrep (zlen_nonneg d)) as (_ & _ & Hl & Hh).
  split; fields; [done| |]; by rewrite zlen_app.
Qed.

(** Buffering less than a block. *)
Lemma update_short iv full tail junk q d :
  length full = (64 * q)%nat -> (length tail + length junk = 64)%nat ->
  zlen d < 64 - zlen tail ->
  write_at (tail ++ junk) (zlen tail) d = Ok ((tail ++ d) ++ drop (length d) junk) /\
  md4_data iv ((full ++ tail) ++ d) (absorb q iv full) ((tail ++ d) ++ drop (length d) junk).
Proof.
  unfold zlen. intros Hf Hj Hd. split; [apply write_junk; lia|].
  exists q, full, (tail ++ d), (drop (length d) junk).
  rewrite !length_app, length_drop, <- app_assoc. repeat split; [done|lia|lia].
Qed.

(** Filling the buffer up and absorbing it. *)
Lemma update_fill iv full tail junk q ctx d :
  length full = (64 * q)%nat -> (length tail + length junk = 64)%nat ->
  abcd ctx = absorb q iv full -> buffer ctx = tail ++ junk -> (length junk <= length d)%nat ->
  write_at (buffer ctx) (zlen tail) (take (length junk) d) = Ok (tail ++ take (length junk) d) /\
  body (ctx <| buffer := tail ++ take (length junk) d |>) (tail ++ take (length junk) d) 64 =
  Ok (ctx <| buffer := tail ++ take (length junk) d |>
          <| abcd := absorb (q + 1) iv (full ++ (tail ++ take (length junk) d)) |>, []).
Proof.
  intros Hf Hj Hr Hb Hd.
  assert (Ht : length (take (length junk) d) = length junk) by (rewrite length_take; lia).
  split.
  - rewrite Hb, write_junk by lia. by rewrite Ht, drop_all, app_nil_r.
  - change 64 with (64 * Z.of_nat 1). rewrite body_ok by (rewrite ?length_app, ?Ht; lia).
    rewrite drop_ge by (rewrite length_app, Ht; lia). fields.
    rewrite absorb_snoc, Hr by (rewrite ?length_app, ?Ht; lia). done.
Qed.

Lemma MD4_Update_rep iv msg ctx d : md4_rep iv msg ctx -> zlen d < 2 ^ 64 ->
  exists ctx', MD4_Update_Rasta ctx d (zlen d) = Ok ctx' /\ md4_rep iv (msg ++ d) ctx'.
Proof.
  intros Hrep Hd. pose proof (rep_data _ _ _ Hrep) as (q & full & tail & junk & Hm & Hf & Ht & Hr & Hb & Hj).
  destruct (update_count_ok iv msg ctx (zlen d) Hrep (zlen_nonneg d)) as (Hr' & Hb' & _).
  unfold MD4_Update_Rasta. rewrite (rep_used iv msg ctx full tail q) by done.
  pose proof (fun r buf => md4_rep_intro iv msg d ctx r buf Hrep) as Hintro.
  remember (update_count ctx (zlen d)) as c eqn:Hc. rewrite Hr in Hr'. rewrite Hb in Hb'. clear Hc.
  case_if; zbool.
  - destruct (update_short iv full tail junk q d Hf Hj) as [Hw Hdata]; [done|].
    rewrite read_all. mcbn. rewrite Hb', Hw. mcbn. eexists; split; [done|]. subst msg.
    replace c with (c <| abcd := absorb q iv full |>) by (rewrite <- Hr'; by destruct c).
    apply Hintro, Hdata.
  - destruct (zlen tail =? 0) eqn:E0; cbn [negb] in *; zbool; mcbn.
    + assert (tail = []) as -> by (destruct tail; [done|rewrite zlen_cons in E0; pose proof (zlen_nonneg tail); lia]).
      rewrite app_nil_r in Hm. subst msg.
      destruct (update_blocks_ok iv full q c d) as (r & buf & -> & Hdata); [done|done| |done|].
      { rewrite Hb', length_app. lia. }
      eexists; split; [done|]. by apply Hintro.
    + assert (Hge : (length junk <= length d)%nat).
      { destruct (zlen d <? 64 - zlen tail) eqn:E; [done|]. zbool. unfold zlen in *. lia. }
      assert (H64 : 64 - zlen tail = Z.of_nat (length junk)) by (unfold zlen; lia).
      rewrite H64, read_at_ok by (unfold zlen; lia). rewrite !Nat2Z.id, drop_0. mcbn.
      destruct (update_fill iv full tail junk q c d) as [Hw Hbody]; [done..|].
      rewrite Hw. mcbn. rewrite Hbody. mcbn.
      replace (zlen d - Z.of_nat (length junk)) with (zlen (drop (length junk) d))
        by (unfold zlen; rewrite length_drop; lia).
      edestruct (update_blocks_ok iv (full ++ (tail ++ take (length junk) d)) (q + 1))
        as (r & buf & Hu & Hdata).
      5:{ rewrite Hu. eexists; split; [done|]. 
          rewrite <- !app_assoc, take_drop, app_assoc, <- Hm in Hdata. 
          specialize (Hintro r buf Hdata). by destruct c. }
      * rewrite !length_app, length_take. lia.
      * done.
      * fields. rewrite !length_app, length_take. lia.
      * unfold zlen in *. rewrite length_drop. lia.
Qed.

(** ** MD4 of RFC 1320 *)

Fixpoint rfc_absorb (n : nat) (r : regs) (msg : list Z) : regs :=
  match n with
  | O => r
  | S n => rfc_absorb n (rfc_compress r (take 64 msg)) (drop 64 msg)
  end.

(** A one bit, zeros up to eight bytes before the end of a block, and the
    64-bit number of bits. *)
Definition md4_pad (len : Z) : list Z :=
  [0x80] ++ zeros ((55 - len) mod 64) ++ le_enc 8 (8 * len).

(** The digest of [msg] from the initial value [iv] (RFC 1320 fixes [MD4_IV]). *)
Definition md4_ref (iv : regs) (msg : list Z) : list Z :=
  let padded := msg ++ md4_pad (zlen msg) in
  out_regs (rfc_absorb (length padded / 64) iv padded).

Lemma absorb_rfc n : forall r msg, absorb n r msg = rfc_absorb n r msg.
Proof. induction n; intros r msg; cbn; [done|]. by rewrite compress_rfc, IHn. Qed.

Lemma length_bytes (msg : list Z) :
  le_enc 4 (u32 (Z.shiftl (zlen msg mod 2 ^ 29) 3)) ++ le_enc 4 ((zlen msg / 2 ^ 29) mod 2 ^ 32)
  = le_enc 8 (8 * zlen msg).
Proof.
  change 8%nat with (4 + 4)%nat. rewrite le_enc_app. change (256 ^ Z.of_nat 4) with (2 ^ 32). f_equal.
  - rewrite <- (le_enc_mod 4 (8 * _)). f_equal. rewrite Z.shiftl_mul_pow2 by lia.
    change (256 ^ Z.of_nat 4) with 4294967296. unfold u32. Z.to_euclidean_division_equations; lia.
  - change (2 ^ 32) with (256 ^ Z.of_nat 4) at 1. rewrite le_enc_mod. f_equal.
    change (2 ^ 32) with (8 * 2 ^ 29). by rewrite Z.div_mul_cancel_l by lia.
Qed.

(** The last block: zeros and the two halves of the length. *)
Lemma final_block (x y l4 h4 : list Z) :
  (length x <= 56)%nat -> (length x + length y = 64)%nat -> length l4 = 4%nat -> length h4 = 4%nat ->
  exists b1 b2, write_at (x ++ y) (zlen x) (zeros (56 - zlen x)) = Ok b1 /\
    write_at b1 56 l4 = Ok b2 /\
    write_at b2 60 h4 = Ok (x ++ zeros (56 - zlen x) ++ l4 ++ h4).
Proof.
  intros Hx Hy Hl Hh.
  assert (Hz : length (zeros (56 - zlen x)) = (56 - length x)%nat)
    by (unfold zeros, zlen; rewrite length_replicate; lia).
  eexists _, _. split; [apply write_junk; lia|].
  assert (H56 : zlen (x ++ zeros (56 - zlen x)) = 56) by (unfold zlen in *; rewrite length_app; lia).
  split.
  - pose proof (write_junk (x ++ zeros (56 - zlen x)) (drop (length (zeros (56 - zlen x))) y) l4) as W.
    rewrite H56 in W. apply W. rewrite length_drop. lia.
  - assert (H60 : zlen ((x ++ zeros (56 - zlen x)) ++ l4) = 60)
      by (unfold zlen in *; rewrite length_app; lia).
    pose proof (write_junk ((x ++ zeros (56 - zlen x)) ++ l4)
      (drop (length l4) (drop (length (zeros (56 - zlen x))) y)) h4) as W.
    rewrite H60 in W. rewrite W by (rewrite !length_drop; lia).
    rewrite drop_ge by (rewrite !length_drop; lia). by rewrite app_nil_r, <- !app_assoc.
Qed.

Lemma zeros_app n m : 0 <= n -> 0 <= m -> zeros (n + m) = zeros n ++ zeros m.
Proof. intros. unfold zeros. by rewrite Z2Nat.inj_add, replicate_add by lia. Qed.

(** The state before the last block: [x] is what is left of the padded message
    in front of the zeros and the length. *)
Definition final_rep (iv : regs) (msg : list Z) (ctx : MD4_CTX_RASTA) (used : Z) : Prop :=
  exists q full x y, abcd ctx = absorb q iv full /\ length full = (64 * q)%nat /\
    buffer ctx = x ++ y /\ (length x + length y = 64)%nat /\ zlen x = used /\ used <= 56 /\
    full ++ x ++ zeros (56 - used) ++ le_enc 8 (8 * zlen msg) = msg ++ md4_pad (zlen msg).

(** Appending the one bit, and flushing a block that has no room for the length. *)
Lemma final_flush iv msg ctx q full tail y :
  msg = full ++ tail -> length full = (64 * q)%nat -> abcd ctx = absorb q iv full ->
  (length tail < 64)%nat -> (length tail + 1 + length y = 64)%nat ->
  let used := zlen tail + 1 in
  exists ctx' used',
    (if 64 - used <? 8 then
       b ← write_at ((tail ++ [0x80]) ++ y) used (zeros (64 - used));
       '(ctx, _) ← body (ctx <| buffer := b |>) b 64;
       mret (ctx, 0, 64)
     else mret (ctx <| buffer := (tail ++ [0x80]) ++ y |>, used, 64 - used)) =
    Ok (ctx', used', 64 - used') /\
    lo ctx' = lo ctx /\ hi ctx' = hi ctx /\ final_rep iv msg ctx' used'.
Proof.
  intros Hm Hf Hr Ht Hy used.
  assert (Hl1 : zlen (tail ++ [128]) = used) by (by rewrite zlen_app).
  assert (Hu : used = Z.of_nat (length tail) + 1) by done.
  assert (Hmod : zlen msg = 64 * Z.of_nat q + zlen tail) by (rewrite Hm, zlen_app; unfold zlen; lia).
  case_if; zbool.
  - assert (Hz : length (zeros (64 - used)) = length y)
      by (unfold zeros; rewrite length_replicate; lia).
    pose proof (write_junk (tail ++ [128]) y (zeros (64 - used))) as W. rewrite Hl1 in W.
    rewrite W, drop_ge, app_nil_r by lia. mcbn.
    change (body ?c ?b 64) with (body c b (64 * Z.of_nat 1)).
    rewrite body_ok by (rewrite ?length_app, ?Hz; cbn; lia). mcbn.
    eexists _, 0. split; [done|]. fields. split; [done|]. split; [done|].
    exists (q + 1)%nat, (full ++ ((tail ++ [128]) ++ zeros (64 - used))), [], ((tail ++ [128]) ++ zeros (64 - used)).
    rewrite absorb_snoc, Hr by (rewrite ?length_app, ?Hz; cbn; lia).
    rewrite !length_app, Hz, Hm, <- !app_assoc. unfold md4_pad. rewrite <- Hm.
    replace ((55 - zlen msg) mod 64) with ((64 - used) + 56)
      by (rewrite Hmod; unfold zlen; Z.to_euclidean_division_equations; lia).
    rewrite zeros_app, <- !app_assoc by lia. cbn. repeat split; try done; lia.
  - eexists _, used. split; [done|]. fields. split; [done|]. split; [done|].
    exists q, full, (tail ++ [128]), y. rewrite length_app, Hm, <- !app_assoc. unfold md4_pad.
    rewrite <- Hm.
    replace ((55 - zlen msg) mod 64) with (56 - used)
      by (rewrite Hmod; unfold zlen; Z.to_euclidean_division_equations; lia).
    repeat split; try done; cbn; lia.
Qed.

Lemma MD4_Final_rep iv msg ctx : md4_rep iv msg ctx ->
  exists ctx', MD4_Final_Rasta ctx = Ok (md4_ref iv msg, ctx').
Proof.
  intros Hrep. pose proof (rep_data _ _ _ Hrep) as (q & full & tail & junk & Hm & Hf & Ht & Hr & Hb & Hj).
  pose proof (length_bytes msg) as Hbytes.
  rewrite <- (rep_lo _ _ _ Hrep), <- (rep_hi _ _ _ Hrep) in Hbytes.
  unfold MD4_Final_Rasta. rewrite (rep_used iv msg ctx full tail q) by done.
  rewrite Hb, write_junk by (cbn; lia). mcbn. change (length [0x80]) with 1%nat.
  edestruct (final_flush iv msg ctx q full tail (drop 1 junk)) as (c & u & He & Hl & Hh & Hfin);
    [done..|rewrite length_drop; lia|].
  rewrite He. cbn [mbind res_bind]. clear He.
  destruct Hfin as (q' & full' & x & y & Hr' & Hf' & Hb' & Hxy & Hx & Hu & Hpad).
  destruct (final_block x y (le_enc 4 (u32 (Z.shiftl (lo c) 3))) (le_enc 4 (hi c)))
    as (b1 & b2 & H1 & H2 & H3); [unfold zlen in Hx; lia|done..|].
  rewrite Hx in *. replace (64 - u - 8) with (56 - u) by lia. rewrite Hb', H1. mcbn.
  fields. rewrite H2. mcbn. rewrite H3. mcbn. rewrite Hl, Hh, Hbytes in *.
  assert (Hlen : length (x ++ zeros (56 - u) ++ le_enc 8 (8 * zlen msg)) = 64%nat).
  { rewrite !length_app, length_le_enc. unfold zeros, zlen in *. rewrite length_replicate. lia. }
  change (body ?c ?b 64) with (body c b (64 * Z.of_nat 1)).
  rewrite body_ok by (rewrite ?Hlen; lia). mcbn. fields. eexists. f_equal. f_equal.
  unfold md4_ref. rewrite <- Hpad, Hr', <- absorb_snoc by lia.
  rewrite length_app, Hlen, Hf', absorb_rfc. f_equal. f_equal.
  replace (64 * q' + 64)%nat with ((q' + 1) * 64)%nat by lia. by rewrite Nat.div_mul.
Qed.

Lemma md4_rep_init iv ctx : abcd ctx = iv -> lo ctx = 0 -> hi ctx = 0 -> length (buffer ctx) = 64%nat ->
  md4_rep iv [] ctx.
Proof.
  intros Hr Hl Hh Hb. split; [|rewrite Hl; reflexivity|rewrite Hh; reflexivity].
  exists 0%nat, [], [], (buffer ctx). split_and!; cbn; auto; lia.
Qed.

(** Feeding a list of pieces to [MD4_Update_Rasta]. *)
Fixpoint md4_updates (ctx : MD4_CTX_RASTA) (pieces : list (list Z)) : res MD4_CTX_RASTA :=
  match pieces with
  | [] => Ok ctx
  | p :: ps => ctx ← MD4_Update_Rasta ctx p (zlen p); md4_updates ctx ps
  end.

Lemma md4_updates_rep iv pieces : Forall (fun p => zlen p < 2 ^ 64) pieces -> forall msg ctx,
  md4_rep iv msg ctx ->
  exists ctx', md4_updates ctx pieces = Ok ctx' /\ md4_rep iv (msg ++ concat pieces) ctx'.
Proof.
  induction 1 as [|p ps Hp _ IH]; intros msg ctx Hrep; cbn [md4_updates concat].
  - rewrite app_nil_r. eauto.
  - destruct (MD4_Update_rep iv msg ctx p Hrep Hp) as (c & -> & Hc). mcbn.
    destruct (IH _ _ Hc) as (c' & -> & Hc'). rewrite app_assoc. eauto.
Qed.

(** C36. Whatever pieces a message is fed in, and whatever the indeterminate
    buffer of the fresh context holds, Init, the Updates and Final return the MD4
    digest of RFC 1320 of the concatenation, with the context's a, b, c, d as the
    initial value; no access leaves the data, the buffer or the result. *)
Theorem md4_streaming_correct ctx pieces :
  lo ctx = 0 -> hi ctx = 0 -> length (buffer ctx) = 64%nat ->
  Forall (fun p => zlen p < 2 ^ 64) pieces ->
  exists ctx', (ctx ← md4_updates ctx pieces; MD4_Final_Rasta ctx)
               = Ok (md4_ref (abcd ctx) (concat pieces), ctx').
Proof.
  intros Hl Hh Hb Hp.
  destruct (md4_updates_rep (abcd ctx) pieces Hp [] ctx) as (c & Hc & Hrep);
    [by apply md4_rep_init|].
  destruct (MD4_Final_rep _ _ _ Hrep) as (c' & Hc'). exists c'. by rewrite Hc.
Qed.

Lemma md4_streaming_correct_witness :
  exists ctx', (ctx ← md4_updates (MD4_Init_Rasta (mkMD4 5 6 (1, 2, 3, 4) (replicate 64 0xaa)))
                        [[97; 98]; []; [99]]; MD4_Final_Rasta ctx)
    = Ok (md4_ref MD4_IV [97; 98; 99], ctx').
Proof.
  apply (md4_streaming_correct (MD4_Init_Rasta (mkMD4 5 6 (1, 2, 3, 4) (replicate 64 0xaa)))
    [[97; 98]; []; [99]]); [reflexivity|reflexivity|reflexivity|].
  repeat constructor.
Defined.

(** RFC 1320, appendix A.5. *)
Example md4_empty : md4_ref MD4_IV [] =
  [0x31; 0xd6; 0xcf; 0xe0; 0xd1; 0x6a; 0xe9; 0x31; 0xb7; 0x3c; 0x59; 0xd7; 0xe0; 0xc0; 0x89; 0xc0].
Proof. vm_compute. reflexivity. Qed.
Example md4_abc : md4_ref MD4_IV [97; 98; 99] =
  [0xa4; 0x48; 0x01; 0x7a; 0xaf; 0x21; 0xd8; 0x52; 0x5f; 0xc1; 0x0a; 0xe8; 0x7a; 0xa6; 0x72; 0x9d].
Proof. vm_compute. reflexivity. Qed.

(** ** The safety code *)

Lemma length_out_regs r : length (out_regs r) = 16%nat.
Proof. destruct r as [[[a b] c] d]. unfold out_regs. by rewrite !length_app, !length_le_enc. Qed.
Lemma length_md4_ref iv msg : length (md4_ref iv msg) = 16%nat.
Proof. apply length_out_regs. Qed.
Lemma bytes_md4_ref iv msg : bytes_ok (md4_ref iv msg).
Proof.
  unfold md4_ref. destruct (rfc_absorb _ _ _) as [[[a b] c] d].
  unfold out_regs. rewrite !bytes_ok_app. auto using le_enc_bytes.
Qed.

(** The safety code of each type is the front of the digest ([type] 0: none);
    the rest of the result is left alone. *)
Lemma generateMD4WithVector_ok data type ctx result :
  1 <= type <= 2 -> lo ctx = 0 -> hi ctx = 0 -> length (buffer ctx) = 64%nat ->
  zlen data < 2 ^ 64 -> zlen result = 16 ->
  exists ctx', generateMD4WithVector data (zlen data) type ctx result =
    Ok (take (Z.to_nat (8 * type)) (md4_ref (abcd ctx) data) ++ drop (Z.to_nat (8 * type)) result, ctx').
Proof.
  intros Ht Hl Hh Hb Hd Hres. unfold generateMD4WithVector.
  rewrite u64_small by (split; [apply zlen_nonneg|exact Hd]).
  destruct (MD4_Update_rep (abcd ctx) [] ctx data) as (c & -> & Hc); [by apply md4_rep_init|done|].
  mcbn. destruct (MD4_Final_rep _ _ _ Hc) as (c' & ->). mcbn. exists c'.
  pose proof (length_md4_ref (abcd ctx) data) as H16. cbn [app].
  assert (type = 1 \/ type = 2) as [-> | ->] by lia; cbn [Z.eqb Pos.eqb].
  - change (Z.to_nat (8 * 1)) with 8%nat. rewrite (write_junk [] result).
    + rewrite length_take, H16. done.
    + rewrite length_take, H16. unfold zlen in Hres. lia.
  - change (Z.to_nat (8 * 2)) with 16%nat. rewrite (write_junk [] result).
    + rewrite H16, take_ge by lia. done.
    + rewrite H16. unfold zlen in Hres. lia.
Qed.

Lemma generateMD4WithVector_none data ctx result :
  lo ctx = 0 -> hi ctx = 0 -> length (buffer ctx) = 64%nat ->
  zlen data < 2 ^ 64 -> zlen result = 16 ->
  exists ctx', generateMD4WithVector data (zlen data) 0 ctx result =
    Ok (zeros 8 ++ drop 8 result, ctx').
Proof.
  intros Hl Hh Hb Hd Hres. unfold generateMD4WithVector.
  rewrite u64_small by (split; [apply zlen_nonneg|exact Hd]).
  destruct (MD4_Update_rep (abcd ctx) [] ctx data) as (c & -> & Hc); [by apply md4_rep_init|done|].
  mcbn. destruct (MD4_Final_rep _ _ _ Hc) as (c' & ->). mcbn. exists c'. cbn [Z.eqb].
  rewrite (write_junk [] result); [done|]. change (length (zeros 8)) with 8%nat.
  unfold zlen in Hres. lia.
Qed.
