(* ===== verification/Crc.v ===== *)
(** * CRC checksums of the redundancy layer (src/c/util/rastacrc.c)

    The table generator and the table-driven checksum are translated on 64-bit
    words (an [unsigned long]); the reference is the bit-serial parametrised
    CRC, and [crc_calculate_bitwise] says that the optimised code computes it
    for every option set with a width of 8 to 64 bits. *)

From stdpp Require Import base numbers list.
From Stdlib Require Import ZArith Lia.
From S2P Require Import Prelude.

Local Open Scope Z_scope.
Local Open Scope record_scope.

(* config.h crc_options *)
Record crc_options := mkCrc {
  width : Z;
  polynom : Z;
  initial : Z;
  initial_optimized : Z;
  refin : Z;
  refout : Z;
  final_xor : Z;
  crc_mask : Z;
  crc_high_bit : Z;
  is_table_generated : Z;
  table : list Z
}.
#[export] Instance eta_crc : Eta crc_options := fun r =>
  mkCrc (width r) (polynom r) (initial r) (initial_optimized r) (refin r) (refout r)
    (final_xor r) (crc_mask r) (crc_high_bit r) (is_table_generated r) (table r).

(** Shifts of 64-bit words.  C leaves a count outside 0..63 undefined (the
    option set without a checksum has width 0, hence counts -1 and -8); the
    x86-64 instructions take it modulo 64. *)
Definition shl64 (x n : Z) : Z := u64 (Z.shiftl x (n mod 64)).
Definition shr64 (x n : Z) : Z := Z.shiftr x (n mod 64).

(** The loop of [reflect]; a one bit leaves a 64-bit word after 64 shifts. *)
(* rastacrc.c:13-18 reflect *)
Fixpoint reflect_loop (fuel : nat) (crc_in i j crc_out : Z) : Z :=
  match fuel with
  | O => crc_out
  | S fuel =>
      if i =? 0 then crc_out
      else reflect_loop fuel crc_in (shr64 i 1) (shl64 j 1)
             (if negb (Z.land crc_in i =? 0) then Z.lor crc_out j else crc_out)
  end.

(* rastacrc.c reflect *)
Definition reflect (crc_in n : Z) : Z := reflect_loop 64 crc_in (shl64 1 (n - 1)) 1 0.

(** The two masks every option set derives from its width. *)
Definition mask_of (w : Z) : Z := Z.lor (shl64 (shl64 1 (w - 1) - 1) 1) 1.
Definition high_bit_of (w : Z) : Z := shl64 1 (w - 1).

(* rastacrc.c crc_init_opt_a *)
Definition crc_init_opt_a : crc_options := mkCrc 0 0 0 0 0 0 0 0 0 0 (replicate 256 0).

(** The tables of the other option sets are indeterminate until they are
    generated; the model starts them with zeros. *)
(* rastacrc.c crc_init_opt_b *)
Definition crc_init_opt_b : crc_options :=
  mkCrc 32 0xEE5B42FD 0 0 0 0 0 (mask_of 32) (high_bit_of 32) 0 (replicate 256 0).
(* rastacrc.c crc_init_opt_c *)
Definition crc_init_opt_c : crc_options :=
  mkCrc 32 0x1EDC6F41 0x2A26F826 0xFFFFFFFF 1 1 0xFFFFFFFF (mask_of 32) (high_bit_of 32) 0 (replicate 256 0).
(* rastacrc.c crc_init_opt_d *)
Definition crc_init_opt_d : crc_options :=
  mkCrc 16 0x1021 0 0 1 1 0 (mask_of 16) (high_bit_of 16) 0 (replicate 256 0).
(* rastacrc.c crc_init_opt_e *)
Definition crc_init_opt_e : crc_options :=
  mkCrc 16 0x8005 0 0 1 1 0 (mask_of 16) (high_bit_of 16) 0 (replicate 256 0).

(** One of the eight steps of a table entry. *)
(* rastacrc.c:123-127 crc_generate_table *)
Definition crc_step (options : crc_options) (crc : Z) : Z :=
  let bit := Z.land crc (crc_high_bit options) in
  let crc := shl64 crc 1 in
  if negb (bit =? 0) then Z.lxor crc (polynom options) else crc.

(* rastacrc.c:117-134 crc_generate_table *)
Definition crc_entry (options : crc_options) (i : Z) : Z :=
  let crc := i in
  let crc := if negb (refin options =? 0) then reflect crc 8 else crc in
  let crc := shl64 crc (width options - 8) in
  let crc := Nat.iter 8 (crc_step options) crc in
  let crc := if negb (refin options =? 0) then reflect crc (width options) else crc in
  Z.land crc (crc_mask options).

(* rastacrc.c crc_generate_table *)
Definition crc_generate_table (options : crc_options) : crc_options :=
  options <| table := (fun i => crc_entry options (Z.of_nat i)) <$> seq 0 256 |>
          <| is_table_generated := 1 |>.

(** The table index is an unsigned char, so the lookup is always in range. *)
Definition table_at (options : crc_options) (i : Z) : Z := nth (Z.to_nat i) (table options) 0.

(* rastacrc.c:150-152 crc_calculate *)
Definition crc_byte (options : crc_options) (crc byte : Z) : Z :=
  Z.lxor (shl64 crc 8)
    (table_at options (Z.lxor (Z.land (shr64 crc (width options - 8)) 0xff) byte)).
(* rastacrc.c:153-156 crc_calculate *)
Definition crc_byte_reflected (options : crc_options) (crc byte : Z) : Z :=
  Z.lxor (shr64 crc 8) (table_at options (Z.lxor (Z.land crc 0xff) byte)).

(* rastacrc.c crc_calculate *)
Definition crc_calculate (options : crc_options) (data : list Z) : Z * crc_options :=
  let options := if is_table_generated options =? 0 then crc_generate_table options else options in
  let crc := initial_optimized options in
  let crc := if negb (refin options =? 0) then reflect crc (width options) else crc in
  let crc := if refin options =? 0 then foldl (crc_byte options) crc data
             else foldl (crc_byte_reflected options) crc data in
  let crc := if negb (Z.lxor (refout options) (refin options) =? 0)
             then reflect crc (width options) else crc in
  let crc := Z.lxor crc (final_xor options) in
  (Z.land crc (crc_mask options), options).

(** ** Bits *)

Lemma land_pow2_zero x m : 0 <= m -> (Z.land x (2 ^ m) =? 0) = negb (Z.testbit x m).
Proof.
  intros Hm. destruct (Z.testbit x m) eqn:E; cbn.
  - apply Z.eqb_neq. intros H0. apply (f_equal (fun z => Z.testbit z m)) in H0.
    rewrite Z.land_spec, E, Z.pow2_bits_true, Z.testbit_0_l in H0 by done. done.
  - apply Z.eqb_eq. apply Z.bits_inj'. intros n Hn. rewrite Z.land_spec, Z.testbit_0_l.
    destruct (decide (n = m)) as [->|]; [by rewrite E|].
    rewrite Z.pow2_bits_false by lia. apply andb_false_r.
Qed.

Lemma testbit_mod x w n : 0 <= w -> 0 <= n ->
  Z.testbit (x mod 2 ^ w) n = (n <? w) && Z.testbit x n.
Proof.
  intros Hw Hn. destruct (n <? w) eqn:E; zbool; cbn.
  - by apply Z.mod_pow2_bits_low.
  - by apply Z.mod_pow2_bits_high; lia.
Qed.

Lemma testbit_small x w n : 0 <= x < 2 ^ w -> 0 <= w <= n -> Z.testbit x n = false.
Proof.
  intros Hx Hn. rewrite <- (Z.mod_small x (2 ^ w)) by done. apply Z.mod_pow2_bits_high. lia.
Qed.

Lemma lxor_mod x y w : 0 <= w -> Z.lxor x y mod 2 ^ w = Z.lxor (x mod 2 ^ w) (y mod 2 ^ w).
Proof.
  intros Hw. apply Z.bits_inj'. intros n Hn.
  rewrite Z.lxor_spec, !testbit_mod, Z.lxor_spec by done. by destruct (n <? w).
Qed.

Lemma lxor_bound x y w : 0 <= w -> 0 <= x < 2 ^ w -> 0 <= y < 2 ^ w -> 0 <= Z.lxor x y < 2 ^ w.
Proof.
  intros Hw Hx Hy. rewrite <- (Z.mod_small x (2 ^ w)), <- (Z.mod_small y (2 ^ w)) by done.
  rewrite <- lxor_mod by done. apply Z.mod_pos_bound. lia.
Qed.

Lemma u64_pow x : u64 x = x mod 2 ^ 64. Proof. done. Qed.
Lemma mod_mod_pow x a b : 0 <= a <= b -> (x mod 2 ^ b) mod 2 ^ a = x mod 2 ^ a.
Proof.
  intros H. apply Z.bits_inj'. intros n Hn. rewrite !testbit_mod by lia.
  destruct (n <? a) eqn:?, (n <? b) eqn:?; zbool; cbn; lia || done.
Qed.

Lemma shl64_mod x n w : 0 <= n < 64 -> 0 <= w <= 64 -> shl64 x n mod 2 ^ w = Z.shiftl x n mod 2 ^ w.
Proof. intros Hn Hw. unfold shl64. rewrite (Z.mod_small n) by lia. by rewrite u64_pow, mod_mod_pow. Qed.
Lemma shl64_small x n : 0 <= n < 64 -> 0 <= Z.shiftl x n < 2 ^ 64 -> shl64 x n = Z.shiftl x n.
Proof. intros Hn H. unfold shl64. rewrite (Z.mod_small n) by lia. by apply Z.mod_small. Qed.

(** ** The bit-serial reference

    [rev_bits n x] is the number whose [n] bits are those of [x] in the
    opposite order; the reference register takes one message bit at a time. *)

Fixpoint rev_bits (n : nat) (x : Z) : Z :=
  match n with
  | O => 0
  | S n => Z.lor (Z.shiftl (x mod 2) (Z.of_nat n)) (rev_bits n (x / 2))
  end.

Definition byte_bits (b : Z) : list bool := Z.testbit b <$> [7; 6; 5; 4; 3; 2; 1; 0].

Definition ref_bit (w p reg : Z) (b : bool) : Z :=
  Z.lxor ((2 * reg) mod 2 ^ w) (if xorb (Z.testbit reg (w - 1)) b then p else 0).

Definition crc_ref (o : crc_options) (data : list Z) : Z :=
  let w := width o in
  let bits := data ≫= fun b => if refin o =? 0 then byte_bits b else rev (byte_bits b) in
  let reg := foldl (ref_bit w (polynom o)) (initial_optimized o mod 2 ^ w) bits in
  let out := if refout o =? 0 then reg else rev_bits (Z.to_nat w) reg in
  Z.lxor out (final_xor o) mod 2 ^ w.

Lemma testbit_rev_bits n : forall x k, 0 <= k ->
  Z.testbit (rev_bits n x) k = (k <? Z.of_nat n) && Z.testbit x (Z.of_nat n - 1 - k).
Proof.
  induction n as [|n IH]; intros x k Hk; cbn [rev_bits].
  - rewrite Z.testbit_0_l. by ztests.
  - rewrite Z.lor_spec, Z.shiftl_spec, IH by done.
    destruct (Z.lt_trichotomy k (Z.of_nat n)) as [?|[->|?]].
    + rewrite Z.testbit_neg_r by lia. ztests. cbn [andb orb].
      rewrite Z.div2_bits by lia. f_equal. lia.
    + rewrite Z.sub_diag. ztests. cbn [andb orb]. rewrite orb_false_r.
      replace (Z.of_nat (S n) - 1 - Z.of_nat n) with 0 by lia.
      rewrite <- Z.bit0_mod, <- Z.b2z_bit0 at 1. by destruct (Z.testbit x 0).
    + ztests. rewrite orb_false_r. cbn [andb].
      apply (testbit_small _ 1); [change (2 ^ 1) with 2; mlia|lia].
Qed.

Lemma rev_bits_bound n x : 0 <= rev_bits n x < 2 ^ Z.of_nat n.
Proof.
  replace (rev_bits n x) with (rev_bits n x mod 2 ^ Z.of_nat n); [apply Z.mod_pos_bound; lia|].
  apply Z.bits_inj'. intros k Hk. rewrite testbit_mod, testbit_rev_bits by lia.
  by destruct (k <? Z.of_nat n).
Qed.

(** [reflect] reverses bits. *)
Lemma reflect_step x out m j k : 0 <= m -> 0 <= j -> 0 <= k ->
  Z.testbit (if negb (Z.land x (2 ^ m) =? 0) then Z.lor out (2 ^ j) else out) k =
  Z.testbit out k || ((k =? j) && Z.testbit x m).
Proof.
  intros Hm Hj Hk. rewrite land_pow2_zero, negb_involutive by done.
  destruct (Z.testbit x m).
  - rewrite Z.lor_spec, Z.pow2_bits_eqb, andb_true_r by done. by rewrite Z.eqb_sym.
  - by rewrite andb_false_r, orb_false_r.
Qed.

Lemma reflect_loop_0 fuel x j out : reflect_loop fuel x 0 j out = out.
Proof. by destruct fuel. Qed.

Lemma reflect_loop_bits x n m : forall fuel out, (m < fuel)%nat -> Z.of_nat m < n <= 64 ->
  forall k, 0 <= k ->
  Z.testbit (reflect_loop fuel x (2 ^ Z.of_nat m) (2 ^ (n - 1 - Z.of_nat m)) out) k =
  Z.testbit out k || ((n - 1 - Z.of_nat m <=? k) && (k <? n) && Z.testbit x (n - 1 - k)).
Proof.
  induction m as [|m IH]; intros [|fuel] out Hf Hn k Hk; try lia; cbn [reflect_loop];
    rewrite (proj2 (Z.eqb_neq (2 ^ _) 0)) by lia.
  - change (shr64 (2 ^ Z.of_nat 0) 1) with 0. rewrite reflect_loop_0, reflect_step by lia.
    f_equal. destruct (k =? n - 1 - Z.of_nat 0) eqn:E; zbool.
    + ztests. cbn. f_equal. lia.
    + destruct (n - 1 - Z.of_nat 0 <=? k) eqn:?; zbool; [|done]. ztests. done.
  - replace (shr64 (2 ^ Z.of_nat (S m)) 1) with (2 ^ Z.of_nat m).
    2:{ unfold shr64. change (1 mod 64) with 1. rewrite Z.shiftr_div_pow2 by lia.
        rewrite Nat2Z.inj_succ, Z.pow_succ_r by lia. change (2 ^ 1) with 2.
        by rewrite Z.mul_comm, Z.div_mul by lia. }
    replace (shl64 (2 ^ (n - 1 - Z.of_nat (S m))) 1) with (2 ^ (n - 1 - Z.of_nat m)).
    2:{ assert (2 ^ (n - 1 - Z.of_nat m) = Z.shiftl (2 ^ (n - 1 - Z.of_nat (S m))) 1) as ->.
        { rewrite Z.shiftl_mul_pow2, <- Z.pow_add_r by lia. f_equal. lia. }
        rewrite shl64_small; [done|lia|]. rewrite Z.shiftl_mul_pow2, <- Z.pow_add_r by lia.
        split; [lia|]. apply Z.pow_lt_mono_r; lia. }
    rewrite IH, reflect_step by lia. rewrite <- orb_assoc. f_equal.
    destruct (k =? n - 1 - Z.of_nat (S m)) eqn:E; zbool.
    + ztests. cbn. rewrite orb_false_r. f_equal. lia.
    + cbn. destruct (n - 1 - Z.of_nat m <=? k) eqn:?; zbool; ztests; done.
Qed.

Lemma reflect_rev x n : 1 <= n <= 64 -> reflect x n = rev_bits (Z.to_nat n) x.
Proof.
  intros Hn. unfold reflect.
  assert (Hp : 0 <= 2 ^ (n - 1) < 2 ^ 64) by (split; [lia|apply Z.pow_lt_mono_r; lia]).
  assert (Hs : Z.shiftl 1 (n - 1) = 2 ^ (n - 1)) by (rewrite Z.shiftl_mul_pow2; lia).
  rewrite shl64_small, Hs by (rewrite ?Hs; lia). apply Z.bits_inj'. intros k Hk.
  pose proof (reflect_loop_bits x n (Z.to_nat (n - 1)) 64 0 ltac:(lia) ltac:(lia) k Hk) as Hb.
  rewrite Z2Nat.id, Z.sub_diag in Hb by lia. change (2 ^ 0) with 1 in Hb. rewrite Hb.
  rewrite testbit_rev_bits, Z.testbit_0_l, Z2Nat.id by lia. cbn [orb]. by ztest (0 <=? k).
Qed.

(** ** Linearity *)

Definition step (w p x : Z) : Z := ref_bit w p x false.

Lemma xorb_if (a b : bool) p :
  (if xorb a b then p else 0) = Z.lxor (if a then p else 0) (if b then p else 0).
Proof. destruct a, b; cbn; by rewrite ?Z.lxor_nilpotent, ?Z.lxor_0_r, ?Z.lxor_0_l. Qed.

Lemma double_lxor x y : 2 * Z.lxor x y = Z.lxor (2 * x) (2 * y).
Proof. rewrite !(Z.mul_comm 2). change 2 with (2 ^ 1). rewrite <- !Z.shiftl_mul_pow2 by lia. apply Z.shiftl_lxor. Qed.

Lemma step_lxor w p x y : 0 <= w -> step w p (Z.lxor x y) = Z.lxor (step w p x) (step w p y).
Proof.
  intros Hw. unfold step, ref_bit. rewrite !xorb_false_r, Z.lxor_spec, xorb_if, double_lxor, lxor_mod by done.
  apply Z.bits_inj'. intros n Hn. rewrite !Z.lxor_spec. 
  by destruct (Z.testbit _ n), (Z.testbit _ n), (Z.testbit _ n), (Z.testbit _ n).
Qed.

Lemma ref_bit_bound w p x b : 0 <= w -> 0 <= p < 2 ^ w -> 0 <= ref_bit w p x b < 2 ^ w.
Proof.
  intros Hw Hp. apply lxor_bound; [done|apply Z.mod_pos_bound; lia|]. destruct (xorb _ _); lia.
Qed.
Lemma step_bound w p x : 0 <= w -> 0 <= p < 2 ^ w -> 0 <= step w p x < 2 ^ w.
Proof. apply ref_bit_bound. Qed.

Lemma pow2_pred w : 1 <= w -> 2 ^ w = 2 * 2 ^ (w - 1).
Proof. intros Hw. rewrite <- Z.pow_succ_r by lia. f_equal. lia. Qed.

(** A value below the top bit is just shifted. *)
Lemma step_low w p x : 1 <= w -> 0 <= x < 2 ^ (w - 1) -> step w p x = 2 * x.
Proof.
  intros Hw Hx. unfold step, ref_bit. rewrite (testbit_small _ (w - 1)) by lia. cbn.
  rewrite Z.lxor_0_r, Z.mod_small; [done|]. rewrite (pow2_pred w) by done. lia.
Qed.

Lemma iter_step_lxor w p n : forall x y, 0 <= w ->
  Nat.iter n (step w p) (Z.lxor x y) = Z.lxor (Nat.iter n (step w p) x) (Nat.iter n (step w p) y).
Proof. induction n as [|n IH]; intros x y Hw; [done|]. rewrite !Nat.iter_succ, IH by done.
  by apply step_lxor.
Qed.

Lemma iter_step_low w p n : forall x, Z.of_nat n <= w -> 0 <= x < 2 ^ (w - Z.of_nat n) ->
  Nat.iter n (step w p) x = x * 2 ^ Z.of_nat n.
Proof.
  induction n as [|n IH]; intros x Hw Hx.
  - cbn. lia.
  - rewrite Nat.iter_succ_r. assert (0 <= x < 2 ^ (w - 1)).
    { split; [lia|]. eapply Z.lt_le_trans; [apply Hx|]. apply Z.pow_le_mono_r; lia. }
    rewrite step_low by lia. rewrite IH.
    + rewrite Nat2Z.inj_succ, Z.pow_succ_r by lia. lia.
    + lia.
    + replace (w - Z.of_nat n) with (Z.succ (w - Z.of_nat (S n))) by lia.
      rewrite Z.pow_succ_r by lia. lia.
Qed.

(** Consuming a bit is xoring it into the top of the register. *)
Lemma ref_bit_step w p reg b : 1 <= w -> 0 <= reg < 2 ^ w ->
  ref_bit w p reg b = step w p (Z.lxor reg (if b then 2 ^ (w - 1) else 0)).
Proof.
  intros Hw Hr. destruct b; [|by rewrite Z.lxor_0_r].
  unfold step, ref_bit. rewrite xorb_false_r, Z.lxor_spec, Z.pow2_bits_true by lia. f_equal.
  rewrite double_lxor, lxor_mod by lia.
  rewrite <- (pow2_pred w) by done.
  by rewrite Z.mod_same, Z.lxor_0_r by lia.
Qed.

(** ** A table entry consumes eight bits *)

Fixpoint msb (bits : list bool) : Z :=
  match bits with
  | [] => 0
  | b :: bits => Z.lxor (if b then 2 ^ zlen bits else 0) (msb bits)
  end.

Lemma msb_bound bits : 0 <= msb bits < 2 ^ zlen bits.
Proof.
  induction bits as [|b bits IH]; cbn [msb]; [done|]. rewrite zlen_cons.
  pose proof (zlen_nonneg bits).
  assert (2 ^ (1 + zlen bits) = 2 * 2 ^ zlen bits) by (rewrite Z.pow_add_r by lia; lia).
  apply lxor_bound; [lia|destruct b; lia|lia].
Qed.

Lemma shiftl_bound x a b : 0 <= a -> 0 <= b -> 0 <= x < 2 ^ a -> 0 <= Z.shiftl x b < 2 ^ (a + b).
Proof. intros. rewrite Z.shiftl_mul_pow2, Z.pow_add_r by lia. nia. Qed.

Lemma ref_bits_fold w p bits : 0 <= p < 2 ^ w -> forall reg, zlen bits <= w -> 0 <= reg < 2 ^ w ->
  foldl (ref_bit w p) reg bits =
  Nat.iter (length bits) (step w p) (Z.lxor reg (Z.shiftl (msb bits) (w - zlen bits))).
Proof.
  intros Hp. induction bits as [|b bits IH]; intros reg Hl Hr.
  - cbn [foldl length Nat.iter msb]. by rewrite Z.shiftl_0_l, Z.lxor_0_r.
  - rewrite zlen_cons in *. pose proof (zlen_nonneg bits). cbn [foldl length].
    rewrite IH; [|lia|apply ref_bit_bound; lia].
    rewrite ref_bit_step by lia. rewrite Nat.iter_succ_r. f_equal. cbn [msb].
    pose proof (msb_bound bits) as Hm.
    rewrite Z.shiftl_lxor, !step_lxor, Z.lxor_assoc by lia. f_equal; f_equal; [f_equal|symmetry].
    + destruct b; [|by rewrite Z.shiftl_0_l]. 
      rewrite Z.shiftl_mul_pow2, <- Z.pow_add_r by lia. f_equal. lia.
    + rewrite step_low; [|lia|].
      * rewrite !Z.shiftl_mul_pow2 by lia. replace (w - zlen bits) with (Z.succ (w - (1 + zlen bits))) by lia.
        rewrite Z.pow_succ_r by lia. lia.
      * replace (w - 1) with (zlen bits + (w - (1 + zlen bits))) by lia. apply shiftl_bound; lia.
Qed.

Lemma all_bytes (P : Z -> bool) :
  forallb P (Z.of_nat <$> seq 0 256) = true -> forall b, 0 <= b < 256 -> P b = true.
Proof.
  rewrite forallb_forall. intros H b Hb. apply H. apply list_elem_of_In, list_elem_of_fmap.
  exists (Z.to_nat b). split; [lia|]. apply elem_of_seq. lia.
Qed.

Lemma msb_byte b : 0 <= b < 256 -> msb (byte_bits b) = b.
Proof.
  intros Hb. apply Z.eqb_eq. revert b Hb. apply all_bytes. vm_compute. reflexivity.
Qed.
Lemma byte_bits_rev b : 0 <= b < 256 -> rev (byte_bits b) = byte_bits (rev_bits 8 b).
Proof.
  intros Hb. apply (bool_decide_eq_true_1 _). revert b Hb.
  apply (all_bytes (fun b => bool_decide (rev (byte_bits b) = byte_bits (rev_bits 8 b)))).
  vm_compute. reflexivity.
Qed.

(** [T i]: the register after eight zero bits, started with the index in its top byte. *)
Definition T (w p i : Z) : Z := Nat.iter 8 (step w p) (Z.shiftl i (w - 8)).

Lemma T_bound w p i : 0 <= w -> 0 <= p < 2 ^ w -> 0 <= T w p i < 2 ^ w.
Proof. intros. unfold T. change 8%nat with (S 7). rewrite Nat.iter_succ. by apply step_bound. Qed.

(** The whole byte at once. *)
Lemma ref_byte w p reg b : 8 <= w -> 0 <= p < 2 ^ w -> 0 <= reg < 2 ^ w -> 0 <= b < 256 ->
  foldl (ref_bit w p) reg (byte_bits b) =
  Z.lxor ((reg * 256) mod 2 ^ w) (T w p (Z.lxor (reg / 2 ^ (w - 8)) b)).
Proof.
  intros Hw Hp Hr Hb. rewrite ref_bits_fold by (try change (zlen (byte_bits b)) with 8; lia). rewrite msb_byte by done.
  change (length (byte_bits b)) with 8%nat. change (zlen (byte_bits b)) with 8.
  assert (Hpw : 2 ^ w = 2 ^ (w - 8) * 256) by (change 256 with (2 ^ 8); rewrite <- Z.pow_add_r by lia; f_equal; lia).
  assert (Hsplit : reg = Z.lxor (Z.shiftl (reg / 2 ^ (w - 8)) (w - 8)) (reg mod 2 ^ (w - 8))).
  { apply Z.bits_inj'. intros n Hn. rewrite Z.lxor_spec, Z.shiftl_spec, testbit_mod by lia.
    rewrite <- Z.shiftr_div_pow2 by lia. destruct (n <? w - 8) eqn:E; zbool; cbn [andb].
    - by rewrite (Z.testbit_neg_r _ (n - (w - 8))), xorb_false_l by lia.
    - rewrite Z.shiftr_spec, xorb_false_r by lia. f_equal. lia. }
  pose proof (Z.mod_pos_bound reg (2 ^ (w - 8)) ltac:(lia)) as Hlo.
  assert (Hmod : (reg * 256) mod 2 ^ w = reg mod 2 ^ (w - 8) * 256)
    by (rewrite Hpw, Z.mul_mod_distr_r by lia; done).
  rewrite Hmod. revert Hsplit Hlo. generalize (reg / 2 ^ (w - 8)) as hi, (reg mod 2 ^ (w - 8)) as lo.
  intros hi lo -> Hlo.
  rewrite Z.lxor_assoc, (Z.lxor_comm lo), <- Z.lxor_assoc, <- Z.shiftl_lxor, iter_step_lxor by lia.
  rewrite Z.lxor_comm. unfold T. f_equal. by apply (iter_step_low w p 8); cbn; lia.
Qed.

(** ** The table-driven code *)

Record crc_ok (o : crc_options) : Prop := {
  ok_width : 8 <= width o <= 64;
  ok_polynom : 0 <= polynom o < 2 ^ width o;
  ok_refin : refin o = 0 \/ refin o = 1;
  ok_refout : refout o = 0 \/ refout o = 1;
  ok_mask : crc_mask o = Z.ones (width o);
  ok_high : crc_high_bit o = 2 ^ (width o - 1);
  ok_table : is_table_generated o = 0 \/ table o = table (crc_generate_table o)
}.

Lemma land_mask o x : crc_ok o -> Z.land x (crc_mask o) = x mod 2 ^ width o.
Proof. intros Ho. rewrite (ok_mask o Ho). destruct Ho. apply Z.land_ones. lia. Qed.

Lemma crc_step_mod o x : crc_ok o ->
  crc_step o x mod 2 ^ width o = step (width o) (polynom o) (x mod 2 ^ width o).
Proof.
  intros Ho. pose proof (ok_width o Ho). pose proof (ok_polynom o Ho) as Hp.
  unfold crc_step, step, ref_bit. rewrite (ok_high o Ho), land_pow2_zero, negb_involutive by lia.
  rewrite testbit_mod, xorb_false_r by lia. ztest (width o - 1 <? width o). cbn [andb].
  assert (Hs : shl64 x 1 mod 2 ^ width o = (2 * (x mod 2 ^ width o)) mod 2 ^ width o).
  { rewrite shl64_mod by lia. rewrite Z.mul_mod_idemp_r by lia. done. }
  destruct (Z.testbit x (width o - 1)); [|by rewrite Z.lxor_0_r].
  rewrite lxor_mod, Hs by lia. by rewrite (Z.mod_small (polynom o)).
Qed.

Lemma iter_crc_step_mod o n : crc_ok o -> forall x,
  Nat.iter n (crc_step o) x mod 2 ^ width o =
  Nat.iter n (step (width o) (polynom o)) (x mod 2 ^ width o).
Proof.
  intros Ho. induction n as [|n IH]; intros x; [done|].
  by rewrite !Nat.iter_succ, crc_step_mod, IH.
Qed.

Lemma rev_bits_mod n x : rev_bits n (x mod 2 ^ Z.of_nat n) = rev_bits n x.
Proof.
  apply Z.bits_inj'. intros k Hk. rewrite !testbit_rev_bits by done.
  destruct (k <? Z.of_nat n) eqn:E; [|done]. zbool. rewrite testbit_mod by lia. by ztests.
Qed.

Lemma rev_bits_8 i : 0 <= rev_bits 8 i < 256.
Proof. apply (rev_bits_bound 8). Qed.

Lemma crc_entry_T o i : crc_ok o -> 0 <= i < 256 ->
  crc_entry o i =
  if refin o =? 0 then T (width o) (polynom o) i
  else rev_bits (Z.to_nat (width o)) (T (width o) (polynom o) (rev_bits 8 i)).
Proof.
  intros Ho Hi. pose proof (ok_width o Ho). unfold crc_entry.
  assert (Hx : forall x, 0 <= x < 256 ->
    Nat.iter 8 (crc_step o) (shl64 x (width o - 8)) mod 2 ^ width o = T (width o) (polynom o) x).
  { intros x Hx. rewrite iter_crc_step_mod by done. unfold T. f_equal.
    rewrite shl64_mod by lia. apply Z.mod_small.
    pose proof (shiftl_bound x 8 (width o - 8)) as Hb.
    replace (8 + (width o - 8)) with (width o) in Hb by lia. apply Hb; lia. }
  destruct (refin o =? 0); cbn [negb].
  - rewrite land_mask by done. by apply Hx.
  - rewrite (reflect_rev i 8), (reflect_rev _ (width o)) by lia.
    rewrite land_mask, Z.mod_small by (try done; pose proof (rev_bits_bound (Z.to_nat (width o))); rewrite Z2Nat.id in * by lia; done).
    rewrite <- rev_bits_mod, Z2Nat.id by lia. by rewrite Hx by apply rev_bits_8.
Qed.

Lemma table_at_generated o i : 0 <= i < 256 -> table_at (crc_generate_table o) i = crc_entry o i.
Proof.
  intros Hi. unfold table_at, crc_generate_table. fields.
  apply nth_lookup_Some. rewrite list_lookup_fmap, lookup_seq_lt by lia. cbn. do 2 f_equal. lia.
Qed.

Definition crc_ready (o : crc_options) : Prop := crc_ok o /\ table o = table (crc_generate_table o).

Lemma table_at_T o i : crc_ready o -> 0 <= i < 256 ->
  table_at o i =
  if refin o =? 0 then T (width o) (polynom o) i
  else rev_bits (Z.to_nat (width o)) (T (width o) (polynom o) (rev_bits 8 i)).
Proof.
  intros [Ho Ht] Hi. rewrite <- crc_entry_T by done. rewrite <- table_at_generated by done.
  unfold table_at. by rewrite Ht.
Qed.

Lemma index_bound x b : 0 <= b < 256 -> 0 <= Z.lxor (Z.land x 0xff) b < 256.
Proof.
  intros Hb. apply (lxor_bound _ _ 8); [lia| |done].
  change 0xff with (Z.ones 8). rewrite Z.land_ones by lia. apply Z.mod_pos_bound. lia.
Qed.

(** One byte of the loop, unreflected: only the low [width] bits of the C word
    carry the register. *)
Lemma crc_byte_ref o crc b : crc_ready o -> refin o = 0 -> 0 <= b < 256 ->
  crc_byte o crc b mod 2 ^ width o =
  foldl (ref_bit (width o) (polynom o)) (crc mod 2 ^ width o) (byte_bits b).
Proof.
  intros Ho Hin Hb. pose proof (ok_width o (proj1 Ho)) as Hw. pose proof (ok_polynom o (proj1 Ho)) as Hp.
  rewrite ref_byte by (lia || apply Z.mod_pos_bound; lia). unfold crc_byte.
  assert (Hidx : Z.land (shr64 crc (width o - 8)) 255 = crc mod 2 ^ width o / 2 ^ (width o - 8)).
  { change 255 with (Z.ones 8). unfold shr64. rewrite (Z.mod_small (width o - 8)) by lia.
    apply Z.bits_inj'. intros n Hn. rewrite Z.land_ones, testbit_mod by lia.
    rewrite <- Z.shiftr_div_pow2, !Z.shiftr_spec, testbit_mod by lia. f_equal.
    destruct (n <? 8) eqn:?; zbool; ztests; done. }
  pose proof (index_bound (shr64 crc (width o - 8)) b Hb) as Hr. rewrite Hidx in Hr |- *.
  rewrite table_at_T, Hin, lxor_mod by (done || lia).
  cbn [Z.eqb]. f_equal.
  - rewrite shl64_mod, Z.shiftl_mul_pow2 by lia. change (2 ^ 8) with 256. by rewrite Z.mul_mod_idemp_l by lia.
  - apply Z.mod_small, T_bound; lia.
Qed.

Lemma rev_bits_lxor n x y : rev_bits n (Z.lxor x y) = Z.lxor (rev_bits n x) (rev_bits n y).
Proof.
  apply Z.bits_inj'. intros k Hk. rewrite Z.lxor_spec, !testbit_rev_bits, Z.lxor_spec by done.
  by destruct (k <? Z.of_nat n).
Qed.

(** The reflected loop keeps the reversal of the register. *)
Lemma crc_byte_reflected_ref o reg b : crc_ready o -> refin o = 1 -> 0 <= b < 256 ->
  0 <= reg < 2 ^ width o ->
  crc_byte_reflected o (rev_bits (Z.to_nat (width o)) reg) b =
  rev_bits (Z.to_nat (width o)) (foldl (ref_bit (width o) (polynom o)) reg (rev (byte_bits b))).
Proof.
  intros Ho Hin Hb Hr. pose proof (ok_width o (proj1 Ho)) as Hw. pose proof (ok_polynom o (proj1 Ho)) as Hp.
  set (n := Z.to_nat (width o)). assert (Hn : Z.of_nat n = width o) by lia.
  rewrite byte_bits_rev, ref_byte by (done || lia || apply rev_bits_8).
  unfold crc_byte_reflected. rewrite table_at_T, Hin by (done || by apply index_bound). cbn [Z.eqb].
  fold n. rewrite (rev_bits_lxor n). f_equal.
  - change (shr64 (rev_bits n reg) 8) with (Z.shiftr (rev_bits n reg) 8). apply Z.bits_inj'. intros k Hk.
    rewrite Z.shiftr_spec, !testbit_rev_bits by lia. change 256 with (2 ^ 8).
    destruct (k <? Z.of_nat n) eqn:E1; zbool; ztests; [|done].
    rewrite testbit_mod, <- Z.shiftl_mul_pow2, Z.shiftl_spec by lia. ztests. cbn [andb].
    destruct (k + 8 <? Z.of_nat n) eqn:E2; zbool; cbn [andb].
    + f_equal. lia.
    + by rewrite Z.testbit_neg_r by lia.
  - f_equal. f_equal. rewrite (rev_bits_lxor 8). f_equal. apply Z.bits_inj'. intros k Hk.
    rewrite testbit_rev_bits by done. change 0xff with (Z.ones 8). change (Z.of_nat 8) with 8.
    rewrite <- Z.shiftr_div_pow2, Z.shiftr_spec by lia.
    destruct (k <? 8) eqn:E; zbool; cbn [andb].
    + rewrite Z.land_ones, testbit_mod, testbit_rev_bits by lia. ztests. cbn [andb]. f_equal. lia.
    + symmetry. apply (testbit_small _ (width o)); lia.
Qed.

Lemma ref_fold_bound w p bits : 0 <= w -> 0 <= p < 2 ^ w -> forall reg, 0 <= reg < 2 ^ w ->
  0 <= foldl (ref_bit w p) reg bits < 2 ^ w.
Proof.
  intros Hw Hp. induction bits as [|b bits IH]; intros reg Hr; [done|]. cbn. by apply IH, ref_bit_bound.
Qed.

Lemma crc_loop o data : crc_ready o -> refin o = 0 -> bytes_ok data -> forall crc,
  foldl (crc_byte o) crc data mod 2 ^ width o =
  foldl (ref_bit (width o) (polynom o)) (crc mod 2 ^ width o) (data ≫= byte_bits).
Proof.
  intros Ho Hin. induction 1 as [|b data Hb _ IH]; intros crc; [done|].
  rewrite bind_cons, foldl_app. cbn [foldl]. by rewrite IH, crc_byte_ref.
Qed.

Lemma crc_loop_reflected o data : crc_ready o -> refin o = 1 -> bytes_ok data -> forall reg,
  0 <= reg < 2 ^ width o ->
  foldl (crc_byte_reflected o) (rev_bits (Z.to_nat (width o)) reg) data =
  rev_bits (Z.to_nat (width o))
    (foldl (ref_bit (width o) (polynom o)) reg (data ≫= fun b => rev (byte_bits b))).
Proof.
  intros Ho Hin. induction 1 as [|b data Hb _ IH]; intros reg Hr; [done|].
  pose proof (ok_width o (proj1 Ho)) as Hw. pose proof (ok_polynom o (proj1 Ho)) as Hp.
  rewrite bind_cons, foldl_app. cbn [foldl]. rewrite crc_byte_reflected_ref by done.
  apply IH, ref_fold_bound; lia.
Qed.

Lemma rev_bits_involutive n x : 0 <= x < 2 ^ Z.of_nat n -> rev_bits n (rev_bits n x) = x.
Proof.
  intros Hx. apply Z.bits_inj'. intros k Hk. rewrite testbit_rev_bits by done.
  destruct (k <? Z.of_nat n) eqn:E; zbool; cbn [andb].
  - rewrite testbit_rev_bits by lia. ztests. cbn [andb]. f_equal. lia.
  - symmetry. apply (testbit_small _ (Z.of_nat n)); lia.
Qed.

(** The options a calculation leaves behind: the table is there. *)
Definition with_table (o : crc_options) : crc_options :=
  if is_table_generated o =? 0 then crc_generate_table o else o.

Lemma with_table_ready o : crc_ok o -> crc_ready (with_table o) /\
  width (with_table o) = width o /\ polynom (with_table o) = polynom o /\
  refin (with_table o) = refin o /\ refout (with_table o) = refout o /\
  final_xor (with_table o) = final_xor o /\ initial_optimized (with_table o) = initial_optimized o.
Proof.
  intros Ho. unfold with_table. destruct (is_table_generated o =? 0) eqn:E; zbool.
  - split; [|done]. split; [|done]. destruct Ho. constructor; fields; auto.
  - split; [|done]. split; [done|]. destruct (ok_table o Ho); done.
Qed.

(** Evaluate the test [refout ^ refin] on flags that are 0 or 1. *)
Ltac case_bits :=
  repeat match goal with
  | |- context [negb (Z.lxor ?a ?b =? 0)] =>
      let r := eval vm_compute in (negb (Z.lxor a b =? 0)) in
      change (negb (Z.lxor a b =? 0)) with r
  end; cbn [Z.eqb].

(** C37. The table-driven checksum of the redundancy layer is the bit-serial
    CRC: for every option set whose width is between 8 and 64 bits (all that
    come with a checksum), whose table is absent or was generated, and every
    message, reflected or not. *)
Theorem crc_calculate_bitwise o data :
  crc_ok o -> bytes_ok data -> crc_calculate o data = (crc_ref o data, with_table o).
Proof.
  intros Ho Hd. pose proof (ok_width o Ho) as Hw. pose proof (ok_polynom o Ho) as Hp.
  destruct (with_table_ready o Ho) as (Hready & Ewd & Epl & Ein & Eout & Exor & Einit).
  unfold crc_calculate. fold (with_table o). f_equal.
  rewrite Ein, Eout, Exor, Einit, Ewd, land_mask, Ewd by apply Hready. unfold crc_ref.
  set (n := Z.to_nat (width o)). assert (Hn : Z.of_nat n = width o) by lia.
  rewrite !lxor_mod by lia. f_equal.
  destruct (ok_refin o Ho) as [Hin|Hin]; rewrite Hin; cbn [Z.eqb negb].
  - pose proof (crc_loop (with_table o) data Hready ltac:(congruence) Hd (initial_optimized o)) as Hl.
    rewrite Ewd, Epl in Hl. 
    destruct (ok_refout o Ho) as [Hout|Hout]; rewrite Hout; case_bits.
    + rewrite Hl. symmetry. apply Z.mod_small, ref_fold_bound; [lia|done|apply Z.mod_pos_bound; lia].
    + rewrite reflect_rev by lia. fold n. rewrite <- (rev_bits_mod n (foldl _ _ _)), Hn. by rewrite Hl.
  - pose proof (crc_loop_reflected (with_table o) data Hready ltac:(congruence) Hd
      (initial_optimized o mod 2 ^ width o)) as Hl.
    rewrite Ewd, Epl in Hl. fold n in Hl.
    pose proof (rev_bits_mod n (initial_optimized o)) as Hi. rewrite Hn in Hi.
    rewrite (reflect_rev (initial_optimized o)) by lia. fold n. rewrite <- Hi, Hl by (apply Z.mod_pos_bound; lia).
    destruct (ok_refout o Ho) as [Hout|Hout]; rewrite Hout; case_bits; [|done].
    rewrite reflect_rev by lia. fold n. rewrite rev_bits_involutive; [done|].
    rewrite Hn. apply ref_fold_bound; [lia|done|apply Z.mod_pos_bound; lia].
Qed.

Lemma opts_ok : crc_ok crc_init_opt_b /\ crc_ok crc_init_opt_c /\ crc_ok crc_init_opt_d /\ crc_ok crc_init_opt_e.
Proof. repeat split; first [by left | by right | vm_compute; done]. Qed.

(** The catalogue's check values of the four polynomials on "123456789". *)
Lemma crc_calculate_bitwise_witness :
  let data := [49; 50; 51; 52; 53; 54; 55; 56; 57] in
  crc_ok crc_init_opt_c /\ bytes_ok data /\
  (crc_calculate crc_init_opt_c data).1 = 0xE3069283 /\
  crc_calculate crc_init_opt_c data = (crc_ref crc_init_opt_c data, with_table crc_init_opt_c).
Proof.
  intros data. assert (Hd : bytes_ok data) by (repeat constructor; unfold is_u8; lia).
  pose proof (proj1 (proj2 opts_ok)) as Ho.
  split; [exact Ho|]. split; [exact Hd|]. split; [vm_compute; reflexivity|].
  exact (crc_calculate_bitwise crc_init_opt_c data Ho Hd).
Defined.

Example crc_check_values :
  map (fun o => (crc_calculate o [49; 50; 51; 52; 53; 54; 55; 56; 57]).1)
    [crc_init_opt_b; crc_init_opt_d; crc_init_opt_e] = [0x0E7C650A; 0x2189; 0xBB3D].
Proof. vm_compute. reflexivity. Qed.
