(* ===== verification/Siphash.v ===== *)
(** * SipHash-2-4 and HalfSipHash-2-4 (src/c/util/rastasiphash24.c)

    [siphash] is translated with its pointer loop and its fall-through switch;
    [siphash_correct] shows that it absorbs exactly the words of the padded
    message.  [halfsiphash] is translated with the macro it really uses, the
    64-bit [ROTL], which on 32-bit words is a shift ([ROTL_H_is_shift]). *)

From stdpp Require Import base numbers list.
From Stdlib Require Import ZArith Lia.
From S2P Require Import Prelude.

Local Open Scope Z_scope.

(* rastasiphash24.c ROTL *)
Definition ROTL (x b : Z) : Z := Z.lor (u64 (Z.shiftl x b)) (Z.shiftr x (64 - b)).

Definition sipstate : Type := Z * Z * Z * Z.

(* rastasiphash24.c SIPROUND *)
Definition SIPROUND (v : sipstate) : sipstate :=
  let '(v0, v1, v2, v3) := v in
  let v0 := u64 (v0 + v1) in
  let v1 := ROTL v1 13 in
  let v1 := Z.lxor v1 v0 in
  let v0 := ROTL v0 32 in
  let v2 := u64 (v2 + v3) in
  let v3 := ROTL v3 16 in
  let v3 := Z.lxor v3 v2 in
  let v0 := u64 (v0 + v3) in
  let v3 := ROTL v3 21 in
  let v3 := Z.lxor v3 v0 in
  let v2 := u64 (v2 + v1) in
  let v1 := ROTL v1 17 in
  let v1 := Z.lxor v1 v2 in
  let v2 := ROTL v2 32 in
  (v0, v1, v2, v3).

Definition cROUNDS : nat := 2.
Definition dROUNDS : nat := 4.

Definition xor0 (v : sipstate) (x : Z) : sipstate := let '(a, b, c, d) := v in (Z.lxor a x, b, c, d).
Definition xor1 (v : sipstate) (x : Z) : sipstate := let '(a, b, c, d) := v in (a, Z.lxor b x, c, d).
Definition xor2 (v : sipstate) (x : Z) : sipstate := let '(a, b, c, d) := v in (a, b, Z.lxor c x, d).
Definition xor3 (v : sipstate) (x : Z) : sipstate := let '(a, b, c, d) := v in (a, b, c, Z.lxor d x).
Definition xor_all (v : sipstate) : Z :=
  let '(a, b, c, d) := v in Z.lxor (Z.lxor (Z.lxor a b) c) d.

(* rastasiphash24.c:164-173 siphash *)
Definition sip_absorb (v : sipstate) (m : Z) : sipstate :=
  let v := xor3 v m in
  let v := Nat.iter cROUNDS SIPROUND v in
  xor0 v m.

(** The loop over the full words: [in] has advanced to [end] when the fuel is
    used up. *)
(* rastasiphash24.c:164-173 siphash *)
Fixpoint sip_words (n : nat) (v : sipstate) (inp : list Z) : res (sipstate * list Z) :=
  match n with
  | O => Ok (v, inp)
  | S n => m ← read_at inp 0 8; sip_words n (sip_absorb v (le_dec m)) (drop 8 inp)
  end.

(** The fall-through switch on the [left] bytes. *)
(* rastasiphash24.c:175-199 siphash *)
Fixpoint sip_tail (n : nat) (b : Z) (inp : list Z) : res Z :=
  match n with
  | O => Ok b
  | S n =>
      c ← read_at inp (Z.of_nat n) 1;
      sip_tail n (Z.lor b (Z.shiftl (le_dec c) (8 * Z.of_nat n))) inp
  end.

(* rastasiphash24.c siphash *)
Definition siphash (inp : list Z) (inlen : Z) (k : list Z) (out : list Z) (outlen : Z) : res (list Z) :=
  _ ← ensure ((outlen =? 8) || (outlen =? 16)) AbortCalled;
  k0 ← read_at k 0 8;
  k1 ← read_at k 8 8;
  let v := (0x736f6d6570736575, 0x646f72616e646f6d, 0x6c7967656e657261, 0x7465646279746573) in
  let n := Z.land inlen 7 in
  let b := u64 (Z.shiftl inlen 56) in
  let v := xor0 (xor1 (xor2 (xor3 v (le_dec k1)) (le_dec k0)) (le_dec k1)) (le_dec k0) in
  let v := if outlen =? 16 then xor1 v 0xee else v in
  '(v, inp) ← sip_words (Z.to_nat (inlen / 8)) v inp;
  b ← sip_tail (Z.to_nat n) b inp;
  let v := sip_absorb v b in
  let v := if outlen =? 16 then xor2 v 0xee else xor2 v 0xff in
  let v := Nat.iter dROUNDS SIPROUND v in
  out ← write_at out 0 (le_enc 8 (xor_all v));
  if outlen =? 8 then mret out
  else
    let v := xor1 v 0xdd in
    let v := Nat.iter dROUNDS SIPROUND v in
    write_at out 8 (le_enc 8 (xor_all v)).

(** ** HalfSipHash *)

(** [ROTL] on a [uint32_t]: the left shift stays in 32 bits, the right shift is
    by 64 minus the amount, and the result is cut to 32 bits. *)
(* rastasiphash24.c ROTL *)
Definition ROTL_on32 (x b : Z) : Z := u32 (Z.lor (u32 (Z.shiftl x b)) (Z.shiftr x (64 - b))).
(* rastasiphash24.c ROTL_H *)
Definition ROTL_H (x b : Z) : Z := u32 (Z.lor (u32 (Z.shiftl x b)) (Z.shiftr x (32 - b))).

(* rastasiphash24.c SIPROUND_H *)
Definition SIPROUND_H (v : sipstate) : sipstate :=
  let '(v0, v1, v2, v3) := v in
  let v0 := u32 (v0 + v1) in
  let v1 := ROTL_on32 v1 5 in
  let v1 := Z.lxor v1 v0 in
  let v0 := ROTL_on32 v0 16 in
  let v2 := u32 (v2 + v3) in
  let v3 := ROTL_on32 v3 8 in
  let v3 := Z.lxor v3 v2 in
  let v0 := u32 (v0 + v3) in
  let v3 := ROTL_on32 v3 7 in
  let v3 := Z.lxor v3 v0 in
  let v2 := u32 (v2 + v1) in
  let v1 := ROTL_on32 v1 13 in
  let v1 := Z.lxor v1 v2 in
  let v2 := ROTL_on32 v2 16 in
  (v0, v1, v2, v3).

(* rastasiphash24.c:259-268 halfsiphash *)
Definition half_absorb (v : sipstate) (m : Z) : sipstate :=
  let v := xor3 v m in
  let v := Nat.iter cROUNDS SIPROUND_H v in
  xor0 v m.

(* rastasiphash24.c:259-268 halfsiphash *)
Fixpoint half_words (n : nat) (v : sipstate) (inp : list Z) : res (sipstate * list Z) :=
  match n with
  | O => Ok (v, inp)
  | S n => m ← read_at inp 0 4; half_words n (half_absorb v (le_dec m)) (drop 4 inp)
  end.

Definition xor13 (v : sipstate) : Z := let '(a, b, c, d) := v in Z.lxor b d.

(** The 8-byte key is read although the caller may have a shorter one. *)
(* rastasiphash24.c halfsiphash *)
Definition halfsiphash (inp : list Z) (inlen : Z) (k : list Z) (out : list Z) (outlen : Z) : res (list Z) :=
  _ ← ensure ((outlen =? 4) || (outlen =? 8)) AbortCalled;
  k0 ← read_at k 0 4;
  k1 ← read_at k 4 4;
  let v := (0, 0, 0x6c796765, 0x74656462) in
  let n := Z.land inlen 3 in
  let b := u32 (Z.shiftl inlen 24) in
  let v := xor0 (xor1 (xor2 (xor3 v (le_dec k1)) (le_dec k0)) (le_dec k1)) (le_dec k0) in
  let v := if outlen =? 8 then xor1 v 0xee else v in
  '(v, inp) ← half_words (Z.to_nat (inlen / 4)) v inp;
  b ← sip_tail (Z.to_nat n) b inp;
  let v := half_absorb v b in
  let v := if outlen =? 8 then xor2 v 0xee else xor2 v 0xff in
  let v := Nat.iter dROUNDS SIPROUND_H v in
  out ← write_at out 0 (le_enc 4 (xor13 v));
  if outlen =? 4 then mret out
  else
    let v := xor1 v 0xdd in
    let v := Nat.iter dROUNDS SIPROUND_H v in
    write_at out 4 (le_enc 4 (xor13 v)).

(* rastasiphash24.c generateSiphash24 *)
Definition generateSiphash24 (data : list Z) (data_length : Z) (key : list Z) (hash_type : Z)
    (result : list Z) : res (list Z) :=
  if hash_type =? 1 then halfsiphash data data_length key result 8
  else if hash_type =? 2 then siphash data data_length key result 16
  else write_at result 0 (zeros 8).

(** On a 32-bit word the macro that HalfSipHash uses loses the upper bits
    instead of rotating them in. *)
Lemma ROTL_H_is_shift x b : is_u32 x -> 0 < b < 32 -> ROTL_on32 x b = u32 (Z.shiftl x b).
Proof.
  intros Hx Hb. unfold ROTL_on32. rewrite (Z.shiftr_div_pow2 x) by lia.
  rewrite (Z.div_small x); [by rewrite Z.lor_0_r, u32_u32|].
  unfold is_u32 in Hx. split; [lia|]. eapply Z.lt_le_trans; [apply Hx|].
  change 4294967296 with (2 ^ 32). apply Z.pow_le_mono_r; lia.
Qed.

(** ** The padded message *)

(** The message is padded with zeros to 7 modulo 8 bytes, the low byte of the
    length closes the last word, and the words are absorbed one by one. *)
Definition sip_pad (msg : list Z) : list Z :=
  msg ++ zeros (7 - zlen msg mod 8) ++ [zlen msg mod 256].

Fixpoint chunks (n : nat) (w : nat) (l : list Z) : list (list Z) :=
  match n with
  | O => []
  | S n => take w l :: chunks n w (drop w l)
  end.

Definition siphash_ref (k0 k1 : Z) (msg : list Z) : list Z :=
  let v0 := (Z.lxor k0 0x736f6d6570736575, Z.lxor (Z.lxor k1 0x646f72616e646f6d) 0xee,
             Z.lxor k0 0x6c7967656e657261, Z.lxor k1 0x7465646279746573) in
  let words := le_dec <$> chunks (length (sip_pad msg) / 8) 8 (sip_pad msg) in
  let v := Nat.iter 4 SIPROUND (xor2 (foldl sip_absorb v0 words) 0xee) in
  le_enc 8 (xor_all v) ++ le_enc 8 (xor_all (Nat.iter 4 SIPROUND (xor1 v 0xdd))).

Lemma sip_words_ok n : forall v l, (8 * n <= length l)%nat ->
  sip_words n v l = Ok (foldl sip_absorb v (le_dec <$> chunks n 8 l), drop (8 * n) l).
Proof.
  induction n as [|n IH]; intros v l Hl; [done|]. cbn [sip_words chunks].
  rewrite read_at_ok by (unfold zlen; lia). mcbn. change (Z.to_nat 0) with 0%nat.
  rewrite drop_0, IH by (rewrite length_drop; lia). rewrite drop_drop, fmap_cons.
  cbn [foldl]. do 3 f_equal. lia.
Qed.

Lemma chunks_app n m w l x : (w * n <= length l)%nat ->
  chunks (n + m) w (l ++ x) = chunks n w l ++ chunks m w (drop (w * n) l ++ x).
Proof.
  revert l. induction n as [|n IH]; intros l Hl; [by rewrite Nat.mul_0_r|].
  cbn [Nat.add chunks app]. rewrite take_app_le, drop_app_le, IH by (rewrite ?length_drop; lia).
  do 3 f_equal. rewrite drop_drop. do 2 f_equal. lia.
Qed.

Lemma sip_tail_ok n : forall b l, (n <= length l)%nat -> bytes_ok l ->
  sip_tail n b l = Ok (Z.lor b (le_dec (take n l))).
Proof.
  induction n as [|n IH]; intros b l Hl Hb; cbn [sip_tail]; [by rewrite Z.lor_0_r|].
  destruct (lookup_lt_is_Some_2 l n) as [x Hx]; [lia|].
  rewrite read_at_ok by (unfold zlen; lia). mcbn. rewrite Nat2Z.id.
  rewrite (drop_S l x n Hx). change (take (Z.to_nat 1) (x :: drop (S n) l)) with [x].
  cbn [le_dec]. rewrite Z.mul_0_r, Z.add_0_r.
  rewrite IH by (done || lia). f_equal. rewrite <- Z.lor_assoc. f_equal.
  assert (Hlen : length (take n l) = n) by (rewrite length_take; lia).
  rewrite lor_shift_add; [| lia |].
  - rewrite (take_S_r _ _ x) by done. rewrite le_dec_app, Hlen. cbn [le_dec].
    rewrite Z.pow_mul_r by lia. change (2 ^ 8) with 256. lia.
  - rewrite Z.pow_mul_r by lia. change (2 ^ 8) with 256.
    pose proof (le_dec_bound (take n l) (bytes_ok_take _ _ Hb)) as Hd. by rewrite Hlen in Hd.
Qed.

(** The last word: what is left of the message under the length byte. *)
Lemma last_word msg tail : (length tail <= 7)%nat -> bytes_ok tail ->
  Z.lor (u64 (Z.shiftl (zlen msg) 56)) (le_dec tail) =
  le_dec (tail ++ zeros (7 - zlen tail) ++ [zlen (A := Z) msg mod 256]).
Proof.
  intros Hl Hb. rewrite !le_dec_app, le_dec_zeros. cbn [le_dec].
  assert (H56 : u64 (Z.shiftl (zlen msg) 56) = Z.shiftl (zlen msg mod 256) 56).
  { rewrite !Z.shiftl_mul_pow2 by lia. unfold u64.
    change 18446744073709551616 with (256 * 2 ^ 56). by rewrite Z.mul_mod_distr_r by lia. }
  rewrite H56, lor_shift_add; [|lia|].
  - unfold zeros, zlen. rewrite length_replicate, Z.add_0_l, Z.mul_assoc, <- Z.pow_add_r by lia.
    rewrite Z2Nat.id by lia. replace (Z.of_nat (length tail) + (7 - Z.of_nat (length tail))) with 7 by lia.
    change (256 ^ 7) with (2 ^ 56). lia.
  - pose proof (le_dec_bound tail Hb) as [H0 H1]. split; [done|]. eapply Z.lt_le_trans; [apply H1|].
    change (2 ^ 56) with (256 ^ 7). apply Z.pow_le_mono_r; lia.
Qed.

Lemma sip_init c0 c1 c2 c3 k0 k1 :
  xor1 (xor0 (xor1 (xor2 (xor3 (c0, c1, c2, c3) k1) k0) k1) k0) 0xee =
  (Z.lxor k0 c0, Z.lxor (Z.lxor k1 c1) 0xee, Z.lxor k0 c2, Z.lxor k1 c3).
Proof.
  cbn [xor0 xor1 xor2 xor3]. by rewrite (Z.lxor_comm c0), (Z.lxor_comm c1), (Z.lxor_comm c2), (Z.lxor_comm c3).
Qed.

Lemma siphash_eq_ref msg key out :
  bytes_ok msg -> (16 <= length key)%nat -> length out = 16%nat ->
  siphash msg (zlen msg) key out 16 =
  Ok (siphash_ref (le_dec (take 8 key)) (le_dec (take 8 (drop 8 key))) msg).
Proof.
  intros Hb Hk Ho. unfold siphash, siphash_ref. cbn [ensure Z.eqb orb Pos.eqb]. mcbn.
  rewrite !read_at_ok by (unfold zlen; lia). mcbn.
  set (n := (length msg / 8)%nat).
  assert (Hdiv : (length msg = 8 * n + length msg mod 8)%nat) by apply Nat.div_mod_eq.
  assert (Hmod : (length msg mod 8 < 8)%nat) by (apply Nat.mod_upper_bound; lia).
  assert (Hn : Z.to_nat (zlen msg / 8) = n)
    by (unfold zlen, n; rewrite <- (Nat2Z.inj_div _ 8); apply Nat2Z.id).
  rewrite Hn, sip_words_ok by lia. mcbn.
  set (tail := drop (8 * n) msg).
  assert (Htl : length tail = (length msg mod 8)%nat) by (unfold tail; rewrite length_drop; lia).
  assert (Hland : Z.to_nat (Z.land (zlen msg) 7) = length tail).
  { change 7 with (Z.ones 3). rewrite Z.land_ones by lia. unfold zlen. change (2 ^ 3) with (Z.of_nat 8).
    rewrite <- Nat2Z.inj_mod, Nat2Z.id. by symmetry. }
  rewrite Hland, sip_tail_ok by (try done; by apply bytes_ok_drop). mcbn. rewrite firstn_all.
  assert (Hb' : bytes_ok tail) by (by apply bytes_ok_drop).
  rewrite (last_word msg tail) by (done || lia).
  assert (Hz : zlen msg mod 8 = zlen tail).
  { unfold zlen. rewrite Htl. change 8 with (Z.of_nat 8). by rewrite Nat2Z.inj_mod. }
  assert (Hpad : length (sip_pad msg) = (8 * (n + 1))%nat).
  { unfold sip_pad, zeros. rewrite !length_app, length_replicate, Hz. cbn [length]. unfold zlen. lia. }
  rewrite Hpad, (Nat.mul_comm 8), Nat.div_mul by lia. unfold sip_pad. rewrite chunks_app by lia.
  fold tail. rewrite fmap_app, foldl_app, Hz. cbn [chunks fmap list_fmap foldl].
  rewrite (take_ge (tail ++ _)).
  2:{ unfold zeros. rewrite !length_app, length_replicate. cbn [length]. unfold zlen. lia. }
  cbn [app]. change (Z.to_nat 8) with 8%nat. change (Z.to_nat 0) with 0%nat. rewrite drop_0, sip_init.
  generalize (foldl sip_absorb (Z.lxor (le_dec (take 8 key)) 0x736f6d6570736575,
    Z.lxor (Z.lxor (le_dec (take 8 (drop 8 key))) 0x646f72616e646f6d) 0xee,
    Z.lxor (le_dec (take 8 key)) 0x6c7967656e657261,
    Z.lxor (le_dec (take 8 (drop 8 key))) 0x7465646279746573) (le_dec <$> chunks n 8 msg)).
  intros v. generalize (sip_absorb v (le_dec (tail ++ zeros (7 - zlen tail) ++ [zlen msg mod 256]))).
  intros v'. change dROUNDS with 4%nat.
  rewrite (write_junk [] out); [|rewrite length_le_enc; lia]. mcbn. cbn [app].
  set (x := le_enc 8 _). assert (Hx : zlen x = 8) by (unfold zlen, x; by rewrite length_le_enc).
  assert (Hx8 : length x = 8%nat) by apply length_le_enc.
  rewrite <- Hx at 1. rewrite write_junk; rewrite ?length_drop, ?length_le_enc; [|lia].
  rewrite (drop_ge (drop _ out)) by (rewrite length_drop, ?length_le_enc; lia). by rewrite app_nil_r.
Qed.



(** The first vectors of the SipHash distribution (key 00 01 .. 0f). *)
Example siphash_vectors :
  let key := [0; 1; 2; 3; 4; 5; 6; 7; 8; 9; 10; 11; 12; 13; 14; 15] in
  siphash [] 0 key (zeros 8) 8 = Ok [0x31; 0x0e; 0x0e; 0xdd; 0x47; 0xdb; 0x6f; 0x72] /\
  siphash [0] 1 key (zeros 8) 8 = Ok [0xfd; 0x67; 0xdc; 0x93; 0xc5; 0x39; 0xf8; 0x74] /\
  siphash [0] 1 key (zeros 16) 16 =
    Ok [0xda; 0x87; 0xc1; 0xd8; 0x6b; 0x99; 0xaf; 0x44; 0x34; 0x76; 0x59; 0x11; 0x9b; 0x22; 0xfc; 0x45].
Proof. vm_compute. auto. Qed.

(** A key shorter than 16 bytes is read out of bounds. *)
Lemma siphash_short_key msg inlen key out : (length key < 16)%nat ->
  siphash msg inlen key out 16 = Fail OutOfBounds.
Proof.
  intros Hk. unfold siphash. cbn [ensure Z.eqb orb Pos.eqb]. mcbn.
  destruct (read_at key 0 8) as [k0|e] eqn:E0; mcbn.
  - rewrite read_at_fail by (unfold zlen; lia). done.
  - unfold read_at, ensure in E0. destruct (_ && _) in E0; [done|]. cbn in E0. congruence.
Qed.

(** ** Totality, whatever the key *)

Lemma sip_words_total n : forall v l, (8 * n <= length l)%nat ->
  exists v', sip_words n v l = Ok (v', drop (8 * n) l).
Proof. intros v l Hl. rewrite sip_words_ok by done. eauto. Qed.

Lemma half_words_total n : forall v l, (4 * n <= length l)%nat ->
  exists v', half_words n v l = Ok (v', drop (4 * n) l).
Proof.
  induction n as [|n IH]; intros v l Hl; cbn [half_words]; [by eexists|].
  rewrite read_at_ok by (unfold zlen; lia). mcbn.
  destruct (IH (half_absorb v (le_dec (take (Z.to_nat 4) (drop (Z.to_nat 0) l)))) (drop 4 l)) as [v' ->];
    [rewrite length_drop; lia|].
  exists v'. rewrite drop_drop. do 3 f_equal. lia.
Qed.

(** The rest of the message behind its full [w]-byte words. *)
Lemma rest_length (l : list Z) (w : nat) : (0 < w)%nat ->
  let n := Z.to_nat (zlen l / Z.of_nat w) in
  (w * n <= length l)%nat /\ length (drop (w * n) l) = Z.to_nat (zlen l mod Z.of_nat w).
Proof.
  intros Hw n. assert (Hn : n = (length l / w)%nat)
    by (unfold n, zlen; rewrite <- Nat2Z.inj_div; apply Nat2Z.id).
  pose proof (Nat.div_mod_eq (length l) w). rewrite length_drop, Hn.
  split; [lia|]. unfold zlen. rewrite <- Nat2Z.inj_mod, Nat2Z.id. lia.
Qed.

Lemma halfsiphash_total msg key out :
  bytes_ok msg -> (8 <= length key)%nat -> (8 <= length out)%nat ->
  exists code, halfsiphash msg (zlen msg) key out 8 = Ok (code ++ drop 8 out) /\
    length code = 8%nat /\ bytes_ok code.
Proof.
  intros Hb Hk Ho. unfold halfsiphash. cbn [ensure Z.eqb orb Pos.eqb]. mcbn.
  rewrite !read_at_ok by (unfold zlen; lia). mcbn.
  destruct (rest_length msg 4) as [Hn Hrest]; [lia|]. change (Z.of_nat 4) with 4 in *.
  edestruct half_words_total as [v ->]; [exact Hn|]. mcbn.
  change 3 with (Z.ones 2). rewrite Z.land_ones by lia. change (2 ^ 2) with 4. rewrite <- Hrest.
  rewrite sip_tail_ok by (try done; by apply bytes_ok_drop). mcbn.
  rewrite (write_junk [] out); [|rewrite length_le_enc; lia]. mcbn. cbn [app].
  set (x := le_enc 4 _). set (y := le_enc 4 _).
  assert (Hx : length x = 4%nat) by apply length_le_enc.
  assert (Hy : length y = 4%nat) by apply length_le_enc.
  exists (x ++ y). rewrite length_app, bytes_ok_app. split; [|split; [lia|split; apply le_enc_bytes]].
  replace 4 with (zlen x) by (unfold zlen; lia). rewrite write_junk by (rewrite length_drop; lia).
  rewrite drop_drop, Hx, Hy. done.
Qed.

Lemma siphash_total msg key out :
  bytes_ok msg -> (16 <= length key)%nat -> length out = 16%nat ->
  exists code, siphash msg (zlen msg) key out 16 = Ok code /\ length code = 16%nat /\ bytes_ok code.
Proof.
  intros Hb Hk Ho. rewrite siphash_eq_ref by done. eexists. split; [done|]. unfold siphash_ref.
  rewrite length_app, !length_le_enc, bytes_ok_app. split; [done|split; apply le_enc_bytes].
Qed.
