(* ===== verification/Blake2.v ===== *)
(** * BLAKE2b (src/c/util/rastablake2.c, rastablake2.h)

    The compression function, the byte-wise streaming interface and the entry
    point of the safety code.  [blake2b_correct] shows that init, update and
    final compute the block-wise function of RFC 7693, section 3.3. *)

From stdpp Require Import base numbers list.
From Stdlib Require Import ZArith Lia.
From S2P Require Import Prelude.

Local Open Scope Z_scope.
Local Open Scope record_scope.

(* rastablake2.c ROTR64 *)
Definition ROTR64 (x y : Z) : Z := Z.lxor (Z.shiftr x y) (u64 (Z.shiftl x (64 - y))).

(* rastablake2.c:43-51 B2B_GET64 *)
Definition B2B_GET64 (p : list Z) : Z := le_dec (take 8 p).

Definition word (v : list Z) (i : nat) : Z := nth i v 0.

(* rastablake2.c B2B_G *)
Definition B2B_G (v : list Z) (a b c d : nat) (x y : Z) : list Z :=
  let v := <[a := u64 (word v a + word v b + x)]> v in
  let v := <[d := ROTR64 (Z.lxor (word v d) (word v a)) 32]> v in
  let v := <[c := u64 (word v c + word v d)]> v in
  let v := <[b := ROTR64 (Z.lxor (word v b) (word v c)) 24]> v in
  let v := <[a := u64 (word v a + word v b + y)]> v in
  let v := <[d := ROTR64 (Z.lxor (word v d) (word v a)) 16]> v in
  let v := <[c := u64 (word v c + word v d)]> v in
  <[b := ROTR64 (Z.lxor (word v b) (word v c)) 63]> v.

(* rastablake2.c:69-73 blake2b_iv *)
Definition blake2b_iv : list Z :=
  [0x6A09E667F3BCC908; 0xBB67AE8584CAA73B; 0x3C6EF372FE94F82B; 0xA54FF53A5F1D36F1;
   0x510E527FADE682D1; 0x9B05688C2B3E6C1F; 0x1F83D9ABFB41BD6B; 0x5BE0CD19137E2179].

(* rastablake2.c:78-90 blake2b_compress *)
Definition sigma : list (list nat) :=
  [[0; 1; 2; 3; 4; 5; 6; 7; 8; 9; 10; 11; 12; 13; 14; 15];
   [14; 10; 4; 8; 9; 15; 13; 6; 1; 12; 0; 2; 11; 7; 5; 3];
   [11; 8; 12; 0; 5; 2; 15; 13; 10; 14; 3; 6; 7; 1; 9; 4];
   [7; 9; 3; 1; 13; 12; 11; 14; 2; 6; 5; 10; 4; 0; 15; 8];
   [9; 0; 5; 7; 2; 4; 10; 15; 14; 1; 11; 12; 6; 8; 3; 13];
   [2; 12; 6; 10; 0; 11; 8; 3; 4; 13; 7; 5; 15; 14; 1; 9];
   [12; 5; 1; 15; 14; 13; 4; 10; 0; 7; 6; 3; 9; 2; 8; 11];
   [13; 11; 7; 14; 12; 1; 3; 9; 5; 0; 15; 4; 8; 6; 2; 10];
   [6; 15; 14; 9; 11; 3; 0; 8; 12; 2; 13; 7; 1; 4; 10; 5];
   [10; 2; 8; 4; 7; 6; 1; 5; 15; 11; 9; 14; 3; 12; 13; 0];
   [0; 1; 2; 3; 4; 5; 6; 7; 8; 9; 10; 11; 12; 13; 14; 15];
   [14; 10; 4; 8; 9; 15; 13; 6; 1; 12; 0; 2; 11; 7; 5; 3]]%nat.

(* rastablake2.c:107-114 blake2b_compress *)
Definition blake2b_round (m : list Z) (v : list Z) (s : list nat) : list Z :=
  let w := fun i => word m (nth i s 0%nat) in
  let v := B2B_G v 0 4 8 12 (w 0%nat) (w 1%nat) in
  let v := B2B_G v 1 5 9 13 (w 2%nat) (w 3%nat) in
  let v := B2B_G v 2 6 10 14 (w 4%nat) (w 5%nat) in
  let v := B2B_G v 3 7 11 15 (w 6%nat) (w 7%nat) in
  let v := B2B_G v 0 5 10 15 (w 8%nat) (w 9%nat) in
  let v := B2B_G v 1 6 11 12 (w 10%nat) (w 11%nat) in
  let v := B2B_G v 2 7 8 13 (w 12%nat) (w 13%nat) in
  B2B_G v 3 4 9 14 (w 14%nat) (w 15%nat).

(** The compression function on the parts of the context it uses. *)
(* rastablake2.c:91-118 blake2b_compress *)
Definition compress (h b : list Z) (t0 t1 : Z) (final : bool) : list Z :=
  let v := h ++ blake2b_iv in
  let v := <[12%nat := Z.lxor (word v 12) t0]> v in
  let v := <[13%nat := Z.lxor (word v 13) t1]> v in
  let v := if final then <[14%nat := Z.lxor (word v 14) 0xFFFFFFFFFFFFFFFF]> v else v in
  let m := (fun i => B2B_GET64 (drop (8 * i) b)) <$> seq 0 16 in
  let v := foldl (blake2b_round m) v sigma in
  (fun i => Z.lxor (word h i) (Z.lxor (word v i) (word v (i + 8)))) <$> seq 0 8.

(* rastablake2.h rasta_blake2b_ctx *)
Record rasta_blake2b_ctx := mkBlake {
  b : list Z; h : list Z; t0 : Z; t1 : Z; c : Z; outlen : Z
}.
#[export] Instance eta_blake : Eta rasta_blake2b_ctx := fun r =>
  mkBlake (b r) (h r) (t0 r) (t1 r) (c r) (outlen r).

(* rastablake2.c blake2b_compress *)
Definition blake2b_compress (ctx : rasta_blake2b_ctx) (final : bool) : rasta_blake2b_ctx :=
  ctx <| h := compress (h ctx) (b ctx) (t0 ctx) (t1 ctx) final |>.

(** [t += c] on the 128-bit counter. *)
(* rastablake2.c:160-162 rasta_blake2b_update *)
Definition blake2b_count (ctx : rasta_blake2b_ctx) : rasta_blake2b_ctx :=
  let ctx := ctx <| t0 := u64 (t0 ctx + c ctx) |> in
  if t0 ctx <? c ctx then ctx <| t1 := u64 (t1 ctx + 1) |> else ctx.

(* rastablake2.c:159-166 rasta_blake2b_update *)
Definition blake2b_byte (ctx : rasta_blake2b_ctx) (x : Z) : res rasta_blake2b_ctx :=
  let ctx := if c ctx =? 128
             then (blake2b_compress (blake2b_count ctx) false) <| c := 0 |>
             else ctx in
  b' ← write_at (b ctx) (c ctx) [x];
  mret (ctx <| b := b' |> <| c := c ctx + 1 |>).

(* rastablake2.c:158-167 rasta_blake2b_update *)
Fixpoint blake2b_bytes (ctx : rasta_blake2b_ctx) (inp : list Z) : res rasta_blake2b_ctx :=
  match inp with
  | [] => Ok ctx
  | x :: inp => ctx ← blake2b_byte ctx x; blake2b_bytes ctx inp
  end.

(* rastablake2.c rasta_blake2b_update *)
Definition rasta_blake2b_update (ctx : rasta_blake2b_ctx) (inp : list Z) (inlen : Z) :
    res rasta_blake2b_ctx :=
  inp ← read_at inp 0 inlen; blake2b_bytes ctx inp.

(** [None]: illegal parameters.  The first [keylen] bytes of the buffer keep
    what the memory held. *)
(* rastablake2.c rasta_blake2b_init *)
Definition rasta_blake2b_init (ctx : rasta_blake2b_ctx) (outlen : Z) (key : list Z) (keylen : Z) :
    res (option rasta_blake2b_ctx) :=
  if (outlen =? 0) || (64 <? outlen) || (64 <? keylen) then mret None
  else
    let h := <[0%nat := Z.lxor (word blake2b_iv 0)
                          (Z.lxor (Z.lxor 0x01010000 (Z.shiftl keylen 8)) outlen)]> blake2b_iv in
    b ← write_at (b ctx) keylen (zeros (128 - keylen));
    let ctx := mkBlake b h 0 0 0 outlen in
    if 0 <? keylen then
      ctx ← rasta_blake2b_update ctx key keylen;
      mret (Some (ctx <| c := 128 |>))
    else mret (Some ctx).

(* rastablake2.c:184-187 rasta_blake2b_final *)
Definition h_bytes (h : list Z) (n : Z) : list Z :=
  (fun i => Z.land (Z.shiftr (word h (i / 8)) (8 * Z.of_nat (i mod 8))) 0xFF) <$> seq 0 (Z.to_nat n).

(* rastablake2.c rasta_blake2b_final *)
Definition rasta_blake2b_final (ctx : rasta_blake2b_ctx) (out : list Z) :
    res (list Z * rasta_blake2b_ctx) :=
  let ctx := blake2b_count ctx in
  b' ← write_at (b ctx) (c ctx) (zeros (128 - c ctx));
  let ctx := blake2b_compress (ctx <| b := b' |> <| c := 128 |>) true in
  out ← write_at out 0 (h_bytes (h ctx) (outlen ctx));
  mret (out, ctx).

(* rastablake2.c rasta_blake2b *)
Definition rasta_blake2b (ctx : rasta_blake2b_ctx) (out : list Z) (outlen : Z) (key : list Z)
    (keylen : Z) (inp : list Z) (inlen : Z) : res (option (list Z)) :=
  r ← rasta_blake2b_init ctx outlen key keylen;
  match r with
  | None => mret None
  | Some ctx =>
      ctx ← rasta_blake2b_update ctx inp inlen;
      '(out, _) ← rasta_blake2b_final ctx out;
      mret (Some out)
  end.

Definition blake_garbage : rasta_blake2b_ctx := mkBlake (zeros 128) (zeros 8) 0 0 0 0.

(** [rmemset(result, 8, 0)] sets no byte: its last two arguments are swapped. *)
(* rastablake2.c generateBlake2 *)
Definition generateBlake2 (data : list Z) (data_length : Z) (key : list Z) (key_length : Z)
    (hash_type : Z) (result : list Z) : res (list Z) :=
  let hash_len := hash_type * 8 in
  if hash_len =? 0 then mret result
  else
    r ← rasta_blake2b_init blake_garbage (u64 hash_len) key (u64 key_length);
    match r with
    | None => mret result
    | Some ctx =>
        ctx ← rasta_blake2b_update ctx data (u64 data_length);
        '(result, _) ← rasta_blake2b_final ctx result;
        mret result
    end.

(** ** RFC 7693 *)

Definition pad128 (blk : list Z) : list Z := blk ++ zeros (128 - zlen blk).

(** Fold over the data blocks; [t] counts the bytes absorbed. *)
Fixpoint rfc_blocks (n : nat) (h : list Z) (t : Z) (msg : list Z) : list Z :=
  match n with
  | O => h
  | S n => rfc_blocks n (compress h (take 128 msg) (u64 (t + 128)) ((t + 128) / 2 ^ 64) false)
             (t + 128) (drop 128 msg)
  end.

(** All blocks but the last are compressed as they are; the last one (which may
    be full, and is the empty block for an empty unkeyed message) is padded and
    compressed with the total count and the final flag. *)
Definition blake2b_ref (nn : Z) (key msg : list Z) : list Z :=
  let kk := zlen key in
  let h0 := <[0%nat := Z.lxor (word blake2b_iv 0)
                         (Z.lxor (Z.lxor 0x01010000 (Z.shiftl kk 8)) nn)]> blake2b_iv in
  let d := (if kk =? 0 then [] else pad128 key) ++ msg in
  let dd := ((length d - 1) / 128)%nat in
  let h := rfc_blocks dd h0 0 d in
  h_bytes (compress h (pad128 (drop (128 * dd) d)) (u64 (zlen d)) (zlen d / 2 ^ 64) true) nn.

(** ** The streaming code absorbs the blocks of the RFC

    [blake_rep h0 d ctx]: the context has absorbed the stream [d]; the last
    block, even a full one, is still in the buffer. *)

Record blake_rep (h0 : list Z) (d : list Z) (ctx : rasta_blake2b_ctx) (q : nat)
    (full tail junk : list Z) : Prop := {
  rep_stream : d = full ++ tail;
  rep_full : length full = (128 * q)%nat;
  rep_tail : tail = [] -> q = 0%nat;
  rep_buf : b ctx = tail ++ junk;
  rep_room : (length tail + length junk = 128)%nat;
  rep_c : c ctx = zlen tail;
  rep_h : h ctx = rfc_blocks q h0 0 full;
  rep_t0 : t0 ctx = u64 (zlen full);
  rep_t1 : t1 ctx = zlen full / 2 ^ 64
}.

Lemma rfc_blocks_snoc n : forall h t full blk, length full = (128 * n)%nat -> length blk = 128%nat ->
  rfc_blocks (n + 1) h t (full ++ blk) =
  compress (rfc_blocks n h t full) blk (u64 (t + zlen full + 128)) ((t + zlen full + 128) / 2 ^ 64) false.
Proof.
  induction n as [|n IH]; intros h t full blk Hf Hb.
  - destruct full; [|done]. cbn [Nat.add rfc_blocks app]. rewrite take_ge by lia.
    change (zlen []) with 0. by rewrite Z.add_0_r.
  - cbn [Nat.add rfc_blocks]. rewrite take_app_le, drop_app_le, IH by (rewrite ?length_drop; lia).
    replace (t + 128 + zlen (drop 128 full)) with (t + zlen full); [done|].
    unfold zlen. rewrite length_drop. lia.
Qed.

Lemma blake2b_count_ok ctx T : t0 ctx = u64 T -> t1 ctx = T / 2 ^ 64 -> 0 <= T -> 0 <= c ctx <= 128 ->
  T + c ctx < 2 ^ 128 ->
  blake2b_count ctx = ctx <| t0 := u64 (T + c ctx) |> <| t1 := (T + c ctx) / 2 ^ 64 |>.
Proof.
  intros H0 H1 HT Hc Hlt. unfold blake2b_count. fields. rewrite H0, H1, u64_add_l.
  change (2 ^ 128) with (18446744073709551616 * 18446744073709551616) in Hlt.
  destruct ctx as [b0 h0 a0 a1 c0 o0]. cbn in *. unfold setf; cbn. subst a0 a1.
  case_if; zbool; f_equal; unfold u64 in *; Z.to_euclidean_division_equations; nia.
Qed.

Lemma rep_c_bound h0 d ctx q full tail junk :
  blake_rep h0 d ctx q full tail junk -> 0 <= c ctx <= 128 /\ zlen full + c ctx = zlen d.
Proof.
  intros Hr. pose proof (rep_room _ _ _ _ _ _ _ Hr). rewrite (rep_c _ _ _ _ _ _ _ Hr).
  rewrite (rep_stream _ _ _ _ _ _ _ Hr), zlen_app. unfold zlen. lia.
Qed.

Lemma blake2b_byte_rep h0 d ctx q full tail junk x :
  blake_rep h0 d ctx q full tail junk -> zlen d < 2 ^ 128 ->
  exists ctx' q' full' tail' junk', blake2b_byte ctx x = Ok ctx' /\ outlen ctx' = outlen ctx /\
    blake_rep h0 (d ++ [x]) ctx' q' full' tail' junk'.
Proof.
  intros Hr Hlt. destruct (rep_c_bound _ _ _ _ _ _ _ Hr) as [Hc Hd].
  destruct Hr as [Hs Hf Ht Hb Hroom Hcc Hh H0 H1]. unfold blake2b_byte.
  destruct (c ctx =? 128) eqn:E; zbool.
  - rewrite (blake2b_count_ok ctx (zlen full)) by (done || lia || apply zlen_nonneg).
    assert (junk = []) as -> by (destruct junk; [done|cbn in Hroom; unfold zlen in *; lia]).
    rewrite app_nil_r in Hb. unfold blake2b_compress. fields. rewrite Hb.
    pose proof (write_junk [] tail [x]) as W. cbn [app] in W. change (zlen []) with 0 in W.
    assert (Ht128 : length tail = 128%nat) by (unfold zlen in Hcc; lia).
    rewrite W by (cbn; lia). mcbn. clear W. cbn [app length].
    eexists _, (q + 1)%nat, (full ++ tail), [x], (drop 1 tail). split; [done|]. split; [done|].
    split; fields; try done.
    + by rewrite Hs, <- app_assoc.
    + rewrite length_app. cbn in Hroom. lia.
    + rewrite length_drop. cbn in *. lia.
    + rewrite Hh, rfc_blocks_snoc by (cbn in *; lia). rewrite E. by rewrite Z.add_0_l.
    + rewrite zlen_app, <- Hcc. done.
    + rewrite zlen_app, <- Hcc. done.
  - rewrite Hb, Hcc, write_junk by (cbn; unfold zlen in *; lia). mcbn. cbn [length].
    eexists _, q, full, (tail ++ [x]), (drop 1 junk). split; [done|]. split; [done|].
    split; fields; try done.
    + by rewrite Hs, <- app_assoc.
    + intros Hnil. by destruct tail.
    + rewrite length_app, length_drop. cbn. unfold zlen in *. lia.
    + by rewrite zlen_app.
Qed.

Lemma blake2b_bytes_rep h0 inp : forall d ctx q full tail junk,
  blake_rep h0 d ctx q full tail junk -> zlen d + zlen inp <= 2 ^ 128 ->
  exists ctx' q' full' tail' junk', blake2b_bytes ctx inp = Ok ctx' /\ outlen ctx' = outlen ctx /\
    blake_rep h0 (d ++ inp) ctx' q' full' tail' junk'.
Proof.
  induction inp as [|x inp IH]; intros d ctx q full tail junk Hr Hlt; cbn [blake2b_bytes].
  - rewrite app_nil_r. eauto 10.
  - rewrite zlen_cons in Hlt. pose proof (zlen_nonneg inp).
    destruct (blake2b_byte_rep h0 d ctx q full tail junk x Hr) as
      (ctx1 & q1 & f1 & t1' & j1 & -> & Ho & Hr1); [lia|]. mcbn.
    destruct (IH _ _ _ _ _ _ Hr1) as (ctx2 & q2 & f2 & t2 & j2 & -> & Ho2 & Hr2).
    + rewrite zlen_app. change (zlen [x]) with 1. lia.
    + rewrite <- app_assoc in Hr2. cbn in Hr2. rewrite Ho in Ho2. eauto 10.
Qed.

Lemma rep_last h0 d ctx q full tail junk : blake_rep h0 d ctx q full tail junk ->
  q = ((length d - 1) / 128)%nat /\ tail = drop (128 * q) d /\ rfc_blocks q h0 0 full = rfc_blocks q h0 0 d.
Proof.
  intros [Hs Hf Ht _ Hroom _ _ _ _]. split; [|split].
  - subst d. rewrite length_app, Hf. destruct tail as [|y tail].
    + rewrite (Ht eq_refl). done.
    + cbn [length] in *. replace (128 * q + S (length tail) - 1)%nat with (length tail + q * 128)%nat by lia.
      rewrite Nat.div_add, Nat.div_small; lia.
  - by rewrite Hs, <- Hf, drop_app_length.
  - subst d. revert Hf. generalize h0 as hh, 0 as t. clear. revert full.
    induction q as [|q IH]; intros full hh t Hf; [done|]. cbn [rfc_blocks].
    rewrite take_app_le, drop_app_le by lia. apply IH. rewrite length_drop. lia.
Qed.

Lemma blake2b_final_rep h0 d ctx q full tail junk out :
  blake_rep h0 d ctx q full tail junk -> zlen d < 2 ^ 128 -> 0 <= outlen ctx <= zlen out ->
  exists ctx', rasta_blake2b_final ctx out = Ok (
    let dd := ((length d - 1) / 128)%nat in
    h_bytes (compress (rfc_blocks dd h0 0 d) (pad128 (drop (128 * dd) d)) (u64 (zlen d)) (zlen d / 2 ^ 64) true)
      (outlen ctx) ++ drop (Z.to_nat (outlen ctx)) out, ctx').
Proof.
  intros Hr Hlt Hout. destruct (rep_c_bound _ _ _ _ _ _ _ Hr) as [Hc Hd].
  cbv zeta. destruct (rep_last _ _ _ _ _ _ _ Hr) as (<- & <- & <-).
  destruct Hr as [Hs Hf Ht Hb Hroom Hcc Hh H0 H1]. unfold rasta_blake2b_final.
  rewrite (blake2b_count_ok ctx (zlen full)) by (done || lia || apply zlen_nonneg). fields.
  assert (Hz : length (zeros (128 - zlen tail)) = length junk)
    by (unfold zeros, zlen; rewrite length_replicate; lia).
  rewrite Hb, Hcc, write_junk by lia. mcbn. rewrite drop_ge, app_nil_r by lia.
  unfold blake2b_compress. fields. rewrite <- Hcc, Hd, Hh, Hcc. 
  rewrite (write_junk [] out); unfold h_bytes; rewrite length_fmap, length_seq; [mcbn; eauto|].
  unfold zlen in Hout. lia.
Qed.

(** Bytes that fit are just stored. *)
Lemma blake2b_bytes_short inp : forall ctx tail junk,
  b ctx = tail ++ junk -> c ctx = zlen tail -> (length tail + length junk = 128)%nat ->
  (length inp <= length junk)%nat ->
  blake2b_bytes ctx inp =
  Ok (ctx <| b := (tail ++ inp) ++ drop (length inp) junk |> <| c := zlen tail + zlen inp |>).
Proof.
  induction inp as [|x inp IH]; intros ctx tail junk Hb Hc Hroom Hl; cbn [blake2b_bytes].
  - rewrite app_nil_r, drop_0, <- Hb. change (zlen []) with 0. rewrite Z.add_0_r, <- Hc. by destruct ctx.
  - cbn [length] in Hl. unfold blake2b_byte.
    assert (c ctx < 128) by (unfold zlen in Hc; lia). ztest (c ctx =? 128).
    rewrite Hb, Hc, write_junk by (cbn; lia). mcbn.
    rewrite (IH _ (tail ++ [x]) (drop 1 junk)); fields; rewrite ?length_app, ?length_drop; try (cbn; lia).
    + assert (H1 : ((tail ++ [x]) ++ inp) ++ drop (length inp) (drop 1 junk) =
                   (tail ++ x :: inp) ++ drop (length (x :: inp)) junk)
        by (rewrite drop_drop, <- (app_assoc tail); done).
      assert (H2 : zlen (tail ++ [x]) + zlen inp = zlen tail + zlen (x :: inp))
        by (rewrite zlen_app, !zlen_cons, zlen_nil; lia).
      rewrite H1, H2. by destruct ctx.
    + done.
    + by rewrite zlen_app.
Qed.

Lemma blake2b_init_rep ctx nn key :
  1 <= nn <= 64 -> zlen key <= 64 -> length (b ctx) = 128%nat ->
  exists ctx' q full tail junk, rasta_blake2b_init ctx nn key (zlen key) = Ok (Some ctx') /\
    outlen ctx' = nn /\
    blake_rep (<[0%nat := Z.lxor (word blake2b_iv 0)
                (Z.lxor (Z.lxor 0x01010000 (Z.shiftl (zlen key) 8)) nn)]> blake2b_iv)
      (if zlen key =? 0 then [] else pad128 key) ctx' q full tail junk.
Proof.
  intros Hnn Hk Hb. pose proof (zlen_nonneg key) as Hk0. unfold rasta_blake2b_init. ztests. cbn [orb].
  set (h0 := <[0%nat := _]> blake2b_iv).
  pose proof (write_junk (take (length key) (b ctx)) (drop (length key) (b ctx)) (zeros (128 - zlen key))) as W.
  assert (Hkl : (length key <= 64)%nat) by (unfold zlen in Hk; lia).
  assert (Htk : zlen (take (length key) (b ctx)) = zlen key)
    by (unfold zlen; rewrite length_take; lia).
  rewrite take_drop, Htk in W.
  assert (Hz : length (zeros (128 - zlen key)) = (128 - length key)%nat)
    by (unfold zeros, zlen; rewrite length_replicate; lia).
  rewrite W by (rewrite length_drop, Hz; lia). mcbn. clear W.
  rewrite (drop_ge (drop _ _)) by (rewrite length_drop, Hz; lia). rewrite app_nil_r.
  set (buf := take (length key) (b ctx) ++ zeros (128 - zlen key)).
  assert (Hbuf : length buf = 128%nat) by (unfold buf; rewrite length_app, length_take, Hz; lia).
  set (c0 := mkBlake buf h0 0 0 0 nn).
  destruct (0 <? zlen key) eqn:E; zbool.
  - unfold rasta_blake2b_update. rewrite read_all. mcbn.
    rewrite (blake2b_bytes_short key c0 [] buf) by (done || lia). mcbn. ztests.
    eexists _, 0%nat, [], (pad128 key), []. split; [done|]. split; [done|].
    unfold pad128. split; fields; try done.
    + cbn. unfold buf. rewrite drop_app_length'; [by rewrite app_nil_r|]. rewrite length_take. lia.
    + rewrite length_app, Hz. cbn. lia.
    + rewrite zlen_app. unfold zlen in *. rewrite Hz. lia.
  - assert (key = []) as -> by (destruct key; [done|rewrite zlen_cons in E; pose proof (zlen_nonneg key); lia]).
    eexists c0, 0%nat, [], [], buf. split; [done|]. split; [done|]. by split.
Qed.

Lemma blake2b_total ctx out key msg nn :
  1 <= nn <= 64 -> nn <= zlen out -> zlen key <= 64 -> zlen msg < 2 ^ 64 -> length (b ctx) = 128%nat ->
  exists c1 c2 c3, rasta_blake2b_init ctx nn key (zlen key) = Ok (Some c1) /\
    rasta_blake2b_update c1 msg (zlen msg) = Ok c2 /\
    rasta_blake2b_final c2 out = Ok (blake2b_ref nn key msg ++ drop (Z.to_nat nn) out, c3).
Proof.
  intros Hnn Hout Hk Hm Hb. unfold blake2b_ref.
  destruct (blake2b_init_rep ctx nn key Hnn Hk Hb) as (c1 & q & full & tail & junk & -> & Ho & Hr).
  unfold rasta_blake2b_update. rewrite read_all. mcbn.
  set (d0 := if zlen key =? 0 then [] else pad128 key) in *.
  assert (Hd0 : 0 <= zlen d0 <= 128).
  { unfold d0. case_if; zbool; [done|]. unfold pad128. rewrite zlen_app.
    pose proof (zlen_nonneg key). rewrite zlen_zeros; lia. }
  change (2 ^ 64) with 18446744073709551616 in Hm.
  destruct (blake2b_bytes_rep _ msg _ _ _ _ _ _ Hr) as (c2 & q2 & f2 & t2 & j2 & Hu & Ho2 & Hr2).
  { change (2 ^ 128) with 340282366920938463463374607431768211456. lia. }
  destruct (blake2b_final_rep _ _ _ _ _ _ _ out Hr2) as (c3 & Hf).
  - rewrite zlen_app. change (2 ^ 128) with 340282366920938463463374607431768211456. lia.
  - rewrite Ho2, Ho. lia.
  - exists c1, c2, c3. rewrite Hf, Ho2, Ho. done.
Qed.



(** RFC 7693, appendix A. *)
Example blake2b_abc : take 8 (blake2b_ref 64 [] [97; 98; 99]) =
  [0xBA; 0x80; 0xA5; 0x3F; 0x98; 0x1C; 0x4D; 0x0D].
Proof. vm_compute. reflexivity. Qed.

(** With no safety code wanted, the result is left as it was: the call that
    should clear it swaps the arguments of [rmemset]. *)
Lemma generateBlake2_none data n key k result :
  generateBlake2 data n key k 0 result = Ok result.
Proof. done. Qed.

Lemma generateBlake2_ok data key type result :
  1 <= type <= 2 -> zlen key <= 64 -> zlen data < 2 ^ 64 -> 8 * type <= zlen result ->
  generateBlake2 data (zlen data) key (zlen key) type result =
  Ok (blake2b_ref (8 * type) key data ++ drop (Z.to_nat (8 * type)) result).
Proof.
  intros Ht Hk Hd Hr. unfold generateBlake2. pose proof (zlen_nonneg key). pose proof (zlen_nonneg data).
  rewrite (Z.mul_comm type). ztest (8 * type =? 0).
  rewrite !u64_small by (unfold is_u64; change (2 ^ 64) with 18446744073709551616 in Hd; lia).
  destruct (blake2b_total blake_garbage result key data (8 * type) ltac:(lia) Hr Hk Hd eq_refl)
    as (c1 & c2 & c3 & -> & H2 & H3). mcbn. rewrite H2. mcbn. by rewrite H3.
Qed.

Lemma length_blake2b_ref nn key msg : length (blake2b_ref nn key msg) = Z.to_nat nn.
Proof. unfold blake2b_ref, h_bytes. by rewrite length_fmap, length_seq. Qed.

Lemma bytes_blake2b_ref nn key msg : bytes_ok (blake2b_ref nn key msg).
Proof.
  unfold blake2b_ref, h_bytes. apply Forall_forall.
  intros x (i & -> & _)%list_elem_of_fmap. change 0xFF with (Z.ones 8). rewrite Z.land_ones by lia. apply u8_range.
Qed.
