(* ===== verification/Hashing.v ===== *)
(** * Utilities and the safety code (src/c/util/rastautil.c, rastahashing.c)

    The byte-array helpers and the dispatch over the three hash algorithms.
    [HashOk] is what the packet layer needs of a hashing context: a safety code
    for every packet; the instances discharge it for each algorithm. *)

From stdpp Require Import base numbers list.
From Stdlib Require Import ZArith Lia.
From S2P Require Import Prelude.
From S2P Require Import Md4.
From S2P Require Import Siphash.
From S2P Require Import Blake2.

Local Open Scope Z_scope.
Local Open Scope record_scope.

(* rastautil.c hostLongToLe *)
Definition hostLongToLe (v : Z) : list Z := le_enc 4 v.
(* rastautil.c leLongToHost *)
Definition leLongToHost (v : list Z) : res Z := bs ← read_at v 0 4; mret (le_dec bs).
(* rastautil.c allocateRastaByteArray *)
Definition allocateRastaByteArray (length : Z) : list Z := zeros length.
(** [isBigEndian]: the machines modelled are little-endian. *)
(* rastautil.c isBigEndian *)
Definition isBigEndian : Z := if nth 0 (le_enc 4 1) 0 =? 0 then 1 else 0.

(** [cur_timestamp]: the monotonic clock in milliseconds, cut to 32 bits. *)
(* rastautil.c cur_timestamp *)
Definition cur_timestamp (tv_sec tv_nsec : Z) : Z := u32 (tv_sec * 1000 + tv_nsec / 1000000).

(* config.h rasta_checksum_type *)
Inductive rasta_checksum_type := RASTA_CHECKSUM_NONE | RASTA_CHECKSUM_8B | RASTA_CHECKSUM_16B.
(* config.h rasta_hash_algorithm *)
Inductive rasta_hash_algorithm := RASTA_ALGO_MD4 | RASTA_ALGO_BLAKE2B | RASTA_ALGO_SIPHASH_2_4.

Definition checksum_type_val (t : rasta_checksum_type) : Z :=
  match t with RASTA_CHECKSUM_NONE => 0 | RASTA_CHECKSUM_8B => 1 | RASTA_CHECKSUM_16B => 2 end.

(* rastahashing.h rasta_hashing_context_t *)
Record rasta_hashing_context_t := mkHash {
  algorithm : rasta_hash_algorithm;
  hash_length : rasta_checksum_type;
  key : list Z
}.
#[export] Instance eta_hash : Eta rasta_hashing_context_t := fun r =>
  mkHash (algorithm r) (hash_length r) (key r).

(** [hash_length * 8]: the bytes the safety code takes in a packet. *)
Definition checksum_len (ctx : rasta_hashing_context_t) : Z := checksum_type_val (hash_length ctx) * 8.

(* rastahashing.c rasta_md4_set_key *)
Definition rasta_md4_set_key (context : rasta_hashing_context_t) (a b c d : Z) : res rasta_hashing_context_t :=
  k ← write_at (allocateRastaByteArray 16) 0 (hostLongToLe a);
  k ← write_at k 4 (hostLongToLe b);
  k ← write_at k 8 (hostLongToLe c);
  k ← write_at k 12 (hostLongToLe d);
  mret (context <| key := k |>).

(* rastahashing.c rasta_set_hash_key_variable *)
Definition rasta_set_hash_key_variable (context : rasta_hashing_context_t) (k : list Z) (key_length : Z) :
    res rasta_hashing_context_t :=
  bytes ← read_at k 0 key_length;
  mret (context <| key := bytes |>).

(* rastahashing.c rasta_get_md4_ctx_from_key *)
Definition rasta_get_md4_ctx_from_key (context : rasta_hashing_context_t) : res MD4_CTX_RASTA :=
  a ← read_at (key context) 0 4;
  b ← read_at (key context) 4 4;
  c ← read_at (key context) 8 4;
  d ← read_at (key context) 12 4;
  mret (md4InitContext (le_dec a) (le_dec b) (le_dec c) (le_dec d)).

(** [hash] is the caller's buffer; [data.length] becomes an [int]. *)
(* rastahashing.c rasta_calculate_hash *)
Definition rasta_calculate_hash (data : list Z) (context : rasta_hashing_context_t) (hash : list Z) :
    res (list Z) :=
  _ ← ensure (negb (zlen (key context) =? 0)) AbortCalled;
  let n := s32 (zlen data) in
  match algorithm context with
  | RASTA_ALGO_MD4 =>
      md4_ctx ← rasta_get_md4_ctx_from_key context;
      '(hash, _) ← generateMD4WithVector data n (checksum_type_val (hash_length context)) md4_ctx hash;
      mret hash
  | RASTA_ALGO_BLAKE2B =>
      generateBlake2 data n (key context) (zlen (key context)) (checksum_type_val (hash_length context)) hash
  | RASTA_ALGO_SIPHASH_2_4 =>
      generateSiphash24 data n (key context) (checksum_type_val (hash_length context)) hash
  end.

(** ** What the packet layer relies on *)

(** The buffer the packet layer passes: [unsigned char checksum[16]]; only the
    bytes that the hash has written are used. *)
Definition hash_buffer : list Z := zeros 16.

Definition safety_code (ctx : rasta_hashing_context_t) (data : list Z) : list Z :=
  match rasta_calculate_hash data ctx hash_buffer with
  | Ok h => take (Z.to_nat (checksum_len ctx)) h
  | Fail _ => []
  end.

Class HashOk (ctx : rasta_hashing_context_t) : Prop :=
  hash_ok : forall data, bytes_ok data -> zlen data < 2 ^ 31 ->
    exists h, rasta_calculate_hash data ctx hash_buffer = Ok h /\ zlen h = 16 /\ bytes_ok h.

Lemma checksum_len_range ctx : 0 <= checksum_len ctx <= 16.
Proof. unfold checksum_len. destruct (hash_length ctx); cbn; lia. Qed.

Lemma safety_code_length ctx data : HashOk ctx -> bytes_ok data -> zlen data < 2 ^ 31 ->
  zlen (safety_code ctx data) = checksum_len ctx.
Proof.
  intros Hok Hb Hl. destruct (hash_ok data Hb Hl) as (h & E & Hh & _). unfold safety_code.
  rewrite E. pose proof (checksum_len_range ctx). unfold zlen in *. rewrite length_take. lia.
Qed.

Lemma safety_code_bytes ctx data : HashOk ctx -> bytes_ok data -> zlen data < 2 ^ 31 ->
  bytes_ok (safety_code ctx data).
Proof.
  intros Hok Hb Hl. destruct (hash_ok data Hb Hl) as (h & E & _ & Hh). unfold safety_code.
  rewrite E. by apply bytes_ok_take.
Qed.

Lemma s32_small x : 0 <= x < 2 ^ 31 -> s32 x = x.
Proof. change (2 ^ 31) with 2147483648. unfold s32. intros. Z.to_euclidean_division_equations; lia. Qed.

Section Instances.
Context (data : list Z) (Hb : bytes_ok data) (Hl : zlen data < 2 ^ 31).

Lemma data_s32 : s32 (zlen data) = zlen data.
Proof. apply s32_small. split; [apply zlen_nonneg|done]. Qed.
Lemma data_u64 : zlen data < 2 ^ 64.
Proof. clear Hb. change (2 ^ 31) with 2147483648 in Hl. change (2 ^ 64) with 18446744073709551616. lia. Qed.

(** The initial value in a 16-byte key. *)
Definition key_iv (k : list Z) : regs :=
  (le_dec (take 4 k), le_dec (take 4 (drop 4 k)), le_dec (take 4 (drop 8 k)), le_dec (take 4 (drop 12 k))).

Lemma md4_ctx_ok ctx : (16 <= length (key ctx))%nat ->
  exists c, rasta_get_md4_ctx_from_key ctx = Ok c /\ lo c = 0 /\ hi c = 0 /\
    length (buffer c) = 64%nat /\ abcd c = key_iv (key ctx).
Proof.
  intros Hk. unfold rasta_get_md4_ctx_from_key.
  rewrite !read_at_ok by (unfold zlen; lia). mcbn. eexists. split; [done|]. done.
Qed.

Lemma md4_code_ok ctx : algorithm ctx = RASTA_ALGO_MD4 -> (16 <= length (key ctx))%nat ->
  exists h, rasta_calculate_hash data ctx hash_buffer = Ok h /\ zlen h = 16 /\ bytes_ok h /\
    take (Z.to_nat (checksum_len ctx)) h =
    take (Z.to_nat (checksum_len ctx)) (md4_ref (key_iv (key ctx)) data).
Proof.
  intros Ha Hk. destruct (md4_ctx_ok ctx Hk) as (c & Ec & H1 & H2 & H3 & <-).
  unfold rasta_calculate_hash, checksum_len. rewrite Ha, data_s32.
  replace (zlen (key ctx) =? 0) with false by (symmetry; apply Z.eqb_neq; unfold zlen; lia).
  cbn [ensure negb]. mcbn. rewrite Ec. mcbn. pose proof data_u64 as Hd.
  pose proof (length_md4_ref (abcd c) data) as H16. pose proof (bytes_md4_ref (abcd c) data) as HB.
  destruct (hash_length ctx); cbn [checksum_type_val].
  - destruct (generateMD4WithVector_none data c hash_buffer H1 H2 H3 Hd eq_refl) as (c' & ->).
    mcbn. eexists. split; [done|]. split; [done|]. split; [apply bytes_ok_app; split; apply bytes_ok_zeros || apply bytes_ok_drop, bytes_ok_zeros|done].
  - destruct (generateMD4WithVector_ok data 1 c hash_buffer) as (c' & ->); try done.
    mcbn. eexists. split; [done|]. change (Z.to_nat (8 * 1)) with 8%nat. change (Z.to_nat (1 * 8)) with 8%nat.
    split; [unfold zlen; rewrite length_app, length_take, H16; done|].
    split; [apply bytes_ok_app; split; [by apply bytes_ok_take|apply bytes_ok_drop, bytes_ok_zeros]|].
    rewrite take_app_le by (rewrite length_take; lia). by rewrite take_take.
  - destruct (generateMD4WithVector_ok data 2 c hash_buffer) as (c' & ->); try done.
    mcbn. eexists. split; [done|]. change (Z.to_nat (8 * 2)) with 16%nat. change (Z.to_nat (2 * 8)) with 16%nat.
    change (drop 16 hash_buffer) with (@nil Z). rewrite app_nil_r, !take_ge by lia.
    split; [unfold zlen; by rewrite H16|]. by split.
Qed.

Lemma blake2_code_ok ctx : algorithm ctx = RASTA_ALGO_BLAKE2B -> 1 <= zlen (key ctx) <= 64 ->
  exists h, rasta_calculate_hash data ctx hash_buffer = Ok h /\ zlen h = 16 /\ bytes_ok h.
Proof.
  intros Ha Hk. unfold rasta_calculate_hash. rewrite Ha, data_s32.
  replace (zlen (key ctx) =? 0) with false by (symmetry; apply Z.eqb_neq; lia).
  cbn [ensure negb]. mcbn. pose proof data_u64 as Hd.
  destruct (hash_length ctx); cbn [checksum_type_val].
  - rewrite generateBlake2_none. eexists. split; [done|]. split; [done|apply bytes_ok_zeros].
  - rewrite generateBlake2_ok by (lia || done). eexists. split; [done|].
    unfold zlen. rewrite length_app, length_blake2b_ref. split; [done|].
    apply bytes_ok_app. split; [apply bytes_blake2b_ref|apply bytes_ok_drop, bytes_ok_zeros].
  - rewrite generateBlake2_ok by (lia || done). eexists. split; [done|].
    unfold zlen. rewrite length_app, length_blake2b_ref. split; [done|].
    apply bytes_ok_app. split; [apply bytes_blake2b_ref|apply bytes_ok_drop, bytes_ok_zeros].
Qed.

Lemma siphash_code_ok ctx : algorithm ctx = RASTA_ALGO_SIPHASH_2_4 -> (16 <= length (key ctx))%nat ->
  exists h, rasta_calculate_hash data ctx hash_buffer = Ok h /\ zlen h = 16 /\ bytes_ok h.
Proof.
  intros Ha Hk. unfold rasta_calculate_hash. rewrite Ha, data_s32.
  replace (zlen (key ctx) =? 0) with false by (symmetry; apply Z.eqb_neq; unfold zlen; lia).
  cbn [ensure negb]. mcbn. unfold generateSiphash24.
  destruct (hash_length ctx); cbn [checksum_type_val Z.eqb Pos.eqb].
  - exists hash_buffer. split; [done|]. split; [done|apply bytes_ok_zeros].
  - destruct (halfsiphash_total data (key ctx) hash_buffer Hb) as (code & -> & Hc & HB);
      [lia|nle|]. eexists. split; [done|]. unfold zlen. rewrite length_app, Hc. split; [done|].
    apply bytes_ok_app. split; [done|apply bytes_ok_drop, bytes_ok_zeros].
  - destruct (siphash_total data (key ctx) hash_buffer Hb Hk eq_refl) as (code & -> & Hc & HB).
    exists code. split; [done|]. unfold zlen. by rewrite Hc.
Qed.
End Instances.

(** The key lengths each algorithm needs. *)
Class KeyOk (ctx : rasta_hashing_context_t) : Prop := key_ok :
  match algorithm ctx with
  | RASTA_ALGO_MD4 | RASTA_ALGO_SIPHASH_2_4 => (16 <= length (key ctx))%nat
  | RASTA_ALGO_BLAKE2B => (1 <= length (key ctx) <= 64)%nat
  end.

#[export] Instance key_hash_ok ctx : KeyOk ctx -> HashOk ctx.
Proof.
  intros Hk data Hb Hl. unfold KeyOk in Hk. destruct (algorithm ctx) eqn:Ha.
  - destruct (md4_code_ok data Hl ctx Ha Hk) as (h & ? & ? & ? & _). eauto.
  - apply blake2_code_ok; try done. unfold zlen. lia.
  - by apply siphash_code_ok.
Qed.

Lemma rasta_md4_set_key_ok ctx a b c d :
  rasta_md4_set_key ctx a b c d =
  Ok (ctx <| key := le_enc 4 a ++ le_enc 4 b ++ le_enc 4 c ++ le_enc 4 d |>).
Proof. done. Qed.

Lemma key_iv_enc a b c d : is_u32 a -> is_u32 b -> is_u32 c -> is_u32 d ->
  key_iv (le_enc 4 a ++ le_enc 4 b ++ le_enc 4 c ++ le_enc 4 d) = (a, b, c, d).
Proof.
  intros Ha Hb Hc Hd.
  change ((le_dec (le_enc 4 a), le_dec (le_enc 4 b), le_dec (le_enc 4 c), le_dec (le_enc 4 d)) = (a, b, c, d)).
  by rewrite !le_dec_enc_u32.
Qed.


