(* ===== verification/Packet.v ===== *)
(** * Packets and their wire format (src/c/util/rastamodule.c, rastamodule.h)

    The SR-layer packet and the redundancy-layer packet, the functions that
    serialise and parse them, and the sticky module error they share.  The
    [wire_*] functions are the formats; the [*_ok] lemmas say that the code
    produces and accepts exactly these, and the round trips follow. *)

From stdpp Require Import base numbers list.
From Stdlib Require Import ZArith Lia.
From S2P Require Import Prelude.
From S2P Require Import Crc.
From S2P Require Import Hashing.

Local Open Scope Z_scope.
Local Open Scope record_scope.

(* rastamodule.h rasta_error_type *)
Inductive rasta_error_type :=
| RASTA_ERRORS_NONE
| RASTA_ERRORS_WRONG_PACKAGE_FORMAT
| RASTA_ERRORS_PACKAGE_LENGTH_INVALID.
#[export] Instance rasta_error_eq : EqDecision rasta_error_type.
Proof. solve_decision. Defined.

Definition no_error (e : rasta_error_type) : bool := bool_decide (e = RASTA_ERRORS_NONE).

(* rastamodule.c getRastamoduleLastError *)
Definition getRastamoduleLastError (lasterror : rasta_error_type) : rasta_error_type * rasta_error_type :=
  (lasterror, RASTA_ERRORS_NONE).

(** The packet types; any 16-bit value can arrive. *)
(* rastamodule.h:30-62 rasta_conn_type *)
Definition RASTA_TYPE_CONNREQ : Z := 6200.
Definition RASTA_TYPE_CONNRESP : Z := 6201.
Definition RASTA_TYPE_RETRREQ : Z := 6212.
Definition RASTA_TYPE_RETRRESP : Z := 6213.
Definition RASTA_TYPE_DISCREQ : Z := 6216.
Definition RASTA_TYPE_HB : Z := 6220.
Definition RASTA_TYPE_DATA : Z := 6240.
Definition RASTA_TYPE_RETRDATA : Z := 6241.

(* rastamodule.h RastaPacket *)
Record RastaPacket := mkPacket {
  p_length : Z;
  p_type : Z;
  p_receiver_id : Z;
  p_sender_id : Z;
  p_sequence_number : Z;
  p_confirmed_sequence_number : Z;
  p_timestamp : Z;
  p_confirmed_timestamp : Z;
  p_data : list Z;
  p_checksum : list Z;
  p_checksum_correct : Z
}.
#[export] Instance eta_packet : Eta RastaPacket := fun r =>
  mkPacket (p_length r) (p_type r) (p_receiver_id r) (p_sender_id r) (p_sequence_number r)
    (p_confirmed_sequence_number r) (p_timestamp r) (p_confirmed_timestamp r) (p_data r)
    (p_checksum r) (p_checksum_correct r).

(** An object nobody has written to yet. *)
Definition empty_packet : RastaPacket := mkPacket 0 0 0 0 0 0 0 0 [] [] 0.

(* rastamodule.h RastaRedundancyPacket *)
Record RastaRedundancyPacket := mkRedPacket {
  rp_length : Z;
  rp_reserve : Z;
  rp_sequence_number : Z;
  rp_data : RastaPacket;
  rp_checksum_correct : Z;
  rp_checksum_type : crc_options
}.
#[export] Instance eta_red_packet : Eta RastaRedundancyPacket := fun r =>
  mkRedPacket (rp_length r) (rp_reserve r) (rp_sequence_number r) (rp_data r)
    (rp_checksum_correct r) (rp_checksum_type r).

(** [rmemcmp(a, b, n) == 0]. *)
(* rmemory.c rmemcmp *)
Definition same_bytes (a b : list Z) : bool := bool_decide (a = b).

Lemma same_bytes_true a b : same_bytes a b = true <-> a = b.
Proof. apply bool_decide_eq_true. Qed.
Lemma same_bytes_refl a : same_bytes a a = true.
Proof. by apply same_bytes_true. Qed.

(* rastamodule.c hostShortTole *)
Definition hostShortTole (v : Z) : list Z := le_enc 2 v.
(* rastamodule.c leShortToHost *)
Definition leShortToHost (v : list Z) : Z := le_dec v.

(** [packet->length - 28 - hash_length * 8] is computed unsigned and read as an
    [int]. *)
(* rastamodule.c getDataLength *)
Definition getDataLength (packet : RastaPacket) (ctx : rasta_hashing_context_t) : Z :=
  let length := s32 (u32 (p_length packet - 28 - checksum_len ctx)) in
  if 0 <? length then length else 0.

(* rastamodule.c allocateBytes *)
Definition allocateBytes (err : rasta_error_type) (packet : RastaPacket) (ctx : rasta_hashing_context_t) :
    list Z * rasta_error_type :=
  (allocateRastaByteArray (p_length packet),
   if p_length packet <? 28 + checksum_len ctx then RASTA_ERRORS_PACKAGE_LENGTH_INVALID else err).

(* rastamodule.c packFields *)
Definition packFields (result : list Z) (packet : RastaPacket) : res (list Z) :=
  result ← write_at result 0 (hostShortTole (p_length packet));
  result ← write_at result 2 (hostShortTole (p_type packet));
  result ← write_at result 4 (hostLongToLe (p_receiver_id packet));
  result ← write_at result 8 (hostLongToLe (p_sender_id packet));
  result ← write_at result 12 (hostLongToLe (p_sequence_number packet));
  result ← write_at result 16 (hostLongToLe (p_confirmed_sequence_number packet));
  result ← write_at result 20 (hostLongToLe (p_timestamp packet));
  write_at result 24 (hostLongToLe (p_confirmed_timestamp packet)).

(** The module error is read after [allocateBytes], whoever set it. *)
(* rastamodule.c rastaModuleToBytes *)
Definition rastaModuleToBytes (err : rasta_error_type) (packet : RastaPacket) (ctx : rasta_hashing_context_t) :
    res (list Z * rasta_error_type) :=
  let '(result, err) := allocateBytes err packet ctx in
  if negb (no_error err) then mret (result, err)
  else
    result ← packFields result packet;
    let len := getDataLength packet ctx in
    data ← read_at (p_data packet) 0 len;
    result ← write_at result 28 data;
    data_to_hash ← read_at result 0 (u32 (p_length packet - checksum_len ctx));
    checksum ← rasta_calculate_hash data_to_hash ctx hash_buffer;
    checksum ← read_at checksum 0 (checksum_len ctx);
    result ← write_at result (28 + len) checksum;
    mret (result, err).

(* rastamodule.c rastaModuleToBytesNoChecksum *)
Definition rastaModuleToBytesNoChecksum (err : rasta_error_type) (packet : RastaPacket)
    (ctx : rasta_hashing_context_t) : res (list Z * rasta_error_type) :=
  let '(result, err) := allocateBytes err packet ctx in
  if negb (no_error err) then mret (result, err)
  else
    result ← packFields result packet;
    let len := getDataLength packet ctx in
    data ← read_at (p_data packet) 0 len;
    result ← write_at result 28 data;
    checksum ← read_at (p_checksum packet) 0 (checksum_len ctx);
    result ← write_at result (28 + len) checksum;
    mret (result, err).

(** [data_to_hash] is allocated with the unsigned difference and filled from
    [data]: a length field smaller than the safety code asks for almost 4 GiB. *)
(* rastamodule.c bytesToRastaPacket *)
Definition bytesToRastaPacket (err : rasta_error_type) (data : list Z) (ctx : rasta_hashing_context_t)
    (result : RastaPacket) : res (RastaPacket * rasta_error_type) :=
  let result := result <| p_checksum_correct := 1 |> in
  if zlen data <? 28 + checksum_len ctx then
    mret (result <| p_length := 0 |> <| p_checksum_correct := 0 |>, RASTA_ERRORS_PACKAGE_LENGTH_INVALID)
  else
    length ← read_at data 0 2;
    type ← read_at data 2 2;
    receiver_id ← leLongToHost (drop 4 data);
    sender_id ← leLongToHost (drop 8 data);
    sequence_number ← leLongToHost (drop 12 data);
    confirmed_sequence_number ← leLongToHost (drop 16 data);
    timestamp ← leLongToHost (drop 20 data);
    confirmed_timestamp ← leLongToHost (drop 24 data);
    let result := mkPacket (leShortToHost length) (leShortToHost type) receiver_id sender_id
                    sequence_number confirmed_sequence_number timestamp confirmed_timestamp
                    [] (p_checksum result) 1 in
    let len := getDataLength result ctx in
    payload ← read_at data 28 len;
    data_to_hash ← read_at data 0 (u32 (p_length result - checksum_len ctx));
    checksum ← rasta_calculate_hash data_to_hash ctx hash_buffer;
    received ← read_at data (28 + len) (checksum_len ctx);
    checksum ← read_at checksum 0 (checksum_len ctx);
    mret (result <| p_data := payload |> <| p_checksum := received |>
                 <| p_checksum_correct := if same_bytes checksum received then 1 else 0 |>, err).

(** The inner packet is serialised with the module error of the moment. *)
(* rastamodule.c rastaRedundancyPacketToBytes *)
Definition rastaRedundancyPacketToBytes (err : rasta_error_type) (packet : RastaRedundancyPacket)
    (ctx : rasta_hashing_context_t) : res (list Z * rasta_error_type) :=
  let result := allocateRastaByteArray (rp_length packet) in
  result ← write_at result 0 (hostShortTole (rp_length packet));
  result ← write_at result 2 (hostShortTole (rp_reserve packet));
  result ← write_at result 4 (hostLongToLe (rp_sequence_number packet));
  let internal_packet_len := p_length (rp_data packet) in
  '(internal_packet_bytes, err) ← rastaModuleToBytes err (rp_data packet) ctx;
  inner ← read_at internal_packet_bytes 0 internal_packet_len;
  result ← write_at result 8 inner;
  let n := width (rp_checksum_type packet) / 8 in
  temp_wo_checksum ← read_at result 0 (u32 (rp_length packet - n));
  let '(checksum, _) := crc_calculate (rp_checksum_type packet) temp_wo_checksum in
  stored ← read_at (hostLongToLe (u32 checksum)) 0 n;
  result ← write_at result (8 + internal_packet_len) stored;
  mret (result, err).

(* rastamodule.c bytesToRastaRedundancyPacket *)
Definition bytesToRastaRedundancyPacket (err : rasta_error_type) (data : list Z) (checksum_type : crc_options)
    (ctx : rasta_hashing_context_t) (packet : RastaRedundancyPacket) :
    res (RastaRedundancyPacket * rasta_error_type) :=
  length ← read_at data 0 2;
  reserve ← read_at data 2 2;
  sequence_number ← (v ← read_at data 4 4; mret (le_dec v));
  let n := width checksum_type / 8 in
  let data_len := u32 (zlen data - 8 - n) in
  internal_packet_bytes ← read_at data 8 data_len;
  '(inner, err) ← bytesToRastaPacket err internal_packet_bytes ctx (rp_data packet);
  let data_wo_checksum_len := u32 (zlen data - n) in
  data_wo_checksum ← read_at data 0 data_wo_checksum_len;
  let '(calculated_checksum, _) := crc_calculate checksum_type data_wo_checksum in
  let packet := mkRedPacket (leShortToHost length) (leShortToHost reserve) sequence_number inner 1
                  checksum_type in
  if zlen data =? data_wo_checksum_len then mret (packet, err)
  else
    received ← read_at data (8 + data_len) n;
    stored ← read_at (hostLongToLe (u32 calculated_checksum)) 0 n;
    mret (packet <| rp_checksum_correct := if same_bytes stored received then 1 else 0 |>, err).

(** ** The wire format of an SR packet *)

Definition header (pk : RastaPacket) : list Z :=
  le_enc 2 (p_length pk) ++ le_enc 2 (p_type pk) ++ le_enc 4 (p_receiver_id pk) ++
  le_enc 4 (p_sender_id pk) ++ le_enc 4 (p_sequence_number pk) ++
  le_enc 4 (p_confirmed_sequence_number pk) ++ le_enc 4 (p_timestamp pk) ++
  le_enc 4 (p_confirmed_timestamp pk).

Definition wire (ctx : rasta_hashing_context_t) (pk : RastaPacket) : list Z :=
  let body := header pk ++ p_data pk in body ++ safety_code ctx body.

Record packet_wf (ctx : rasta_hashing_context_t) (pk : RastaPacket) : Prop := {
  wf_length : p_length pk = 28 + zlen (p_data pk) + checksum_len ctx;
  wf_u16 : is_u16 (p_length pk);
  wf_type : is_u16 (p_type pk);
  wf_receiver : is_u32 (p_receiver_id pk);
  wf_sender : is_u32 (p_sender_id pk);
  wf_sn : is_u32 (p_sequence_number pk);
  wf_cs : is_u32 (p_confirmed_sequence_number pk);
  wf_ts : is_u32 (p_timestamp pk);
  wf_cts : is_u32 (p_confirmed_timestamp pk);
  wf_data : bytes_ok (p_data pk)
}.

Lemma length_header pk : length (header pk) = 28%nat.
Proof. done. Qed.
Lemma zlen_header pk : zlen (header pk) = 28.
Proof. done. Qed.

Lemma header_bytes pk : bytes_ok (header pk).
Proof. unfold header. rewrite !bytes_ok_app. repeat split; apply le_enc_bytes. Qed.

Lemma packFields_ok result pk : (28 <= length result)%nat ->
  packFields result pk = Ok (header pk ++ drop 28 result).
Proof.
  intros Hl. unfold packFields, hostShortTole, hostLongToLe.
  rewrite write_front by (cbn; lia). mcbn.
  do 6 (rewrite write_next by (rewrite ?length_drop; done || (cbn; lia)); mcbn).
  rewrite write_next by (rewrite ?length_drop; done || (cbn; lia)).
  rewrite !drop_drop. unfold header. by rewrite <- !app_assoc.
Qed.

Lemma getDataLength_wf ctx pk : is_u16 (p_length pk) ->
  getDataLength pk ctx = Z.max 0 (p_length pk - 28 - checksum_len ctx).
Proof.
  intros Hu. pose proof (checksum_len_range ctx). unfold getDataLength, s32, u32. unfold is_u16 in Hu.
  case_if; zbool; Z.to_euclidean_division_equations; lia.
Qed.

Lemma body_bytes pk : bytes_ok (p_data pk) -> bytes_ok (header pk ++ p_data pk).
Proof. intros. apply bytes_ok_app. split; [apply header_bytes|done]. Qed.

Lemma body_length ctx pk : packet_wf ctx pk ->
  zlen (header pk ++ p_data pk) = p_length pk - checksum_len ctx /\ zlen (header pk ++ p_data pk) < 2 ^ 31.
Proof.
  intros Hwf. pose proof (wf_length _ _ Hwf). pose proof (wf_u16 _ _ Hwf) as Hu. unfold is_u16 in Hu.
  pose proof (checksum_len_range ctx). rewrite zlen_app, zlen_header.
  change (2 ^ 31) with 2147483648. lia.
Qed.

Lemma wire_length ctx pk : HashOk ctx -> packet_wf ctx pk -> zlen (wire ctx pk) = p_length pk.
Proof.
  intros Hh Hwf. destruct (body_length ctx pk Hwf) as [Hb Hl]. unfold wire.
  rewrite zlen_app, safety_code_length; [lia|done|apply body_bytes, Hwf|done].
Qed.

(** Serialising a well-formed packet yields its wire format. *)
Lemma rastaModuleToBytes_ok ctx pk : HashOk ctx -> packet_wf ctx pk ->
  rastaModuleToBytes RASTA_ERRORS_NONE pk ctx = Ok (wire ctx pk, RASTA_ERRORS_NONE).
Proof.
  intros Hh Hwf. destruct (body_length ctx pk Hwf) as [Hb Hl].
  pose proof (wf_length _ _ Hwf) as Hlen. pose proof (wf_u16 _ _ Hwf) as Hu.
  pose proof (zlen_nonneg (p_data pk)). pose proof (checksum_len_range ctx).
  unfold rastaModuleToBytes, allocateBytes, allocateRastaByteArray. ztests. cbn [negb no_error bool_decide].
  change (no_error RASTA_ERRORS_NONE) with true. cbn [negb].
  assert (Hz : length (zeros (p_length pk)) = Z.to_nat (p_length pk))
    by (unfold zeros; by rewrite length_replicate).
  rewrite packFields_ok by lia. mcbn.
  rewrite getDataLength_wf by done. replace (Z.max 0 _) with (zlen (p_data pk)) by lia.
  rewrite read_all. mcbn.
  rewrite write_next; [|done|rewrite length_drop; unfold zlen in *; lia]. mcbn. rewrite drop_drop.
  rewrite read_front; [|unfold is_u16 in Hu; rewrite u32_small; unfold is_u32; lia]. mcbn.
  destruct (hash_ok (header pk ++ p_data pk)) as (h & Eh & H16 & HB); [apply body_bytes, Hwf|done|].
  rewrite Eh. mcbn.
  rewrite read_at_ok by lia. mcbn. change (Z.to_nat 0) with 0%nat. rewrite drop_0.
  assert (Ecode : take (Z.to_nat (checksum_len ctx)) h = safety_code ctx (header pk ++ p_data pk))
    by (unfold safety_code; by rewrite Eh).
  assert (Hcode : zlen (safety_code ctx (header pk ++ p_data pk)) = checksum_len ctx)
    by (apply safety_code_length; [done|apply body_bytes, Hwf|done]).
  rewrite Ecode. rewrite write_next.
  - mcbn. rewrite drop_drop, drop_ge; [by rewrite app_nil_r|].
    rewrite Hz. unfold zlen in *. lia.
  - rewrite zlen_app, zlen_header. done.
  - rewrite length_drop, Hz. unfold zlen in *. lia.
Qed.

(** With an error pending, or a packet shorter than its own header, only zeros
    come out. *)
Lemma rastaModuleToBytes_error err ctx pk :
  err <> RASTA_ERRORS_NONE \/ p_length pk < 28 + checksum_len ctx ->
  exists err', rastaModuleToBytes err pk ctx = Ok (zeros (p_length pk), err') /\ err' <> RASTA_ERRORS_NONE.
Proof.
  intros H. unfold rastaModuleToBytes, allocateBytes.
  destruct (p_length pk <? 28 + checksum_len ctx) eqn:E; cbn.
  - by eexists.
  - destruct H as [H|H]; [|zbool; lia]. unfold no_error. rewrite bool_decide_false by done. cbn. by eexists.
Qed.

(** ** Parsing *)

Definition sub (bs : list Z) (off n : nat) : list Z := take n (drop off bs).

Lemma read_at_sub_bytes b off n r : read_at b off n = Ok r -> bytes_ok b -> bytes_ok r.
Proof.
  intros H Hb. pose proof (read_at_inv _ _ _ _ H). rewrite read_at_ok in H by lia. injection H as <-.
  by apply bytes_ok_take, bytes_ok_drop.
Qed.

(** What [bytesToRastaPacket] makes of a buffer whose length field is [L]. *)
Definition parsed (ctx : rasta_hashing_context_t) (bs : list Z) : RastaPacket :=
  let L := le_dec (sub bs 0 2) in
  let cl := checksum_len ctx in
  let n := Z.to_nat (L - 28 - cl) in
  let received := sub bs (28 + n) (Z.to_nat cl) in
  mkPacket L (le_dec (sub bs 2 2)) (le_dec (sub bs 4 4)) (le_dec (sub bs 8 4)) (le_dec (sub bs 12 4))
    (le_dec (sub bs 16 4)) (le_dec (sub bs 20 4)) (le_dec (sub bs 24 4))
    (sub bs 28 n) received
    (if same_bytes (safety_code ctx (take (Z.to_nat (L - cl)) bs)) received then 1 else 0).

Lemma leLongToHost_ok bs off : (off + 4 <= length bs)%nat ->
  leLongToHost (drop off bs) = Ok (le_dec (sub bs off 4)).
Proof.
  intros Hl. unfold leLongToHost. rewrite read_at_ok by (unfold zlen; rewrite ?length_drop; lia).
  mcbn. change (Z.to_nat 0) with 0%nat. by rewrite drop_0.
Qed.

Lemma sub_u16 bs off : bytes_ok bs -> is_u16 (le_dec (sub bs off 2)).
Proof.
  intros Hb. pose proof (le_dec_bound (sub bs off 2)) as H. unfold is_u16, sub in *.
  assert (Hl : (length (take 2 (drop off bs)) <= 2)%nat) by (rewrite length_take; lia).
  destruct H as [H0 H1]; [by apply bytes_ok_take, bytes_ok_drop|]. split; [done|].
  eapply Z.lt_le_trans; [apply H1|]. change 65536 with (256 ^ 2). apply Z.pow_le_mono_r; lia.
Qed.

(** The parser once the fixed fields are read. *)
Lemma bytesToRastaPacket_fields err bs ctx r0 : bytes_ok bs -> 28 + checksum_len ctx <= zlen bs ->
  bytesToRastaPacket err bs ctx r0 =
  (let L := le_dec (sub bs 0 2) in
   let n := Z.max 0 (L - 28 - checksum_len ctx) in
   payload ← read_at bs 28 n;
   data_to_hash ← read_at bs 0 (u32 (L - checksum_len ctx));
   checksum ← rasta_calculate_hash data_to_hash ctx hash_buffer;
   received ← read_at bs (28 + n) (checksum_len ctx);
   checksum ← read_at checksum 0 (checksum_len ctx);
   mret (mkPacket L (le_dec (sub bs 2 2)) (le_dec (sub bs 4 4)) (le_dec (sub bs 8 4))
     (le_dec (sub bs 12 4)) (le_dec (sub bs 16 4)) (le_dec (sub bs 20 4)) (le_dec (sub bs 24 4))
     payload received (if same_bytes checksum received then 1 else 0), err)).
Proof.
  intros Hb Hl. unfold bytesToRastaPacket. pose proof (checksum_len_range ctx) as Hcl.
  pose proof (sub_u16 bs 0 Hb) as Hu. ztests.
  rewrite !read_at_ok by (unfold zlen in *; lia). mcbn.
  rewrite !leLongToHost_ok by (unfold zlen in *; lia). mcbn. cbv zeta. cbn [p_length].
  change (leShortToHost (take (Z.to_nat 2) (drop (Z.to_nat 0) bs))) with (le_dec (sub bs 0 2)).
  change (leShortToHost (take (Z.to_nat 2) (drop (Z.to_nat 2) bs))) with (le_dec (sub bs 2 2)).
  rewrite getDataLength_wf by done. done.
Qed.

Lemma bytesToRastaPacket_parsed err bs ctx r0 : HashOk ctx -> bytes_ok bs ->
  28 + checksum_len ctx <= zlen bs ->
  checksum_len ctx <= le_dec (sub bs 0 2) <= zlen bs ->
  bytesToRastaPacket err bs ctx r0 = Ok (parsed ctx bs, err).
Proof.
  intros Hh Hb Hl HL. rewrite bytesToRastaPacket_fields by done. pose proof (checksum_len_range ctx) as Hcl.
  pose proof (sub_u16 bs 0 Hb) as Hu. unfold parsed.
  remember (le_dec (sub bs 0 2)) as L eqn:EL. cbv zeta.
  set (n := Z.max 0 (L - 28 - checksum_len ctx)).
  assert (Hn : Z.to_nat n = Z.to_nat (L - 28 - checksum_len ctx)) by (unfold n; lia).
  rewrite read_at_ok by (unfold n; lia). mcbn.
  unfold is_u16 in Hu. rewrite u32_small by (unfold is_u32; lia).
  rewrite read_at_ok by lia. mcbn. change (Z.to_nat 0) with 0%nat. rewrite drop_0.
  destruct (hash_ok (take (Z.to_nat (L - checksum_len ctx)) bs)) as (h & Eh & H16 & HB).
  { by apply bytes_ok_take. }
  { unfold zlen. rewrite length_take. change (2 ^ 31) with 2147483648. lia. }
  rewrite Eh. mcbn. rewrite read_at_ok by (unfold n; lia). mcbn. rewrite read_at_ok by lia. mcbn.
  change (Z.to_nat 0) with 0%nat. rewrite drop_0.
  unfold safety_code. rewrite Eh. unfold sub.
  replace (Z.to_nat (28 + n)) with (28 + Z.to_nat (L - 28 - checksum_len ctx))%nat by (unfold n; lia).
  rewrite Hn. done.
Qed.

(** A buffer too short for a header: the error is remembered. *)
Lemma bytesToRastaPacket_short err bs ctx r0 : zlen bs < 28 + checksum_len ctx ->
  bytesToRastaPacket err bs ctx r0 =
  Ok (r0 <| p_checksum_correct := 0 |> <| p_length := 0 |>, RASTA_ERRORS_PACKAGE_LENGTH_INVALID).
Proof. intros H. unfold bytesToRastaPacket. ztests. done. Qed.

(** C32. Beyond the length check, the parser trusts the length field: it stays
    inside the received buffer exactly when the field is at least the length of
    the safety code and at most the number of bytes received. *)
Theorem bytesToRastaPacket_bounds err bs ctx r0 : HashOk ctx -> bytes_ok bs ->
  28 + checksum_len ctx <= zlen bs -> zlen bs < 2 ^ 31 ->
  is_ok (bytesToRastaPacket err bs ctx r0) =
  (checksum_len ctx <=? le_dec (sub bs 0 2)) && (le_dec (sub bs 0 2) <=? zlen bs).
Proof.
  intros Hh Hb Hl Hmax. pose proof (checksum_len_range ctx) as Hcl.
  pose proof (sub_u16 bs 0 Hb) as Hu. unfold is_u16 in Hu. change (2 ^ 31) with 2147483648 in Hmax.
  apply eq_true_iff_eq. rewrite andb_true_iff, !Z.leb_le. split.
  - intros Hok. destruct (bytesToRastaPacket err bs ctx r0) as [r|] eqn:E; [|done].
    rewrite bytesToRastaPacket_fields in E by done. cbv zeta in E.
    apply bind_ok in E as (payload & _ & E). apply bind_ok in E as (tohash & E2 & E).
    apply bind_ok in E as (h & _ & E). apply bind_ok in E as (received & E3 & _).
    apply read_at_inv in E2 as (_ & _ & H2 & _). apply read_at_inv in E3 as (_ & _ & H3 & _).
    unfold u32 in H2. split; [|lia]. destruct (Z.le_gt_cases (checksum_len ctx) (le_dec (sub bs 0 2))); [done|].
    exfalso. revert H2. Z.to_euclidean_division_equations. lia.
  - intros HL. by rewrite bytesToRastaPacket_parsed.
Qed.

(** ** Round trips *)

Lemma wire_bytes ctx pk : HashOk ctx -> packet_wf ctx pk -> bytes_ok (wire ctx pk).
Proof.
  intros Hh Hwf. destruct (body_length ctx pk Hwf). unfold wire. apply bytes_ok_app.
  split; [apply body_bytes, Hwf|apply safety_code_bytes; [done|apply body_bytes, Hwf|done]].
Qed.

(** The fixed fields of a buffer that starts with a header. *)
Lemma header_fields ctx pk rest : packet_wf ctx pk ->
  let bs := header pk ++ rest in
  le_dec (sub bs 0 2) = p_length pk /\ le_dec (sub bs 2 2) = p_type pk /\
  le_dec (sub bs 4 4) = p_receiver_id pk /\ le_dec (sub bs 8 4) = p_sender_id pk /\
  le_dec (sub bs 12 4) = p_sequence_number pk /\
  le_dec (sub bs 16 4) = p_confirmed_sequence_number pk /\
  le_dec (sub bs 20 4) = p_timestamp pk /\ le_dec (sub bs 24 4) = p_confirmed_timestamp pk.
Proof.
  intros [_ H1 H2 H3 H4 H5 H6 H7 H8 _] bs.
  rewrite <- (le_dec_enc_u16 _ H1), <- (le_dec_enc_u16 _ H2), <- (le_dec_enc_u32 _ H3),
    <- (le_dec_enc_u32 _ H4), <- (le_dec_enc_u32 _ H5), <- (le_dec_enc_u32 _ H6),
    <- (le_dec_enc_u32 _ H7), <- (le_dec_enc_u32 _ H8). done.
Qed.

Definition received_packet (ctx : rasta_hashing_context_t) (pk : RastaPacket) : RastaPacket :=
  pk <| p_checksum := safety_code ctx (header pk ++ p_data pk) |> <| p_checksum_correct := 1 |>.

Lemma parsed_wire ctx pk : HashOk ctx -> packet_wf ctx pk ->
  parsed ctx (wire ctx pk) = received_packet ctx pk.
Proof.
  intros Hh Hwf. destruct (body_length ctx pk Hwf) as [Hb Hl].
  pose proof (wf_length _ _ Hwf) as Hlen. pose proof (zlen_nonneg (p_data pk)) as Hd.
  pose proof (checksum_len_range ctx). set (body := header pk ++ p_data pk) in *.
  assert (Hc : zlen (safety_code ctx body) = checksum_len ctx)
    by (apply safety_code_length; [done|apply body_bytes, Hwf|done]).
  destruct (header_fields ctx pk (p_data pk ++ safety_code ctx body) Hwf)
    as (F1 & F2 & F3 & F4 & F5 & F6 & F7 & F8). cbv zeta in *.
  assert (Ew : wire ctx pk = header pk ++ p_data pk ++ safety_code ctx body)
    by (unfold wire; fold body; unfold body; by rewrite <- app_assoc).
  unfold parsed, received_packet. rewrite Ew, F1, F2, F3, F4, F5, F6, F7, F8.
  assert (Hn : Z.to_nat (p_length pk - 28 - checksum_len ctx) = length (p_data pk)) by (unfold zlen in *; lia).
  rewrite Hn.
  assert (D28 : drop 28 (header pk ++ p_data pk ++ safety_code ctx body) = p_data pk ++ safety_code ctx body)
    by (apply (drop_app_length (header pk))).
  assert (Dn : drop (28 + length (p_data pk)) (header pk ++ p_data pk ++ safety_code ctx body) =
               safety_code ctx body).
  { rewrite app_assoc. fold body. replace (28 + length (p_data pk))%nat with (length body)
      by (unfold body; by rewrite length_app, length_header). by rewrite drop_app_length. }
  unfold sub. rewrite Dn, D28, take_app_length.
  rewrite (take_ge (safety_code ctx body)) by (unfold zlen in Hc; lia).
  rewrite app_assoc. fold body.
  replace (Z.to_nat (p_length pk - checksum_len ctx)) with (length body) by (unfold zlen in *; lia).
  rewrite take_app_length, same_bytes_refl. by destruct pk.
Qed.

Lemma bytesToRastaPacket_wire ctx pk err r0 : HashOk ctx -> packet_wf ctx pk ->
  bytesToRastaPacket err (wire ctx pk) ctx r0 = Ok (received_packet ctx pk, err).
Proof.
  intros Hh Hwf.
  pose proof (wf_length _ _ Hwf). pose proof (zlen_nonneg (p_data pk)). pose proof (checksum_len_range ctx).
  rewrite bytesToRastaPacket_parsed, parsed_wire; rewrite ?wire_length; try done.
  - by apply wire_bytes.
  - lia.
  - unfold wire. rewrite <- app_assoc.
    destruct (header_fields ctx pk (p_data pk ++ safety_code ctx (header pk ++ p_data pk)) Hwf) as [-> _]. lia.
Qed.

(** C30. Serialising a well-formed packet and parsing the bytes gives the packet
    back, with its safety code filled in and found correct. *)
Theorem packet_roundtrip ctx pk err r0 : HashOk ctx -> packet_wf ctx pk ->
  exists bs, rastaModuleToBytes RASTA_ERRORS_NONE pk ctx = Ok (bs, RASTA_ERRORS_NONE) /\
    zlen bs = p_length pk /\
    bytesToRastaPacket err bs ctx r0 = Ok (received_packet ctx pk, err).
Proof.
  intros Hh Hwf. exists (wire ctx pk).
  by rewrite rastaModuleToBytes_ok, wire_length, bytesToRastaPacket_wire.
Qed.

Lemma sub_app bs off n m : sub bs off n ++ sub bs (off + n) m = sub bs off (n + m).
Proof. unfold sub. rewrite <- (take_take_drop (drop off bs)), drop_drop. done. Qed.

Lemma le_enc_sub bs off n : bytes_ok bs -> (off + n <= length bs)%nat ->
  le_enc n (le_dec (sub bs off n)) = sub bs off n.
Proof.
  intros Hb Hl. assert (Hn : length (sub bs off n) = n) by (unfold sub; rewrite length_take, length_drop; lia).
  rewrite <- Hn at 1. apply le_enc_dec. by apply bytes_ok_take, bytes_ok_drop.
Qed.

Lemma header_parsed ctx bs : bytes_ok bs -> (28 <= length bs)%nat -> header (parsed ctx bs) = sub bs 0 28.
Proof.
  intros Hb Hl. unfold header, parsed. cbn [p_length p_type p_receiver_id p_sender_id p_sequence_number
    p_confirmed_sequence_number p_timestamp p_confirmed_timestamp].
  rewrite !le_enc_sub by (done || lia). by rewrite !(sub_app bs).
Qed.

Lemma sub_u32 bs off : bytes_ok bs -> is_u32 (le_dec (sub bs off 4)).
Proof.
  intros Hb. pose proof (le_dec_bound (sub bs off 4)) as H. unfold is_u32, sub in *.
  assert (Hl : (length (take 4 (drop off bs)) <= 4)%nat) by (rewrite length_take; lia).
  destruct H as [H0 H1]; [by apply bytes_ok_take, bytes_ok_drop|]. split; [done|].
  eapply Z.lt_le_trans; [apply H1|]. change 4294967296 with (256 ^ 4). apply Z.pow_le_mono_r; lia.
Qed.

(** A buffer whose length field is its length. *)
Definition framed (ctx : rasta_hashing_context_t) (bs : list Z) : Prop :=
  bytes_ok bs /\ le_dec (sub bs 0 2) = zlen bs /\ 28 + checksum_len ctx <= zlen bs.

Lemma parsed_wf ctx bs : framed ctx bs -> packet_wf ctx (parsed ctx bs).
Proof.
  intros (Hb & HL & Hl). pose proof (checksum_len_range ctx).
  split; cbn [parsed p_length p_type p_receiver_id p_sender_id p_sequence_number
    p_confirmed_sequence_number p_timestamp p_confirmed_timestamp p_data];
    try (by apply sub_u16 || by apply sub_u32).
  - rewrite HL. unfold sub, zlen in *. rewrite length_take, length_drop. lia.
  - by apply bytes_ok_take, bytes_ok_drop.
Qed.

(** The buffer is the header, the data and the received safety code. *)
Lemma framed_split ctx bs : framed ctx bs ->
  bs = (header (parsed ctx bs) ++ p_data (parsed ctx bs)) ++ p_checksum (parsed ctx bs) /\
  take (Z.to_nat (zlen bs - checksum_len ctx)) bs = header (parsed ctx bs) ++ p_data (parsed ctx bs) /\
  zlen (p_checksum (parsed ctx bs)) = checksum_len ctx.
Proof.
  intros (Hb & HL & Hl). pose proof (checksum_len_range ctx). unfold zlen in Hl.
  rewrite header_parsed by (done || lia). cbn [parsed p_data p_checksum]. rewrite HL.
  set (n := Z.to_nat (zlen bs - 28 - checksum_len ctx)).
  assert (Hn : (28 + n + Z.to_nat (checksum_len ctx) = length bs)%nat) by (unfold n, zlen; lia).
  assert (E1 : sub bs 0 28 ++ sub bs 28 n = sub bs 0 (28 + n)) by apply (sub_app bs 0 28 n).
  assert (E2 : sub bs 0 (28 + n) ++ sub bs (28 + n) (Z.to_nat (checksum_len ctx)) =
    sub bs 0 (28 + n + Z.to_nat (checksum_len ctx))) by apply (sub_app bs 0).
  rewrite E1, E2.
  replace (Z.to_nat (zlen bs - checksum_len ctx)) with (28 + n)%nat by (unfold n, zlen; lia).
  unfold sub, zlen. rewrite drop_0. split; [by rewrite take_ge by lia|]. split; [done|].
  rewrite length_take, length_drop. lia.
Qed.

(** Keeping the received safety code. *)
Lemma rastaModuleToBytesNoChecksum_ok ctx pk : packet_wf ctx pk ->
  zlen (p_checksum pk) = checksum_len ctx ->
  rastaModuleToBytesNoChecksum RASTA_ERRORS_NONE pk ctx =
  Ok ((header pk ++ p_data pk) ++ p_checksum pk, RASTA_ERRORS_NONE).
Proof.
  intros Hwf Hc. destruct (body_length ctx pk Hwf) as [Hb Hl].
  pose proof (wf_length _ _ Hwf) as Hlen. pose proof (wf_u16 _ _ Hwf) as Hu.
  pose proof (zlen_nonneg (p_data pk)). pose proof (checksum_len_range ctx).
  unfold rastaModuleToBytesNoChecksum, allocateBytes, allocateRastaByteArray. ztests.
  change (no_error RASTA_ERRORS_NONE) with true. cbn [negb].
  assert (Hz : length (zeros (p_length pk)) = Z.to_nat (p_length pk))
    by (unfold zeros; by rewrite length_replicate).
  rewrite packFields_ok by lia. mcbn.
  rewrite getDataLength_wf by done. replace (Z.max 0 _) with (zlen (p_data pk)) by lia.
  rewrite read_all. mcbn.
  rewrite write_next; [|done|rewrite length_drop; unfold zlen in *; lia]. mcbn. rewrite drop_drop.
  rewrite <- Hc, read_all. mcbn.
  rewrite write_next; [| |rewrite length_drop, Hz; unfold zlen in *; lia].
  - mcbn. rewrite drop_drop, drop_ge; [by rewrite app_nil_r|]. rewrite Hz. unfold zlen in *. lia.
  - by rewrite zlen_app, zlen_header.
Qed.

(** C31. Whatever buffer the parser accepts as framed and with a correct safety
    code is exactly what serialising the parsed packet produces, so the parser
    loses nothing and no two buffers are accepted as the same packet; a framed
    buffer with any safety code is reproduced without recomputing it. *)
Theorem packet_parse_serialise ctx bs err r0 : HashOk ctx -> framed ctx bs ->
  exists pk, bytesToRastaPacket err bs ctx r0 = Ok (pk, err) /\ packet_wf ctx pk /\
    rastaModuleToBytesNoChecksum RASTA_ERRORS_NONE pk ctx = Ok (bs, RASTA_ERRORS_NONE) /\
    (p_checksum_correct pk = 1 <-> rastaModuleToBytes RASTA_ERRORS_NONE pk ctx = Ok (bs, RASTA_ERRORS_NONE)).
Proof.
  intros Hh Hf. pose proof Hf as (Hb & HL & Hl). pose proof (checksum_len_range ctx) as Hcl.
  pose proof (parsed_wf ctx bs Hf) as Hwf. destruct (framed_split ctx bs Hf) as (Hs & Ht & Hc).
  exists (parsed ctx bs). split; [apply bytesToRastaPacket_parsed; (done || lia)|]. split; [done|]. split.
  - rewrite rastaModuleToBytesNoChecksum_ok by done. by rewrite <- Hs.
  - rewrite rastaModuleToBytes_ok by done. unfold wire.
    assert (Hiff : p_checksum_correct (parsed ctx bs) = 1 <->
      safety_code ctx (header (parsed ctx bs) ++ p_data (parsed ctx bs)) = p_checksum (parsed ctx bs)).
    { rewrite <- Ht, <- same_bytes_true. cbn [parsed p_checksum_correct p_checksum]. rewrite HL. by case_if. }
    rewrite Hiff. split; intros He.
    + by rewrite He, <- Hs.
    + revert He Hs. generalize (header (parsed ctx bs) ++ p_data (parsed ctx bs)). intros body He Hs.
      injection He as He. rewrite Hs in He at 1. by apply app_inv_head in He.
Qed.

(** ** The redundancy layer's frame *)

(** The option sets whose checksum fits the 4 bytes that are stored. *)
Definition crc_fits (o : crc_options) : Prop := 0 <= width o <= 32.

Definition crc_bytes (o : crc_options) : Z := width o / 8.

Definition crc_code (o : crc_options) (data : list Z) : list Z :=
  take (Z.to_nat (crc_bytes o)) (le_enc 4 (u32 (crc_calculate o data).1)).

Definition red_header (rp : RastaRedundancyPacket) : list Z :=
  le_enc 2 (rp_length rp) ++ le_enc 2 (rp_reserve rp) ++ le_enc 4 (rp_sequence_number rp).

Definition red_wire (ctx : rasta_hashing_context_t) (rp : RastaRedundancyPacket) : list Z :=
  let body := red_header rp ++ wire ctx (rp_data rp) in
  body ++ crc_code (rp_checksum_type rp) body.

Record red_packet_wf (ctx : rasta_hashing_context_t) (rp : RastaRedundancyPacket) : Prop := {
  rwf_inner : packet_wf ctx (rp_data rp);
  rwf_crc : crc_fits (rp_checksum_type rp);
  rwf_length : rp_length rp = 8 + p_length (rp_data rp) + crc_bytes (rp_checksum_type rp);
  rwf_u16 : is_u16 (rp_length rp);
  rwf_reserve : is_u16 (rp_reserve rp);
  rwf_sn : is_u32 (rp_sequence_number rp)
}.

Lemma crc_bytes_range o : crc_fits o -> 0 <= crc_bytes o <= 4.
Proof. unfold crc_fits, crc_bytes. intros. Z.to_euclidean_division_equations. lia. Qed.

Lemma crc_code_length o data : crc_fits o -> zlen (crc_code o data) = crc_bytes o.
Proof.
  intros Ho. pose proof (crc_bytes_range o Ho). unfold crc_code, zlen.
  rewrite length_take, length_le_enc. lia.
Qed.
Lemma crc_code_bytes o data : bytes_ok (crc_code o data).
Proof. apply bytes_ok_take, le_enc_bytes. Qed.

Lemma rastaRedundancyPacketToBytes_ok ctx rp : HashOk ctx -> red_packet_wf ctx rp ->
  rastaRedundancyPacketToBytes RASTA_ERRORS_NONE rp ctx = Ok (red_wire ctx rp, RASTA_ERRORS_NONE).
Proof.
  intros Hh [Hin Hcrc Hlen Hu _ _]. pose proof (crc_bytes_range _ Hcrc) as Hn. unfold is_u16 in Hu.
  pose proof (wire_length ctx _ Hh Hin) as Hw. pose proof (zlen_nonneg (wire ctx (rp_data rp))).
  unfold rastaRedundancyPacketToBytes, hostShortTole, hostLongToLe, allocateRastaByteArray. cbv zeta.
  fold (crc_bytes (rp_checksum_type rp)).
  assert (Hz : length (zeros (rp_length rp)) = Z.to_nat (rp_length rp))
    by (unfold zeros; by rewrite length_replicate).
  rewrite write_front by (rewrite ?length_drop, Hz; cbn; lia). mcbn.
  do 2 (rewrite write_next by (rewrite ?length_drop, ?Hz; done || (cbn; lia)); mcbn).
  rewrite rastaModuleToBytes_ok by done. mcbn. rewrite <- Hw, read_all. mcbn.
  rewrite write_next; [|done|rewrite !length_drop, !length_le_enc, Hz; unfold zlen in *; lia]. mcbn.
  rewrite !drop_drop. 
  assert (Hbody : ((le_enc 2 (rp_length rp) ++ le_enc 2 (rp_reserve rp)) ++ le_enc 4 (rp_sequence_number rp)) ++
    wire ctx (rp_data rp) = red_header rp ++ wire ctx (rp_data rp))
    by (unfold red_header; by rewrite <- !app_assoc).
  rewrite Hbody. unfold red_wire. set (body := red_header rp ++ wire ctx (rp_data rp)).
  assert (Hb : zlen body = 8 + zlen (wire ctx (rp_data rp))) by (unfold body; by rewrite zlen_app).
  rewrite read_front by (rewrite u32_small; unfold is_u32; lia). mcbn.
  destruct (crc_calculate (rp_checksum_type rp) body) as [crc o'] eqn:Ecrc.
  rewrite read_at_ok; [|lia|lia|unfold zlen; rewrite length_le_enc; lia]. mcbn. rewrite drop_0.
  assert (Hcode : take (Z.to_nat (crc_bytes (rp_checksum_type rp))) (le_enc 4 (u32 crc)) =
    crc_code (rp_checksum_type rp) body) by (unfold crc_code; by rewrite Ecrc).
  rewrite Hcode. pose proof (crc_code_length _ body Hcrc) as Hcl.
  rewrite write_next; [|lia|rewrite !length_drop, !length_le_enc, Hz; unfold zlen in *; lia].
  mcbn. rewrite drop_drop, drop_ge; [by rewrite app_nil_r|].
  rewrite Hz, !length_le_enc. unfold zlen in *. lia.
Qed.

Lemma red_wire_length ctx rp : HashOk ctx -> red_packet_wf ctx rp -> zlen (red_wire ctx rp) = rp_length rp.
Proof.
  intros Hh [Hin Hcrc Hlen _ _ _]. unfold red_wire. rewrite !zlen_app, crc_code_length, wire_length by done.
  change (zlen (red_header rp)) with 8. lia.
Qed.

Lemma red_wire_bytes ctx rp : HashOk ctx -> red_packet_wf ctx rp -> bytes_ok (red_wire ctx rp).
Proof.
  intros Hh [Hin _ _ _ _ _]. unfold red_wire, red_header. rewrite !bytes_ok_app.
  repeat split; auto using le_enc_bytes, crc_code_bytes, wire_bytes.
Qed.

Definition received_red (ctx : rasta_hashing_context_t) (rp : RastaRedundancyPacket) : RastaRedundancyPacket :=
  rp <| rp_data := received_packet ctx (rp_data rp) |> <| rp_checksum_correct := 1 |>.

(** The pieces of the frame, at the offsets the parser reads them. *)
Lemma red_wire_reads ctx rp : HashOk ctx -> red_packet_wf ctx rp ->
  let w := red_wire ctx rp in
  let inner := wire ctx (rp_data rp) in
  let n := crc_bytes (rp_checksum_type rp) in
  let body := red_header rp ++ inner in
  read_at w 0 2 = Ok (le_enc 2 (rp_length rp)) /\
  read_at w 2 2 = Ok (le_enc 2 (rp_reserve rp)) /\
  read_at w 4 4 = Ok (le_enc 4 (rp_sequence_number rp)) /\
  read_at w 8 (zlen w - 8 - n) = Ok inner /\
  read_at w 0 (zlen w - n) = Ok body /\
  read_at w (8 + (zlen w - 8 - n)) n = Ok (crc_code (rp_checksum_type rp) body).
Proof.
  intros Hh Hwf w inner n body. pose proof (red_wire_length ctx rp Hh Hwf) as Hrl. fold w in Hrl.
  destruct Hwf as [Hin Hcrc Hlen _ _ _]. fold n in Hlen.
  pose proof (wire_length ctx _ Hh Hin) as Hw. fold inner in Hw.
  set (code := crc_code (rp_checksum_type rp) body).
  assert (Hc : zlen code = n) by (by apply crc_code_length).
  assert (Eb : w = body ++ code) by done.
  assert (Hb : zlen body = 8 + zlen inner) by (unfold body; by rewrite zlen_app).
  repeat split.
  - rewrite Eb. unfold body, red_header. rewrite <- !app_assoc. by apply read_front.
  - rewrite Eb. unfold body, red_header. rewrite <- !app_assoc. by apply read_at_app.
  - rewrite Eb. unfold body, red_header. rewrite <- !app_assoc, app_assoc. by apply read_at_app.
  - rewrite Hrl, Eb. unfold body. rewrite <- app_assoc. apply read_at_app; [done|lia].
  - rewrite Hrl, Eb. apply read_front. lia.
  - rewrite Hrl, Eb. apply read_back; lia.
Qed.

Lemma crc_stored o data : crc_fits o ->
  read_at (hostLongToLe (u32 (crc_calculate o data).1)) 0 (crc_bytes o) = Ok (crc_code o data).
Proof.
  intros Ho. pose proof (crc_bytes_range o Ho). unfold hostLongToLe.
  rewrite read_at_ok; [|lia|lia|rewrite zlen_le_enc; lia]. by rewrite drop_0.
Qed.

Lemma bytesToRastaRedundancyPacket_wire err ctx rp r0 : HashOk ctx -> red_packet_wf ctx rp ->
  bytesToRastaRedundancyPacket err (red_wire ctx rp) (rp_checksum_type rp) ctx r0 =
  Ok (received_red ctx rp, err).
Proof.
  intros Hh Hwf. destruct (red_wire_reads ctx rp Hh Hwf) as (E0 & E2 & E4 & E8 & E9 & E10).
  pose proof (red_wire_length ctx rp Hh Hwf) as Hrl.
  destruct Hwf as [Hin Hcrc Hlen Hu Hres Hsn]. pose proof (crc_bytes_range _ Hcrc) as Hn. unfold is_u16 in Hu.
  pose proof (zlen_nonneg (p_data (rp_data rp))). pose proof (wf_length _ _ Hin).
  pose proof (checksum_len_range ctx).
  unfold bytesToRastaRedundancyPacket. fold (crc_bytes (rp_checksum_type rp)). cbv zeta.
  rewrite !u32_small by (unfold is_u32; lia).
  rewrite E0, E2, E4, E8. mcbn. rewrite bytesToRastaPacket_wire by done. mcbn. rewrite E9. mcbn.
  pose proof (crc_stored _ (red_header rp ++ wire ctx (rp_data rp)) Hcrc) as Hst.
  destruct (crc_calculate _ _) as [crc o']. cbn [fst] in Hst.
  unfold leShortToHost. rewrite le_dec_enc_u16, le_dec_enc_u16, le_dec_enc_u32 by done.
  rewrite E10, Hst. mcbn. rewrite same_bytes_refl. unfold received_red.
  by destruct (zlen _ =? _), rp.
Qed.

(** A redundancy-layer packet with a well-formed SR packet inside survives
    serialising and parsing with the same check code, and both the check code and
    the inner safety code are found correct. *)
Theorem redundancy_packet_roundtrip err ctx rp r0 : HashOk ctx -> red_packet_wf ctx rp ->
  exists bs, rastaRedundancyPacketToBytes RASTA_ERRORS_NONE rp ctx = Ok (bs, RASTA_ERRORS_NONE) /\
    zlen bs = rp_length rp /\
    bytesToRastaRedundancyPacket err bs (rp_checksum_type rp) ctx r0 = Ok (received_red ctx rp, err).
Proof.
  intros Hh Hwf. exists (red_wire ctx rp).
  by rewrite rastaRedundancyPacketToBytes_ok, red_wire_length, bytesToRastaRedundancyPacket_wire.
Qed.

(** ** Parsing arbitrary bytes *)

(** The only fault is an access out of bounds. *)
Definition oob_only {A} (m : res A) : Prop := match m with Ok _ => True | Fail e => e = OutOfBounds end.

Lemma oob_bind {A B} (m : res A) (k : A -> res B) :
  oob_only m -> (forall a, m = Ok a -> oob_only (k a)) -> oob_only (m ≫= k).
Proof. destruct m as [a|e]; cbn; [eauto|done]. Qed.

Lemma oob_read b off n : oob_only (read_at b off n).
Proof. unfold read_at, ensure. by destruct (_ && _). Qed.

Lemma bytesToRastaPacket_oob err bs ctx r0 : HashOk ctx -> bytes_ok bs -> zlen bs < 2 ^ 31 ->
  oob_only (bytesToRastaPacket err bs ctx r0).
Proof.
  intros Hh Hb Hmax. destruct (decide (zlen bs < 28 + checksum_len ctx)).
  { by rewrite bytesToRastaPacket_short. }
  rewrite bytesToRastaPacket_fields by (done || lia).
  do 2 (apply oob_bind; [apply oob_read|intros ? ?]). apply oob_bind.
  - destruct (hash_ok a0) as (h & Eh & _); [| |by rewrite Eh].
    + apply read_at_sub_bytes in H0; done.
    + apply read_at_inv in H0. lia.
  - intros. do 2 (apply oob_bind; [apply oob_read|intros ? ?]). done.
Qed.

Lemma bytesToRastaRedundancyPacket_oob err bs o ctx r0 : HashOk ctx -> bytes_ok bs -> zlen bs < 2 ^ 31 ->
  oob_only (bytesToRastaRedundancyPacket err bs o ctx r0).
Proof.
  intros Hh Hb Hmax. unfold bytesToRastaRedundancyPacket.
  do 2 (apply oob_bind; [apply oob_read|intros ? ?]).
  apply oob_bind; [apply oob_bind; [apply oob_read|done]|intros ? ?].
  apply oob_bind; [apply oob_read|intros inner Hin]. apply oob_bind.
  { apply bytesToRastaPacket_oob; [done| |].
    - by apply read_at_sub_bytes in Hin.
    - apply read_at_inv in Hin. lia. }
  intros [p e] _. apply oob_bind; [apply oob_read|intros ? ?].
  destruct (crc_calculate _ _). case_if; [done|]. do 2 (apply oob_bind; [apply oob_read|intros ? ?]). done.
Qed.

(** A frame that is shorter than its own header and check code makes the parser
    copy almost 4 GiB. *)
Lemma bytesToRastaRedundancyPacket_tiny err bs o ctx r0 : crc_fits o -> zlen bs < 8 + crc_bytes o ->
  bytesToRastaRedundancyPacket err bs o ctx r0 = Fail OutOfBounds.
Proof.
  intros Ho Hl. pose proof (crc_bytes_range o Ho). pose proof (zlen_nonneg bs).
  unfold bytesToRastaRedundancyPacket. fold (crc_bytes o). cbv zeta.
  destruct (decide (zlen bs < 8)) as [Hlt|Hge].
  - destruct (decide (zlen bs < 2)); [by rewrite (read_at_fail bs 0 2) by lia|].
    rewrite (read_at_ok bs 0 2) by lia. mcbn.
    destruct (decide (zlen bs < 4)); [by rewrite (read_at_fail bs 2 2) by lia|].
    rewrite (read_at_ok bs 2 2) by lia. mcbn. by rewrite (read_at_fail bs 4 4) by lia.
  - rewrite (read_at_ok bs 0 2), (read_at_ok bs 2 2), (read_at_ok bs 4 4) by lia. mcbn.
    rewrite (read_at_fail bs 8); [done|]. right. right.
    unfold u32. Z.to_euclidean_division_equations. lia.
Qed.

Lemma bytesToRastaRedundancyPacket_min err bs o ctx r0 r : bytesToRastaRedundancyPacket err bs o ctx r0 = Ok r ->
  8 <= zlen bs.
Proof.
  unfold bytesToRastaRedundancyPacket. intros H. apply bind_ok in H as (? & _ & H).
  apply bind_ok in H as (? & _ & H). apply bind_ok in H as (? & H & _).
  apply bind_ok in H as (? & H & _). apply read_at_inv in H. lia.
Qed.

(** ** Witnesses *)

Definition demo_ctx : rasta_hashing_context_t :=
  mkHash RASTA_ALGO_MD4 RASTA_CHECKSUM_8B
    (le_enc 4 0x67452301 ++ le_enc 4 0xefcdab89 ++ le_enc 4 0x98badcfe ++ le_enc 4 0x10325476).
#[export] Instance demo_key : KeyOk demo_ctx.
Proof. unfold KeyOk. cbn. lia. Qed.

Definition demo_packet : RastaPacket :=
  mkPacket 39 RASTA_TYPE_DATA 0x61 0x60 7 5 1000 900 [1; 2; 255] [] 0.
Lemma demo_packet_wf : packet_wf demo_ctx demo_packet.
Proof.
  constructor; [reflexivity|cbn; unfold is_u16, is_u32, RASTA_TYPE_DATA; lia..|].
  repeat constructor; unfold is_u8; lia.
Qed.

Definition demo_red : RastaRedundancyPacket := mkRedPacket 51 0 3 demo_packet 0 crc_init_opt_b.
Lemma demo_red_wf : red_packet_wf demo_ctx demo_red.
Proof.
  constructor; [apply demo_packet_wf|unfold crc_fits; cbn; lia|reflexivity|unfold is_u16, is_u32; cbn; lia..].
Qed.

Definition demo_wire : list Z := wire demo_ctx demo_packet.
Lemma demo_framed : framed demo_ctx demo_wire.
Proof.
  split; [apply wire_bytes; [apply _|apply demo_packet_wf]|]. split; [vm_compute; reflexivity|].
  vm_compute. discriminate.
Qed.

Lemma packet_roundtrip_witness :
  packet_wf demo_ctx demo_packet /\
  exists bs, rastaModuleToBytes RASTA_ERRORS_NONE demo_packet demo_ctx = Ok (bs, RASTA_ERRORS_NONE) /\
    zlen bs = 39 /\
    bytesToRastaPacket RASTA_ERRORS_NONE bs demo_ctx empty_packet =
    Ok (received_packet demo_ctx demo_packet, RASTA_ERRORS_NONE).
Proof.
  split; [exact demo_packet_wf|].
  exact (packet_roundtrip demo_ctx demo_packet RASTA_ERRORS_NONE empty_packet _ demo_packet_wf).
Defined.

Lemma packet_parse_serialise_witness :
  framed demo_ctx demo_wire /\
  exists pk, bytesToRastaPacket RASTA_ERRORS_NONE demo_wire demo_ctx empty_packet = Ok (pk, RASTA_ERRORS_NONE) /\
    packet_wf demo_ctx pk /\
    rastaModuleToBytesNoChecksum RASTA_ERRORS_NONE pk demo_ctx = Ok (demo_wire, RASTA_ERRORS_NONE) /\
    (p_checksum_correct pk = 1 <->
     rastaModuleToBytes RASTA_ERRORS_NONE pk demo_ctx = Ok (demo_wire, RASTA_ERRORS_NONE)).
Proof.
  split; [exact demo_framed|].
  exact (packet_parse_serialise demo_ctx demo_wire RASTA_ERRORS_NONE empty_packet _ demo_framed).
Defined.

(** A heartbeat-sized buffer that announces 65535 bytes is read past its end. *)
Lemma bytesToRastaPacket_bounds_witness :
  let bs := [255; 255] ++ zeros 34 in
  bytes_ok bs /\ 28 + checksum_len demo_ctx <= zlen bs /\
  is_ok (bytesToRastaPacket RASTA_ERRORS_NONE bs demo_ctx empty_packet) = false.
Proof.
  intros bs.
  assert (Hb : bytes_ok bs)
    by (apply bytes_ok_app; split; [repeat constructor; unfold is_u8; lia|apply bytes_ok_zeros]).
  assert (Hl : 28 + checksum_len demo_ctx <= zlen bs) by (vm_compute; discriminate).
  split; [exact Hb|]. split; [exact Hl|].
  refine (eq_trans (bytesToRastaPacket_bounds RASTA_ERRORS_NONE bs demo_ctx empty_packet _ Hb Hl _) _);
    vm_compute; reflexivity.
Defined.

Lemma redundancy_packet_roundtrip_witness :
  red_packet_wf demo_ctx demo_red /\
  exists bs, rastaRedundancyPacketToBytes RASTA_ERRORS_NONE demo_red demo_ctx = Ok (bs, RASTA_ERRORS_NONE) /\
    zlen bs = 51 /\
    bytesToRastaRedundancyPacket RASTA_ERRORS_NONE bs crc_init_opt_b demo_ctx demo_red =
    Ok (received_red demo_ctx demo_red, RASTA_ERRORS_NONE).
Proof.
  split; [exact demo_red_wf|].
  exact (redundancy_packet_roundtrip RASTA_ERRORS_NONE demo_ctx demo_red demo_red _ demo_red_wf).
Defined.
