(* ===== verification/Factory.v ===== *)
(** * Building and taking apart packets (src/c/rastafactory.c, rastafactory.h)

    One constructor per packet type and the extraction of the type-specific
    data.  Every constructor yields a well-formed packet; the message list of a
    data packet, the connection data and the disconnection data round-trip. *)

From stdpp Require Import base numbers list.
From Stdlib Require Import ZArith Lia.
From S2P Require Import Prelude.
From S2P Require Import Crc.
From S2P Require Import Hashing.
From S2P Require Import Packet.

Local Open Scope Z_scope.
Local Open Scope record_scope.

(* rastafactory.h RastaConnectionData *)
Record RastaConnectionData := mkConnectionData { cd_send_max : Z; cd_version : list Z }.
(* rastafactory.h RastaDisconnectionData *)
Record RastaDisconnectionData := mkDisconnectionData { details : Z; reason : Z }.
(** [struct RastaMessageData]: [count] is the length of the list. *)
(* rastafactory.h RastaMessageData *)
Definition RastaMessageData : Type := list (list Z).

(* rastafactory.c getRastafactoryLastError *)
Definition getRastafactoryLastError (lasterror : rasta_error_type) : rasta_error_type * rasta_error_type :=
  (lasterror, RASTA_ERRORS_NONE).

(** The parameters of a constructor: they are the same for all types. *)
Record packet_ids := mkIds {
  i_receiver : Z; i_sender : Z; i_sn : Z; i_cs : Z; i_ts : Z; i_cts : Z
}.

(** [checksum_correct] is left indeterminate by the code (0 here). *)
(* rastafactory.c initializePacket *)
Definition initializePacket (type : Z) (i : packet_ids) (data_length : Z) (ctx : rasta_hashing_context_t) :
    RastaPacket :=
  mkPacket (u16 (28 + checksum_len ctx + data_length)) type (i_receiver i) (i_sender i) (i_sn i)
    (i_cs i) (i_ts i) (i_cts i)
    (if 0 <? data_length then allocateRastaByteArray data_length else [])
    (if 0 <? checksum_type_val (hash_length ctx) then allocateRastaByteArray (checksum_len ctx) else []) 0.

(** The 14 bytes of connection data. *)
(* rastafactory.c:80-95 createConnectionRequest *)
Definition putConnectionData (p : RastaPacket) (send_max : Z) (version : list Z) : res RastaPacket :=
  v ← read_at version 0 4;
  d ← write_at (p_data p) 0 v;
  d ← write_at d 4 (hostShortTole send_max);
  d ← write_at d 6 (zeros 8);
  mret (p <| p_data := d |>).

(* rastafactory.c createConnectionRequest *)
Definition createConnectionRequest (receiver_id sender_id initial_sequence_number timestamp send_max : Z)
    (version : list Z) (ctx : rasta_hashing_context_t) : res RastaPacket :=
  putConnectionData (initializePacket RASTA_TYPE_CONNREQ
    (mkIds receiver_id sender_id initial_sequence_number 0 timestamp 0) 14 ctx) send_max version.

(* rastafactory.c createConnectionResponse *)
Definition createConnectionResponse (i : packet_ids) (send_max : Z) (version : list Z)
    (ctx : rasta_hashing_context_t) : res RastaPacket :=
  putConnectionData (initializePacket RASTA_TYPE_CONNRESP i 14 ctx) send_max version.

(** Without OPAQUE the key exchange packets cannot be built. *)
(* rastafactory.c createKexExchangeRequest *)
Definition createKexExchangeRequest (i : packet_ids) : res RastaPacket := Fail AbortCalled.
(* rastafactory.c createKexExchangeResponse *)
Definition createKexExchangeResponse (i : packet_ids) : res RastaPacket := Fail AbortCalled.
(* rastafactory.c:232-248 createKexAuthentication *)
Definition createKexAuthentication (i : packet_ids) : res RastaPacket := Fail AbortCalled.

(* rastafactory.c extractRastaConnectionData *)
Definition extractRastaConnectionData (err : rasta_error_type) (p : RastaPacket) :
    RastaConnectionData * rasta_error_type :=
  if zlen (p_data p) =? 14 then
    (mkConnectionData (leShortToHost (sub (p_data p) 4 2)) (sub (p_data p) 0 4 ++ [0]), err)
  else (mkConnectionData 0 (zeros 4 ++ [0]), RASTA_ERRORS_WRONG_PACKAGE_FORMAT).

(* rastafactory.c createRetransmissionRequest *)
Definition createRetransmissionRequest (i : packet_ids) (ctx : rasta_hashing_context_t) : RastaPacket :=
  initializePacket RASTA_TYPE_RETRREQ i 0 ctx.
(* rastafactory.c createRetransmissionResponse *)
Definition createRetransmissionResponse (i : packet_ids) (ctx : rasta_hashing_context_t) : RastaPacket :=
  initializePacket RASTA_TYPE_RETRRESP i 0 ctx.

(* rastafactory.c createDisconnectionRequest *)
Definition createDisconnectionRequest (i : packet_ids) (data : RastaDisconnectionData)
    (ctx : rasta_hashing_context_t) : res RastaPacket :=
  let p := initializePacket RASTA_TYPE_DISCREQ i 4 ctx in
  d ← write_at (p_data p) 0 (hostShortTole (details data));
  d ← write_at d 2 (hostShortTole (reason data));
  mret (p <| p_data := d |>).

(* rastafactory.c extractRastaDisconnectionData *)
Definition extractRastaDisconnectionData (err : rasta_error_type) (p : RastaPacket) :
    RastaDisconnectionData * rasta_error_type :=
  if zlen (p_data p) =? 4 then
    (mkDisconnectionData (leShortToHost (sub (p_data p) 0 2)) (leShortToHost (sub (p_data p) 2 2)), err)
  else (mkDisconnectionData 0 0, RASTA_ERRORS_WRONG_PACKAGE_FORMAT).

(* rastafactory.c createHeartbeat *)
Definition createHeartbeat (i : packet_ids) (ctx : rasta_hashing_context_t) : RastaPacket :=
  initializePacket RASTA_TYPE_HB i 0 ctx.

(* rastafactory.c:333-339 createDataMessage *)
Definition message_length (data : RastaMessageData) : Z :=
  u32 (foldl (fun n m => u32 (n + zlen m)) 0 data + 2 * zlen data).

(** The loop that fills the data array. *)
(* rastafactory.c:347-356 createDataMessage *)
Fixpoint fillData (bytes : list Z) (off : Z) (data : RastaMessageData) : res (list Z) :=
  match data with
  | [] => Ok bytes
  | m :: data =>
      bytes ← write_at bytes off (hostShortTole (u16 (zlen m)));
      bytes ← write_at bytes (2 + off) m;
      fillData bytes (u32 (off + zlen m + 2)) data
  end.

(** The length is cut to 16 bits when the array is allocated. *)
(* rastafactory.c createDataMessage *)
Definition createDataMessage (i : packet_ids) (data : RastaMessageData) (ctx : rasta_hashing_context_t) :
    res RastaPacket :=
  let p := initializePacket RASTA_TYPE_DATA i (u16 (message_length data)) ctx in
  d ← fillData (p_data p) 0 data;
  mret (p <| p_data := d |>).

(** First pass of [extractMessageData]: counting. *)
(* rastafactory.c:365-370 extractMessageData *)
Fixpoint countMessages (fuel : nat) (data : list Z) (current_length : Z) (counter : nat) : res nat :=
  match fuel with
  | O => Fail OutOfFuel
  | S fuel =>
      if current_length <? zlen data then
        l ← read_at data current_length 2;
        countMessages fuel data (u32 (current_length + leShortToHost l + 2)) (S counter)
      else Ok counter
  end.

(** Second pass: copying. *)
(* rastafactory.c:377-387 extractMessageData *)
Fixpoint copyMessages (count : nat) (data : list Z) (current_length : Z) : res RastaMessageData :=
  match count with
  | O => Ok []
  | S count =>
      l ← read_at data current_length 2;
      let length := leShortToHost l in
      m ← read_at data (2 + current_length) length;
      rest ← copyMessages count data (u32 (current_length + length + 2));
      mret (m :: rest)
  end.

(* rastafactory.c extractMessageData *)
Definition extractMessageData (p : RastaPacket) : res RastaMessageData :=
  counter ← countMessages (S (length (p_data p))) (p_data p) 0 0;
  copyMessages counter (p_data p) 0.

(* rastafactory.c createRetransmittedDataMessage *)
Definition createRetransmittedDataMessage (i : packet_ids) (data : RastaMessageData)
    (ctx : rasta_hashing_context_t) : res RastaPacket :=
  p ← createDataMessage i data ctx;
  mret (p <| p_type := RASTA_TYPE_RETRDATA |>).

(* rastafactory.c createRedundancyPacket *)
Definition createRedundancyPacket (sequence_number : Z) (inner_data : RastaPacket) (checksum_type : crc_options) :
    RastaRedundancyPacket :=
  mkRedPacket (u16 (8 + p_length inner_data + width checksum_type / 8)) 0 sequence_number inner_data 1
    checksum_type.

(** ** Well-formedness *)

Record ids_ok (i : packet_ids) : Prop := {
  ids_receiver : is_u32 (i_receiver i); ids_sender : is_u32 (i_sender i);
  ids_sn : is_u32 (i_sn i); ids_cs : is_u32 (i_cs i);
  ids_ts : is_u32 (i_ts i); ids_cts : is_u32 (i_cts i)
}.

(** What every constructor establishes. *)
Record built (ctx : rasta_hashing_context_t) (type : Z) (i : packet_ids) (data : list Z) (p : RastaPacket) :
    Prop := {
  built_type : p_type p = type;
  built_receiver : p_receiver_id p = i_receiver i;
  built_sender : p_sender_id p = i_sender i;
  built_sn : p_sequence_number p = i_sn i;
  built_cs : p_confirmed_sequence_number p = i_cs i;
  built_ts : p_timestamp p = i_ts i;
  built_cts : p_confirmed_timestamp p = i_cts i;
  built_data : p_data p = data;
  built_length : p_length p = 28 + zlen data + checksum_len ctx
}.

Lemma built_wf ctx type i data p : built ctx type i data p -> ids_ok i -> is_u16 type -> bytes_ok data ->
  28 + zlen data + checksum_len ctx <= 65535 -> packet_wf ctx p.
Proof.
  intros [H1 H2 H3 H4 H5 H6 H7 H8 H9] [I1 I2 I3 I4 I5 I6] Ht Hd Hl. pose proof (zlen_nonneg data).
  pose proof (checksum_len_range ctx).
  split; rewrite ?H1, ?H2, ?H3, ?H4, ?H5, ?H6, ?H7, ?H8, ?H9; try done. unfold is_u16. lia.
Qed.

Lemma initializePacket_built type i n ctx : 0 <= n -> 28 + n + checksum_len ctx <= 65535 ->
  built ctx type i (zeros n) (initializePacket type i n ctx).
Proof.
  intros Hn Hl. pose proof (checksum_len_range ctx). split; try done.
  - cbn. case_if; zbool; [done|]. by replace n with 0 by lia.
  - cbn. rewrite zlen_zeros by done. rewrite u16_small by (unfold is_u16; lia). lia.
Qed.

Lemma built_with_data ctx type i data d p : built ctx type i data p -> zlen d = zlen data ->
  built ctx type i d (p <| p_data := d |>).
Proof. intros [? ? ? ? ? ? ? ? ?] Hd. split; fields; try done. by rewrite Hd. Qed.

Definition connection_data (send_max : Z) (version : list Z) : list Z :=
  take 4 version ++ le_enc 2 send_max ++ zeros 8.

Lemma putConnectionData_built ctx type i send_max version : (4 <= length version)%nat ->
  exists p, putConnectionData (initializePacket type i 14 ctx) send_max version = Ok p /\
    built ctx type i (connection_data send_max version) p.
Proof.
  intros Hv. pose proof (checksum_len_range ctx). unfold putConnectionData.
  rewrite read_at_ok by (unfold zlen; lia). mcbn. change (Z.to_nat 0) with 0%nat. rewrite drop_0.
  change (p_data (initializePacket type i 14 ctx)) with (zeros 14).
  change (Z.to_nat 4) with 4%nat.
  assert (H4 : length (take 4 version) = 4%nat) by (rewrite length_take; lia).
  rewrite write_front by (rewrite H4; nle). mcbn. rewrite H4.
  rewrite write_next; [|unfold zlen; by rewrite H4|unfold hostShortTole; rewrite length_le_enc; nle]. mcbn.
  rewrite write_next; [|unfold zlen, hostShortTole; by rewrite length_app, H4|nle]. mcbn.
  eexists. split; [done|]. cbn [length app drop hostShortTole le_enc].
  change (drop (length (zeros 8)) _) with (@nil Z). rewrite app_nil_r, <- app_assoc.
  apply (built_with_data _ _ _ (zeros 14)); [apply initializePacket_built; lia|].
  unfold zlen. rewrite !length_app, H4. done.
Qed.

(** ** The message list of a data packet *)

Definition encode (data : RastaMessageData) : list Z :=
  data ≫= fun m => le_enc 2 (zlen m) ++ m.

Lemma encode_cons m data : encode (m :: data) = (le_enc 2 (zlen m) ++ m) ++ encode data.
Proof. done. Qed.

Lemma zlen_encode_cons m data : zlen (encode (m :: data)) = 2 + zlen m + zlen (encode data).
Proof. rewrite encode_cons, !zlen_app, zlen_le_enc. lia. Qed.

Lemma encode_sum data : zlen (encode data) < 2 ^ 32 -> message_length data = zlen (encode data).
Proof.
  change (2 ^ 32) with 4294967296. intros Hl. unfold message_length.
  assert (Hf : forall data acc, 0 <= acc -> acc + zlen (encode data) < 4294967296 ->
    foldl (fun n m => u32 (n + zlen m)) acc data + 2 * zlen data = acc + zlen (encode data)).
  { clear. induction data as [|m data IH]; intros acc Ha Hl; [unfold zlen; cbn; lia|].
    rewrite zlen_encode_cons in *. rewrite zlen_cons. cbn [foldl].
    pose proof (zlen_nonneg m). pose proof (zlen_nonneg (encode data)).
    rewrite u32_small by (unfold is_u32; lia). specialize (IH (acc + zlen m)). lia. }
  rewrite Hf by lia. pose proof (zlen_nonneg (encode data)).
  rewrite Z.add_0_l, u32_small; unfold is_u32; lia.
Qed.

(** Filling writes the encoding; it needs exactly that much room. *)
Lemma fillData_ok data : forall done room,
  Forall (fun m => zlen m <= 65535) data -> zlen done + zlen (encode data) < 2 ^ 32 ->
  (length (encode data) <= length room)%nat ->
  fillData (done ++ room) (zlen done) data =
  Ok ((done ++ encode data) ++ drop (length (encode data)) room).
Proof.
  change (2 ^ 32) with 4294967296.
  induction data as [|m data IH]; intros done0 room Hm Hl Hr; cbn [fillData].
  - cbn. by rewrite app_nil_r, drop_0.
  - inversion Hm as [|? ? Hm1 Hm2]; subst. rewrite zlen_encode_cons in Hl.
    pose proof (zlen_nonneg m). pose proof (zlen_nonneg (encode data)). pose proof (zlen_nonneg done0).
    rewrite encode_cons, !length_app, length_le_enc in Hr.
    rewrite u16_small by (unfold is_u16; lia). unfold hostShortTole.
    rewrite write_next by (rewrite ?length_le_enc; done || lia). mcbn. rewrite length_le_enc.
    rewrite write_next; [|rewrite zlen_app, zlen_le_enc; lia|rewrite length_drop; lia]. mcbn.
    rewrite drop_drop.
    replace (u32 (zlen done0 + zlen m + 2)) with (zlen ((done0 ++ le_enc 2 (zlen m)) ++ m))
      by (rewrite !zlen_app, zlen_le_enc, u32_small; unfold is_u32; lia).
    rewrite IH; [|done|rewrite !zlen_app, zlen_le_enc; lia|rewrite length_drop; lia].
    rewrite drop_drop, encode_cons, !length_app, length_le_enc. f_equal.
    rewrite <- !app_assoc. do 4 f_equal.
Qed.

Lemma encode_short data m : m ∈ data -> zlen m + 2 <= zlen (encode data).
Proof.
  induction 1 as [m data|m m' data _ IH]; rewrite zlen_encode_cons.
  - pose proof (zlen_nonneg (encode data)). lia.
  - pose proof (zlen_nonneg m'). lia.
Qed.

Lemma encode_bytes data : Forall bytes_ok data -> bytes_ok (encode data).
Proof.
  induction 1; [constructor|]. rewrite encode_cons, !bytes_ok_app. auto using le_enc_bytes.
Qed.

Lemma createDataMessage_built ctx i data : 28 + zlen (encode data) + checksum_len ctx <= 65535 ->
  exists p, createDataMessage i data ctx = Ok p /\ built ctx RASTA_TYPE_DATA i (encode data) p.
Proof.
  intros Hl. pose proof (checksum_len_range ctx). pose proof (zlen_nonneg (encode data)).
  unfold createDataMessage.
  rewrite encode_sum, u16_small by (unfold is_u16; change (2 ^ 32) with 4294967296; lia).
  set (p := initializePacket _ _ _ _).
  assert (Hp : built ctx RASTA_TYPE_DATA i (zeros (zlen (encode data))) p)
    by (apply initializePacket_built; lia).
  rewrite (built_data _ _ _ _ _ Hp).
  pose proof (fillData_ok data [] (zeros (zlen (encode data)))) as Hf. cbn [app] in Hf.
  change (zlen []) with 0 in Hf.
  assert (Hz : length (zeros (zlen (encode data))) = length (encode data))
    by (unfold zeros; by rewrite length_replicate, zlen_to_nat).
  rewrite Hf.
  - mcbn. eexists. split; [done|]. rewrite drop_ge, app_nil_r by lia.
    apply (built_with_data _ _ _ _ _ _ Hp). unfold zlen at 2. by rewrite Hz.
  - apply Forall_forall. intros m Hm. pose proof (encode_short data m Hm). lia.
  - change (2 ^ 32) with 4294967296. lia.
  - lia.
Qed.

(** ** Extraction *)

Lemma read_msg done m rest :
  zlen m <= 65535 ->
  read_at (done ++ (le_enc 2 (zlen m) ++ m) ++ rest) (zlen done) 2 = Ok (le_enc 2 (zlen m)) /\
  read_at (done ++ (le_enc 2 (zlen m) ++ m) ++ rest) (2 + zlen done) (zlen m) = Ok m /\
  leShortToHost (le_enc 2 (zlen m)) = zlen m.
Proof.
  intros Hm. pose proof (zlen_nonneg m). split; [|split].
  - rewrite <- app_assoc. by apply read_at_app.
  - rewrite <- app_assoc, app_assoc. apply read_at_app; [|done]. rewrite zlen_app, zlen_le_enc. lia.
  - apply le_dec_enc_u16. unfold is_u16. lia.
Qed.

Lemma encode_split data m : zlen (encode (m :: data)) <= 65535 -> zlen m <= 65535 /\ zlen (encode data) <= 65535.
Proof. rewrite zlen_encode_cons. pose proof (zlen_nonneg m). pose proof (zlen_nonneg (encode data)). lia. Qed.

Lemma countMessages_encode data : forall done fuel c,
  zlen done + zlen (encode data) <= 65535 -> (length data < fuel)%nat ->
  countMessages fuel (done ++ encode data) (zlen done) c = Ok (length data + c)%nat.
Proof.
  induction data as [|m data IH]; intros done0 fuel c Hl Hf; destruct fuel as [|fuel]; try (cbn in Hf; lia);
    cbn [countMessages].
  - cbn [encode]. change (encode []) with (@nil Z). rewrite app_nil_r. by ztests.
  - cbn [length] in Hf. pose proof (zlen_nonneg done0). rewrite zlen_encode_cons in Hl.
    pose proof (zlen_nonneg m). pose proof (zlen_nonneg (encode data)).
    destruct (read_msg done0 m (encode data)) as (R1 & _ & R3); [lia|].
    assert (Hz : (zlen done0 <? zlen (done0 ++ encode (m :: data))) = true)
      by (apply Z.ltb_lt; rewrite zlen_app, zlen_encode_cons; lia).
    rewrite Hz. rewrite encode_cons at 1. rewrite R1. mcbn. rewrite R3.
    replace (u32 (zlen done0 + zlen m + 2)) with (zlen (done0 ++ (le_enc 2 (zlen m) ++ m)))
      by (rewrite !zlen_app, zlen_le_enc, u32_small; unfold is_u32; lia).
    rewrite encode_cons, (app_assoc done0), IH.
    + f_equal. cbn. lia.
    + rewrite !zlen_app, zlen_le_enc. lia.
    + lia.
Qed.

Lemma copyMessages_encode data : forall done,
  zlen done + zlen (encode data) <= 65535 ->
  copyMessages (length data) (done ++ encode data) (zlen done) = Ok data.
Proof.
  induction data as [|m data IH]; intros done0 Hl; cbn [length copyMessages]; [done|].
  pose proof (zlen_nonneg done0). rewrite zlen_encode_cons in Hl.
  pose proof (zlen_nonneg m). pose proof (zlen_nonneg (encode data)).
  destruct (read_msg done0 m (encode data)) as (R1 & R2 & R3); [lia|].
  rewrite encode_cons, R1. mcbn. rewrite R3, R2. mcbn.
  replace (u32 (zlen done0 + zlen m + 2)) with (zlen (done0 ++ le_enc 2 (zlen m) ++ m))
    by (rewrite !zlen_app, zlen_le_enc, u32_small; unfold is_u32; lia).
  rewrite (app_assoc done0), IH; [done|]. rewrite !zlen_app, zlen_le_enc. lia.
Qed.

Lemma length_encode data : (length data <= length (encode data))%nat.
Proof.
  induction data as [|m data IH]; [done|]. rewrite encode_cons, !length_app, length_le_enc. cbn. lia.
Qed.

Lemma extractMessageData_encode p data : p_data p = encode data -> zlen (encode data) <= 65535 ->
  extractMessageData p = Ok data.
Proof.
  intros Hp Hl. unfold extractMessageData. rewrite Hp.
  pose proof (countMessages_encode data [] (S (length (encode data))) 0) as Hc. cbn [app] in Hc.
  change (zlen []) with 0 in Hc. pose proof (length_encode data).
  rewrite Hc by lia. mcbn. rewrite Nat.add_0_r.
  apply (copyMessages_encode data []). change (zlen []) with 0. lia.
Qed.

(** What is extracted is what the bytes encode: both passes walk the same chain
    of length fields. *)
Lemma read_at_sub bs off n r : read_at bs off n = Ok r -> r = sub bs (Z.to_nat off) (Z.to_nat n).
Proof.
  intros H. destruct (read_at_inv _ _ _ _ H) as (? & ? & ? & _).
  rewrite read_at_ok in H by done. by injection H as <-.
Qed.

Lemma countMessages_chain fuel data : bytes_ok data -> zlen data <= 65535 -> forall off c n,
  0 <= off -> countMessages fuel data off c = Ok n ->
  (c <= n)%nat /\ forall msgs, copyMessages (n - c) data off = Ok msgs -> drop (Z.to_nat off) data = encode msgs.
Proof.
  intros Hb Hd. induction fuel as [|fuel IH]; intros off c n Hoff Hc; [done|].
  cbn [countMessages] in Hc. destruct (off <? zlen data) eqn:E; zbool.
  - apply bind_ok in Hc as (l & El & Hc). pose proof (read_at_sub _ _ _ _ El) as Hl.
    apply read_at_inv in El as (_ & _ & Hb2 & _). change (Z.to_nat 2) with 2%nat in Hl.
    set (L := leShortToHost l) in *. assert (HL : is_u16 L) by (unfold L; rewrite Hl; by apply sub_u16).
    unfold is_u16 in HL. rewrite u32_small in Hc by (unfold is_u32; lia).
    destruct (IH (off + L + 2) (S c) n) as [Hn Hrest]; [lia|done|]. split; [lia|].
    intros msgs Hm. replace (n - c)%nat with (S (n - S c)) in Hm by lia. cbn [copyMessages] in Hm.
    apply bind_ok in Hm as (l' & El' & Hm). apply read_at_sub in El'.
    change (Z.to_nat 2) with 2%nat in El'. rewrite <- Hl in El'. subst l'.
    fold L in Hm. apply bind_ok in Hm as (m & Em & Hm). apply bind_ok in Hm as (rest & Er & Hm).
    injection Hm as <-. pose proof (read_at_sub _ _ _ _ Em) as Hms.
    apply read_at_inv in Em as (_ & _ & Hmb & HmL). rewrite u32_small in Er by (unfold is_u32; lia).
    specialize (Hrest rest Er). rewrite encode_cons, <- Hrest, HmL.
    assert (Hlen : le_enc 2 L = l).
    { unfold L, leShortToHost. rewrite Hl. apply le_enc_sub; [done|]. unfold zlen in *. lia. }
    rewrite Hlen, Hl, Hms. replace (Z.to_nat (2 + off)) with (Z.to_nat off + 2)%nat by lia.
    rewrite sub_app. unfold sub.
    replace (Z.to_nat (off + L + 2)) with (Z.to_nat off + (2 + Z.to_nat L))%nat by lia.
    rewrite <- drop_drop. by rewrite take_drop.
  - injection Hc as <-. split; [done|]. rewrite Nat.sub_diag. intros msgs [= <-].
    apply drop_ge. unfold zlen in E. lia.
Qed.

(** C32. Extracting the messages of a data packet succeeds exactly on the
    payloads that are a sequence of length-prefixed messages, and returns them;
    on any other payload it reads past the end of the packet. *)
Theorem extractMessageData_iff p msgs : bytes_ok (p_data p) -> zlen (p_data p) <= 65535 ->
  extractMessageData p = Ok msgs <-> p_data p = encode msgs.
Proof.
  intros Hb Hd. split.
  - intros He. unfold extractMessageData in He. apply bind_ok in He as (n & Hn & Hm).
    destruct (countMessages_chain _ _ Hb Hd _ _ _ (Z.le_refl 0) Hn) as [_ Hc].
    apply (Hc msgs). by rewrite Nat.sub_0_r.
  - intros Hp. apply extractMessageData_encode; [done|by rewrite <- Hp].
Qed.

(** C33. A list of messages that fits a packet survives building a data packet
    (or its retransmitted form), sending it and extracting the messages on the
    other side. *)
Theorem data_message_roundtrip ctx i msgs err r0 : HashOk ctx -> ids_ok i -> Forall bytes_ok msgs ->
  28 + zlen (encode msgs) + checksum_len ctx <= 65535 ->
  exists p bs q,
    createRetransmittedDataMessage i msgs ctx = Ok p /\
    rastaModuleToBytes RASTA_ERRORS_NONE p ctx = Ok (bs, RASTA_ERRORS_NONE) /\
    bytesToRastaPacket err bs ctx r0 = Ok (q, err) /\
    p_type q = RASTA_TYPE_RETRDATA /\ p_sequence_number q = i_sn i /\ p_checksum_correct q = 1 /\
    extractMessageData q = Ok msgs.
Proof.
  intros Hh Hi Hm Hl. destruct (createDataMessage_built ctx i msgs Hl) as (p0 & E0 & Hp0).
  unfold createRetransmittedDataMessage. rewrite E0. mcbn.
  set (p := p0 <| p_type := RASTA_TYPE_RETRDATA |>).
  assert (Hp : built ctx RASTA_TYPE_RETRDATA i (encode msgs) p) by (destruct Hp0; by split).
  assert (Hwf : packet_wf ctx p).
  { apply (built_wf _ _ _ _ _ Hp); try done. by apply encode_bytes. }
  exists p, (wire ctx p), (received_packet ctx p).
  rewrite rastaModuleToBytes_ok, bytesToRastaPacket_wire by done.
  pose proof (checksum_len_range ctx).
  do 3 (split; [done|]). split; [apply Hp|]. split; [apply Hp|]. split; [done|].
  apply extractMessageData_encode; [apply Hp|lia].
Qed.

(** Filling never moves back: without room for all it goes out of bounds. *)
Lemma fillData_overflow data : forall bytes off,
  0 <= off -> off + zlen (encode data) < 2 ^ 32 -> zlen bytes < off + zlen (encode data) -> data <> [] ->
  fillData bytes off data = Fail OutOfBounds.
Proof.
  change (2 ^ 32) with 4294967296.
  induction data as [|m data IH]; intros bytes off Hoff Hmax Hlt Hne; [done|].
  rewrite zlen_encode_cons in *. pose proof (zlen_nonneg m). pose proof (zlen_nonneg (encode data)).
  cbn [fillData].
  destruct (write_at bytes off (hostShortTole (u16 (zlen m)))) as [b1|e] eqn:E1.
  2:{ mcbn. unfold write_at, ensure in E1. destruct (_ && _) in E1; [done|]. cbn in E1. congruence. }
  mcbn. apply write_at_inv in E1 as (_ & _ & L1).
  destruct (write_at b1 (2 + off) m) as [b2|e] eqn:E2.
  2:{ mcbn. unfold write_at, ensure in E2. destruct (_ && _) in E2; [done|]. cbn in E2. congruence. }
  mcbn. apply write_at_inv in E2 as (_ & R2 & L2).
  rewrite u32_small by (unfold is_u32; lia). destruct data as [|m' data].
  - change (zlen (encode [])) with 0 in *. lia.
  - apply IH; try lia. done.
Qed.

(** Messages of 64 KiB or more in total are not rejected: their length is
    cut to 16 bits, a shorter array is allocated, and filling it writes past its
    end. *)
Theorem createDataMessage_overflow ctx i msgs :
  65536 <= zlen (encode msgs) < 2 ^ 32 -> createDataMessage i msgs ctx = Fail OutOfBounds.
Proof.
  intros Hl. unfold createDataMessage. rewrite encode_sum by lia.
  set (n := u16 (zlen (encode msgs))). assert (Hn : is_u16 n) by apply u16_range. unfold is_u16 in Hn.
  clearbody n. rewrite fillData_overflow;
    [done|lia|lia| |intros ->; change (zlen (encode [])) with 0 in Hl; lia].
  cbn [initializePacket p_data]. case_if; zbool.
  - unfold allocateRastaByteArray. rewrite zlen_zeros; lia.
  - change (zlen []) with 0. lia.
Qed.

(** ** Connection and disconnection data *)

Lemma extractRastaConnectionData_ok err p send_max version : is_u16 send_max -> (4 <= length version)%nat ->
  p_data p = connection_data send_max version ->
  extractRastaConnectionData err p = (mkConnectionData send_max (take 4 version ++ [0]), err).
Proof.
  intros Hs Hv Hp. unfold extractRastaConnectionData. rewrite Hp. unfold connection_data.
  assert (H4 : length (take 4 version) = 4%nat) by (rewrite length_take; lia).
  destruct (take 4 version) as [|a [|b [|c [|d [|? ?]]]]]; try discriminate H4.
  cbn [app zlen length]. unfold sub. cbn [drop take app].
  change (zlen _ =? 14) with true. cbn iota. f_equal. f_equal.
  by apply le_dec_enc_u16.
Qed.

(** The version and the send window of a connection request or response,
    and the details and reason of a disconnection request, are read back as
    they were put in. *)
Theorem connection_data_roundtrip ctx i send_max version dd err :
  is_u16 send_max -> (4 <= length version)%nat -> is_u16 (details dd) -> is_u16 (reason dd) ->
  exists creq cresp disc,
    createConnectionRequest (i_receiver i) (i_sender i) (i_sn i) (i_ts i) send_max version ctx = Ok creq /\
    createConnectionResponse i send_max version ctx = Ok cresp /\
    createDisconnectionRequest i dd ctx = Ok disc /\
    extractRastaConnectionData err creq = (mkConnectionData send_max (take 4 version ++ [0]), err) /\
    extractRastaConnectionData err cresp = (mkConnectionData send_max (take 4 version ++ [0]), err) /\
    extractRastaDisconnectionData err disc = (dd, err).
Proof.
  intros Hs Hv Hd Hr. unfold createConnectionRequest, createConnectionResponse.
  destruct (putConnectionData_built ctx RASTA_TYPE_CONNREQ
    (mkIds (i_receiver i) (i_sender i) (i_sn i) 0 (i_ts i) 0) send_max version Hv) as (p1 & -> & B1).
  destruct (putConnectionData_built ctx RASTA_TYPE_CONNRESP i send_max version Hv) as (p2 & -> & B2).
  eexists p1, p2, _. split; [done|]. split; [done|]. split; [done|].
  split; [by apply extractRastaConnectionData_ok, B1|]. split; [by apply extractRastaConnectionData_ok, B2|].
  unfold extractRastaDisconnectionData. fields. change (zlen _ =? 4) with true. cbn iota.
  destruct dd as [dt rs]. cbn in Hd, Hr. f_equal. f_equal; by apply le_dec_enc_u16.
Qed.

(** ** Witnesses *)

Definition demo_ids : packet_ids := mkIds 0x61 0x60 7 5 1000 900.
Lemma demo_ids_ok : ids_ok demo_ids.
Proof. constructor; unfold is_u32; cbn; lia. Qed.

Definition demo_msgs : RastaMessageData := [[72; 105]; []; [255]].
Lemma demo_msgs_bytes : Forall bytes_ok demo_msgs.
Proof. repeat constructor; unfold is_u8; lia. Qed.

Definition demo_data : RastaPacket := demo_packet <| p_data := encode demo_msgs |>.

Lemma extractMessageData_iff_witness :
  bytes_ok (p_data demo_data) /\
  (extractMessageData demo_data = Ok demo_msgs <-> p_data demo_data = encode demo_msgs).
Proof.
  assert (Hb : bytes_ok (p_data demo_data)) by (apply encode_bytes, demo_msgs_bytes).
  split; [exact Hb|]. apply (extractMessageData_iff demo_data demo_msgs Hb). zle.
Defined.

(** A length field that runs past the payload. *)
Example extract_out_of_bounds :
  extractMessageData (demo_packet <| p_data := [5; 0; 1; 2] |>) = Fail OutOfBounds.
Proof. reflexivity. Qed.

Lemma data_message_roundtrip_witness :
  ids_ok demo_ids /\ 28 + zlen (encode demo_msgs) + checksum_len demo_ctx <= 65535 /\
  exists p bs q,
    createRetransmittedDataMessage demo_ids demo_msgs demo_ctx = Ok p /\
    rastaModuleToBytes RASTA_ERRORS_NONE p demo_ctx = Ok (bs, RASTA_ERRORS_NONE) /\
    bytesToRastaPacket RASTA_ERRORS_NONE bs demo_ctx empty_packet = Ok (q, RASTA_ERRORS_NONE) /\
    p_type q = RASTA_TYPE_RETRDATA /\ p_sequence_number q = 7 /\ p_checksum_correct q = 1 /\
    extractMessageData q = Ok demo_msgs.
Proof.
  split; [exact demo_ids_ok|].
  assert (Hl : 28 + zlen (encode demo_msgs) + checksum_len demo_ctx <= 65535) by zle.
  split; [exact Hl|].
  exact (data_message_roundtrip demo_ctx demo_ids demo_msgs RASTA_ERRORS_NONE empty_packet _
           demo_ids_ok demo_msgs_bytes Hl).
Defined.

(** Two messages of 32767 bytes: their encoding has 65538 bytes. *)
Lemma zlen_two (m : list Z) : zlen (encode [m; m]) = 4 + 2 * zlen m.
Proof. rewrite !zlen_encode_cons. change (zlen (encode [])) with 0. lia. Qed.

Lemma createDataMessage_overflow_witness :
  let msgs := [zeros 32767; zeros 32767] in
  65536 <= zlen (encode msgs) < 2 ^ 32 /\ createDataMessage demo_ids msgs demo_ctx = Fail OutOfBounds.
Proof.
  intros msgs. assert (H : 65536 <= zlen (encode msgs) < 2 ^ 32).
  { unfold msgs. rewrite zlen_two, zlen_zeros by lia. change (2 ^ 32) with 4294967296. lia. }
  split; [exact H|]. exact (createDataMessage_overflow demo_ctx demo_ids msgs H).
Defined.

Lemma connection_data_roundtrip_witness :
  is_u16 20 /\
  exists creq cresp disc,
    createConnectionRequest 0x61 0x60 7 1000 20 [48; 51; 48; 51] demo_ctx = Ok creq /\
    createConnectionResponse demo_ids 20 [48; 51; 48; 51] demo_ctx = Ok cresp /\
    createDisconnectionRequest demo_ids (mkDisconnectionData 0 2) demo_ctx = Ok disc /\
    extractRastaConnectionData RASTA_ERRORS_NONE creq =
      (mkConnectionData 20 [48; 51; 48; 51; 0], RASTA_ERRORS_NONE) /\
    extractRastaConnectionData RASTA_ERRORS_NONE cresp =
      (mkConnectionData 20 [48; 51; 48; 51; 0], RASTA_ERRORS_NONE) /\
    extractRastaDisconnectionData RASTA_ERRORS_NONE disc = (mkDisconnectionData 0 2, RASTA_ERRORS_NONE).
Proof.
  assert (H20 : is_u16 20) by (unfold is_u16; lia). split; [exact H20|].
  apply (connection_data_roundtrip demo_ctx demo_ids 20 [48; 51; 48; 51] (mkDisconnectionData 0 2)
    RASTA_ERRORS_NONE H20); [cbn; lia|unfold is_u16; cbn; lia|unfold is_u16; cbn; lia].
Defined.
