(* ===== verification/DeferQueue.v ===== *)
(** * The defer queue (src/c/util/rastadeferqueue.c, rastadeferqueue.h)

    An array of redundancy packets with their arrival times, sorted by arrival
    time and searched by sequence number.  The array is modelled as its live
    prefix ([count] elements) and the slots behind it, which hold stale elements
    or were never written ([None]); only [deferqueue_smallest_seqnr] looks at
    those. *)

From stdpp Require Import base numbers list sorting sets.
From Stdlib Require Import ZArith Lia.
From S2P Require Import Prelude.
From S2P Require Import Crc.
From S2P Require Import Packet.

Local Open Scope Z_scope.
Local Open Scope record_scope.

(* rastadeferqueue.h rasta_redundancy_packet_wrapper *)
Record rasta_redundancy_packet_wrapper := mkWrapper {
  w_packet : RastaRedundancyPacket;
  received_timestamp : Z
}.

Definition w_sn (w : rasta_redundancy_packet_wrapper) : Z := rp_sequence_number (w_packet w).

(* rastadeferqueue.h defer_queue *)
Record defer_queue := mkDefer {
  elements : list rasta_redundancy_packet_wrapper;
  slots : list (option rasta_redundancy_packet_wrapper);
  max_count : Z
}.
#[export] Instance eta_defer : Eta defer_queue := fun q => mkDefer (elements q) (slots q) (max_count q).

Definition count (q : defer_queue) : Z := zlen (elements q).

(* rastadeferqueue.c find_index *)
Definition find_index (q : defer_queue) (seq_nr : Z) : Z :=
  match list_find (fun w => w_sn w = seq_nr) (elements q) with
  | Some (i, _) => Z.of_nat i
  | None => -1
  end.

(** The difference of the timestamps is cut to an [int]. *)
(* rastadeferqueue.c cmpfkt *)
Definition cmpfkt (a b : rasta_redundancy_packet_wrapper) : Z :=
  s32 (received_timestamp a - received_timestamp b).

(** [qsort] with [cmpfkt], as a stable sort. *)
Fixpoint insert_by (x : rasta_redundancy_packet_wrapper) (l : list rasta_redundancy_packet_wrapper) :=
  match l with
  | [] => [x]
  | y :: l' => if cmpfkt y x <=? 0 then y :: insert_by x l' else x :: l
  end.
(* rastadeferqueue.c sort *)
Definition sort (l : list rasta_redundancy_packet_wrapper) : list rasta_redundancy_packet_wrapper :=
  foldl (fun sorted x => insert_by x sorted) [] l.

(* rastadeferqueue.c deferqueue_init *)
Definition deferqueue_init (n_max : Z) : defer_queue :=
  mkDefer [] (replicate (Z.to_nat n_max) None) n_max.

(* rastadeferqueue.c deferqueue_isfull *)
Definition deferqueue_isfull (q : defer_queue) : bool := count q =? max_count q.

(* rastadeferqueue.c deferqueue_add *)
Definition deferqueue_add (q : defer_queue) (packet : RastaRedundancyPacket) (recv_ts : Z) :
    bool * defer_queue :=
  if count q =? max_count q then (false, q)
  else (true, q <| elements := sort (elements q ++ [mkWrapper packet recv_ts]) |>
                <| slots ::= drop 1 |>).

(** The last element moves into the hole, and stays behind in its old slot. *)
(* rastadeferqueue.c deferqueue_remove *)
Definition deferqueue_remove (q : defer_queue) (seq_nr : Z) : defer_queue :=
  let index := find_index q seq_nr in
  if index <? 0 then q
  else
    let n := pred (length (elements q)) in
    match elements q !! n with
    | Some last =>
        q <| elements := sort (take n (<[Z.to_nat index := last]> (elements q))) |>
          <| slots ::= cons (Some last) |>
    | None => q
    end.

(* rastadeferqueue.c deferqueue_contains *)
Definition deferqueue_contains (q : defer_queue) (seq_nr : Z) : bool := negb (find_index q seq_nr =? -1).

(* rastadeferqueue.c deferqueue_destroy *)
Definition deferqueue_destroy (q : defer_queue) : defer_queue := mkDefer [] [] 0.

(** The search runs over all slots of the array. *)
(* rastadeferqueue.c:120-126 deferqueue_smallest_seqnr *)
Fixpoint smallest_loop (slots : list (option rasta_redundancy_packet_wrapper)) (i index smallest : Z) : res Z :=
  match slots with
  | [] => Ok index
  | None :: _ => Fail Uninitialised
  | Some w :: slots =>
      if w_sn w <? smallest then smallest_loop slots (i + 1) i (w_sn w)
      else smallest_loop slots (i + 1) index smallest
  end.
(* rastadeferqueue.c deferqueue_smallest_seqnr *)
Definition deferqueue_smallest_seqnr (q : defer_queue) : res Z :=
  smallest_loop ((Some <$> elements q) ++ slots q) 0 0 0xFFFFFFFF.

Definition zero_red_packet : RastaRedundancyPacket := mkRedPacket 0 0 0 empty_packet 0 crc_init_opt_a.

(* rastadeferqueue.c deferqueue_get *)
Definition deferqueue_get (q : defer_queue) (seq_nr : Z) : RastaRedundancyPacket :=
  match list_find (fun w => w_sn w = seq_nr) (elements q) with
  | Some (_, w) => w_packet w
  | None => zero_red_packet
  end.

(* rastadeferqueue.c deferqueue_get_ts *)
Definition deferqueue_get_ts (q : defer_queue) (seq_nr : Z) : Z :=
  match list_find (fun w => w_sn w = seq_nr) (elements q) with
  | Some (_, w) => received_timestamp w
  | None => 0
  end.

(* rastadeferqueue.c deferqueue_clear *)
Definition deferqueue_clear (q : defer_queue) : defer_queue :=
  q <| elements := [] |> <| slots ::= fun s => (Some <$> elements q) ++ s |>.

(** ** Invariant *)

Record defer_ok (q : defer_queue) : Prop := {
  dq_max : is_u32 (max_count q);
  dq_slots : count q + zlen (slots q) = max_count q
}.

Lemma deferqueue_clear_ok q : defer_ok q -> defer_ok (deferqueue_clear q).
Proof.
  intros [Hm Hs]. split; [done|]. unfold count, deferqueue_clear in *. fields. rewrite zlen_app.
  unfold zlen in *. rewrite length_fmap. cbn. lia.
Qed.

Lemma deferqueue_init_ok n : is_u32 n -> defer_ok (deferqueue_init n).
Proof.
  intros Hn. split; [done|]. unfold count, deferqueue_init, zlen. cbn [elements slots max_count length].
  rewrite length_replicate. unfold is_u32 in Hn. lia.
Qed.

Lemma insert_by_perm x l : insert_by x l ≡ₚ x :: l.
Proof.
  induction l as [|y l IH]; cbn; [done|]. case_if; [|done]. rewrite IH. apply Permutation_swap.
Qed.

Lemma sort_perm l : sort l ≡ₚ l.
Proof.
  unfold sort. assert (H : forall acc, foldl (fun s x => insert_by x s) acc l ≡ₚ l ++ acc).
  { induction l as [|x l IH]; intros acc; cbn; [done|]. rewrite IH, insert_by_perm.
    by rewrite Permutation_middle. }
  by rewrite H, app_nil_r.
Qed.

(** The arrival times lie within half the range of an [int] of each other. *)
Definition window (l : list rasta_redundancy_packet_wrapper) : Prop :=
  forall a b, a ∈ l -> b ∈ l -> received_timestamp a - received_timestamp b < 2 ^ 31.

Definition older (a b : rasta_redundancy_packet_wrapper) : Prop :=
  received_timestamp a <= received_timestamp b.

Lemma cmpfkt_older a b :
  received_timestamp a - received_timestamp b < 2 ^ 31 ->
  received_timestamp b - received_timestamp a < 2 ^ 31 ->
  (cmpfkt a b <= 0 <-> older a b).
Proof.
  change (2 ^ 31) with 2147483648. unfold cmpfkt, older, s32. intros.
  Z.to_euclidean_division_equations. lia.
Qed.

Lemma insert_by_sorted x l : window (x :: l) -> StronglySorted older l -> StronglySorted older (insert_by x l).
Proof.
  induction l as [|y l IH]; intros Hw Hs; cbn [insert_by]; [repeat constructor|].
  assert (Hc : cmpfkt y x <= 0 <-> older y x) by (apply cmpfkt_older; apply Hw; set_solver).
  inversion Hs as [|? ? Hs' Hf]; subst. case_if; zbool.
  - constructor; [apply IH; [|done]; intros a b Ha Hb; apply Hw; set_solver|].
    apply Forall_forall. intros z Hz. rewrite insert_by_perm in Hz.
    apply elem_of_cons in Hz as [->|Hz]; [by apply Hc|]. rewrite Forall_forall in Hf. by apply Hf.
  - assert (Hlt : older x y) by (unfold older in *; destruct Hc; lia).
    constructor; [done|]. constructor; [done|]. rewrite Forall_forall in Hf |- *. intros z Hz.
    specialize (Hf z Hz). unfold older in *. lia.
Qed.

Lemma sort_sorted l : window l -> StronglySorted older (sort l).
Proof.
  unfold sort. intros Hw.
  assert (H : forall l acc, window (l ++ acc) -> StronglySorted older acc ->
    StronglySorted older (foldl (fun s x => insert_by x s) acc l)).
  { clear. induction l as [|x l IH]; intros acc Hw Ha; cbn; [done|]. apply IH.
    - intros a b Ha' Hb'. apply Hw; rewrite insert_by_perm in *; set_solver.
    - apply insert_by_sorted; [|done]. intros a b ? ?. apply Hw; set_solver. }
  apply H; [by rewrite app_nil_r|constructor].
Qed.

(** ** Searching *)

Definition in_queue (q : defer_queue) (seq_nr : Z) : Prop := exists w, w ∈ elements q /\ w_sn w = seq_nr.

Lemma find_index_spec q sn :
  match list_find (fun w => w_sn w = sn) (elements q) with
  | Some (i, w) => find_index q sn = Z.of_nat i /\ elements q !! i = Some w /\ w_sn w = sn
  | None => find_index q sn = -1 /\ ~ in_queue q sn
  end.
Proof.
  unfold find_index. destruct (list_find _ _) as [[i w]|] eqn:E.
  - apply list_find_Some in E as (? & ? & _). done.
  - split; [done|]. apply list_find_None in E. rewrite Forall_forall in E. intros (w & Hw & Hsn).
    by apply (E w).
Qed.

Lemma deferqueue_contains_spec q sn : deferqueue_contains q sn = true <-> in_queue q sn.
Proof.
  unfold deferqueue_contains. pose proof (find_index_spec q sn) as H.
  destruct (list_find _ _) as [[i w]|].
  - destruct H as (-> & Hl & Hsn). ztest (Z.of_nat i =? -1). split; [intros _|done].
    exists w. split; [by eapply list_elem_of_lookup_2|done].
  - destruct H as [-> Hn]. done.
Qed.

Lemma deferqueue_add_ok q packet ts : defer_ok q ->
  defer_ok (deferqueue_add q packet ts).2 /\
  (if deferqueue_isfull q then (deferqueue_add q packet ts).2 = q
   else elements (deferqueue_add q packet ts).2 ≡ₚ mkWrapper packet ts :: elements q).
Proof.
  intros [Hm Hs]. unfold deferqueue_add, deferqueue_isfull.
  destruct (count q =? max_count q) eqn:E; zbool; [done|]. cbn [snd]. split.
  - pose proof (zlen_nonneg (slots q)) as H0. split; [done|]. unfold count in *. fields.
    unfold zlen in *. rewrite (Permutation_length (sort_perm _)), length_app, length_drop. cbn. lia.
  - fields. rewrite sort_perm. by rewrite Permutation_app_comm.
Qed.

(** C34. Adding to the defer queue keeps every element, orders them by arrival
    time (as long as they arrived within 24 days of each other), and is refused
    exactly when the queue is full. *)
Theorem deferqueue_add_spec q packet ts : defer_ok q ->
  let '(added, q') := deferqueue_add q packet ts in
  defer_ok q' /\ max_count q' = max_count q /\
  added = negb (deferqueue_isfull q) /\
  (if added then elements q' ≡ₚ mkWrapper packet ts :: elements q /\
     (window (elements q ++ [mkWrapper packet ts]) -> StronglySorted older (elements q'))
   else q' = q).
Proof.
  intros Hok. pose proof (deferqueue_add_ok q packet ts Hok) as H. unfold deferqueue_add, deferqueue_isfull in *.
  destruct (count q =? max_count q); [done|]. destruct H as [H1 H2]. cbn [snd negb] in *.
  split; [done|]. split; [done|]. split; [done|]. split; [done|]. fields. apply sort_sorted.
Qed.

Lemma take_insert_last (l : list rasta_redundancy_packet_wrapper) i w last :
  l !! i = Some w -> l !! pred (length l) = Some last ->
  w :: take (pred (length l)) (<[i := last]> l) ≡ₚ l.
Proof.
  intros Hi Hl. assert (Hlt : (i < length l)%nat) by (by eapply lookup_lt_Some).
  destruct l as [|x l _] using rev_ind; [done|].
  rewrite length_app in *. cbn [length] in *. replace (pred (length l + 1)) with (length l) in * by lia.
  rewrite lookup_app_r, Nat.sub_diag in Hl by done. injection Hl as ->.
  destruct (decide (i = length l)) as [->|].
  - rewrite lookup_app_r, Nat.sub_diag in Hi by done. injection Hi as <-.
    rewrite insert_app_r_alt, Nat.sub_diag by done. rewrite take_app_length.
    by rewrite Permutation_app_comm.
  - rewrite insert_app_l by lia. rewrite lookup_app_l in Hi by lia.
    rewrite <- (length_insert l i last), take_app_length.
    rewrite insert_take_drop by lia. rewrite <- (take_drop_middle l i w Hi) at 3. solve_Permutation.
Qed.

Lemma deferqueue_remove_ok q sn : defer_ok q -> in_queue q sn ->
  defer_ok (deferqueue_remove q sn) /\ max_count (deferqueue_remove q sn) = max_count q /\
  exists w, w_sn w = sn /\ w_packet w = deferqueue_get q sn /\ w ∈ elements q /\
    elements q ≡ₚ w :: elements (deferqueue_remove q sn) /\
    (window (elements q) -> StronglySorted older (elements (deferqueue_remove q sn))).
Proof.
  intros Hok Hin. pose proof Hok as [Hm Hs]. unfold deferqueue_remove, deferqueue_get.
  pose proof (find_index_spec q sn) as H. destruct (list_find _ _) as [[i w]|].
  2:{ by destruct H. }
  destruct H as (-> & Hi & Hsn). ztests. rewrite Nat2Z.id.
  assert (Hlt : (i < length (elements q))%nat) by (by eapply lookup_lt_Some).
  destruct (lookup_lt_is_Some_2 (elements q) (pred (length (elements q)))) as [last Hlast]; [lia|].
  rewrite Hlast. pose proof (take_insert_last _ _ _ _ Hi Hlast) as Hp.
  split; [|split; [done|]].
  - split; [done|]. unfold count in *. fields. unfold zlen in *.
    rewrite (Permutation_length (sort_perm _)). apply Permutation_length in Hp. cbn [length] in *. lia.
  - exists w. fields. split; [done|]. split; [done|]. split; [by eapply list_elem_of_lookup_2|].
    split; [rewrite sort_perm; by symmetry|].
    intros Hw. apply sort_sorted. intros a b Ha Hb. apply Hw; rewrite <- Hp; by right.
Qed.

(** Removing takes out one element with the sequence number, if there is
    one, and keeps all others; the queue stays sorted by arrival time. *)
Theorem deferqueue_remove_spec q sn : defer_ok q ->
  let q' := deferqueue_remove q sn in
  defer_ok q' /\ max_count q' = max_count q /\
  (if deferqueue_contains q sn
   then exists w, w_sn w = sn /\ w_packet w = deferqueue_get q sn /\ elements q ≡ₚ w :: elements q' /\
          (window (elements q) -> StronglySorted older (elements q'))
   else q' = q).
Proof.
  intros Hok q'. destruct (deferqueue_contains q sn) eqn:E.
  - apply deferqueue_contains_spec in E. destruct (deferqueue_remove_ok q sn Hok E) as (? & ? & w & ? & ? & ? & ?).
    split; [done|]. split; [done|]. by exists w.
  - assert (Hq : q' = q); [|by rewrite Hq]. unfold q', deferqueue_remove. unfold deferqueue_contains in E. zbool.
    by rewrite E.
Qed.

(** ** Witnesses *)

Definition demo_wrapper (sn ts : Z) : rasta_redundancy_packet_wrapper :=
  mkWrapper (zero_red_packet <| rp_sequence_number := sn |>) ts.

Definition demo_queue : defer_queue :=
  mkDefer [demo_wrapper 5 1000; demo_wrapper 7 1002] [None] 3.

Lemma demo_queue_ok : defer_ok demo_queue.
Proof. split; [unfold is_u32; cbn; lia|reflexivity]. Qed.

Lemma deferqueue_add_spec_witness :
  defer_ok demo_queue /\
  let '(added, q') := deferqueue_add demo_queue (w_packet (demo_wrapper 6 1001)) 1001 in
  defer_ok q' /\ max_count q' = 3 /\ added = true /\
  (if added then elements q' ≡ₚ demo_wrapper 6 1001 :: elements demo_queue /\
  (window (elements demo_queue ++ [demo_wrapper 6 1001]) -> StronglySorted older (elements q'))
   else q' = demo_queue).
Proof.
  split; [exact demo_queue_ok|].
  exact (deferqueue_add_spec demo_queue (w_packet (demo_wrapper 6 1001)) 1001 demo_queue_ok).
Defined.

Lemma deferqueue_remove_spec_witness :
  defer_ok demo_queue /\
  let q' := deferqueue_remove demo_queue 5 in
  defer_ok q' /\ max_count q' = 3 /\
  exists w, w_sn w = 5 /\ w_packet w = deferqueue_get demo_queue 5 /\
  elements demo_queue ≡ₚ w :: elements q' /\
  (window (elements demo_queue) -> StronglySorted older (elements q')).
Proof. split; [exact demo_queue_ok|]. exact (deferqueue_remove_spec demo_queue 5 demo_queue_ok). Defined.

(** The packet that is reported smallest can be one that was removed before. *)
Example smallest_is_stale :
  deferqueue_smallest_seqnr (deferqueue_remove (mkDefer [demo_wrapper 7 1; demo_wrapper 5 2] [] 2) 5) = Ok 1.
Proof. reflexivity. Qed.
