(* ===== verification/World.v ===== *)
(** * The outside world, time and timed events (src/c/util/event_system.c, src/include/rasta/events.h)

    The monotonic clock, the socket calls and the bytes that leave the process
    are the world of the model: the [n]-th reading of the clock and the outcome
    of the [n]-th socket call are functions of [n], and what is sent is
    recorded in order.  A timed event is the record behind a [timed_event]
    pointer; the lists of events are in EventList. *)

From stdpp Require Import base numbers list.
From Stdlib Require Import ZArith Lia.
From S2P Require Import Prelude.
From S2P Require Import Hashing.
From S2P Require Import Packet.

Local Open Scope Z_scope.
Local Open Scope record_scope.

(** The calls the library makes: on sockets, and on the pipe of a cancellation. *)
Inductive syscall :=
| SysSocket | SysSetsockopt | SysBind | SysListen | SysAccept | SysConnect | SysSend | SysRecv
| SysClose | SysInetAton | SysGetpeername | SysSelect | SysPipe | SysRead | SysWrite
| SysFcntl | SysMlock | SysMunlock.

(** What leaves through a socket: [sendto] with an address, [send] without. *)
Record datagram := mkDatagram {
  out_fd : Z;
  out_address : option (list Z * Z);
  out_data : list Z
}.

Record world := mkWorld {
  clock : nat -> Z;            (* nanoseconds *)
  ticks : nat;
  outcome : nat -> syscall -> Z;
  calls : nat;
  inbox : list (list Z * Z * list Z);   (* sender and data of the next [recvfrom] calls *)
  peer : Z -> list Z * Z;               (* the peer of a connected descriptor *)
  ready : nat -> Z -> bool;             (* descriptors the [n]-th call finds readable *)
  trace : list datagram;
  garbage : RastaPacket        (* what an uninitialised struct on the stack holds *)
}.
#[export] Instance eta_world : Eta world := fun w =>
  mkWorld (clock w) (ticks w) (outcome w) (calls w) (inbox w) (peer w) (ready w) (trace w) (garbage w).

(** The clock counts nanoseconds in 64 bits. *)
Definition clock_ok (w : world) : Prop := forall n, is_u64 (clock w n).

Definition read_clock (w : world) : Z * world := (clock w (ticks w), w <| ticks ::= S |>).

(* event_system.c get_nanotime *)
Definition get_nanotime (w : world) : Z * world := let '(ns, w) := read_clock w in (u64 ns, w).

(** One call of [cur_timestamp]. *)
Definition take_timestamp (w : world) : Z * world :=
  let '(ns, w) := read_clock w in (cur_timestamp (ns / 1000000000) (ns mod 1000000000), w).

(* protocol.c get_current_time_ms *)
Definition get_current_time_ms (w : world) : Z * world :=
  let '(ns, w) := read_clock w in (u64 (ns mod 1000000000 / 1000000 + ns / 1000000000 * 1000), w).

Definition do_syscall (c : syscall) (w : world) : Z * world := (outcome w (calls w) c, w <| calls ::= S |>).

Definition do_send (d : datagram) (w : world) : world := w <| trace ::= fun t => t ++ [d] |>.

(** [timed_event], without its list links and its callback. *)
(* rasta/events.h timed_event *)
Record timed_event := mkTimed { interval : Z; last_call : Z; enabled : bool }.
#[export] Instance eta_timed : Eta timed_event := fun e => mkTimed (interval e) (last_call e) (enabled e).

(* event_system.c reschedule_event *)
Definition reschedule_event (e : timed_event) (w : world) : timed_event * world :=
  let '(ns, w) := get_nanotime w in (e <| last_call := ns |>, w).
(* event_system.c enable_timed_event *)
Definition enable_timed_event (e : timed_event) (w : world) : timed_event * world :=
  reschedule_event (e <| enabled := true |>) w.
(* event_system.c disable_timed_event *)
Definition disable_timed_event (e : timed_event) : timed_event := e <| enabled := false |>.

(** [fd_event], without its list links and its callback. *)
(* rasta/events.h fd_event *)
Record fd_event := mkFdEvent { fd : Z; options : Z; fd_enabled : bool }.
#[export] Instance eta_fd_event : Eta fd_event := fun e => mkFdEvent (fd e) (options e) (fd_enabled e).

(* event_system.c enable_fd_event *)
Definition enable_fd_event (e : fd_event) : fd_event := e <| fd_enabled := true |>.
(* event_system.c disable_fd_event *)
Definition disable_fd_event (e : fd_event) : fd_event := e <| fd_enabled := false |>.

(** The calls whose failure ends the process do not fail; binding and
    connecting may. *)
Record net_good (w : world) : Prop := {
  good_send : forall n, 0 <= outcome w n SysSend;
  good_close : forall n, 0 <= outcome w n SysClose;
  good_socket : forall n, 0 <= outcome w n SysSocket;
  good_setsockopt : forall n, 0 <= outcome w n SysSetsockopt;
  good_aton : forall n, outcome w n SysInetAton <> 0;
  good_recv : forall n, outcome w n SysRecv <> -1;
  good_accept : forall n, 0 <= outcome w n SysAccept;
  good_listen : forall n, 0 <= outcome w n SysListen;
  good_getpeername : forall n, outcome w n SysGetpeername = 0
}.

Lemma cur_timestamp_range s ns : is_u32 (cur_timestamp s ns).
Proof. apply u32_range. Qed.
