(* ===== verification/Config.v ===== *)
(** * The configuration (src/include/rasta/config.h) and the protocol version (src/c/retransmission/protocol.c)

    The structs of the configuration as the library reads them, and the
    functions on protocol versions.  Strings are lists of character codes. *)

From stdpp Require Import base numbers list.
From Stdlib Require Import ZArith Lia.
From S2P Require Import Prelude.
From S2P Require Import Crc.
From S2P Require Import Hashing.

Local Open Scope Z_scope.

(* rastarole.h rasta_role *)
Inductive rasta_role := RASTA_ROLE_CLIENT | RASTA_ROLE_SERVER.
#[export] Instance rasta_role_eq : EqDecision rasta_role.
Proof. solve_decision. Defined.

(** The only mode of a build without OPAQUE. *)
(* config.h KEY_EXCHANGE_MODE *)
Inductive KEY_EXCHANGE_MODE := KEY_EXCHANGE_MODE_NONE.

(* config.h RastaConfigKex *)
Record RastaConfigKex := mkKex { mode : KEY_EXCHANGE_MODE; psk : list Z; rekeying_interval_ms : Z }.

(* config.h rasta_config_sending *)
Record rasta_config_sending := mkSending {
  t_max : Z; t_h : Z; md4_type : rasta_checksum_type;
  md4_a : Z; md4_b : Z; md4_c : Z; md4_d : Z;
  mwa : Z; send_max : Z; max_packet : Z; diag_window : Z;
  sr_hash_key : Z; sr_hash_algorithm : rasta_hash_algorithm
}.
(* config.h rasta_config_receive *)
Record rasta_config_receive := mkReceive { max_recvqueue_size : Z; max_recv_msg_size : Z }.
(* config.h rasta_config_retransmission *)
Record rasta_config_retransmission := mkRetransmission { max_retransmission_queue_size : Z }.
(* config.h rasta_ip_data *)
Record rasta_ip_data := mkIpData { ip : list Z; port : Z }.
(** [RastaConfigRedundancyConnections]: [count] is the length of [connections]. *)
(* config.h rasta_config_redundancy *)
Record rasta_config_redundancy := mkRedundancy {
  connections : list rasta_ip_data; crc_type : crc_options; t_seq : Z; n_diagnose : Z;
  n_deferqueue_size : Z
}.
(* config.h rasta_config_general *)
Record rasta_config_general := mkGeneral { rasta_network : Z; rasta_id : Z; rasta_id_remote : Z }.
(** A path that is not set is NULL. *)
(* config.h rasta_config_tls *)
Record rasta_config_tls := mkTls {
  ca_cert_path : option (list Z); cert_path : option (list Z); key_path : option (list Z);
  tls_hostname : list Z; peer_tls_cert_path : option (list Z)
}.
(* config.h rasta_config_info *)
Record rasta_config_info := mkConfig {
  initial_sequence_number : Z;
  accepted_versions : list (list Z);
  sending : rasta_config_sending;
  receive : rasta_config_receive;
  retransmission : rasta_config_retransmission;
  redundancy : rasta_config_redundancy;
  redundancy_remote : rasta_config_redundancy;
  general : rasta_config_general;
  tls : rasta_config_tls;
  kex : RastaConfigKex
}.

(** ** Protocol versions *)

(** The C string "0303". *)
(* protocol.h RASTA_VERSION *)
Definition RASTA_VERSION : list Z := [48; 51; 48; 51; 0].

(** [strncmp], with the result of glibc on x86-64: the difference of the first
    bytes that differ. *)
Fixpoint strncmp (a b : list Z) (n : nat) : Z :=
  match n, a, b with
  | S n, x :: a, y :: b => if x =? y then (if x =? 0 then 0 else strncmp a b n) else x - y
  | _, _, _ => 0
  end.

(* protocol.c compare_version *)
Definition compare_version (local_version remote_version : list Z) : Z :=
  strncmp local_version remote_version 4.

(* protocol.c version_accepted *)
Definition version_accepted (config : rasta_config_info) (version : list Z) : bool :=
  existsb (fun accepted => compare_version accepted version =? 0) (accepted_versions config).

(* protocol.c longToBytes2 *)
Definition longToBytes2 (v : Z) : list Z :=
  [Z.land (Z.shiftr v 24) 255; Z.land (Z.shiftr v 16) 255; Z.land (Z.shiftr v 8) 255; Z.land v 255].
(* protocol.c bytesToLong2 *)
Definition bytesToLong2 (v : list Z) : Z :=
  let b i := nth i v 0 in
  u32 (Z.shiftl (b 0%nat) 24 + Z.shiftl (b 1%nat) 16 + Z.shiftl (b 2%nat) 8 + b 3%nat).

(** A version without a NUL byte is compared byte by byte. *)
Lemma strncmp_eq a : forall b n, Forall (fun x => x <> 0) a -> length a = n -> length b = n ->
  (strncmp a b n = 0 <-> a = b).
Proof.
  induction a as [|x a IH]; intros b n Ha Hn Hb; subst n; destruct b as [|y b]; try done.
  cbn [length strncmp]. inversion Ha; subst. injection Hb as Hb. ztest (x =? 0).
  destruct (x =? y) eqn:E; zbool; [subst y|split; [lia|congruence]].
  rewrite (IH b (length a)) by done. split; [by intros ->|by intros [= ->]].
Qed.

Lemma longToBytes2_roundtrip v : is_u32 v -> bytesToLong2 (longToBytes2 v) = v.
Proof.
  intros Hv. unfold bytesToLong2, longToBytes2. cbn [nth].
  change 255 with (Z.ones 8). rewrite !Z.land_ones, !Z.shiftl_mul_pow2, !Z.shiftr_div_pow2 by lia.
  change (2 ^ 24) with 16777216. change (2 ^ 16) with 65536. change (2 ^ 8) with 256. mlia.
Qed.
