(* ===== verification/State.v ===== *)
(** * The state of a RaSTA endpoint (src/c/rasta_connection.h, rastahandle.h, the headers of
    redundancy/ and transport/)

    [sys] is everything that is reachable from a [rasta_handle]: the one
    connection, its redundancy channel with the transport channels, the
    multiplexer with the sockets, the configuration, the two module errors and
    the world.  Pointers between these structs are resolved: there is exactly
    one of each, and a transport channel names its socket by index. *)

From stdpp Require Import base numbers list.
From Stdlib Require Import ZArith Lia.
From S2P Require Import Prelude.
From S2P Require Import Fifo.
From S2P Require Import Crc.
From S2P Require Import Hashing.
From S2P Require Import Packet.
From S2P Require Import DeferQueue.
From S2P Require Import World.
From S2P Require Import Config.

Local Open Scope Z_scope.
Local Open Scope record_scope.

(** ** Transport *)

(* diagnostics.h rasta_redundancy_diagnostics_data *)
Record rasta_redundancy_diagnostics_data := mkDiagnostics {
  start_time : Z; n_missed : Z; t_drift : Z; t_drift2 : Z; received_packets : Z
}.
#[export] Instance eta_diagnostics : Eta rasta_redundancy_diagnostics_data := fun d =>
  mkDiagnostics (start_time d) (n_missed d) (t_drift d) (t_drift2 d) (received_packets d).

(* transport.h:30-71 rasta_transport_channel *)
Record rasta_transport_channel := mkChannel {
  id : Z;
  connected : bool;
  receive_event : fd_event;
  remote_ip_address : list Z;
  remote_port : Z;
  file_descriptor : Z;
  diagnostics_data : rasta_redundancy_diagnostics_data;
  associated_socket : option nat
}.
#[export] Instance eta_channel : Eta rasta_transport_channel := fun c =>
  mkChannel (id c) (connected c) (receive_event c) (remote_ip_address c) (remote_port c) (file_descriptor c)
    (diagnostics_data c) (associated_socket c).

(* transport.h:73-95 rasta_transport_socket *)
Record rasta_transport_socket := mkSocket {
  so_id : Z;
  so_file_descriptor : Z;
  so_accept_event : fd_event;
  so_receive_event : fd_event
}.
#[export] Instance eta_socket : Eta rasta_transport_socket := fun s =>
  mkSocket (so_id s) (so_file_descriptor s) (so_accept_event s) (so_receive_event s).

(** ** Redundancy layer *)

(* rasta_redundancy_channel.h rasta_redundancy_channel *)
Record rasta_redundancy_channel := mkRedChannel {
  associated_id : Z;
  seq_tx : Z;
  seq_rx : Z;
  defer_q : defer_queue;
  diagnostics_packet_buffer : defer_queue;
  transport_channels : list rasta_transport_channel;
  configuration_parameters : rasta_config_redundancy;
  hashing_context : rasta_hashing_context_t
}.
#[export] Instance eta_red_channel : Eta rasta_redundancy_channel := fun c =>
  mkRedChannel (associated_id c) (seq_tx c) (seq_rx c) (defer_q c) (diagnostics_packet_buffer c)
    (transport_channels c) (configuration_parameters c) (hashing_context c).

(** [port_count] is the number of sockets; the notifications that are set
    call out of the library and are not modelled, their counter is. *)
(* rasta_red_multiplexer.h redundancy_mux *)
Record redundancy_mux := mkMux {
  listen_ports : list Z;
  transport_sockets : list rasta_transport_socket;
  notifications_running : Z;
  sr_hashing_context : rasta_hashing_context_t
}.
#[export] Instance eta_mux : Eta redundancy_mux := fun m =>
  mkMux (listen_ports m) (transport_sockets m) (notifications_running m) (sr_hashing_context m).

(** ** Safety and retransmission layer *)

(* rasta_connection.h rasta_sr_state *)
Inductive rasta_sr_state :=
| RASTA_CONNECTION_CLOSED
| RASTA_CONNECTION_DOWN
| RASTA_CONNECTION_START
| RASTA_CONNECTION_KEX_REQ
| RASTA_CONNECTION_KEX_RESP
| RASTA_CONNECTION_KEX_AUTH
| RASTA_CONNECTION_UP
| RASTA_CONNECTION_RETRREQ
| RASTA_CONNECTION_RETRRUN.
#[export] Instance rasta_sr_state_eq : EqDecision rasta_sr_state.
Proof. solve_decision. Defined.

(* rasta_connection.h rasta_error_counters *)
Record rasta_error_counters := mkErrors { safety : Z; address : Z; type : Z; sn : Z; cs : Z }.
#[export] Instance eta_errors : Eta rasta_error_counters := fun e =>
  mkErrors (safety e) (address e) (type e) (sn e) (cs e).

(* rasta_connection.h diagnostic_interval *)
Record diagnostic_interval := mkInterval {
  interval_start : Z; interval_end : Z; message_count : Z; t_alive_message_count : Z
}.
#[export] Instance eta_interval : Eta diagnostic_interval := fun i =>
  mkInterval (interval_start i) (interval_end i) (message_count i) (t_alive_message_count i).

(** [diagnostic_intervals_length] is the length of the list; [send_event] is
    the event of the connection's [send_handle]. *)
(* rasta_connection.h rasta_connection *)
Record rasta_connection := mkConnection {
  is_new : bool;
  handshake_timeout_event : timed_event;
  send_heartbeat_event : timed_event;
  timeout_event : timed_event;
  send_event : timed_event;
  hb_locked : bool;
  current_state : rasta_sr_state;
  fifo_send : queue (list Z);
  fifo_receive : queue (list Z);
  connected_recv_buffer_size : Z;
  role : rasta_role;
  sn_t : Z;
  sn_r : Z;
  sn_i : Z;
  cs_t : Z;
  cs_r : Z;
  ts_r : Z;
  cts_r : Z;
  t_i : Z;
  my_id : Z;
  remote_id : Z;
  network_id : Z;
  received_diagnostic_message_count : Z;
  diagnostic_intervals : list diagnostic_interval;
  fifo_retransmission : queue (list Z);
  errors : rasta_error_counters
}.
#[export] Instance eta_connection : Eta rasta_connection := fun c =>
  mkConnection (is_new c) (handshake_timeout_event c) (send_heartbeat_event c) (timeout_event c)
    (send_event c) (hb_locked c) (current_state c) (fifo_send c) (fifo_receive c)
    (connected_recv_buffer_size c) (role c) (sn_t c) (sn_r c) (sn_i c) (cs_t c) (cs_r c) (ts_r c)
    (cts_r c) (t_i c) (my_id c) (remote_id c) (network_id c) (received_diagnostic_message_count c)
    (diagnostic_intervals c) (fifo_retransmission c) (errors c).

(** Two connections with the same fields are equal: what nested updates amount
    to is compared field by field. *)
Lemma connection_ext c c' :
  is_new c = is_new c' ->
  handshake_timeout_event c = handshake_timeout_event c' ->
  send_heartbeat_event c = send_heartbeat_event c' ->
  timeout_event c = timeout_event c' ->
  send_event c = send_event c' ->
  hb_locked c = hb_locked c' ->
  current_state c = current_state c' ->
  fifo_send c = fifo_send c' ->
  fifo_receive c = fifo_receive c' ->
  connected_recv_buffer_size c = connected_recv_buffer_size c' ->
  role c = role c' ->
  sn_t c = sn_t c' ->
  sn_r c = sn_r c' ->
  sn_i c = sn_i c' ->
  cs_t c = cs_t c' ->
  cs_r c = cs_r c' ->
  ts_r c = ts_r c' ->
  cts_r c = cts_r c' ->
  t_i c = t_i c' ->
  my_id c = my_id c' ->
  remote_id c = remote_id c' ->
  network_id c = network_id c' ->
  received_diagnostic_message_count c = received_diagnostic_message_count c' ->
  diagnostic_intervals c = diagnostic_intervals c' ->
  fifo_retransmission c = fifo_retransmission c' ->
  errors c = errors c' -> c = c'.
Proof. destruct c, c'. cbn. by intros; subst. Qed.

(* rastahandle.h rasta_handle *)
Record sys := mkSys {
  conn : rasta_connection;
  chan : rasta_redundancy_channel;
  mux : redundancy_mux;
  config : rasta_config_info;
  rastamodule_lasterror : rasta_error_type;
  rastafactory_lasterror : rasta_error_type;
  env : world
}.
#[export] Instance eta_sys : Eta sys := fun s =>
  mkSys (conn s) (chan s) (mux s) (config s) (rastamodule_lasterror s) (rastafactory_lasterror s) (env s).

(** ** Access *)

Definition getc {A} (f : rasta_connection -> A) : M sys A := gets (fun s => f (conn s)).
Definition setc (f : rasta_connection -> rasta_connection) : M sys unit := modify (fun s => s <| conn ::= f |>).
Definition on_world {A} (f : world -> A * world) : M sys A := fun s =>
  let '(a, w) := f (env s) in Ok (a, s <| env := w |>).
Definition cur_timestamp_now : M sys Z := on_world take_timestamp.

(** A function of rastamodule.c, with the module error threaded through. *)
Definition with_module_error {A} (f : rasta_error_type -> res (A * rasta_error_type)) : M sys A := fun s =>
  match f (rastamodule_lasterror s) with
  | Ok (a, err) => Ok (a, s <| rastamodule_lasterror := err |>)
  | Fail e => Fail e
  end.
Definition with_factory_error {A} (f : rasta_error_type -> A * rasta_error_type) : M sys A := fun s =>
  let '(a, err) := f (rastafactory_lasterror s) in Ok (a, s <| rastafactory_lasterror := err |>).

(** Parsing into an uninitialised struct. *)
Definition parse_packet (bytes : list Z) (ctx : sys -> rasta_hashing_context_t) : M sys RastaPacket :=
  s ← gets Datatypes.id;
  with_module_error (fun err => bytesToRastaPacket err bytes (ctx s) (garbage (env s))).
Definition serialise_packet (p : RastaPacket) (ctx : sys -> rasta_hashing_context_t) : M sys (list Z) :=
  s ← gets Datatypes.id;
  with_module_error (fun err => rastaModuleToBytes err p (ctx s)).

(** The two hashing contexts: equal after initialisation. *)
Definition channel_context (s : sys) : rasta_hashing_context_t := hashing_context (chan s).
Definition mux_context (s : sys) : rasta_hashing_context_t := sr_hashing_context (mux s).

(** [for (i = 0; i < n; i++)] over the transport channels or sockets. *)
Definition channel_at (i : nat) : M sys rasta_transport_channel :=
  s ← gets (fun s => transport_channels (chan s) !! i);
  match s with Some c => mret c | None => fail OutOfBounds end.
Definition set_channel (i : nat) (f : rasta_transport_channel -> rasta_transport_channel) : M sys unit :=
  _ ← channel_at i;
  modify (fun s => s <| chan ::= fun c => c <| transport_channels ::= alter f i |> |>).
Definition socket_at (i : nat) : M sys rasta_transport_socket :=
  s ← gets (fun s => transport_sockets (mux s) !! i);
  match s with Some c => mret c | None => fail OutOfBounds end.
Definition set_socket (i : nat) (f : rasta_transport_socket -> rasta_transport_socket) : M sys unit :=
  _ ← socket_at i;
  modify (fun s => s <| mux ::= fun m => m <| transport_sockets ::= alter f i |> |>).

Ltac conn_eq := apply connection_ext; fields; try reflexivity.
