(* ===== verification/Sample.v ===== *)
(** * A concrete endpoint

    A small configuration and an endpoint that runs with it, on which the
    witnesses of the protocol layers evaluate: one UDP transport channel that is
    attached to socket 0, a clock that starts at one second and advances by a
    millisecond with every reading, and socket calls that succeed. *)

From stdpp Require Import base numbers list.
From Stdlib Require Import ZArith Lia.
From S2P Require Import Prelude.
From S2P Require Import Fifo.
From S2P Require Import Crc.
From S2P Require Import Hashing.
From S2P Require Import Packet.
From S2P Require Import DeferQueue.
From S2P Require Import World.
From S2P Require Import Config.
From S2P Require Import State.

Local Open Scope Z_scope.
Local Open Scope record_scope.

(** 127.0.0.1 *)
Definition demo_address : list Z := [49; 50; 55; 46; 48; 46; 48; 46; 49].

Definition demo_redundancy : rasta_config_redundancy :=
  mkRedundancy [mkIpData demo_address 8888] crc_init_opt_b 100 10 4.

Definition demo_config : rasta_config_info :=
  mkConfig 7 [RASTA_VERSION]
    (mkSending 1800 300 (hash_length demo_ctx) 0 0 0 0 10 20 3 5000 0 (algorithm demo_ctx))
    (mkReceive 4 1000) (mkRetransmission 20) demo_redundancy demo_redundancy (mkGeneral 1234 0x60 0x61)
    (mkTls None None None [] None) (mkKex KEY_EXCHANGE_MODE_NONE [] 0).

Definition demo_world : world :=
  mkWorld (fun n => 1000000000 + 1000000 * Z.of_nat n) 0 (fun _ c => match c with SysInetAton => 1 | SysGetpeername | SysMlock => 0 | _ => 3 end) 0
    [] (fun _ => (demo_address, 8888)) (fun _ _ => true) [] empty_packet.

Definition demo_channel : rasta_redundancy_channel :=
  mkRedChannel 0x61 0 0 (deferqueue_init 4) (deferqueue_init 40)
    [mkChannel 0 true (mkFdEvent 3 1 true) demo_address 8888 3 (mkDiagnostics 0 0 0 0 0) (Some 0%nat)]
    demo_redundancy demo_ctx.

Definition demo_mux : redundancy_mux :=
  mkMux [8888] [mkSocket 0 3 (mkFdEvent 0 0 false) (mkFdEvent 3 1 true)] 0 demo_ctx.

Definition demo_timer (interval : Z) : timed_event := mkTimed interval 0 false.

(** A connection in state [st] that expects the packet [sn] of its peer. *)
Definition demo_connection (r : rasta_role) (st : rasta_sr_state) (sn : Z) : rasta_connection :=
  mkConnection false (demo_timer 1800000000) (demo_timer 300000000) (demo_timer 1800000000) (demo_timer 300000000)
    false st (queue_init 40) (queue_init 4) 20 r 7 sn 0 (u32 (sn - 1)) 6 900 950 1800 0x60 0x61 1234 0 []
    (queue_init 20) (mkErrors 0 0 0 0 0).

Definition demo_sys (r : rasta_role) (st : rasta_sr_state) (sn : Z) : sys :=
  mkSys (demo_connection r st sn) demo_channel demo_mux demo_config RASTA_ERRORS_NONE RASTA_ERRORS_NONE demo_world.

Definition demo_up : sys := demo_sys RASTA_ROLE_CLIENT RASTA_CONNECTION_UP 5.
