(* ===== verification/Transport.v ===== *)
(** * The transports (src/c/transport/udp.c, udp_base.c, tcp.c, tcp_base.c, bsd_utils.c, transport.c)

    Which transport a program uses is decided when it is linked: the functions
    of udp_base.c and tcp_base.c have the same names.  Here [Transport] is the
    interface the redundancy layer calls, with one instance for each, and
    [TransportOk] is what that layer relies on: a transport touches nothing but
    the transport channels, the sockets and the outside world, and a send emits
    exactly its data.  Without TLS the call of [handle_tls_mode] does nothing. *)

From stdpp Require Import base numbers list.
From Stdlib Require Import ZArith Lia.
From S2P Require Import Prelude.
From S2P Require Import Packet.
From S2P Require Import World.
From S2P Require Import Config.
From S2P Require Import State.

Local Open Scope Z_scope.
Local Open Scope record_scope.

(* rastaredundancy.h:24 MAX_DEFER_QUEUE_MSG_SIZE *)
Definition MAX_DEFER_QUEUE_MSG_SIZE : Z := 1000.

Definition syscall_now (c : syscall) : M sys Z := on_world (do_syscall c).
Definition emit (d : datagram) : M sys unit := modify (fun s => s <| env ::= do_send d |>).

(** ** Socket helpers *)

(* bsd_utils.c bsd_create_socket *)
Definition bsd_create_socket : M sys Z :=
  file_desc ← syscall_now SysSocket;
  if file_desc <? 0 then fail AbortCalled
  else
    reuseaddr ← syscall_now SysSetsockopt;
    if reuseaddr <? 0 then fail AbortCalled
    else
      reuseport ← syscall_now SysSetsockopt;
      if reuseport <? 0 then fail AbortCalled else mret file_desc.

(* bsd_utils.c bsd_bind_device *)
Definition bsd_bind_device (file_descriptor : Z) (port : Z) (ip : list Z) : M sys bool :=
  r ← syscall_now SysBind; mret (negb (r <? 0)).

(* bsd_utils.c host_port_to_sockaddr *)
Definition host_port_to_sockaddr (host : list Z) (port : Z) : M sys (list Z * Z) :=
  r ← syscall_now SysInetAton;
  if r =? 0 then fail AbortCalled else mret (host, port).

(* bsd_utils.c bsd_send_sockaddr *)
Definition bsd_send_sockaddr (file_descriptor : Z) (message : list Z) (receiver : list Z * Z) : M sys unit :=
  r ← syscall_now SysSend;
  if r <? 0 then fail AbortCalled else emit (mkDatagram file_descriptor (Some receiver) message).

(* bsd_utils.c bsd_send *)
Definition bsd_send (file_descriptor : Z) (message : list Z) (host : list Z) (port : Z) : M sys unit :=
  receiver ← host_port_to_sockaddr host port; bsd_send_sockaddr file_descriptor message receiver.

(* bsd_utils.c bsd_close *)
Definition bsd_close (file_descriptor : Z) : M sys unit :=
  when (0 <=? file_descriptor)
    (r ← syscall_now SysClose; if r <? 0 then fail AbortCalled else mret tt).

(** [recvfrom]: a datagram is cut to the buffer, a stream keeps the rest. *)
Definition recvfrom (stream : bool) (max : Z) : M sys (list Z * (list Z * Z)) :=
  inbox ← gets (fun s => inbox (env s));
  match inbox with
  | [] => mret ([], ([], 0))
  | (sender, data) :: inbox =>
      let rest := drop (Z.to_nat max) data in
      _ ← modify (fun s => s <| env ::= fun w => w <| World.inbox :=
             if stream && (0 <? zlen rest) then (sender, rest) :: inbox else inbox |> |>);
      mret (take (Z.to_nat max) data, sender)
  end.

(** ** The interface *)

(** The descriptor events there are, by the socket or channel they belong to; the
    application may have added its own. *)
Inductive source := FdAccept (socket : nat) | FdSocket (socket : nat) | FdChannel (channel : nat) | FdUser (event : nat).
#[export] Instance source_eq : EqDecision source.
Proof. solve_decision. Defined.

(** [socket_events] are the events [transport_create_socket] registers. *)
Class Transport := {
  socket_events : nat -> list source;
  transport_create_socket : nat -> M sys unit;
  transport_bind : nat -> list Z -> Z -> M sys bool;
  transport_listen : nat -> M sys unit;
  transport_accept : nat -> M sys (Z * option (list Z * Z));
  transport_connect : nat -> nat -> M sys Z;
  transport_redial : nat -> M sys Z;
  transport_close_channel : nat -> M sys unit;
  transport_close_socket : nat -> M sys unit;
  send_callback : list Z -> nat -> M sys unit;
  receive_callback : option nat -> option nat -> M sys (Z * list Z * (list Z * Z))
}.

Definition connected_mask (s : sys) : list bool := connected <$> transport_channels (chan s).

Record net_frame (s s' : sys) : Prop := {
  nf_conn : conn s' = conn s;
  nf_config : config s' = config s;
  nf_module_error : rastamodule_lasterror s' = rastamodule_lasterror s;
  nf_factory_error : rastafactory_lasterror s' = rastafactory_lasterror s;
  nf_chan : chan s' = (chan s) <| transport_channels := transport_channels (chan s') |>;
  nf_mux : mux s' = (mux s) <| transport_sockets := transport_sockets (mux s') |>;
  nf_diagnostics : diagnostics_data <$> transport_channels (chan s') = diagnostics_data <$> transport_channels (chan s);
  nf_ids : id <$> transport_channels (chan s') = id <$> transport_channels (chan s);
  nf_sockets : so_id <$> transport_sockets (mux s') = so_id <$> transport_sockets (mux s);
  nf_clock : clock (env s') = clock (env s);
  nf_ticks : ticks (env s') = ticks (env s);
  nf_outcome : outcome (env s') = outcome (env s);
  nf_inbox : inbox (env s') = inbox (env s);
  nf_garbage : garbage (env s') = garbage (env s)
}.

Definition attachment (s : sys) : list (option nat) := associated_socket <$> transport_channels (chan s).

(** The channel is attached to a socket, and the configuration has its address. *)
Definition attached (s : sys) (i : nat) : Prop :=
  exists j so, attachment s !! i = Some (Some j) /\ (so_id <$> transport_sockets (mux s)) !! j = Some so /\
    (Z.to_nat so < length (connections (redundancy (config s))))%nat.

(** A receive call took [data] from the front of the inbox. *)
Record taken (s s' : sys) (data : list Z) : Prop := {
  tk_state : s' = s <| env ::= fun w => w <| inbox := inbox (env s') |> <| calls := calls (env s') |> |>;
  tk_short : zlen data <= MAX_DEFER_QUEUE_MSG_SIZE;
  tk_data : data = [] /\ inbox (env s') = inbox (env s) \/
    exists sender d rest, inbox (env s) = (sender, d) :: rest /\ data = take (Z.to_nat MAX_DEFER_QUEUE_MSG_SIZE) d /\
      (zlen d <= MAX_DEFER_QUEUE_MSG_SIZE -> inbox (env s') = rest)
}.

(** Socket [i] was set up. *)
Definition created (i : nat) (s s' : sys) : Prop := exists socks n,
  s' = s <| mux ::= fun m => m <| transport_sockets := socks |> |> <| env ::= fun w => w <| calls := n |> |> /\
  so_id <$> socks = <[i := Z.of_nat i]> (so_id <$> transport_sockets (mux s)).

Class TransportOk `{Transport} : Prop := {
  create_ok : forall i s, net_good (env s) -> (i < length (transport_sockets (mux s)))%nat ->
    wp (transport_create_socket i) (fun _ => created i s) s;
  bind_ok : forall i ip port s, net_good (env s) -> (i < length (transport_sockets (mux s)))%nat ->
    wp (transport_bind i ip port) (fun _ s' => net_frame s s' /\ attachment s' = attachment s /\
      trace (env s') = trace (env s)) s;
  listen_ok : forall i s, net_good (env s) -> (i < length (transport_sockets (mux s)))%nat ->
    wp (transport_listen i) (fun _ s' => net_frame s s' /\ attachment s' = attachment s /\
      trace (env s') = trace (env s)) s;
  send_ok : forall data i s, net_good (env s) -> (i < length (transport_channels (chan s)))%nat ->
    wp (send_callback data i) (fun _ s' => net_frame s s' /\
      transport_channels (chan s') = transport_channels (chan s) /\
      exists d, out_data d = data /\ trace (env s') = trace (env s) ++ [d]) s;
  redial_ok : forall i s, net_good (env s) -> attached s i ->
    wp (transport_redial i) (fun r s' => net_frame s s' /\ attachment s' = attachment s /\
      trace (env s') = trace (env s) /\
      forall j, j <> i -> transport_channels (chan s') !! j = transport_channels (chan s) !! j) s;
  close_ok : forall i s, net_good (env s) -> (i < length (transport_channels (chan s)))%nat ->
    wp (transport_close_channel i) (fun _ s' => net_frame s s' /\ attachment s' = attachment s /\
      trace (env s') = trace (env s)) s;
  close_socket_ok : forall i s, net_good (env s) -> (i < length (transport_sockets (mux s)))%nat ->
    wp (transport_close_socket i) (fun _ s' => net_frame s s' /\ attachment s' = attachment s /\
      trace (env s') = trace (env s)) s;
  connect_ok : forall k i s, net_good (env s) -> (k < length (transport_sockets (mux s)))%nat ->
    (i < length (transport_channels (chan s)))%nat ->
    (id <$> transport_channels (chan s)) !! i = (so_id <$> transport_sockets (mux s)) !! k ->
    wp (transport_connect k i) (fun _ s' => net_frame s s' /\ trace (env s') = trace (env s) /\
      attachment s' = <[i := Some k]> (attachment s)) s;
  accept_ok : forall k s, net_good (env s) -> socket_events k = [FdAccept k] ->
    wp (transport_accept k) (fun r s' => exists n, s' = s <| env ::= fun w => w <| calls := n |> |> /\ is_Some r.2) s;
  receive_ok : forall so ch s, net_good (env s) ->
    wp (receive_callback so ch) (fun r s' => taken s s' r.1.2 /\ (r.1.1 = zlen r.1.2 \/ r.1.1 = -1 /\ r.1.2 = [])) s;
  socket_events_ok : forall k, socket_events k = [FdSocket k] \/ socket_events k = [FdAccept k]
}.

(** ** UDP *)

Definition enable_receive (so : rasta_transport_socket) : rasta_transport_socket :=
  so <| so_receive_event ::= enable_fd_event |>.

(** Every socket exists when its number is in range: the array is allocated
    and zeroed before. *)
(* udp_base.c transport_create_socket *)
Definition udp_transport_create_socket (i : nat) : M sys unit :=
  file_descriptor ← bsd_create_socket;
  set_socket i (fun so => so <| so_id := Z.of_nat i |> <| so_file_descriptor := file_descriptor |>
    <| so_receive_event := mkFdEvent file_descriptor 1 false |>).

(* udp_base.c transport_bind *)
Definition udp_transport_bind (i : nat) (ip : list Z) (port : Z) : M sys bool :=
  so ← socket_at i; bsd_bind_device (so_file_descriptor so) port ip.

(* udp_base.c transport_listen *)
Definition udp_transport_listen (i : nat) : M sys unit := set_socket i enable_receive.

(** The caller's address is not written. *)
(* udp_base.c transport_accept *)
Definition udp_transport_accept (i : nat) : M sys (Z * option (list Z * Z)) := mret (0, None).

(* udp_base.c transport_connect *)
Definition udp_transport_connect (socket channel : nat) : M sys Z :=
  _ ← set_socket socket enable_receive;
  so ← socket_at socket;
  _ ← set_channel channel (fun c => c <| id := so_id so |> <| file_descriptor := so_file_descriptor so |>
         <| associated_socket := Some socket |> <| connected := true |>);
  mret 0.

(* udp_base.c transport_redial *)
Definition udp_transport_redial (channel : nat) : M sys Z := mret (-1).

(* udp_base.c transport_close_channel *)
Definition udp_transport_close_channel (channel : nat) : M sys unit := mret tt.

(* udp.c udp_close *)
Definition udp_close (transport_socket : rasta_transport_socket) : M sys unit :=
  bsd_close (so_file_descriptor transport_socket).

(* udp_base.c transport_close_socket *)
Definition udp_transport_close_socket (i : nat) : M sys unit :=
  so ← socket_at i;
  _ ← udp_close so;
  set_socket i (fun so => so <| so_file_descriptor := -1 |> <| so_receive_event ::= disable_fd_event |>).

(* udp.c udp_send *)
Definition udp_send (transport_channel : rasta_transport_channel) (message : list Z) (host : list Z) (port : Z) :
    M sys unit :=
  bsd_send (file_descriptor transport_channel) message host port.

(* udp_base.c send_callback *)
Definition udp_send_callback (data_to_send : list Z) (channel : nat) : M sys unit :=
  c ← channel_at channel;
  udp_send c data_to_send (remote_ip_address c) (remote_port c).

(* udp.c udp_receive *)
Definition udp_receive (max_buffer_len : Z) : M sys (Z * list Z * (list Z * Z)) :=
  r ← syscall_now SysRecv;
  if r =? -1 then fail AbortCalled
  else
    '(data, sender) ← recvfrom false max_buffer_len;
    mret (zlen data, data, sender).

(* udp_base.c receive_callback *)
Definition udp_receive_callback (socket channel : option nat) : M sys (Z * list Z * (list Z * Z)) :=
  udp_receive MAX_DEFER_QUEUE_MSG_SIZE.

#[export] Instance udp : Transport := {
  socket_events := fun i => [FdSocket i];
  transport_create_socket := udp_transport_create_socket;
  transport_bind := udp_transport_bind;
  transport_listen := udp_transport_listen;
  transport_accept := udp_transport_accept;
  transport_connect := udp_transport_connect;
  transport_redial := udp_transport_redial;
  transport_close_channel := udp_transport_close_channel;
  transport_close_socket := udp_transport_close_socket;
  send_callback := udp_send_callback;
  receive_callback := udp_receive_callback
}.

(** ** TCP *)

(* tcp_base.c transport_create_socket *)
Definition tcp_transport_create_socket (i : nat) : M sys unit :=
  file_descriptor ← bsd_create_socket;
  set_socket i (fun so => so <| so_id := Z.of_nat i |> <| so_file_descriptor := file_descriptor |>
    <| so_accept_event := mkFdEvent file_descriptor 1 false |>).

(* tcp_base.c transport_bind *)
Definition tcp_transport_bind (i : nat) (ip : list Z) (port : Z) : M sys bool :=
  so ← socket_at i; bsd_bind_device (so_file_descriptor so) port ip.

(* tcp.c tcp_listen *)
Definition tcp_listen : M sys unit :=
  r ← syscall_now SysListen;
  if r <? 0 then fail AbortCalled else mret tt.

(* tcp_base.c transport_listen *)
Definition tcp_transport_listen (i : nat) : M sys unit :=
  _ ← tcp_listen;
  set_socket i (fun so => so <| so_accept_event ::= enable_fd_event |>).

(* tcp.c tcp_accept *)
Definition tcp_accept : M sys Z :=
  socket ← syscall_now SysAccept;
  if socket <? 0 then fail AbortCalled else mret socket.

(* tcp_base.c transport_accept *)
Definition tcp_transport_accept (i : nat) : M sys (Z * option (list Z * Z)) :=
  fd ← tcp_accept;
  r ← syscall_now SysGetpeername;
  if negb (r =? 0) then fail AbortCalled else addr ← gets (fun s => peer (env s) fd); mret (fd, Some addr).

(* tcp.c tcp_connect *)
Definition tcp_connect (channel : nat) : M sys Z :=
  a ← syscall_now SysInetAton;
  if a =? 0 then fail AbortCalled
  else
    r ← syscall_now SysConnect;
    if r <? 0 then _ ← set_channel channel (fun c => c <| connected := false |>); mret 1
    else _ ← set_channel channel (fun c => c <| connected := true |>); mret 0.

(* tcp_base.c transport_connect *)
Definition tcp_transport_connect (socket channel : nat) : M sys Z :=
  so ← socket_at socket;
  _ ← set_channel channel (fun c => c <| file_descriptor := so_file_descriptor so |>
         <| associated_socket := Some socket |>);
  r ← tcp_connect channel;
  if negb (r =? 0) then mret (-1)
  else
    _ ← set_channel channel (fun c => c <| receive_event ::= fun e => enable_fd_event (e <| fd := file_descriptor c |>) |>);
    mret 0.

(** A new socket is created and bound to the configured address of its number;
    whether that succeeds is not looked at. *)
(* tcp_base.c transport_redial *)
Definition tcp_transport_redial (channel : nat) : M sys Z :=
  c ← channel_at channel;
  match associated_socket c with
  | None => fail NullDeref
  | Some socket =>
      file_descriptor ← bsd_create_socket;
      _ ← set_socket socket (fun so => so <| so_file_descriptor := file_descriptor |>);
      so ← socket_at socket;
      ip_data ← gets (fun s => connections (redundancy (config s)) !! Z.to_nat (so_id so));
      match ip_data with
      | None => fail OutOfBounds
      | Some ip_data =>
          _ ← tcp_transport_bind socket (ip ip_data) (u16 (port ip_data));
          r ← tcp_transport_connect socket channel;
          if negb (r =? 0) then mret (-1)
          else
            _ ← set_socket socket (fun so => so <| so_receive_event ::= (fun e => e <| fd := file_descriptor |>) |>
                   <| so_accept_event ::= (fun e => e <| fd := file_descriptor |>) |>);
            mret 0
      end
  end.

(* tcp.c tcp_close *)
Definition tcp_close (transport_channel : rasta_transport_channel) : M sys unit :=
  bsd_close (file_descriptor transport_channel).

(* tcp_base.c transport_close_channel *)
Definition tcp_transport_close_channel (channel : nat) : M sys unit :=
  c ← channel_at channel;
  _ ← when (connected c)
    (_ ← tcp_close c;
     set_channel channel (fun c => c <| file_descriptor := -1 |> <| connected := false |>));
  set_channel channel (fun c => c <| receive_event ::= disable_fd_event |>).

(* tcp_base.c transport_close_socket *)
Definition tcp_transport_close_socket (i : nat) : M sys unit :=
  so ← socket_at i;
  _ ← when (negb (so_file_descriptor so =? -1))
    (_ ← bsd_close (so_file_descriptor so); set_socket i (fun so => so <| so_file_descriptor := -1 |>));
  set_socket i (fun so => so <| so_accept_event ::= disable_fd_event |>).

(* tcp.c tcp_send *)
Definition tcp_send (transport_channel : rasta_transport_channel) (message : list Z) : M sys unit :=
  r ← syscall_now SysSend;
  if r <? 0 then fail AbortCalled else emit (mkDatagram (file_descriptor transport_channel) None message).

(* tcp_base.c send_callback *)
Definition tcp_send_callback (data_to_send : list Z) (channel : nat) : M sys unit :=
  c ← channel_at channel;
  tcp_send c data_to_send.

(* tcp.c tcp_receive *)
Definition tcp_receive (max_buffer_len : Z) : M sys (Z * list Z * (list Z * Z)) :=
  r ← syscall_now SysRecv;
  if r <? 0 then mret (-1, [], ([], 0))
  else
    '(data, sender) ← recvfrom true max_buffer_len;
    mret (zlen data, data, sender).

(* tcp_base.c receive_callback *)
Definition tcp_receive_callback (socket channel : option nat) : M sys (Z * list Z * (list Z * Z)) :=
  tcp_receive MAX_DEFER_QUEUE_MSG_SIZE.

Definition tcp : Transport := {|
  socket_events := fun i => [FdAccept i];
  transport_create_socket := tcp_transport_create_socket;
  transport_bind := tcp_transport_bind;
  transport_listen := tcp_transport_listen;
  transport_accept := tcp_transport_accept;
  transport_connect := tcp_transport_connect;
  transport_redial := tcp_transport_redial;
  transport_close_channel := tcp_transport_close_channel;
  transport_close_socket := tcp_transport_close_socket;
  send_callback := tcp_send_callback;
  receive_callback := tcp_receive_callback
|}.

(** ** Transport channels *)

(** The struct was zeroed before; registering the event is not part of it. *)
(* transport.c transport_init *)
Definition transport_init (channel : rasta_transport_channel) (i : nat) (host : list Z) (port : Z) :
    rasta_transport_channel :=
  channel <| id := Z.of_nat i |> <| remote_port := port |>
    <| remote_ip_address := take 15 host |> <| associated_socket := None |>
    <| receive_event := mkFdEvent 0 1 false |>.

(** The first transport channel whose peer has the sender's address. *)
(* transport.c find_channel_by_ip_address *)
Definition find_channel_by_ip_address (s : sys) (sender : list Z * Z) : option nat :=
  fst <$> list_find (fun c => remote_ip_address c = sender.1 /\ remote_port c = sender.2)
    (transport_channels (chan s)).

(** ** Both satisfy the interface *)

Lemma net_frame_refl s : net_frame s s.
Proof. by split; destruct s as [? [] [] ? ? ? ?]. Qed.

Lemma net_frame_trans s1 s2 s3 : net_frame s1 s2 -> net_frame s2 s3 -> net_frame s1 s3.
Proof.
  intros [] []. split; try (etrans; eassumption).
  - rewrite nf_chan1, nf_chan0. by destruct (chan s1).
  - rewrite nf_mux1, nf_mux0. by destruct (mux s1).
Qed.
#[export] Instance net_frame_preorder : PreOrder net_frame.
Proof. split; [exact net_frame_refl|exact net_frame_trans]. Qed.

Lemma net_frame_world s f : (forall w, clock (f w) = clock w) -> (forall w, ticks (f w) = ticks w) ->
  (forall w, outcome (f w) = outcome w) -> (forall w, inbox (f w) = inbox w) ->
  (forall w, garbage (f w) = garbage w) -> net_frame s (s <| env ::= f |>).
Proof. intros. by split; fields; try done; destruct s as [? [] [] ? ? ? ?]. Qed.

Lemma net_frame_channel_at s f i :
  (forall c, transport_channels (chan s) !! i = Some c -> diagnostics_data (f c) = diagnostics_data c /\ id (f c) = id c) ->
  net_frame s (s <| chan ::= fun c => c <| transport_channels ::= alter f i |> |>).
Proof.
  intros Hf. split; fields; try done; try by destruct s as [? [] [] ? ? ? ?].
  - apply fmap_alter_at. intros c Hc. by apply Hf.
  - apply fmap_alter_at. intros c Hc. by apply Hf.
Qed.

Lemma net_frame_channel s f i : (forall c, diagnostics_data (f c) = diagnostics_data c) -> (forall c, id (f c) = id c) ->
  net_frame s (s <| chan ::= fun c => c <| transport_channels ::= alter f i |> |>).
Proof. intros H1 H2. apply net_frame_channel_at. intros c _. by split. Qed.

Lemma net_frame_socket s f i : (forall c, so_id (f c) = so_id c) ->
  net_frame s (s <| mux ::= fun m => m <| transport_sockets ::= alter f i |> |>).
Proof.
  intros Hf. split; fields; try done; try by destruct s as [? [] [] ? ? ? ?].
  by apply fmap_alter_id.
Qed.

Lemma wp_channel_at i c Q s : transport_channels (chan s) !! i = Some c -> Q c s -> wp (channel_at i) Q s.
Proof. intros Hc HQ. unfold channel_at. apply wp_bind, wp_gets. by rewrite Hc. Qed.

Lemma wp_set_channel i f Q s : (i < length (transport_channels (chan s)))%nat ->
  Q tt (s <| chan ::= fun c => c <| transport_channels ::= alter f i |> |>) -> wp (set_channel i f) Q s.
Proof.
  intros [c Hc]%lookup_lt_is_Some_2 HQ. unfold set_channel. apply wp_bind.
  eapply wp_channel_at; [done|]. exact HQ.
Qed.

Lemma wp_socket_at i c Q s : transport_sockets (mux s) !! i = Some c -> Q c s -> wp (socket_at i) Q s.
Proof. intros Hc HQ. unfold socket_at. apply wp_bind, wp_gets. by rewrite Hc. Qed.

Lemma wp_set_socket i f Q s : (i < length (transport_sockets (mux s)))%nat ->
  Q tt (s <| mux ::= fun m => m <| transport_sockets ::= alter f i |> |>) -> wp (set_socket i f) Q s.
Proof.
  intros [c Hc]%lookup_lt_is_Some_2 HQ. unfold set_socket. apply wp_bind.
  eapply wp_socket_at; [done|]. exact HQ.
Qed.

Lemma wp_syscall c Q s : Q (outcome (env s) (calls (env s)) c) (s <| env ::= fun w => w <| calls ::= S |> |>) ->
  wp (syscall_now c) Q s.
Proof. done. Qed.

Lemma net_frame_call s : net_frame s (s <| env ::= fun w => w <| calls ::= S |> |>).
Proof. by apply net_frame_world. Qed.
Lemma net_frame_emit s d : net_frame s (s <| env ::= do_send d |>).
Proof. by apply net_frame_world. Qed.

Lemma net_frame_good s s' : net_frame s s' -> net_good (env s) -> net_good (env s').
Proof. intros Hf []. pose proof (nf_outcome _ _ Hf) as E. by split; rewrite E. Qed.

Lemma net_frame_length s s' : net_frame s s' ->
  length (transport_channels (chan s')) = length (transport_channels (chan s)).
Proof. intros Hf%nf_diagnostics. apply (f_equal length) in Hf. by rewrite !length_fmap in Hf. Qed.

Lemma net_frame_sockets s s' : net_frame s s' ->
  length (transport_sockets (mux s')) = length (transport_sockets (mux s)).
Proof. intros Hf%nf_sockets. apply (f_equal length) in Hf. by rewrite !length_fmap in Hf. Qed.

(** The state after one more socket call. *)
Definition called (s : sys) : sys := s <| env ::= fun w => w <| calls ::= S |> |>.

Lemma wp_aton {A} (k : Z -> M sys A) Q s : net_good (env s) ->
  (forall a, a <> 0 -> wp (k a) Q (called s)) -> wp (syscall_now SysInetAton ≫= k) Q s.
Proof. intros Hg Hk. apply wp_bind, wp_syscall, Hk, good_aton, Hg. Qed.

Lemma wp_nonneg {A} c (k : M sys A) Q s : 0 <= outcome (env s) (calls (env s)) c -> wp k Q (called s) ->
  wp (r ← syscall_now c; if r <? 0 then fail AbortCalled else k) Q s.
Proof. intros Hc Hk. apply wp_bind, wp_syscall. by ztests. Qed.

Lemma called_good s : net_good (env s) -> net_good (env (called s)).
Proof. apply net_frame_good, net_frame_call. Qed.

Lemma wp_close s fd Q : net_good (env s) ->
  (forall s', net_frame s s' -> chan s' = chan s -> mux s' = mux s -> trace (env s') = trace (env s) -> Q tt s') ->
  wp (bsd_close fd) Q s.
Proof.
  intros Hg HQ. unfold bsd_close, when. case_if; [|by apply wp_ret, HQ].
  apply wp_nonneg; [apply good_close, Hg|]. apply wp_ret, HQ; [apply net_frame_call|done..].
Qed.

Lemma attachment_channel s f i : (forall c, associated_socket (f c) = associated_socket c) ->
  attachment (s <| chan ::= fun c => c <| transport_channels ::= alter f i |> |>) = attachment s.
Proof. apply fmap_alter_id. Qed.

Lemma attachment_set s f i k : (forall c, associated_socket (f c) = k) ->
  attachment (s <| chan ::= fun c => c <| transport_channels ::= alter f i |> |>) = <[i := k]> (attachment s).
Proof.
  intros Hf. unfold attachment. fields. generalize (transport_channels (chan s)). intros l. revert i.
  induction l as [|c l IH]; intros [|i]; cbn; [done..|by rewrite Hf|]. by rewrite <- IH.
Qed.

Lemma wp_recvfrom stream Q s :
  (forall data sender s', taken s s' data -> Q (data, sender) s') -> wp (recvfrom stream MAX_DEFER_QUEUE_MSG_SIZE) Q s.
Proof.
  intros HQ. unfold recvfrom. apply wp_bind, wp_gets. destruct (inbox (env s)) as [|[sender d] rest] eqn:Ei.
  - apply wp_ret, HQ. split; [by destruct s as [? ? ? ? ? ? []]|zle|by left].
  - cbv zeta. apply wp_bind, wp_modify, wp_ret, HQ.
    assert (Hz : zlen (take (Z.to_nat MAX_DEFER_QUEUE_MSG_SIZE) d) <= MAX_DEFER_QUEUE_MSG_SIZE).
    { unfold zlen. rewrite length_take. unfold MAX_DEFER_QUEUE_MSG_SIZE. lia. }
    split; [by destruct s as [? ? ? ? ? ? []]|done|]. right. exists sender, d, rest. split; [done|]. split; [done|].
    intros Hd. fields. rewrite drop_ge; [by rewrite andb_false_r|]. unfold zlen, MAX_DEFER_QUEUE_MSG_SIZE in *. lia.
Qed.

Lemma taken_call s s' data : taken (called s) s' data -> taken s s' data.
Proof. intros [E H1 H2]. split; [|done|done]. rewrite E. by destruct s. Qed.

Lemma alter_set {A B} (g : A -> B) (f : A -> A) i (l : list A) b : (forall x, g (f x) = b) ->
  g <$> alter f i l = <[i := b]> (g <$> l).
Proof.
  intros Hf. revert i. induction l as [|x l IH]; intros [|i]; cbn; [done..|by rewrite Hf|]. by rewrite IH.
Qed.

Lemma wp_create_set i f s : net_good (env s) -> (i < length (transport_sockets (mux s)))%nat ->
  (forall fd so, so_id (f fd so) = Z.of_nat i) ->
  wp (fd ← bsd_create_socket; set_socket i (f fd)) (fun _ => created i s) s.
Proof.
  intros Hg Hi Hf. unfold bsd_create_socket. apply wp_bind, wp_bind, wp_syscall.
  pose proof (good_socket _ Hg (calls (env s))). ztests. apply wp_nonneg; [apply (good_setsockopt _ Hg)|].
  apply wp_nonneg; [apply (good_setsockopt _ Hg)|]. apply wp_ret, wp_set_socket; [done|].
  exists (alter (f (outcome (env s) (calls (env s)) SysSocket)) i (transport_sockets (mux s))), (3 + calls (env s))%nat.
  split; [by destruct s as [? ? [] ? ? ? []]|]. by apply alter_set.
Qed.

Lemma wp_listen_set i f s : (i < length (transport_sockets (mux s)))%nat -> (forall so, so_id (f so) = so_id so) ->
  wp (set_socket i f) (fun _ s' => net_frame s s' /\ attachment s' = attachment s /\ trace (env s') = trace (env s)) s.
Proof. intros Hi Hf. apply wp_set_socket; [done|]. split; [by apply net_frame_socket|done]. Qed.

Lemma wp_bind_device i ip port s : (i < length (transport_sockets (mux s)))%nat ->
  wp (so ← socket_at i; bsd_bind_device (so_file_descriptor so) port ip)
    (fun _ s' => net_frame s s' /\ attachment s' = attachment s /\ trace (env s') = trace (env s)) s.
Proof.
  intros [so Hso]%lookup_lt_is_Some_2. apply wp_bind. eapply wp_socket_at; [done|].
  unfold bsd_bind_device. apply wp_bind, wp_syscall, wp_ret. split; [apply net_frame_call|done].
Qed.

Lemma wp_close_set i fd f s : net_good (env s) -> (i < length (transport_sockets (mux s)))%nat ->
  (forall so, so_id (f so) = so_id so) ->
  wp (_ ← bsd_close fd; set_socket i f)
    (fun _ s' => net_frame s s' /\ attachment s' = attachment s /\ trace (env s') = trace (env s)) s.
Proof.
  intros Hg Hi Hf. apply wp_bind, wp_close; [done|]. intros s1 F1 C1 M1 T1.
  eapply wp_mono; [apply wp_listen_set; [by rewrite M1|done]|]. intros _ s2 (F2 & A2 & T2).
  split; [by etrans|]. rewrite A2, T2. unfold attachment. by rewrite C1.
Qed.

#[export] Instance udp_ok : @TransportOk udp.
Proof.
  split.
  - intros i s Hg Hi. by apply wp_create_set.
  - intros i ip port s Hg Hi. by apply wp_bind_device.
  - intros i s Hg Hi. by apply wp_listen_set.
  - intros data i s Hg [c Hc]%lookup_lt_is_Some_2. cbn. unfold udp_send_callback, bsd_send, host_port_to_sockaddr.
    apply wp_bind. eapply wp_channel_at; [done|]. apply wp_bind, wp_aton; [done|]. intros a Ha.
    ztest (a =? 0). apply wp_ret. apply wp_nonneg; [apply good_send; by apply called_good|].
    split; [|split; [done|]].
    + etrans; [apply net_frame_call|]. etrans; [apply net_frame_call|]. apply net_frame_emit.
    + eexists. split; [|done]. done.
  - intros i s Hg Ha. by apply wp_ret.
  - intros i s Hg Hi. by apply wp_ret.
  - intros i s Hg Hi. destruct (lookup_lt_is_Some_2 _ _ Hi) as [so Hso]. cbn. unfold udp_transport_close_socket.
    apply wp_bind. eapply wp_socket_at; [done|]. by apply wp_close_set.
  - intros k i s Hg Hk Hi Hid. cbn. unfold udp_transport_connect.
    apply wp_bind, wp_set_socket; [done|]. apply wp_bind.
    set (s1 := s <| mux ::= _ |>).
    assert (Hk1 : (k < length (transport_sockets (mux s1)))%nat) by (unfold s1; fields; by rewrite length_alter).
    destruct (lookup_lt_is_Some_2 _ _ Hk1) as [so Hso]. eapply wp_socket_at; [done|].
    apply wp_bind, wp_set_channel; [done|]. apply wp_ret. split; [|split; [done|by rewrite (attachment_set s1 _ _ (Some k))]].
    etrans; [by apply (net_frame_socket s enable_receive k)|]. apply net_frame_channel_at. intros c Hc. split; [done|].
    change (transport_channels (chan s1)) with (transport_channels (chan s)) in Hc.
    rewrite !list_lookup_fmap, Hc in Hid. unfold s1 in Hso. revert Hso. fields. rewrite list_lookup_alter.
    rewrite decide_True by done. intros (so' & Hso & ->)%fmap_Some. rewrite Hso in Hid. cbn in Hid. by injection Hid as ->.
  - done.
  - intros so ch s Hg. cbn. unfold udp_receive_callback, udp_receive. apply wp_bind, wp_syscall.
    pose proof (good_recv _ Hg (calls (env s))). ztests. apply wp_bind. fold (called s). apply wp_recvfrom.
    intros data sender s' T. apply wp_ret. split; [by apply taken_call|by left].
  - by left.
Qed.

Lemma tcp_connect_ok i s : net_good (env s) -> (i < length (transport_channels (chan s)))%nat ->
  wp (tcp_connect i) (fun _ s' => net_frame s s' /\ attachment s' = attachment s /\
    trace (env s') = trace (env s) /\
    forall j, j <> i -> transport_channels (chan s') !! j = transport_channels (chan s) !! j) s.
Proof.
  intros Hg Hi. unfold tcp_connect. apply wp_bind, wp_syscall. pose proof (good_aton _ Hg (calls (env s))).
  ztests. apply wp_bind, wp_syscall.
  case_if; (apply wp_bind, wp_set_channel; [done|]; apply wp_ret; split;
    [|split; [by etrans; [by apply attachment_channel|]|split; [done|intros j Hj; fields; by rewrite list_lookup_alter_ne]]]);
    (etrans; [apply net_frame_call|]; etrans; [apply net_frame_call|]; by apply net_frame_channel).
Qed.

Lemma tcp_transport_connect_ok k i s : net_good (env s) -> (k < length (transport_sockets (mux s)))%nat ->
  (i < length (transport_channels (chan s)))%nat ->
  wp (tcp_transport_connect k i) (fun _ s' => net_frame s s' /\ trace (env s') = trace (env s) /\
    attachment s' = <[i := Some k]> (attachment s) /\
    forall j, j <> i -> transport_channels (chan s') !! j = transport_channels (chan s) !! j) s.
Proof.
  intros Hg [so Hso]%lookup_lt_is_Some_2 Hi. unfold tcp_transport_connect. apply wp_bind.
  eapply wp_socket_at; [done|]. apply wp_bind, wp_set_channel; [done|].
  set (s1 := s <| chan ::= _ |>). assert (H1 : net_frame s s1) by by apply net_frame_channel.
  assert (A1 : attachment s1 = <[i := Some k]> (attachment s)) by by apply attachment_set.
  assert (L1 : (i < length (transport_channels (chan s1)))%nat) by by rewrite (net_frame_length _ _ H1).
  assert (R1 : forall j, j <> i -> transport_channels (chan s1) !! j = transport_channels (chan s) !! j)
    by (intros j Hj; unfold s1; fields; by rewrite list_lookup_alter_ne).
  assert (T1 : trace (env s1) = trace (env s)) by done.
  clearbody s1.
  eapply wp_seq; [apply tcp_connect_ok; [by eapply net_frame_good|done]|].
  intros r s2 (H2 & A2 & T2 & R2). case_if.
  - apply wp_ret. split; [by etrans|]. split; [by rewrite T2|]. split; [by rewrite A2|].
    intros j Hj. by rewrite R2, R1.
  - apply wp_bind, wp_set_channel; [by rewrite (net_frame_length _ _ H2)|]. apply wp_ret.
    split; [etrans; [done|]; etrans; [done|]; by apply net_frame_channel|].
    split; [by fields; rewrite T2|]. split; [by rewrite attachment_channel, A2|].
    intros j Hj. fields. by rewrite list_lookup_alter_ne, R2, R1.
Qed.

Lemma wp_create_socket s Q : net_good (env s) ->
  (forall fd s', net_frame s s' -> chan s' = chan s -> mux s' = mux s -> trace (env s') = trace (env s) -> Q fd s') ->
  wp bsd_create_socket Q s.
Proof.
  intros Hg HQ. unfold bsd_create_socket. apply wp_bind, wp_syscall.
  pose proof (good_socket _ Hg (calls (env s))). ztests. apply wp_nonneg; [apply (good_setsockopt _ Hg)|].
  apply wp_nonneg; [apply (good_setsockopt _ Hg)|]. apply wp_ret, HQ; [|done..].
  etrans; [apply net_frame_call|]. etrans; [apply net_frame_call|]. apply net_frame_call.
Qed.

Lemma tcp_redial_ok i s : net_good (env s) -> attached s i ->
  wp (tcp_transport_redial i) (fun r s' => net_frame s s' /\ attachment s' = attachment s /\
    trace (env s') = trace (env s) /\
    forall j, j <> i -> transport_channels (chan s') !! j = transport_channels (chan s) !! j) s.
Proof.
  intros Hg (j & so & Ha & Hj & Hso). unfold tcp_transport_redial.
  assert (Hc : exists c, transport_channels (chan s) !! i = Some c /\ associated_socket c = Some j).
  { unfold attachment in Ha. apply list_lookup_fmap_Some in Ha as (c & ? & ?). by exists c. }
  destruct Hc as (c & Hc & Hcj). assert (Hi : (i < length (transport_channels (chan s)))%nat) by by eapply lookup_lt_Some.
  apply wp_bind. eapply wp_channel_at; [done|]. rewrite Hcj. apply wp_bind, wp_create_socket; [done|].
  intros fd1 s1 H1 C1 M1 T1.
  assert (Hlt : (j < length (transport_sockets (mux s1)))%nat).
  { rewrite M1. apply list_lookup_fmap_Some in Hj as (? & ? & ?). by eapply lookup_lt_Some. }
  apply wp_bind, wp_set_socket; [done|]. set (s2 := s1 <| mux ::= _ |>).
  assert (H2 : net_frame s s2) by (etrans; [exact H1|]; by apply net_frame_socket).
  assert (T2 : trace (env s2) = trace (env s)) by by rewrite <- T1.
  assert (C2 : chan s2 = chan s) by done. clearbody s2. clear s1 H1 C1 M1 T1 Hlt.
  pose proof (nf_sockets _ _ H2) as E2. rewrite <- E2 in Hj.
  apply list_lookup_fmap_Some in Hj as (so' & -> & Hj).
  apply wp_bind. eapply wp_socket_at; [done|]. apply wp_bind, wp_gets. rewrite (nf_config _ _ H2).
  destruct (lookup_lt_is_Some_2 _ _ Hso) as [ipd Hip]. rewrite Hip.
  unfold tcp_transport_bind, bsd_bind_device. apply wp_bind, wp_bind. eapply wp_socket_at; [done|].
  apply wp_bind, wp_syscall, wp_ret. apply wp_bind. fold (called s2).
  eapply wp_mono; [apply tcp_transport_connect_ok; [apply called_good; by eapply net_frame_good| |]|].
  - by eapply lookup_lt_Some.
  - unfold called. fields. by rewrite C2.
  - intros r s3 (H3 & T3 & A3 & R3). 
    assert (A3' : attachment s3 = attachment s).
    { rewrite A3. unfold attachment, called. fields. rewrite C2. by apply list_insert_id. }
    assert (H3' : net_frame s s3) by (etrans; [exact H2|]; etrans; [apply net_frame_call|exact H3]).
    assert (R3' : forall k, k <> i -> transport_channels (chan s3) !! k = transport_channels (chan s) !! k)
      by (intros k Hk; rewrite R3 by done; unfold called; fields; by rewrite C2).
    case_if; [by apply wp_ret; rewrite T3|].
    apply wp_bind, wp_set_socket; [rewrite (net_frame_sockets _ _ H3'), <- (net_frame_sockets _ _ H2); by eapply lookup_lt_Some|].
    apply wp_ret. split; [etrans; [exact H3'|]; by apply net_frame_socket|]. fields. by rewrite T3.
Qed.

#[export] Instance tcp_ok : @TransportOk tcp.
Proof.
  split.
  - intros i s Hg Hi. by apply wp_create_set.
  - intros i ip port s Hg Hi. by apply wp_bind_device.
  - intros i s Hg Hi. cbn. unfold tcp_transport_listen, tcp_listen. apply wp_bind, wp_nonneg; [apply (good_listen _ Hg)|].
    apply wp_ret. eapply wp_mono; [by apply wp_listen_set|]. intros _ s' (F & A & R).
    split; [etrans; [apply net_frame_call|done]|by rewrite A, R].
  - intros data i s Hg [c Hc]%lookup_lt_is_Some_2. cbn. unfold tcp_send_callback.
    apply wp_bind. eapply wp_channel_at; [done|]. apply wp_nonneg; [apply (good_send _ Hg)|].
    split; [|split; [done|]]; [etrans; [apply net_frame_call|]; apply net_frame_emit|].
    eexists. split; [|done]. done.
  - exact tcp_redial_ok.
  - intros i s Hg Hi. cbn. unfold tcp_transport_close_channel.
    destruct (lookup_lt_is_Some_2 _ _ Hi) as [c Hc]. apply wp_bind. eapply wp_channel_at; [done|]. apply wp_bind.
    unfold when. case_if.
    + apply wp_bind, wp_close; [done|]. intros s' H1 C1 M1 T1. apply wp_set_channel; [by rewrite C1|].
      apply wp_set_channel; [fields; by rewrite length_alter, C1|]. split; [|split].
      * etrans; [exact H1|]. etrans; [|by apply net_frame_channel]. by apply net_frame_channel.
      * rewrite attachment_channel by done. rewrite attachment_channel by done. unfold attachment. by rewrite C1.
      * exact T1.
    + apply wp_ret, wp_set_channel; [done|]. split; [by apply net_frame_channel|].
      split; [by apply attachment_channel|done].
  - intros i s Hg Hi. destruct (lookup_lt_is_Some_2 _ _ Hi) as [so Hso]. cbn. unfold tcp_transport_close_socket.
    apply wp_bind. eapply wp_socket_at; [done|]. unfold when. case_if; [|by apply wp_bind, wp_ret, wp_listen_set].
    apply wp_bind. eapply wp_mono; [by apply wp_close_set|]. intros _ s1 (F1 & A1 & T1).
    eapply wp_mono; [apply wp_listen_set; [by rewrite (net_frame_sockets _ _ F1)|done]|]. intros _ s2 (F2 & A2 & T2).
    split; [by etrans|]. by rewrite A2, T2.
  - intros k i s Hg Hk Hi _. eapply wp_mono; [by apply tcp_transport_connect_ok|]. naive_solver.
  - intros k s Hg _. cbn. unfold tcp_transport_accept, tcp_accept. apply wp_bind, wp_bind, wp_syscall.
    pose proof (good_accept _ Hg (calls (env s))). ztests. apply wp_ret, wp_bind, wp_syscall. fold (called s).
    rewrite (good_getpeername _ (called_good _ Hg)). cbn [Z.eqb negb]. apply wp_bind, wp_gets, wp_ret. eexists. split; [|by eexists].
    by destruct s as [? ? ? ? ? ? []].
  - intros so ch s Hg. cbn. unfold tcp_receive_callback, tcp_receive. apply wp_bind, wp_syscall. fold (called s).
    case_if.
    + apply wp_ret. split; [|by right]. apply taken_call. split; [by destruct s as [? ? ? ? ? ? []]|zle|by left].
    + apply wp_bind, wp_recvfrom. intros data sender s' T. apply wp_ret. split; [by apply taken_call|by left].
  - by right.
Qed.
