(* ===== verification/Redundancy.v ===== *)
(** * The redundancy layer (src/c/redundancy/, src/c/transport/diagnostics.c)

    The multiplexer sends each packet over all transport channels and takes
    received datagrams apart; the redundancy channel discards duplicates, holds
    back packets that are early in the defer queue, and delivers them in order.
    The layer above is an interface ([UpperLayer]); what the layer below
    promises is [TransportOk].  Notification callbacks are unset. *)

From stdpp Require Import base numbers list.
From Stdlib Require Import ZArith Lia.
From S2P Require Import Prelude.
From S2P Require Import Crc.
From S2P Require Import Hashing.
From S2P Require Import Packet.
From S2P Require Import Factory.
From S2P Require Import DeferQueue.
From S2P Require Import World.
From S2P Require Import Config.
From S2P Require Import State.
From S2P Require Import Sample.
From S2P Require Import Transport.

Local Open Scope Z_scope.
Local Open Scope record_scope.

Definition setch (f : rasta_redundancy_channel -> rasta_redundancy_channel) : M sys unit :=
  modify (fun s => s <| chan ::= f |>).

(** ** Redundancy channel *)

(* rasta_redundancy_channel.c redundancy_channel_init *)
Definition redundancy_channel_init (c : rasta_redundancy_channel) : rasta_redundancy_channel :=
  c <| seq_rx := 0 |> <| seq_tx := 0 |> <| defer_q ::= deferqueue_clear |>
    <| diagnostics_packet_buffer ::= deferqueue_clear |>.

(* rasta_red_multiplexer.c redundancy_mux_init *)
Definition redundancy_mux_init : M sys unit := setch redundancy_channel_init.

(** The key of either hashing context, as [redundancy_channel_alloc] and
    [redundancy_mux_alloc] set it up. *)
(* rasta_redundancy_channel.c:75-92 redundancy_channel_alloc *)
Definition init_hashing_context (cfg : rasta_config_sending) : res rasta_hashing_context_t :=
  let ctx := mkHash (sr_hash_algorithm cfg) (md4_type cfg) [] in
  match sr_hash_algorithm cfg with
  | RASTA_ALGO_MD4 => rasta_md4_set_key ctx (md4_a cfg) (md4_b cfg) (md4_c cfg) (md4_d cfg)
  | _ => mret (ctx <| key := longToBytes2 (sr_hash_key cfg) |>)
  end.

Definition blank_channel : rasta_transport_channel :=
  mkChannel 0 false (mkFdEvent 0 0 false) [] 0 0 (mkDiagnostics 0 0 0 0 0) None.

(* rasta_redundancy_channel.c redundancy_channel_alloc *)
Definition redundancy_channel_alloc (config : rasta_config_info) : res rasta_redundancy_channel :=
  ctx ← init_hashing_context (sending config);
  mret (mkRedChannel (rasta_id_remote (general config)) 0 0
    (deferqueue_init (n_deferqueue_size (redundancy config)))
    (deferqueue_init (u32 (10 * n_deferqueue_size (redundancy config))))
    (imap (fun i d => transport_init blank_channel i (ip d) (u16 (port d)))
       (connections (redundancy_remote config)))
    (redundancy config) ctx).

(* rasta_redundancy_channel.c redundancy_channel_free *)
Definition redundancy_channel_free (c : rasta_redundancy_channel) : rasta_redundancy_channel :=
  c <| diagnostics_packet_buffer ::= deferqueue_destroy |> <| defer_q ::= deferqueue_destroy |>
    <| transport_channels := [] |> <| hashing_context ::= fun h => h <| key := [] |> |>.

Section Redundancy.
Context `{Transport}.

(** The socket's number selects the transport channel. *)
(* rasta_redundancy_channel.c rasta_red_connect_transport_channel *)
Definition rasta_red_connect_transport_channel (transport_socket : nat) : M sys bool :=
  so ← socket_at transport_socket;
  let i := Z.to_nat (so_id so) in
  _ ← transport_connect transport_socket i;
  c ← channel_at i;
  mret (connected c).

(* rasta_redundancy_channel.c:31-35 redundancy_channel_connect *)
Fixpoint connect_channels (n i : nat) (success : bool) : M sys bool :=
  match n with
  | O => mret success
  | S n => ok ← rasta_red_connect_transport_channel i; connect_channels n (S i) (success || ok)
  end.

(* rasta_redundancy_channel.c redundancy_channel_connect *)
Definition redundancy_channel_connect : M sys Z :=
  _ ← setch redundancy_channel_init;
  n ← gets (fun s => length (transport_channels (chan s)));
  success ← connect_channels n 0 false;
  mret (if success : bool then 0 else 1).

(** A channel that the transport has closed loses its socket's descriptor, at
    a client; [associated_socket] is followed without a test. *)
(* rasta_redundancy_channel.c:47-55 redundancy_channel_close *)
Definition close_channel (i : nat) : M sys unit :=
  _ ← transport_close_channel i;
  c ← channel_at i;
  r ← getc role;
  when (negb (connected c) && bool_decide (r = RASTA_ROLE_CLIENT))
    (match associated_socket c with
     | None => fail NullDeref
     | Some k => set_socket k (fun so => so <| so_file_descriptor := -1 |>)
     end).

(* rasta_redundancy_channel.c redundancy_channel_close *)
Definition redundancy_channel_close : M sys unit :=
  n ← gets (fun s => length (transport_channels (chan s)));
  for_up n 0 close_channel.

(** ** Sending *)

(* rasta_red_multiplexer.c:265-294 redundancy_mux_send *)
Definition send_on (data_to_send : list Z) (role : rasta_role) (i : nat) : M sys unit :=
  c ← channel_at i;
  if negb (connected c) then
    match role with
    | RASTA_ROLE_CLIENT =>
        r ← transport_redial i;
        if negb (r =? 0) then mret tt else send_callback data_to_send i
    | RASTA_ROLE_SERVER => mret tt
    end
  else send_callback data_to_send i.

(* rasta_red_multiplexer.c redundancy_mux_send *)
Definition redundancy_mux_send (data : RastaPacket) (role : rasta_role) : M sys unit :=
  s ← gets Datatypes.id;
  let packet := createRedundancyPacket (u32 (seq_tx (chan s))) data (crc_type (redundancy (config s))) in
  data_to_send ← with_module_error (fun err => rastaRedundancyPacketToBytes err packet (channel_context s));
  _ ← setch (fun c => c <| seq_tx := u64 (seq_tx c + 1) |>);
  for_up (length (transport_channels (chan s))) 0 (send_on data_to_send role).

(** ** Listening and closing *)

(* rasta_red_multiplexer.c redundancy_mux_listen_channels *)
Definition redundancy_mux_listen_channels : M sys unit :=
  n ← gets (fun s => length (transport_sockets (mux s)));
  for_up n 0 transport_listen.

(* rasta_red_multiplexer.c:223-227 redundancy_mux_bind *)
Fixpoint bind_sockets (n i : nat) (success : bool) : M sys bool :=
  match n with
  | O => mret success
  | S n =>
      ip_data ← gets (fun s => connections (redundancy (config s)) !! i);
      match ip_data with
      | None => fail OutOfBounds
      | Some d =>
          ok ← transport_bind i (ip d) (u16 (port d));
          bind_sockets n (S i) (success || ok)
      end
  end.
(* rasta_red_multiplexer.c redundancy_mux_bind *)
Definition redundancy_mux_bind : M sys bool :=
  n ← gets (fun s => length (transport_sockets (mux s)));
  bind_sockets n 0 false.

(* rasta_red_multiplexer.c redundancy_mux_close *)
Definition redundancy_mux_close : M sys unit :=
  n ← gets (fun s => length (transport_sockets (mux s)));
  _ ← for_up n 0 transport_close_socket;
  modify (fun s => s <| mux ::= fun m => m <| transport_sockets := [] |> <| listen_ports := [] |>
                          <| sr_hashing_context ::= fun h => h <| key := [] |> |> |>
                     <| chan ::= redundancy_channel_free |>).

End Redundancy.

(** ** Receiving *)

Definition setdiag (i : Z) (f : rasta_redundancy_diagnostics_data -> rasta_redundancy_diagnostics_data) :
    M sys unit :=
  if i <? 0 then fail OutOfBounds else set_channel (Z.to_nat i) (fun c => c <| diagnostics_data ::= f |>).

(* rastaredundancy.c:89-107 red_f_receiveData *)
Definition late_packet (packet_sn channel_id : Z) : M sys unit :=
  s ← gets Datatypes.id;
  let ts := deferqueue_get_ts (diagnostics_packet_buffer (chan s)) packet_sn in
  when (negb (ts =? 0))
    (now ← cur_timestamp_now;
     let delay := u64 (now - ts) in
     if t_seq (configuration_parameters (chan s)) <? delay
     then setdiag channel_id (fun d => d <| n_missed := s32 (n_missed d + 1) |>)
     else setdiag channel_id (fun d => d <| t_drift := u64 (t_drift d + delay) |>
                                         <| t_drift2 := u64 (t_drift2 d + u64 (delay * delay)) |>)).

(** The largest sequence number that is held back. *)
Definition defer_limit (c : rasta_redundancy_channel) : Z :=
  u64 (seq_rx c + u32 (n_deferqueue_size (configuration_parameters c) * 10)).

(* rastaredundancy.c red_f_receiveData *)
Definition red_f_receiveData (packet : RastaRedundancyPacket) (channel_id : Z) : M sys Z :=
  if rp_checksum_correct packet =? 0 then mret 0
  else
    _ ← setdiag channel_id (fun d => d <| received_packets := s32 (received_packets d + 1) |>);
    c ← gets chan;
    let packet_sn := rp_sequence_number packet in
    if (seq_rx c =? 0) && (seq_tx c =? 0) && negb (packet_sn =? 0) then mret 0
    else if packet_sn <? seq_rx c then _ ← late_packet packet_sn channel_id; mret 0
    else if packet_sn =? seq_rx c then
      now ← cur_timestamp_now;
      _ ← setch (fun c => c <| diagnostics_packet_buffer ::= fun q => (deferqueue_add q packet now).2 |>);
      now ← cur_timestamp_now;
      _ ← setch (fun c => c <| defer_q ::= fun q => (deferqueue_add q packet now).2 |>);
      mret 1
    else if (seq_rx c <? packet_sn) && (packet_sn <=? defer_limit c) then
      if deferqueue_contains (defer_q c) packet_sn then mret 0
      else if deferqueue_isfull (defer_q c) then mret 0
      else
        now ← cur_timestamp_now;
        _ ← setch (fun c => c <| defer_q ::= fun q => (deferqueue_add q packet now).2 |>);
        mret 0
    else mret 0.

(** The hashing context is copied, the struct is on the caller's stack. *)
(* rasta_red_multiplexer.c handle_received_data *)
Definition handle_received_data (buffer : list Z) : M sys RastaRedundancyPacket :=
  s ← gets Datatypes.id;
  with_module_error (fun err => bytesToRastaRedundancyPacket err buffer (crc_type (redundancy (config s)))
    (mux_context s) (mkRedPacket 0 0 0 (garbage (env s)) 0 crc_init_opt_a)).

(** [len_remaining] is unsigned: a packet size beyond it wraps around, and the
    loop goes on. *)
(* rasta_red_multiplexer.c:79-107 receive_packet *)
Fixpoint receive_loop (fuel : nat) (channel_id : Z) (buffer : list Z) (read_offset len_remaining result : Z) :
    M sys Z :=
  if 0 <? len_remaining then
    match fuel with
    | O => fail OutOfFuel
    | S fuel =>
        size ← lift (read_at buffer read_offset 2);
        let currentPacketSize := leShortToHost size in
        data ← lift (read_at buffer read_offset currentPacketSize);
        receivedPacket ← handle_received_data data;
        c ← gets chan;
        r ← (if negb (associated_id c =? p_sender_id (rp_data receivedPacket)) then mret 0
             else if deferqueue_isfull (defer_q c) then mret 0
             else red_f_receiveData receivedPacket channel_id);
        receive_loop fuel channel_id buffer (read_offset + currentPacketSize)
          (u64 (len_remaining - currentPacketSize)) (Z.lor result r)
    end
  else mret result.

(* rasta_red_multiplexer.c receive_packet *)
Definition receive_packet (channel_id : Z) (buffer : list Z) (len : Z) : M sys Z :=
  receive_loop (S (length buffer)) channel_id buffer 0 len 0.

(* rasta_red_multiplexer.c channel_timeout_event *)
Definition channel_timeout_event : M sys Z := mret 1.

(** The difference with the channel's start time is unsigned; [n_diagnose] is
    converted. *)
(* diagnostics.c run_channel_diagnostics *)
Definition run_channel_diagnostics (i : Z) : M sys unit :=
  s ← gets Datatypes.id;
  _ ← (if i <? 0 then fail OutOfBounds else mret tt);
  c ← channel_at (Z.to_nat i);
  now ← cur_timestamp_now;
  when (u64 (n_diagnose (redundancy (config s))) <=? u64 (now - start_time (diagnostics_data c)))
    (let missed_count := s32 (count (diagnostics_packet_buffer (chan s)) - received_packets (diagnostics_data c)) in
     _ ← setdiag i (fun d => d <| n_missed := s32 (n_missed d + missed_count) |>);
     now ← cur_timestamp_now;
     _ ← setdiag i (fun _ => mkDiagnostics now 0 0 0 0);
     setch (fun c => c <| diagnostics_packet_buffer ::= deferqueue_clear |>)).

(** ** Delivery *)

(** The safety and retransmission layer, as seen from here. *)
Class UpperLayer := { upper_receive : RastaPacket -> M sys Z }.

Section Delivery.
Context `{UpperLayer}.

(* rastaredundancy.c _deliver_message_to_upper_layer *)
Definition deliver_message_to_upper_layer (message : list Z) : M sys Z :=
  packet ← parse_packet message channel_context;
  upper_receive packet.

(* rastaredundancy.c:31-52 red_f_deliverDeferQueue *)
Fixpoint deliver_loop (fuel : nat) (result : Z) : M sys Z :=
  c ← gets chan;
  if deferqueue_contains (defer_q c) (seq_rx c) then
    match fuel with
    | O => fail OutOfFuel
    | S fuel =>
        let queuePacket := deferqueue_get (defer_q c) (seq_rx c) in
        innerPacketBytes ← serialise_packet (rp_data queuePacket) channel_context;
        r ← deliver_message_to_upper_layer innerPacketBytes;
        _ ← setch (fun c => c <| defer_q ::= fun q => deferqueue_remove q (seq_rx c) |>);
        _ ← setch (fun c => c <| seq_rx := u64 (seq_rx c + 1) |>);
        deliver_loop fuel (Z.lor result r)
    end
  else mret result.

(* rastaredundancy.c red_f_deliverDeferQueue *)
Definition red_f_deliverDeferQueue : M sys Z :=
  c ← gets chan;
  deliver_loop (S (length (elements (defer_q c)))) 0.

(** Nobody calls this function. *)
(* rastaredundancy.c red_f_deferTmo *)
Definition red_f_deferTmo : M sys Z :=
  c ← gets chan;
  smallest_index ← lift (deferqueue_smallest_seqnr (defer_q c));
  match ((Some <$> elements (defer_q c)) ++ slots (defer_q c)) !! Z.to_nat smallest_index with
  | None => fail OutOfBounds
  | Some None => fail Uninitialised
  | Some (Some w) =>
      _ ← setch (fun c => c <| seq_rx := w_sn w |>);
      red_f_deliverDeferQueue
  end.
End Delivery.

(** ** What an upper layer sees of sending *)

(** Everything above the transports except the connection, the send counter, the
    factory error (which is never read) and the time. *)
Record lower_frame (s s' : sys) : Prop := {
  lf_config : config s' = config s;
  lf_module_error : rastamodule_lasterror s' = rastamodule_lasterror s;
  lf_chan : chan s' = (chan s) <| seq_tx := seq_tx (chan s') |>
                               <| transport_channels := transport_channels (chan s') |>;
  lf_mux : mux s' = (mux s) <| transport_sockets := transport_sockets (mux s') |>;
  lf_diagnostics : diagnostics_data <$> transport_channels (chan s') = diagnostics_data <$> transport_channels (chan s);
  lf_ids : id <$> transport_channels (chan s') = id <$> transport_channels (chan s);
  lf_sockets : so_id <$> transport_sockets (mux s') = so_id <$> transport_sockets (mux s);
  lf_attachment : attachment s' = attachment s;
  lf_clock : clock (env s') = clock (env s);
  lf_outcome : outcome (env s') = outcome (env s);
  lf_inbox : inbox (env s') = inbox (env s);
  lf_garbage : garbage (env s') = garbage (env s)
}.

(** Some transport channel is connected. *)
Definition online (s : sys) : Prop := Exists (fun c => connected c = true) (transport_channels (chan s)).

(** The datagrams carry these byte strings in this order, each at least once. *)
Definition carries (l : list datagram) (bs : list (list Z)) : Prop :=
  exists groups, l = concat groups /\
    Forall2 (fun g b => g <> [] /\ Forall (fun d => out_data d = b) g) groups bs.

(** The redundancy frames of packets sent one after the other. *)
Fixpoint wires_from (s : sys) (tx : Z) (pks : list RastaPacket) : list (list Z) :=
  match pks with
  | [] => []
  | pk :: pks =>
      red_wire (channel_context s) (createRedundancyPacket (u32 tx) pk (crc_type (redundancy (config s))))
      :: wires_from s (u64 (tx + 1)) pks
  end.
Definition wires (s : sys) (pks : list RastaPacket) : list (list Z) := wires_from s (seq_tx (chan s)) pks.

Definition advance (tx : Z) {A} (pks : list A) : Z := foldl (fun tx _ => u64 (tx + 1)) tx pks.

(** A packet that can be sent: frame and packet fit their length fields, and what
    goes to the application is a sequence of messages. *)
Definition sendable (s : sys) (pk : RastaPacket) : Prop :=
  packet_wf (channel_context s) pk /\
  8 + p_length pk + crc_bytes (crc_type (redundancy (config s))) <= 65535 /\
  (p_type pk = RASTA_TYPE_DATA \/ p_type pk = RASTA_TYPE_RETRDATA -> exists msgs, p_data pk = encode msgs).

(** Exactly these packets were sent, in this order, and nothing else changed
    below the connection. *)
Record sent (s s' : sys) (pks : list RastaPacket) : Prop := {
  sent_frame : lower_frame s s';
  sent_tx : seq_tx (chan s') = advance (seq_tx (chan s)) pks;
  sent_sendable : Forall (sendable s) pks;
  sent_trace : exists l, trace (env s') = trace (env s) ++ l /\ Forall (fun d => out_data d ∈ wires s pks) l /\
    (online s -> carries l (wires s pks))
}.

(** The frame of some packet that can be sent. *)
Definition spoken (s : sys) (bytes : list Z) : Prop :=
  exists tx pk, sendable s pk /\
    bytes = red_wire (channel_context s) (createRedundancyPacket (u32 tx) pk (crc_type (redundancy (config s)))).

(** Below the connection nothing but sending happened, and all that was sent are
    such frames. *)
Record spoke (s s' : sys) : Prop := {
  sk_frame : lower_frame s s';
  sk_trace : exists l, trace (env s') = trace (env s) ++ l /\ Forall (fun d => spoken s (out_data d)) l
}.

(** The hypotheses under which sending works. *)
Record link_ok (s : sys) : Prop := {
  lk_hash : HashOk (channel_context s);
  lk_mux : mux_context s = channel_context s;
  lk_error : rastamodule_lasterror s = RASTA_ERRORS_NONE;
  lk_crc : crc_fits (crc_type (redundancy (config s)));
  lk_net : net_good (env s)
}.

(** At a client, every channel is attached. *)
Definition role_ok (s : sys) (r : rasta_role) : Prop :=
  r = RASTA_ROLE_CLIENT -> forall i, (i < length (transport_channels (chan s)))%nat -> attached s i.

Lemma lower_frame_refl s : lower_frame s s.
Proof. by split; destruct s as [? [] [] ? ? ? ?]. Qed.

Lemma lower_frame_trans s1 s2 s3 : lower_frame s1 s2 -> lower_frame s2 s3 -> lower_frame s1 s3.
Proof.
  intros [] []. split; try (etrans; eassumption).
  - rewrite lf_chan1, lf_chan0. by destruct (chan s1).
  - rewrite lf_mux1, lf_mux0. by destruct (mux s1).
Qed.
#[export] Instance lower_frame_preorder : PreOrder lower_frame.
Proof. split; [exact lower_frame_refl|exact lower_frame_trans]. Qed.

Lemma net_lower s s' : net_frame s s' -> attachment s' = attachment s -> lower_frame s s'.
Proof.
  intros [] ?. split; try done. rewrite nf_chan. by destruct (chan s).
Qed.

Lemma lf_context s s' : lower_frame s s' -> channel_context s' = channel_context s.
Proof. intros H. unfold channel_context. by rewrite (lf_chan _ _ H). Qed.

Lemma link_ok_frame s s' : lower_frame s s' -> link_ok s -> link_ok s'.
Proof.
  intros Hf [? Hm ? ? ?]. pose proof (lf_context _ _ Hf) as Hc. split.
  - by rewrite Hc.
  - rewrite Hc, <- Hm. unfold mux_context. by rewrite (lf_mux _ _ Hf).
  - by rewrite (lf_module_error _ _ Hf).
  - by rewrite (lf_config _ _ Hf).
  - destruct lk_net0. by split; rewrite (lf_outcome _ _ Hf).
Qed.

Lemma lf_length s s' : lower_frame s s' ->
  length (transport_channels (chan s')) = length (transport_channels (chan s)).
Proof. intros Hf%lf_diagnostics. apply (f_equal length) in Hf. by rewrite !length_fmap in Hf. Qed.

Lemma attached_frame s s' i : lower_frame s s' -> attached s i -> attached s' i.
Proof.
  intros Hf (j & so & ? & ? & ?). exists j, so.
  by rewrite (lf_attachment _ _ Hf), (lf_sockets _ _ Hf), (lf_config _ _ Hf).
Qed.

Lemma role_ok_frame s s' r : lower_frame s s' -> role_ok s r -> role_ok s' r.
Proof.
  intros Hf Hr E i Hi. apply (attached_frame _ _ _ Hf), Hr; [done|]. by rewrite <- (lf_length _ _ Hf).
Qed.

Lemma sendable_frame s s' pk : lower_frame s s' -> sendable s pk -> sendable s' pk.
Proof. intros Hf. unfold sendable. by rewrite (lf_context _ _ Hf), (lf_config _ _ Hf). Qed.

Lemma wires_from_frame s s' tx pks : lower_frame s s' -> wires_from s' tx pks = wires_from s tx pks.
Proof.
  intros Hf. revert tx. induction pks as [|pk pks IH]; intros tx; cbn [wires_from]; [done|].
  by rewrite IH, (lf_context _ _ Hf), (lf_config _ _ Hf).
Qed.

Lemma wires_from_app s tx p q : wires_from s tx (p ++ q) = wires_from s tx p ++ wires_from s (advance tx p) q.
Proof.
  revert tx. induction p as [|x p IH]; intros tx; cbn [app wires_from advance foldl]; [done|].
  by rewrite IH.
Qed.

Lemma carries_app l l' b b' : carries l b -> carries l' b' -> carries (l ++ l') (b ++ b').
Proof.
  intros (g & -> & Hg) (g' & -> & Hg'). exists (g ++ g'). rewrite concat_app. split; [done|].
  by apply Forall2_app.
Qed.

(** States that differ only above. *)
Lemma sent_nil s s' : lower_frame s s' -> seq_tx (chan s') = seq_tx (chan s) ->
  trace (env s') = trace (env s) -> sent s s' [].
Proof.
  intros Hf Ht Hr. split; [done|done|done|]. exists []. split; [by rewrite app_nil_r|]. split; [done|]. intros _. by exists [].
Qed.

Lemma Forall_sendable_frame s s' pks : lower_frame s s' -> Forall (sendable s') pks -> Forall (sendable s) pks.
Proof.
  intros Hf Hp. eapply Forall_impl; [exact Hp|]. intros pk. unfold sendable. by rewrite (lf_context _ _ Hf), (lf_config _ _ Hf).
Qed.

Lemma sent_trans s1 s2 s3 p q : sent s1 s2 p -> (online s1 -> online s2) -> sent s2 s3 q -> sent s1 s3 (p ++ q).
Proof.
  intros [F1 T1 S1 (l1 & R1 & W1 & C1)] Ho [F2 T2 S2 (l2 & R2 & W2 & C2)]. split.
  - by etrans.
  - rewrite T2, T1. unfold advance. by rewrite foldl_app.
  - apply Forall_app. split; [done|by eapply Forall_sendable_frame].
  - exists (l1 ++ l2). rewrite R2, R1, app_assoc. split; [done|]. unfold wires in *. rewrite wires_from_app.
    rewrite (wires_from_frame _ _ _ _ F1), T1 in C2, W2. split.
    + apply Forall_app. split; (eapply Forall_impl; [eassumption|]); cbn; intros d Hd; apply elem_of_app; auto.
    + intros Hon. apply carries_app; [by apply C1|]. by apply C2, Ho.
Qed.

Lemma wires_spoken s pks : forall tx, Forall (sendable s) pks -> Forall (spoken s) (wires_from s tx pks).
Proof.
  induction pks as [|pk pks IH]; intros tx Hs; cbn [wires_from]; [done|].
  apply Forall_cons in Hs as [Hp Hs]. constructor; [by exists tx, pk|by apply IH].
Qed.

Lemma sent_spoke s s' pks : sent s s' pks -> spoke s s'.
Proof.
  intros [F _ S (l & R & W & _)]. split; [done|]. exists l. split; [done|].
  eapply Forall_impl; [exact W|]. cbn. intros d Hd. pose proof (wires_spoken s pks (seq_tx (chan s)) S) as Hw.
  rewrite Forall_forall in Hw. by apply Hw.
Qed.

Lemma spoken_frame s s' bs : lower_frame s s' -> spoken s' bs -> spoken s bs.
Proof.
  intros F. unfold spoken, sendable. rewrite (lf_context _ _ F), (lf_config _ _ F). done.
Qed.

Lemma spoke_quiet s s' : lower_frame s s' -> trace (env s') = trace (env s) -> spoke s s'.
Proof. intros F R. split; [done|]. exists []. by rewrite app_nil_r. Qed.
Lemma spoke_refl s : spoke s s.
Proof. by apply spoke_quiet. Qed.
Lemma spoke_trans s1 s2 s3 : spoke s1 s2 -> spoke s2 s3 -> spoke s1 s3.
Proof.
  intros [F1 (l1 & R1 & W1)] [F2 (l2 & R2 & W2)]. split; [by etrans|]. exists (l1 ++ l2).
  rewrite R2, R1, app_assoc. split; [done|]. apply Forall_app. split; [done|].
  eapply Forall_impl; [exact W2|]. cbn. intros d. by apply spoken_frame.
Qed.
#[export] Instance spoke_preorder : PreOrder spoke.
Proof. split; [exact spoke_refl|exact spoke_trans]. Qed.

Section Sending.
Context `{TransportOk}.

(** The loop over the channels: all datagrams carry the data, and there is one
    as soon as a connected channel has been passed. *)
Record broadcasting (data : list Z) (s : sys) (i : nat) (s' : sys) : Prop := {
  sg_frame : lower_frame s s';
  sg_conn : conn s' = conn s;
  sg_ticks : ticks (env s') = ticks (env s);
  sg_tx : seq_tx (chan s') = seq_tx (chan s);
  sg_keep : forall j c, transport_channels (chan s) !! j = Some c -> connected c = true ->
    transport_channels (chan s') !! j = Some c;
  sg_todo : forall j, (i <= j)%nat -> transport_channels (chan s') !! j = transport_channels (chan s) !! j;
  sg_trace : exists l, trace (env s') = trace (env s) ++ l /\ Forall (fun d => out_data d = data) l /\
    (Exists (fun c => connected c = true) (take i (transport_channels (chan s))) -> l <> [])
}.

Lemma sending_skip data s i s' s1 c : broadcasting data s i s' -> transport_channels (chan s) !! i = Some c ->
  connected c = false -> net_frame s' s1 -> attachment s1 = attachment s' -> trace (env s1) = trace (env s') ->
  (forall j, j <> i -> transport_channels (chan s1) !! j = transport_channels (chan s') !! j) ->
  broadcasting data s (S i) s1.
Proof.
  intros [F Cn Ti Tx K T (l & R & D & N)] Hc Hoff Hf Ha Hr Ho. split.
  - etrans; [done|]. by apply net_lower.
  - by rewrite (nf_conn _ _ Hf).
  - by rewrite (nf_ticks _ _ Hf).
  - by rewrite (nf_chan _ _ Hf).
  - intros j c' Hj Hon. rewrite Ho by congruence. by apply K.
  - intros j Hj. rewrite Ho by lia. apply T. lia.
  - exists l. split; [by rewrite Hr|]. split; [done|]. intros He. apply N. erewrite take_S_r in He by done.
    apply Exists_app in He as [He|He]; [done|]. inversion He as [? ? Hx|? ? Hx]; subst; [congruence|inversion Hx].
Qed.

Lemma sending_sent data s i k s' s'' d : broadcasting data s i s' -> net_frame s' s'' -> (i <= k)%nat ->
  transport_channels (chan s'') = transport_channels (chan s') -> out_data d = data ->
  trace (env s'') = trace (env s') ++ [d] -> broadcasting data s k s''.
Proof.
  intros [F Cn Ti Tx K T (l & R & D & N)] Hf Hk Hc Hd Hr. split.
  - etrans; [done|]. apply net_lower; [done|]. unfold attachment. by rewrite Hc.
  - by rewrite (nf_conn _ _ Hf).
  - by rewrite (nf_ticks _ _ Hf).
  - by rewrite (nf_chan _ _ Hf).
  - by rewrite Hc.
  - intros j Hj. rewrite Hc. apply T. lia.
  - exists (l ++ [d]). rewrite Hr, R, app_assoc. split; [done|]. split; [|by destruct l].
    apply Forall_app. split; [done|by constructor].
Qed.

Lemma frame_good s s' : lower_frame s s' -> net_good (env s) -> net_good (env s').
Proof. intros F []. by split; rewrite (lf_outcome _ _ F). Qed.

Lemma sending_callback data s i k s' : net_good (env s) -> (i <= k)%nat ->
  (k <= S i)%nat -> (i < length (transport_channels (chan s)))%nat -> broadcasting data s k s' ->
  wp (send_callback data i) (fun _ => broadcasting data s (S i)) s'.
Proof.
  intros Hg Hk Hk' Hi Hs. pose proof (sg_frame _ _ _ _ Hs) as F.
  eapply wp_mono; [apply send_ok; [by eapply frame_good|by rewrite (lf_length _ _ F)]|].
  intros _ s'' (H1 & C1 & d & D1 & R1). by eapply sending_sent.
Qed.

Lemma sending_step data r i s s' : net_good (env s) -> role_ok s r ->
  (i < length (transport_channels (chan s)))%nat -> broadcasting data s i s' ->
  wp (send_on data r i) (fun _ => broadcasting data s (S i)) s'.
Proof.
  intros Hg Hr Hi Hs. pose proof (sg_frame _ _ _ _ Hs) as F.
  destruct (lookup_lt_is_Some_2 _ _ Hi) as [c Hc].
  assert (Hc' : transport_channels (chan s') !! i = Some c) by (rewrite (sg_todo _ _ _ _ Hs) by lia; done).
  unfold send_on. apply wp_bind. eapply wp_channel_at; [done|]. destruct (connected c) eqn:Ec; cbn [negb].
  { by apply (sending_callback _ _ _ i); try lia. }
  destruct r.
  2:{ apply wp_ret. by eapply (sending_skip _ _ _ s'). }
  apply wp_bind. eapply wp_mono.
  { apply redial_ok; [by eapply frame_good|]. apply (attached_frame _ _ _ F), Hr; [done|done]. }
  intros r s1 (H1 & A1 & R1 & K1). assert (Hs1 : broadcasting data s (S i) s1) by by eapply sending_skip.
  case_if; [by apply wp_ret|]. by apply (sending_callback _ _ _ (S i)); try lia.
Qed.

Lemma createRedundancyPacket_wf s pk : crc_fits (crc_type (redundancy (config s))) -> sendable s pk -> forall tx,
  red_packet_wf (channel_context s) (createRedundancyPacket (u32 tx) pk (crc_type (redundancy (config s)))).
Proof.
  intros Hcrc (Hwf & Hl & _) tx. pose proof (crc_bytes_range _ Hcrc). pose proof (wf_length _ _ Hwf).
  pose proof (zlen_nonneg (p_data pk)). pose proof (checksum_len_range (channel_context s)).
  unfold createRedundancyPacket. fold (crc_bytes (crc_type (redundancy (config s)))).
  split; cbn; try done; try apply u32_range; rewrite ?u16_small; unfold is_u16; try lia; done.
Qed.

(** Sending one packet. *)
Lemma redundancy_mux_send_ok s pk r : link_ok s -> role_ok s r -> sendable s pk ->
  wp (redundancy_mux_send pk r) (fun _ s' => sent s s' [pk] /\ conn s' = conn s /\
    ticks (env s') = ticks (env s) /\ (online s -> online s')) s.
Proof.
  intros Hl Hr Hs. unfold redundancy_mux_send. apply wp_bind, wp_gets.
  unfold with_module_error, Datatypes.id.
  set (bytes := red_wire (channel_context s)
    (createRedundancyPacket (u32 (seq_tx (chan s))) pk (crc_type (redundancy (config s))))).
  assert (E : wp (for_up (length (transport_channels (chan s))) 0 (send_on bytes r))
    (fun _ => broadcasting bytes (s <| chan ::= fun c => c <| seq_tx := u64 (seq_tx c + 1) |> |>)
      (length (transport_channels (chan s))))
    (s <| chan ::= fun c => c <| seq_tx := u64 (seq_tx c + 1) |> |>)).
  { set (s0 := s <| chan ::= _ |>). apply (for_up_inv _ 0).
    - split; try done. exists []. rewrite app_nil_r. split; [done|]. split; [done|]. inversion 1.
    - intros i s' Hi. apply sending_step; [apply Hl|exact Hr|unfold s0; fields; lia]. }
  apply wp_ok in E as (u & s' & E & [F Cn Ti Tx K T (l & R & D & N)]).
  apply wp_ok. exists u, s'. split.
  { unfold mbind, M_bind. rewrite (lk_error _ Hl), rastaRedundancyPacketToBytes_ok.
    - unfold setch, modify. rewrite <- (lk_error _ Hl). fields. destruct s. exact E.
    - apply Hl.
    - apply createRedundancyPacket_wf; [apply Hl|done]. }
  split; [|split; [done|split; [done|]]].
  - split.
    + destruct F. split; try done.
    + by rewrite Tx.
    + by constructor.
    + exists l. split; [done|]. split.
      { eapply Forall_impl; [exact D|]. cbn. intros d ->. unfold wires. cbn [wires_from]. by left. }
      intros Ho. unfold wires. cbn [wires_from].
      exists [l]. split; [cbn; by rewrite app_nil_r|]. constructor; [|constructor]. split; [|done].
      apply N. fields. by rewrite firstn_all.
  - unfold online. rewrite !Exists_exists. intros (c & Hc & Hon).
    apply list_elem_of_lookup in Hc as [j Hj]. exists c. split; [|done].
    apply (list_elem_of_lookup_2 _ j), K; done.
Qed.

(** Closing all transport channels. *)
Lemma redundancy_channel_close_ok s : net_good (env s) -> role_ok s (role (conn s)) ->
  wp redundancy_channel_close (fun _ s' => sent s s' [] /\ conn s' = conn s /\ ticks (env s') = ticks (env s)) s.
Proof.
  intros Hg Hr. unfold redundancy_channel_close. apply wp_bind, wp_gets.
  set (I := fun (_ : nat) s' => lower_frame s s' /\ conn s' = conn s /\ ticks (env s') = ticks (env s) /\
    seq_tx (chan s') = seq_tx (chan s) /\ trace (env s') = trace (env s)).
  eapply wp_mono; [apply (for_up_inv _ 0 _ I); [done|]|].
  - intros i s1 Hi (F & C1 & T1 & X1 & R1). unfold close_channel. apply wp_bind.
    eapply wp_mono; [apply close_ok; [by eapply frame_good|rewrite (lf_length _ _ F); lia]|].
    intros _ s2 (F2 & A2 & R2). assert (F' : lower_frame s s2) by (etrans; [done|by apply net_lower]).
    assert (I2 : I (S i) s2).
    { split; [done|]. rewrite (nf_conn _ _ F2), (nf_ticks _ _ F2), (nf_chan _ _ F2), R2. by fields. }
    destruct (lookup_lt_is_Some_2 (transport_channels (chan s2)) i) as [c Hc];
      [rewrite (lf_length _ _ F'); lia|].
    apply wp_bind. eapply wp_channel_at; [done|]. apply wp_bind, wp_gets. unfold when.
    rewrite (nf_conn _ _ F2), C1. case_bool_decide as Er; [|rewrite andb_false_r; by apply wp_ret].
    destruct (connected c); [by apply wp_ret|].
    destruct (attached_frame _ _ _ F' (Hr Er i ltac:(lia))) as (j & so & Ha & Hj & _).
    unfold attachment in Ha. rewrite list_lookup_fmap, Hc in Ha. cbn in Ha. injection Ha as ->.
    apply list_lookup_fmap_Some in Hj as (so' & _ & Hj). cbn [negb andb].
    apply wp_set_socket; [by eapply lookup_lt_Some|]. destruct I2 as (G1 & G2 & G3 & G4 & G5).
    split; [|done]. etrans; [exact G1|]. apply net_lower; [by apply net_frame_socket|done].
  - intros _ s' (F & C1 & T1 & X1 & R1). split; [by apply sent_nil|done].
Qed.
End Sending.

(** ** Receiving a redundancy packet *)

Definition has_channel (s : sys) (i : Z) : Prop := 0 <= i < zlen (transport_channels (chan s)).

(** Equal but for the diagnostics, the defer queue and the time. *)
Record received_frame (s s' : sys) : Prop := {
  rf_conn : conn s' = conn s;
  rf_config : config s' = config s;
  rf_mux : mux s' = mux s;
  rf_factory_error : rastafactory_lasterror s' = rastafactory_lasterror s;
  rf_chan : chan s' = (chan s) <| defer_q := defer_q (chan s') |>
    <| diagnostics_packet_buffer := diagnostics_packet_buffer (chan s') |>
    <| transport_channels := transport_channels (chan s') |>;
  rf_channels : (fun c => c <| diagnostics_data := mkDiagnostics 0 0 0 0 0 |>) <$> transport_channels (chan s') =
    (fun c => c <| diagnostics_data := mkDiagnostics 0 0 0 0 0 |>) <$> transport_channels (chan s);
  rf_env : env s' = (env s) <| ticks := ticks (env s') |>
}.

Lemma received_frame_refl s : received_frame s s.
Proof. by split; destruct s as [? [] [] ? ? ? []]. Qed.
Lemma received_frame_trans s1 s2 s3 : received_frame s1 s2 -> received_frame s2 s3 -> received_frame s1 s3.
Proof.
  intros [] []. split; try (etrans; eassumption).
  - rewrite rf_chan1, rf_chan0. by destruct (chan s1).
  - rewrite rf_env1, rf_env0. by destruct (env s1).
Qed.
#[export] Instance received_frame_preorder : PreOrder received_frame.
Proof. split; [exact received_frame_refl|exact received_frame_trans]. Qed.

Lemma received_frame_length s s' : received_frame s s' ->
  length (transport_channels (chan s')) = length (transport_channels (chan s)).
Proof. intros Hf%rf_channels. apply (f_equal length) in Hf. by rewrite !length_fmap in Hf. Qed.

Lemma wp_setdiag i f s Q : has_channel s i ->
  (forall s', received_frame s s' -> rastamodule_lasterror s' = rastamodule_lasterror s ->
    defer_q (chan s') = defer_q (chan s) -> Q tt s') -> wp (setdiag i f) Q s.
Proof.
  intros Hi HQ. unfold setdiag, has_channel, zlen in *. ztests. apply wp_set_channel; [lia|].
  apply HQ; [|done|done]. split; fields; try done; try by destruct s as [? [] [] ? ? ? []].
  by apply fmap_alter_id.
Qed.

Lemma wp_timestamp s Q : (forall now, is_u32 now -> Q now (s <| env ::= fun w => w <| ticks ::= S |> |>)) ->
  wp cur_timestamp_now Q s.
Proof. intros HQ. apply HQ, u32_range. Qed.

Lemma wp_gets' {A} (f : sys -> A) Q s : Q (f s) s -> wp (gets f) Q s. Proof. done. Qed.

Lemma received_frame_tick s : received_frame s (s <| env ::= fun w => w <| ticks ::= S |> |>).
Proof. by split; fields; try done; destruct s as [? [] [] ? ? ? []]. Qed.
Lemma received_frame_defer s f : received_frame s (s <| chan ::= fun c => c <| defer_q ::= f |> |>).
Proof. by split; fields; try done; destruct s as [? [] [] ? ? ? []]. Qed.
Lemma received_frame_diag s f :
  received_frame s (s <| chan ::= fun c => c <| diagnostics_packet_buffer ::= f |> |>).
Proof. by split; fields; try done; destruct s as [? [] [] ? ? ? []]. Qed.

Lemma wp_late sn i s Q : has_channel s i ->
  (forall s', received_frame s s' -> rastamodule_lasterror s' = rastamodule_lasterror s ->
    defer_q (chan s') = defer_q (chan s) -> Q tt s') -> wp (late_packet sn i) Q s.
Proof.
  intros Hi HQ. unfold late_packet. apply wp_bind, wp_gets. unfold when.
  case_if; [|apply wp_ret, HQ; done || apply received_frame_refl].
  apply wp_bind, wp_timestamp. intros now Hn. 
  case_if; (apply wp_setdiag; [done|]; intros s' F E D; apply HQ; [|done|done];
    (etrans; [apply received_frame_tick|done])).
Qed.

(** Whether the packet is one the channel looks at. *)
Definition admissible (c : rasta_redundancy_channel) (p : RastaRedundancyPacket) : bool :=
  negb (rp_checksum_correct p =? 0) &&
  negb ((seq_rx c =? 0) && (seq_tx c =? 0) && negb (rp_sequence_number p =? 0)).

(** Whether it goes into the defer queue. *)
Definition stored (c : rasta_redundancy_channel) (p : RastaRedundancyPacket) : bool :=
  let sn := rp_sequence_number p in
  admissible c p && negb (deferqueue_isfull (defer_q c)) &&
  ((sn =? seq_rx c) || ((seq_rx c <? sn) && (sn <=? defer_limit c) && negb (deferqueue_contains (defer_q c) sn))).

Lemma deferqueue_add_elements q p now :
  (deferqueue_add q p now).2 =
  if deferqueue_isfull q then q
  else q <| elements := sort (elements q ++ [mkWrapper p now]) |> <| slots ::= drop 1 |>.
Proof. unfold deferqueue_add, deferqueue_isfull. by case_if. Qed.

Lemma red_f_receiveData_ok s p i : has_channel s i ->
  wp (red_f_receiveData p i) (fun r s' =>
    received_frame s s' /\ rastamodule_lasterror s' = rastamodule_lasterror s /\
    r = (if admissible (chan s) p && (rp_sequence_number p =? seq_rx (chan s)) then 1 else 0) /\
    exists now, defer_q (chan s') =
      if stored (chan s) p then (deferqueue_add (defer_q (chan s)) p now).2 else defer_q (chan s)) s.
Proof.
  intros Hi. unfold red_f_receiveData, stored, admissible.
  destruct (rp_checksum_correct p =? 0); [by apply wp_ret; split_and!; [apply received_frame_refl|..|exists 0]|].
  cbn [negb andb].
  apply wp_bind, wp_setdiag; [done|]. intros s1 F1 E1 D1. apply wp_bind, wp_gets.
  assert (Hi1 : has_channel s1 i) by (unfold has_channel, zlen; by rewrite (received_frame_length _ _ F1)).
  assert (Ec : seq_rx (chan s1) = seq_rx (chan s) /\ seq_tx (chan s1) = seq_tx (chan s) /\
    defer_limit (chan s1) = defer_limit (chan s)).
  { unfold defer_limit. by rewrite (rf_chan _ _ F1). }
  destruct Ec as (-> & -> & ->). cbv zeta.
  set (sn := rp_sequence_number p). set (rx := seq_rx (chan s)).
  destruct ((rx =? 0) && (seq_tx (chan s) =? 0) && negb (sn =? 0)) eqn:Efirst; cbn [negb andb].
  { apply wp_ret. split; [done|]. split; [done|]. split; [done|]. by exists 0. }
  destruct (sn <? rx) eqn:Elt.
  { zbool. apply wp_bind, wp_late; [done|]. intros s2 F2 E2 D2. apply wp_ret. ztests.
    split; [by etrans|]. split; [by rewrite E2|]. split; [done|]. exists 0. rewrite andb_false_r. by rewrite D2. }
  destruct (sn =? rx) eqn:Eeq; cbn [orb].
  { apply wp_bind, wp_timestamp. intros t1 _. apply wp_bind, wp_modify, wp_bind, wp_timestamp. intros t2 _.
    apply wp_bind, wp_modify, wp_ret. split; [|split; [done|split; [done|]]].
    - etrans; [exact F1|]. etrans; [apply received_frame_tick|]. etrans; [apply received_frame_diag|].
      etrans; [apply received_frame_tick|]. apply received_frame_defer.
    - exists t2. fields. rewrite D1, andb_true_r, deferqueue_add_elements. by destruct (deferqueue_isfull _). }
  rewrite D1. destruct ((rx <? sn) && (sn <=? defer_limit (chan s))) eqn:Ein; cbn [andb].
  2:{ apply wp_ret. rewrite andb_false_r. split; [done|]. split; [done|]. split; [done|]. by exists 0. }
  destruct (deferqueue_contains (defer_q (chan s)) sn) eqn:Econt; cbn [negb].
  { apply wp_ret. rewrite andb_false_r. split; [done|]. split; [done|]. split; [done|]. by exists 0. }
  destruct (deferqueue_isfull (defer_q (chan s))) eqn:Efull; cbn [negb andb].
  { apply wp_ret. split; [done|]. split; [done|]. split; [done|]. by exists 0. }
  apply wp_bind, wp_timestamp. intros t1 _. apply wp_bind, wp_modify, wp_ret.
  split; [|split; [done|split; [done|]]].
  - etrans; [exact F1|]. etrans; [apply received_frame_tick|]. apply received_frame_defer.
  - exists t1. fields. by rewrite D1.
Qed.

(** C28. A redundancy packet with a wrong checksum, one that is not the first of
    a fresh channel, one below [seq_rx] or beyond the defer window, and one that
    is already held back change nothing but diagnostics; any other one is added
    to the defer queue if there is room.  The result is 1 exactly for the packet
    that is due, and neither counter of the channel moves. *)
Theorem red_f_receiveData_spec s p i : has_channel s i -> defer_ok (defer_q (chan s)) ->
  exists r s', red_f_receiveData p i s = Ok (r, s') /\
    received_frame s s' /\ defer_ok (defer_q (chan s')) /\
    (r = 1 <-> admissible (chan s) p = true /\ rp_sequence_number p = seq_rx (chan s)) /\
    (stored (chan s) p = false -> defer_q (chan s') = defer_q (chan s)) /\
    (stored (chan s) p = true -> exists now,
       elements (defer_q (chan s')) ≡ₚ mkWrapper p now :: elements (defer_q (chan s))).
Proof.
  intros Hi Hq. pose proof (red_f_receiveData_ok s p i Hi) as H. apply wp_ok in H as (r & s' & E & F & _ & Hr & now & Hd).
  exists r, s'. split; [done|]. split; [done|]. rewrite Hd.
  destruct (stored (chan s) p) eqn:Est.
  - assert (Hfull : deferqueue_isfull (defer_q (chan s)) = false).
    { unfold stored in Est. zbool. done. }
    pose proof (deferqueue_add_ok (defer_q (chan s)) p now Hq) as (Hok & Hadd). rewrite Hfull in Hadd.
    split; [done|]. split; [|split; [done|intros _; exists now; done]].
    rewrite Hr. case_if; zbool; [done|split; [done|]]. intros [H1 H2]. rewrite H1 in Heqb. cbn in Heqb. zbool. done.
  - split; [done|]. split; [|split; done].
    rewrite Hr. case_if; zbool; [done|split; [done|]]. intros [H1 H2]. rewrite H1 in Heqb. cbn in Heqb. zbool. done.
Qed.

(** ** Receiving a datagram *)

(** [received_frame] up to the module error. *)
Definition receive_post (s s' : sys) : Prop :=
  received_frame (s <| rastamodule_lasterror := rastamodule_lasterror s' |>) s'.

Lemma set_error_id s : s <| rastamodule_lasterror := rastamodule_lasterror s |> = s.
Proof. by destruct s. Qed.
Lemma receive_post_refl s : receive_post s s.
Proof. unfold receive_post. rewrite set_error_id. apply received_frame_refl. Qed.
Lemma receive_post_frame s s' : received_frame s s' -> rastamodule_lasterror s' = rastamodule_lasterror s ->
  receive_post s s'.
Proof. intros F E. unfold receive_post. by rewrite E, set_error_id. Qed.

Lemma receive_post_trans s1 s2 s3 : receive_post s1 s2 -> receive_post s2 s3 -> receive_post s1 s3.
Proof.
  unfold receive_post. intros F1 F2. etrans; [|exact F2].
  destruct F1 as [A B C D E F G]. by split; fields.
Qed.

Lemma receive_post_mux s s' : receive_post s s' -> mux_context s' = mux_context s.
Proof. intros F%rf_mux. unfold mux_context. by rewrite F. Qed.

Lemma receive_post_channel s s' i : receive_post s s' -> has_channel s i -> has_channel s' i.
Proof. intros F%received_frame_length. unfold has_channel, zlen. rewrite F. by fields. Qed.

(** The run ends: either with [Q] or with an access out of bounds. *)
Definition ends {A} (m : M sys A) (Q : A -> sys -> Prop) (s : sys) : Prop :=
  match m s with Ok (a, s') => Q a s' | Fail e => e = OutOfBounds end.

Lemma ends_bind {A B} (m : M sys A) (k : A -> M sys B) Q s :
  ends m (fun a => ends (k a) Q) s -> ends (m ≫= k) Q s.
Proof. unfold ends, mbind, M_bind. by destruct (m s) as [[??]|]. Qed.
Lemma ends_wp {A} (m : M sys A) Q s : wp m Q s -> ends m Q s.
Proof. unfold ends, wp. by destruct (m s) as [[??]|]. Qed.
Lemma ends_mono {A} (m : M sys A) (Q Q' : A -> sys -> Prop) s :
  ends m Q s -> (forall a s', Q a s' -> Q' a s') -> ends m Q' s.
Proof. unfold ends. destruct (m s) as [[??]|]; naive_solver. Qed.
Lemma ends_read b off n (Q : list Z -> sys -> Prop) s :
  (forall r, read_at b off n = Ok r -> Q r s) -> ends (lift (read_at b off n)) Q s.
Proof.
  intros HQ. unfold ends, lift. pose proof (oob_read b off n) as Ho.
  destruct (read_at b off n); [by apply HQ|done].
Qed.

Lemma receive_one s data : HashOk (mux_context s) -> bytes_ok data -> zlen data < 2 ^ 31 ->
  ends (handle_received_data data) (fun _ s' => receive_post s s' /\ chan s' = chan s /\ 8 <= zlen data) s.
Proof.
  intros Hh Hb Hl. unfold ends, handle_received_data, mbind, M_bind, gets, with_module_error, Datatypes.id.
  set (m := bytesToRastaRedundancyPacket _ _ _ _ _).
  assert (Ho : oob_only m) by by apply bytesToRastaRedundancyPacket_oob.
  destruct m as [[p err]|e] eqn:Em; [|done]. split; [apply received_frame_refl|split; [done|]].
  by eapply bytesToRastaRedundancyPacket_min.
Qed.

Lemma receive_loop_total fuel : forall i buffer off len result s,
  HashOk (mux_context s) -> bytes_ok buffer -> zlen buffer < 2 ^ 31 -> has_channel s i -> 0 <= off <= zlen buffer ->
  zlen buffer < off + Z.of_nat fuel ->
  ends (receive_loop fuel i buffer off len result) (fun _ s' => receive_post s s') s.
Proof.
  induction fuel as [|fuel IH]; intros i buffer off len result s Hh Hb Hl Hi Hoff Hf; [lia|].
  cbn [receive_loop]. case_if; [|apply ends_wp, wp_ret, receive_post_refl].
  apply ends_bind, ends_read. intros size _. apply ends_bind, ends_read. intros data Hdata.
  pose proof (read_at_sub_bytes _ _ _ _ Hdata Hb) as Hdb. apply read_at_inv in Hdata as (_ & Hs0 & Hin & Hdl).
  apply ends_bind. eapply ends_mono; [apply receive_one; [done|done|lia]|].
  intros rp s1 (P1 & C1 & H8). pose proof (receive_post_channel _ _ _ P1 Hi) as Hi1.
  apply ends_bind, ends_wp, wp_gets, ends_bind, ends_wp.
  apply (wp_mono _ (fun _ s2 => receive_post s s2)).
  - case_if; [by apply wp_ret|]. case_if; [by apply wp_ret|].
    eapply wp_mono; [by apply red_f_receiveData_ok|]. intros r s2 (F2 & E2 & _).
    eapply receive_post_trans; [done|]. by apply receive_post_frame.
  - intros r s2 P2. eapply ends_mono; [apply IH|].
    + by rewrite (receive_post_mux _ _ P2).
    + done.
    + done.
    + by eapply receive_post_channel.
    + lia.
    + lia.
    + intros ? s3 P3. by eapply receive_post_trans.
Qed.


(** C31. A single datagram whose length field is smaller than the frame around a
    packet makes the receiver read far out of bounds; nothing checks the field
    against the number of bytes received. *)
Theorem receive_packet_length_field s i buffer len f : 0 < len -> crc_fits (crc_type (redundancy (config s))) ->
  bytes_ok buffer -> read_at buffer 0 2 = Ok f ->
  leShortToHost f < 8 + crc_bytes (crc_type (redundancy (config s))) ->
  receive_packet i buffer len s = Fail OutOfBounds.
Proof.
  intros Hlen Hcrc Hb Hf Hs. pose proof (read_at_sub_bytes _ _ _ _ Hf Hb) as Hfb.
  pose proof (le_dec_bound f Hfb) as [Hp _]. unfold leShortToHost in *.
  unfold receive_packet. cbn [receive_loop]. ztest (0 <? len). erewrite run_ok by (by apply run_lift).
  unfold leShortToHost. destruct (read_at buffer 0 (le_dec f)) as [data|e] eqn:Ed.
  2:{ pose proof (oob_read buffer 0 (le_dec f)) as Ho. rewrite Ed in Ho. cbn in Ho. subst e. by apply run_fail. }
  erewrite run_ok by (by apply run_lift). apply read_at_inv in Ed as (_ & _ & _ & Hdl).
  apply run_fail. unfold handle_received_data. erewrite run_ok by done. unfold with_module_error, Datatypes.id.
  by rewrite bytesToRastaRedundancyPacket_tiny by (done || lia).
Qed.

(** One frame at the front of the buffer. *)
Lemma receive_packet_frame s i rp rest : link_ok s -> has_channel s i ->
  red_packet_wf (channel_context s) rp -> rp_checksum_type rp = crc_type (redundancy (config s)) ->
  p_sender_id (rp_data rp) = associated_id (chan s) -> deferqueue_isfull (defer_q (chan s)) = false ->
  wp (receive_packet i (red_wire (channel_context s) rp ++ rest) (rp_length rp)) (fun r s' =>
    received_frame s s' /\ rastamodule_lasterror s' = RASTA_ERRORS_NONE /\
    r = (if admissible (chan s) (received_red (channel_context s) rp) && (rp_sequence_number rp =? seq_rx (chan s))
         then 1 else 0) /\
    exists now, defer_q (chan s') =
      if stored (chan s) (received_red (channel_context s) rp)
      then (deferqueue_add (defer_q (chan s)) (received_red (channel_context s) rp) now).2
      else defer_q (chan s)) s.
Proof.
  intros Hlk Hi Hwf Hct Hid Hfull. set (ctx := channel_context s). set (w := red_wire ctx rp).
  pose proof (red_wire_length ctx rp (lk_hash _ Hlk) Hwf) as Hwl. fold w in Hwl.
  pose proof (rwf_u16 _ _ Hwf) as Hu. unfold is_u16 in Hu.
  assert (Hl10 : 28 <= rp_length rp).
  { rewrite (rwf_length _ _ Hwf), (wf_length _ _ (rwf_inner _ _ Hwf)).
    pose proof (crc_bytes_range _ (rwf_crc _ _ Hwf)). pose proof (checksum_len_range (channel_context s)).
    pose proof (zlen_nonneg (p_data (rp_data rp))). lia. }
  assert (Hf : read_at (w ++ rest) 0 2 = Ok (le_enc 2 (rp_length rp))).
  { unfold w, red_wire, red_header. rewrite <- !app_assoc. apply read_front. by rewrite zlen_le_enc. }
  unfold receive_packet.
  destruct (length (w ++ rest)) as [|n] eqn:En.
  { rewrite length_app in En. unfold zlen in Hwl. lia. }
  cbn [receive_loop]. ztest (0 <? rp_length rp).
  apply wp_bind, wp_lift. exists (le_enc 2 (rp_length rp)). split; [done|].
  unfold leShortToHost. rewrite le_dec_enc_u16 by done.
  apply wp_bind, wp_lift. exists w. split; [by apply read_front|].
  apply wp_bind. unfold handle_received_data. apply wp_bind, wp_gets. unfold with_module_error, wp at 1, Datatypes.id.
  rewrite <- Hct. fold ctx in Hlk. rewrite (lk_mux _ Hlk), (lk_error _ Hlk).
  unfold w, ctx. rewrite bytesToRastaRedundancyPacket_wire; [|apply Hlk|done]. fold ctx.
  assert (Es : s <| rastamodule_lasterror := RASTA_ERRORS_NONE |> = s).
  { rewrite <- (lk_error _ Hlk). by destruct s. }
  rewrite Es. apply wp_bind, wp_gets.
  change (p_sender_id (rp_data (received_red ctx rp))) with (p_sender_id (rp_data rp)). rewrite Hid.
  rewrite Z.eqb_refl. cbn [negb]. rewrite Hfull. apply wp_bind.
  eapply wp_mono; [by apply red_f_receiveData_ok|]. intros r s' (F & E & Hr & Hd). cbn [Z.lor].
  rewrite Z.sub_diag. change (0 <? u64 0) with false. cbn iota.
  apply wp_ret. rewrite E, (lk_error _ Hlk). by split_and!.
Qed.

(** ** Serialising and parsing when the link is fine *)

Lemma serialise_wire s pk : link_ok s -> packet_wf (channel_context s) pk ->
  serialise_packet pk channel_context s = Ok (wire (channel_context s) pk, s).
Proof.
  intros Hlk Hwf. unfold serialise_packet. erewrite run_ok by done. unfold with_module_error, Datatypes.id.
  rewrite (lk_error _ Hlk), rastaModuleToBytes_ok by (done || apply Hlk).
  by rewrite <- (lk_error _ Hlk), set_error_id.
Qed.

Lemma parse_wire s pk : link_ok s -> packet_wf (channel_context s) pk ->
  parse_packet (wire (channel_context s) pk) channel_context s = Ok (received_packet (channel_context s) pk, s).
Proof.
  intros Hlk Hwf. unfold parse_packet. erewrite run_ok by done. unfold with_module_error, Datatypes.id.
  rewrite bytesToRastaPacket_wire by (done || apply Hlk). by rewrite set_error_id.
Qed.

(** ** In-order delivery *)

(** What the redundancy layer relies on: on an acceptable packet the layer above
    returns, keeps its invariant, and leaves the defer queue and [seq_rx] alone. *)
Class UpperOk `{UpperLayer} (Inv : sys -> Prop) (acceptable : rasta_hashing_context_t -> RastaPacket -> Prop) :
    Prop := {
  upper_ok : forall p s, Inv s -> acceptable (channel_context s) p ->
    wp (upper_receive p) (fun _ s' => Inv s' /\ seq_rx (chan s') = seq_rx (chan s) /\
      defer_q (chan s') = defer_q (chan s) /\ channel_context s' = channel_context s) s;
  upper_next : forall s q rx, Inv s -> Inv (s <| chan ::= fun c => c <| defer_q := q |> <| seq_rx := rx |> |>);
  upper_link : forall s, Inv s -> link_ok s
}.

(** The packet that is due has been delivered. *)
Definition next_due (c : rasta_redundancy_channel) : rasta_redundancy_channel :=
  c <| defer_q := deferqueue_remove (defer_q c) (seq_rx c) |> <| seq_rx := u64 (seq_rx c + 1) |>.

Inductive delivered `{UpperLayer} : sys -> list RastaPacket -> sys -> Prop :=
| delivered_nil s : delivered s [] s
| delivered_cons s pk r s1 pks s2 :
    upper_receive pk s = Ok (r, s1) -> delivered (s1 <| chan ::= next_due |>) pks s2 -> delivered s (pk :: pks) s2.

Fixpoint consecutive (sn : Z) (ws : list rasta_redundancy_packet_wrapper) : Prop :=
  match ws with [] => True | w :: ws => w_sn w = sn /\ consecutive (u64 (sn + 1)) ws end.

Definition inner_packet (ctx : rasta_hashing_context_t) (w : rasta_redundancy_packet_wrapper) : RastaPacket :=
  received_packet ctx (rp_data (w_packet w)).

Section InOrder.
Context `{UpperOk}.

Definition deliverable (ctx : rasta_hashing_context_t) (w : rasta_redundancy_packet_wrapper) : Prop :=
  packet_wf ctx (rp_data (w_packet w)) /\ acceptable ctx (inner_packet ctx w).

Lemma deliver_loop_ok fuel : forall result s, Inv s -> defer_ok (defer_q (chan s)) ->
  Forall (deliverable (channel_context s)) (elements (defer_q (chan s))) ->
  (length (elements (defer_q (chan s))) < fuel)%nat ->
  exists r s' ws, deliver_loop fuel result s = Ok (r, s') /\
    delivered s (inner_packet (channel_context s) <$> ws) s' /\ Inv s' /\ defer_ok (defer_q (chan s')) /\
    consecutive (seq_rx (chan s)) ws /\ elements (defer_q (chan s)) ≡ₚ ws ++ elements (defer_q (chan s')) /\
    deferqueue_contains (defer_q (chan s')) (seq_rx (chan s')) = false.
Proof.
  induction fuel as [|fuel IH]; intros result s HI Hq Hall Hf; [lia|].
  cbn [deliver_loop]. erewrite run_ok by done.
  destruct (deferqueue_contains (defer_q (chan s)) (seq_rx (chan s))) eqn:Ec.
  2:{ exists result, s, []. split_and!; try done. constructor. }
  apply deferqueue_contains_spec in Ec.
  destruct (deferqueue_remove_ok _ _ Hq Ec) as (Hq' & _ & w & Hsn & Hget & Hin & Hp & _).
  pose proof Hall as Hall'. rewrite Forall_forall in Hall'. destruct (Hall' w Hin) as [Hwf Hacc].
  pose proof (upper_link _ HI) as Hlk.
  pose proof (upper_ok _ s HI Hacc) as Hup. apply wp_ok in Hup as (r & s1 & Er & HI1 & Erx & Eq & Ectx).
  rewrite <- Hget. erewrite run_ok by (by apply serialise_wire).
  unfold deliver_message_to_upper_layer at 1.
  erewrite run_ok by (erewrite run_ok by (by apply parse_wire); exact Er).
  erewrite run_ok by done. erewrite run_ok by done.
  set (s2 := s1 <| chan ::= _ |> <| chan ::= _ |>).
  assert (E2 : s2 = s1 <| chan ::= next_due |>) by done.
  assert (Q2 : defer_q (chan s2) = deferqueue_remove (defer_q (chan s)) (seq_rx (chan s)))
    by (rewrite <- Eq, <- Erx; done).
  assert (R2 : seq_rx (chan s2) = u64 (seq_rx (chan s) + 1)) by (rewrite <- Erx; done).
  assert (X2 : channel_context s2 = channel_context s) by (rewrite <- Ectx; done).
  assert (HI2 : Inv s2) by (rewrite E2; by apply upper_next).
  destruct (IH (Z.lor result r) s2) as (r' & s' & ws & E' & D & HI' & Hok & Hc & Hpe & Hno).
  - done.
  - by rewrite Q2.
  - rewrite X2, Q2. rewrite Hp in Hall. by inversion Hall.
  - rewrite Q2. apply Permutation_length in Hp. cbn in Hp. lia.
  - exists r', s', (w :: ws). split; [done|]. rewrite R2 in Hc. rewrite Q2 in Hpe. rewrite X2 in D.
    split; [|split; [done|split; [done|split; [done|split; [by rewrite Hp, Hpe|done]]]]].
    eapply delivered_cons; [exact Er|]. by rewrite <- E2.
Qed.

(** C27. Delivery ends, and hands exactly the packets of the unbroken run of
    sequence numbers that starts at [seq_rx] to the layer above, in order and
    each once; what is behind the first gap stays in the defer queue. *)
Theorem red_f_deliverDeferQueue_in_order s : Inv s -> defer_ok (defer_q (chan s)) ->
  Forall (deliverable (channel_context s)) (elements (defer_q (chan s))) ->
  exists r s' ws, red_f_deliverDeferQueue s = Ok (r, s') /\
    delivered s (inner_packet (channel_context s) <$> ws) s' /\ Inv s' /\
    consecutive (seq_rx (chan s)) ws /\ elements (defer_q (chan s)) ≡ₚ ws ++ elements (defer_q (chan s')) /\
    deferqueue_contains (defer_q (chan s')) (seq_rx (chan s')) = false.
Proof.
  intros HI Hq Hall. unfold red_f_deliverDeferQueue. erewrite run_ok by done.
  destruct (deliver_loop_ok (S (length (elements (defer_q (chan s))))) 0 s) as (r & s' & ws & ? & ? & ? & ? & ?);
    try done; [lia|]. by exists r, s', ws.
Qed.
End InOrder.

(** ** Witnesses *)

Definition demo_inner (sn : Z) : RastaPacket := mkPacket 39 RASTA_TYPE_DATA 0x60 0x61 sn 6 1000 960 [1; 0; 255] [] 0.

Lemma demo_inner_wf sn : is_u32 sn -> packet_wf demo_ctx (demo_inner sn).
Proof.
  intros Hs. constructor; [reflexivity|cbn; unfold is_u16, is_u32, RASTA_TYPE_DATA in *; lia..|].
  repeat constructor; unfold is_u8; lia.
Qed.

(** The redundancy packet number [rsn] with the SR packet number [sn]. *)
Definition demo_red_packet (rsn sn : Z) : RastaRedundancyPacket := createRedundancyPacket rsn (demo_inner sn) crc_init_opt_b.

Lemma demo_has_channel : has_channel demo_up 0.
Proof. unfold has_channel. vm_compute. split; [discriminate|reflexivity]. Qed.

Lemma demo_defer_ok : defer_ok (defer_q (chan demo_up)).
Proof. apply deferqueue_init_ok. unfold is_u32. lia. Qed.

Lemma demo_wire_bytes : bytes_ok (red_wire demo_ctx demo_red).
Proof. vm_compute. repeat constructor; discriminate. Qed.

(** A first packet is due, comes with a good checksum, and is put away. *)
Lemma red_f_receiveData_spec_witness :
  let p := received_red demo_ctx (demo_red_packet 0 5) in
  has_channel demo_up 0 /\ defer_ok (defer_q (chan demo_up)) /\ stored (chan demo_up) p = true /\
  exists r s', red_f_receiveData p 0 demo_up = Ok (r, s') /\ received_frame demo_up s' /\ defer_ok (defer_q (chan s')) /\
  (r = 1 <-> admissible (chan demo_up) p = true /\ rp_sequence_number p = seq_rx (chan demo_up)) /\
  (stored (chan demo_up) p = false -> defer_q (chan s') = defer_q (chan demo_up)) /\
  (stored (chan demo_up) p = true -> exists now,
       elements (defer_q (chan s')) ≡ₚ mkWrapper p now :: elements (defer_q (chan demo_up))).
Proof.
  intros p. split; [exact demo_has_channel|]. split; [exact demo_defer_ok|]. split; [reflexivity|].
  exact (red_f_receiveData_spec demo_up p 0 demo_has_channel demo_defer_ok).
Defined.


(** A datagram of zeros. *)
Lemma receive_packet_length_field_witness :
  leShortToHost [0; 0] < 8 + crc_bytes (crc_type (redundancy (config demo_up))) /\
  receive_packet 0 (zeros 40) 40 demo_up = Fail OutOfBounds.
Proof.
  assert (Hs : leShortToHost [0; 0] < 8 + crc_bytes (crc_type (redundancy (config demo_up)))) by (vm_compute; reflexivity).
  split; [exact Hs|]. apply (receive_packet_length_field demo_up 0 (zeros 40) 40 [0; 0]).
  - lia.
  - vm_compute. split; discriminate.
  - apply bytes_ok_zeros.
  - reflexivity.
  - exact Hs.
Defined.
