(* ===== verification/Connection.v ===== *)
(** * Connection state of the safety and retransmission layer
    (src/c/retransmission/safety_retransmission.c, the parts without sending)

    The checks on received packets, the adaptive timeout and its diagnostics,
    and the reset of a connection. *)

From stdpp Require Import base numbers list.
From Stdlib Require Import ZArith Lia.
From S2P Require Import Prelude.
From S2P Require Import Fifo.
From S2P Require Import Packet.
From S2P Require Import World.
From S2P Require Import Config.
From S2P Require Import State.

Local Open Scope Z_scope.
Local Open Scope record_scope.

(** ** Checks on a received packet *)

Definition is_type (packet : RastaPacket) (types : list Z) : bool := existsb (Z.eqb (p_type packet)) types.

(* safety_retransmission.c sr_cts_in_seq *)
Definition sr_cts_in_seq (con : rasta_connection) (cfg : rasta_config_sending) (packet : RastaPacket) : bool :=
  if is_type packet [RASTA_TYPE_HB; RASTA_TYPE_DATA; RASTA_TYPE_RETRDATA] then
    if cts_r con =? 0 then true
    else if p_confirmed_timestamp packet <? cts_r con then false
    else u32 (p_confirmed_timestamp packet - cts_r con) <? t_max cfg
  else true.

(* safety_retransmission.c sr_sn_in_seq *)
Definition sr_sn_in_seq (con : rasta_connection) (packet : RastaPacket) : bool :=
  if is_type packet [RASTA_TYPE_CONNREQ; RASTA_TYPE_CONNRESP; RASTA_TYPE_RETRRESP; RASTA_TYPE_DISCREQ] then true
  else sn_r con =? p_sequence_number packet.

(* safety_retransmission.c sr_sn_range_valid *)
Definition sr_sn_range_valid (con : rasta_connection) (cfg : rasta_config_sending) (packet : RastaPacket) : bool :=
  if is_type packet [RASTA_TYPE_CONNREQ; RASTA_TYPE_CONNRESP; RASTA_TYPE_RETRRESP] then true
  else (sn_r con <=? p_sequence_number packet) &&
       (u32 (p_sequence_number packet - sn_r con) <=? send_max cfg * 10).

(* safety_retransmission.c sr_cs_valid *)
Definition sr_cs_valid (con : rasta_connection) (packet : RastaPacket) : bool :=
  if p_type packet =? RASTA_TYPE_CONNREQ then p_confirmed_sequence_number packet =? 0
  else if p_type packet =? RASTA_TYPE_CONNRESP then p_confirmed_sequence_number packet =? u32 (sn_t con - 1)
  else (cs_r con <=? p_confirmed_sequence_number packet) &&
       (u32 (p_confirmed_sequence_number packet - cs_r con) <? u32 (sn_t con - cs_r con)).

(* safety_retransmission.c sr_message_authentic *)
Definition sr_message_authentic (con : rasta_connection) (packet : RastaPacket) : bool :=
  (p_sender_id packet =? remote_id con) && (p_receiver_id packet =? my_id con).

(* safety_retransmission.c sr_check_packet *)
Definition sr_check_packet (con : rasta_connection) (cfg : rasta_config_sending) (receivedPacket : RastaPacket) : bool :=
  negb (p_checksum_correct receivedPacket =? 0) && sr_message_authentic con receivedPacket &&
  sr_sn_range_valid con cfg receivedPacket && sr_cs_valid con receivedPacket &&
  sr_sn_in_seq con receivedPacket && sr_cts_in_seq con cfg receivedPacket.

(** ** Adaptive timeout and diagnostics *)

(** [sysconf(_SC_CLK_TCK)] is 100 on Linux. *)
Definition SC_CLK_TCK : Z := 100.

Definition on_event {A} (f : world -> A * world) (set : A -> rasta_connection -> rasta_connection) : M sys unit :=
  e ← on_world f; setc (set e).

Definition reschedule_timeout : M sys unit :=
  c ← gets conn; on_event (reschedule_event (timeout_event c)) (fun e c => c <| timeout_event := e |>).
Definition reschedule_heartbeat : M sys unit :=
  c ← gets conn; on_event (reschedule_event (send_heartbeat_event c)) (fun e c => c <| send_heartbeat_event := e |>).
Definition enable_timeout : M sys unit :=
  c ← gets conn; on_event (enable_timed_event (timeout_event c)) (fun e c => c <| timeout_event := e |>).
Definition enable_heartbeat : M sys unit :=
  c ← gets conn; on_event (enable_timed_event (send_heartbeat_event c)) (fun e c => c <| send_heartbeat_event := e |>).
Definition enable_send : M sys unit :=
  c ← gets conn; on_event (enable_timed_event (send_event c)) (fun e c => c <| send_event := e |>).
Definition enable_handshake_timeout : M sys unit :=
  c ← gets conn;
  on_event (enable_timed_event (handshake_timeout_event c)) (fun e c => c <| handshake_timeout_event := e |>).

(* safety_retransmission.c sr_update_timeout_interval *)
Definition sr_update_timeout_interval (confirmed_timestamp : Z) : M sys unit :=
  cfg ← gets (fun s => sending (config s));
  t_local ← cur_timestamp_now;
  let t_rtd := u64 (t_local + 1000 / SC_CLK_TCK - confirmed_timestamp) in
  _ ← setc (fun c => c <| t_i := u32 (t_max cfg - t_rtd) |>);
  reschedule_timeout.

(* safety_retransmission.c reset_diagnostic *)
Definition reset_diagnostic (c : rasta_connection) : rasta_connection :=
  c <| diagnostic_intervals ::= map (fun i => i <| message_count := 0 |> <| t_alive_message_count := 0 |>) |>.

(** The loop over the intervals: the first one the round trip time is assigned to. *)
(* safety_retransmission.c:36-47 sr_diagnostic_update *)
Fixpoint count_interval (t_rtd t_alive : Z) (l : list diagnostic_interval) : list diagnostic_interval :=
  match l with
  | [] => []
  | i :: l =>
      if (t_rtd <=? interval_start i) && (interval_end i <=? t_rtd) then
        let i := i <| message_count := u32 (message_count i + 1) |> in
        (if (t_alive <=? interval_start i) && (interval_end i <=? t_alive)
         then i <| t_alive_message_count := u32 (t_alive_message_count i + 1) |> else i) :: l
      else i :: count_interval t_rtd t_alive l
  end.

(* safety_retransmission.c sr_diagnostic_update *)
Definition sr_diagnostic_update (receivedPacket : RastaPacket) : M sys unit :=
  cfg ← gets (fun s => sending (config s));
  t_local ← cur_timestamp_now;
  c ← gets conn;
  let t_rtd := u64 (t_local + 1000 / SC_CLK_TCK - p_confirmed_timestamp receivedPacket) in
  let t_alive := u64 (t_local - cts_r c) in
  _ ← setc (fun c => c <| diagnostic_intervals ::= count_interval t_rtd t_alive |>);
  _ ← setc (fun c => c <| received_diagnostic_message_count := u32 (received_diagnostic_message_count c + 1) |>);
  n ← getc received_diagnostic_message_count;
  when (diag_window cfg <=? n) (setc reset_diagnostic).

(* rasta_connection.h:15 DIAGNOSTIC_INTERVAL_SIZE *)
Definition DIAGNOSTIC_INTERVAL_SIZE : Z := 500.

(* safety_retransmission.c sr_diagnostic_interval_init *)
Definition sr_diagnostic_interval_init (cfg : rasta_config_sending) (c : rasta_connection) : rasta_connection :=
  let n := t_max cfg / DIAGNOSTIC_INTERVAL_SIZE +
           (if 0 <? t_max cfg mod DIAGNOSTIC_INTERVAL_SIZE then 1 else 0) in
  c <| received_diagnostic_message_count := 0 |>
    <| diagnostic_intervals :=
         (fun i => let start := u32 (DIAGNOSTIC_INTERVAL_SIZE * Z.of_nat i) in
                   mkInterval start (u32 (start + DIAGNOSTIC_INTERVAL_SIZE)) 0 0) <$> seq 0 (Z.to_nat n) |>.

(** ** Reset *)

(* safety_retransmission.c sr_reset_connection *)
Definition sr_reset_connection (c : rasta_connection) : rasta_connection :=
  c <| current_state := RASTA_CONNECTION_CLOSED |>
    <| connected_recv_buffer_size := -1 |>
    <| hb_locked := true |>
    <| send_heartbeat_event ::= disable_timed_event |>
    <| timeout_event ::= disable_timed_event |>
    <| errors := mkErrors 0 0 0 0 0 |>.

(* safety_retransmission.c sr_init_connection *)
Definition sr_init_connection (r : rasta_role) (c : rasta_connection) : rasta_connection :=
  sr_reset_connection c <| role := r |>.

(** ** Received attributes *)

(* retransmission/handlers.c update_connection_attrs *)
Definition update_connection_attrs (receivedPacket : RastaPacket) (c : rasta_connection) : rasta_connection :=
  c <| sn_r := u32 (p_sequence_number receivedPacket + 1) |>
    <| cs_t := p_sequence_number receivedPacket |>
    <| ts_r := p_timestamp receivedPacket |>.

(* retransmission/handlers.c update_confirmed_attrs *)
Definition update_confirmed_attrs (receivedPacket : RastaPacket) (c : rasta_connection) : rasta_connection :=
  c <| cts_r := p_confirmed_timestamp receivedPacket |>
    <| cs_r := p_confirmed_sequence_number receivedPacket |>.

(* safety_retransmission.c sr_retransmission_queue_item_count *)
Definition sr_retransmission_queue_item_count (c : rasta_connection) : Z := queue_size (fifo_retransmission c).
(* safety_retransmission.c sr_send_queue_item_count *)
Definition sr_send_queue_item_count (c : rasta_connection) : Z := queue_size (fifo_send c).
(* safety_retransmission.c sr_recv_queue_item_count *)
Definition sr_recv_queue_item_count (c : rasta_connection) : Z := queue_size (fifo_receive c).

(** Without OPAQUE there is no rekeying. *)
(* safety_retransmission.c:556-561 sr_rekeying_skipped *)
Definition sr_rekeying_skipped (c : rasta_connection) (kexConfig : RastaConfigKex) : bool := false.
