(* ===== verification/Retransmission.v ===== *)
(** * Sending and retransmitting
    (src/c/retransmission/messages.c, safety_retransmission.c, src/c/transport/events.c) *)

From stdpp Require Import base numbers list.
From Stdlib Require Import ZArith Lia.
From S2P Require Import Prelude.
From S2P Require Import Fifo.
From S2P Require Import Hashing.
From S2P Require Import Packet.
From S2P Require Import Factory.
From S2P Require Import World.
From S2P Require Import Config.
From S2P Require Import State.
From S2P Require Import Transport.
From S2P Require Import Redundancy.
From S2P Require Import Connection.

Local Open Scope Z_scope.
Local Open Scope record_scope.

(* messages.h rasta_disconnect_reason *)
Inductive rasta_disconnect_reason :=
| RASTA_DISC_REASON_USERREQUEST
| RASTA_DISC_REASON_UNEXPECTEDTYPE
| RASTA_DISC_REASON_SEQNERROR
| RASTA_DISC_REASON_TIMEOUT
| RASTA_DISC_REASON_SERVICENOTALLOWED
| RASTA_DISC_REASON_INCOMPATIBLEVERSION
| RASTA_DISC_REASON_RETRFAILED
| RASTA_DISC_REASON_PROTOCOLERROR.

(* messages.h rasta_disconnect_reason *)
Definition disconnect_reason_val (r : rasta_disconnect_reason) : Z :=
  match r with
  | RASTA_DISC_REASON_USERREQUEST => 0
  | RASTA_DISC_REASON_UNEXPECTEDTYPE => 2
  | RASTA_DISC_REASON_SEQNERROR => 3
  | RASTA_DISC_REASON_TIMEOUT => 4
  | RASTA_DISC_REASON_SERVICENOTALLOWED => 5
  | RASTA_DISC_REASON_INCOMPATIBLEVERSION => 6
  | RASTA_DISC_REASON_RETRFAILED => 7
  | RASTA_DISC_REASON_PROTOCOLERROR => 8
  end.

(** The parameters every packet of a connection carries at time [ts]. *)
Definition ids_at (c : rasta_connection) (ts : Z) : packet_ids :=
  mkIds (remote_id c) (my_id c) (sn_t c) (cs_t c) ts (ts_r c).

Definition next_sn : M sys unit := setc (fun c => c <| sn_t := u32 (sn_t c + 1) |>).

Section Retransmission.
Context `{Transport}.

(** ** Protocol messages *)

(* messages.c sendDisconnectionRequest *)
Definition sendDisconnectionRequest (reason : rasta_disconnect_reason) (details : Z) : M sys unit :=
  c ← gets conn;
  ts ← cur_timestamp_now;
  ctx ← gets mux_context;
  discReq ← lift (createDisconnectionRequest (ids_at c ts)
                    (mkDisconnectionData details (disconnect_reason_val reason)) ctx);
  redundancy_mux_send discReq (role c).

(* messages.c sendHeartbeat *)
Definition sendHeartbeat (reschedule_manually : bool) : M sys unit :=
  c ← gets conn;
  ts ← cur_timestamp_now;
  ctx ← gets mux_context;
  _ ← redundancy_mux_send (createHeartbeat (ids_at c ts) ctx) (role c);
  _ ← next_sn;
  when reschedule_manually reschedule_heartbeat.

(* messages.c sendRetransmissionRequest *)
Definition sendRetransmissionRequest : M sys unit :=
  c ← gets conn;
  ts ← cur_timestamp_now;
  ctx ← gets mux_context;
  _ ← redundancy_mux_send (createRetransmissionRequest (ids_at c ts) ctx) (role c);
  next_sn.

(* messages.c sendRetransmissionResponse *)
Definition sendRetransmissionResponse : M sys unit :=
  c ← gets conn;
  ts ← cur_timestamp_now;
  ctx ← gets mux_context;
  _ ← redundancy_mux_send (createRetransmissionResponse (ids_at c ts) ctx) (role c);
  next_sn.

(** ** Sending application messages *)

(** [fifo_pop], its result dereferenced. *)
Definition pop_send : M sys (list Z) :=
  c ← gets conn;
  match queue_pop (fifo_send c) with
  | (None, _) => fail NullDeref
  | (Some elem, q) => _ ← setc (fun c => c <| fifo_send := q |>); mret elem
  end.

(* transport/events.c:229-241 data_send_event *)
Fixpoint pop_messages (n : nat) : M sys RastaMessageData :=
  match n with
  | O => mret []
  | S n => elem ← pop_send; rest ← pop_messages n; mret (elem :: rest)
  end.

(** How many messages go into the next data packet. *)
(* transport/events.c:201-222 data_send_event *)
Definition send_backlog_size (c : rasta_connection) (cfg : rasta_config_info) : Z :=
  let backlog := sr_retransmission_queue_item_count c in
  let max := max_retransmission_queue_size (retransmission cfg) in
  if backlog <? max then
    let n := Z.min (sr_send_queue_item_count c) (max - backlog) in
    if 0 <? n then (if max_packet (sending cfg) <=? n then max_packet (sending cfg) else n) else 0
  else 0.

Definition push_retransmission (bytes : list Z) : M sys unit :=
  setc (fun c => c <| fifo_retransmission ::= fun q => (queue_push q (Some bytes)).2 |>).

(** A data packet is built whenever messages wait and the retransmission queue
    has room, even if [max_packet] is 0. *)
(* transport/events.c data_send_event *)
Definition data_send_event : M sys Z :=
  s ← gets Datatypes.id;
  let c := conn s in
  let max := max_retransmission_queue_size (retransmission (config s)) in
  let backlog := sr_retransmission_queue_item_count c in
  _ ← when ((backlog <? max) && (0 <? Z.min (sr_send_queue_item_count c) (max - backlog)))
    (app_messages ← pop_messages (Z.to_nat (send_backlog_size c (config s)));
     ts ← cur_timestamp_now;
     data ← lift (createDataMessage (ids_at c ts) app_messages (mux_context s));
     packet ← serialise_packet data mux_context;
     _ ← push_retransmission packet;
     _ ← redundancy_mux_send data (role c);
     _ ← setc (fun c => c <| sn_t := u32 (p_sequence_number data + 1) |>);
     reschedule_heartbeat);
  c ← gets conn;
  _ ← when (sr_send_queue_item_count c =? 0) (setc (fun c => c <| send_event ::= disable_timed_event |>));
  mret 0.

(** ** Receiving application messages *)

(* safety_retransmission.c:61-81 sr_add_app_messages_to_buffer *)
Fixpoint buffer_messages (packet : RastaPacket) (msgs : RastaMessageData) : M sys unit :=
  match msgs with
  | [] => mret tt
  | m :: msgs =>
      c ← gets conn;
      if queue_full (fifo_receive c) then mret tt
      else
        _ ← setc (fun c => c <| fifo_receive ::= fun q => (queue_push q (Some m)).2 |>);
        _ ← sr_update_timeout_interval (p_confirmed_timestamp packet);
        _ ← sr_diagnostic_update packet;
        buffer_messages packet msgs
  end.

(* safety_retransmission.c sr_add_app_messages_to_buffer *)
Definition sr_add_app_messages_to_buffer (packet : RastaPacket) : M sys unit :=
  received_data ← lift (extractMessageData packet);
  buffer_messages packet received_data.

(** ** Confirmation and retransmission *)

(* safety_retransmission.c:92-112 sr_remove_confirmed_messages *)
Fixpoint remove_confirmed_loop (fuel : nat) : M sys unit :=
  match fuel with
  | O => fail OutOfFuel
  | S fuel =>
      c ← gets conn;
      match queue_pop (fifo_retransmission c) with
      | (None, _) => mret tt
      | (Some elem, q) =>
          _ ← setc (fun c => c <| fifo_retransmission := q |>);
          packet ← parse_packet elem channel_context;
          if p_sequence_number packet =? cs_r c then mret tt else remove_confirmed_loop fuel
      end
  end.

(* safety_retransmission.c sr_remove_confirmed_messages *)
Definition sr_remove_confirmed_messages : M sys unit :=
  n ← getc (fun c => length (q_items (fifo_retransmission c)));
  _ ← remove_confirmed_loop (S n);
  c ← gets conn;
  when (queue_full (fifo_send c)) (_ ← data_send_event; mret tt).

(** The queue is emptied into an array of [max_retransmission_queue_size]
    elements. *)
(* safety_retransmission.c:292-304 sr_retransmit_data *)
Fixpoint drain_retransmission (n : nat) (j : Z) : M sys (list (list Z)) :=
  match n with
  | O => mret []
  | S n =>
      s ← gets Datatypes.id;
      match queue_pop (fifo_retransmission (conn s)) with
      | (None, _) => fail NullDeref
      | (Some element, q) =>
          _ ← setc (fun c => c <| fifo_retransmission := q |>);
          _ ← (if j <? max_retransmission_queue_size (retransmission (config s)) then mret tt else fail OutOfBounds);
          rest ← drain_retransmission n (j + 1);
          mret (element :: rest)
      end
  end.

(* safety_retransmission.c:308-354 sr_retransmit_data *)
Definition retransmit_one (packet : list Z) : M sys unit :=
  old_p ← parse_packet packet channel_context;
  app_messages ← lift (extractMessageData old_p);
  c ← gets conn;
  ts ← cur_timestamp_now;
  ctx ← gets channel_context;
  data ← lift (createRetransmittedDataMessage (ids_at c ts) app_messages ctx);
  new_p ← serialise_packet data channel_context;
  _ ← push_retransmission new_p;
  _ ← redundancy_mux_send data (role c);
  _ ← next_sn;
  reschedule_heartbeat.

Fixpoint retransmit_all (packets : list (list Z)) : M sys unit :=
  match packets with
  | [] => mret tt
  | packet :: packets => _ ← retransmit_one packet; retransmit_all packets
  end.

(* safety_retransmission.c sr_retransmit_data *)
Definition sr_retransmit_data : M sys unit :=
  buffer_n ← getc (fun c => length (q_items (fifo_retransmission c)));
  packets ← drain_retransmission buffer_n 0;
  _ ← retransmit_all packets;
  sendHeartbeat true.

(** ** Closing *)

(** Whether the peer has to be told. *)
Definition is_closed (st : rasta_sr_state) : bool :=
  match st with RASTA_CONNECTION_DOWN | RASTA_CONNECTION_CLOSED => true | _ => false end.

(* safety_retransmission.c sr_close_connection *)
Definition sr_close_connection (reason : rasta_disconnect_reason) (details : Z) : M sys unit :=
  st ← getc current_state;
  if is_closed st then
    _ ← setc sr_reset_connection;
    redundancy_channel_close
  else
    _ ← setc sr_reset_connection;
    _ ← sendDisconnectionRequest reason details;
    _ ← setc (fun c => c <| current_state := RASTA_CONNECTION_CLOSED |>);
    redundancy_channel_close.

(* safety_retransmission.c sr_closed_connection *)
Definition sr_closed_connection : M sys unit :=
  _ ← setc (fun c => c <| current_state := RASTA_CONNECTION_CLOSED |>);
  _ ← setc sr_reset_connection;
  redundancy_channel_close.

End Retransmission.

(** ** Invariant of the connection *)

(** The largest payload for which packet and frame fit their length fields,
    whatever the lengths of safety code and check code. *)
Definition PAYLOAD_MAX : Z := 65479.

(** An application message of which [max_packet] fit one packet. *)
Definition msg_fits (cfg : rasta_config_info) (m : list Z) : Prop :=
  bytes_ok m /\ max_packet (sending cfg) * (2 + zlen m) <= PAYLOAD_MAX.

(** A packet that waits for its confirmation. *)
Definition retr_packet (ctx : rasta_hashing_context_t) (pk : RastaPacket) : Prop :=
  packet_wf ctx pk /\ exists msgs, p_data pk = encode msgs /\ Forall bytes_ok msgs /\ zlen (encode msgs) <= PAYLOAD_MAX.

(** The retransmission queue holds these packets, serialised. *)
Definition unconfirmed (ctx : rasta_hashing_context_t) (c : rasta_connection) (pks : list RastaPacket) : Prop :=
  q_items (fifo_retransmission c) = wire ctx <$> pks /\ Forall (retr_packet ctx) pks.

Record config_ok (cfg : rasta_config_info) : Prop := {
  cf_initial : is_u32 (initial_sequence_number cfg);
  cf_send_max : is_u16 (send_max (sending cfg));
  cf_max_packet : is_u32 (max_packet (sending cfg))
}.

Record conn_ok (cfg : rasta_config_info) (ctx : rasta_hashing_context_t) (c : rasta_connection) : Prop := {
  co_sn_t : is_u32 (sn_t c); co_sn_r : is_u32 (sn_r c); co_cs_t : is_u32 (cs_t c); co_cs_r : is_u32 (cs_r c);
  co_ts_r : is_u32 (ts_r c); co_cts_r : is_u32 (cts_r c);
  co_my_id : is_u32 (my_id c); co_remote_id : is_u32 (remote_id c);
  co_send_queue : queue_ok (fifo_send c); co_receive_queue : queue_ok (fifo_receive c);
  co_retr_queue : queue_ok (fifo_retransmission c);
  co_retr_max : q_max (fifo_retransmission c) = max_retransmission_queue_size (retransmission cfg);
  co_send : Forall (msg_fits cfg) (q_items (fifo_send c));
  co_retr : exists pks, unconfirmed ctx c pks
}.

(** The invariant of an endpoint. *)
Record sr_ok (s : sys) : Prop := {
  ok_link : link_ok s;
  ok_role : role_ok s (role (conn s));
  ok_config : config_ok (config s);
  ok_conn : conn_ok (config s) (channel_context s) (conn s)
}.

Lemma sr_ok_frame s s' : sr_ok s -> lower_frame s s' -> role_ok s' (role (conn s')) ->
  conn_ok (config s) (channel_context s) (conn s') -> sr_ok s'.
Proof.
  intros [L R C O] F R' O'. split.
  - by eapply link_ok_frame.
  - done.
  - by rewrite (lf_config _ _ F).
  - by rewrite (lf_config _ _ F), (lf_context _ _ F).
Qed.

(** Changing the connection only. *)
Lemma lower_frame_conn s f : lower_frame s (s <| conn ::= f |>).
Proof. by split; destruct s as [? [] [] ? ? ? ?]. Qed.
Lemma lower_frame_tick s : lower_frame s (s <| env ::= fun w => w <| ticks ::= S |> |>).
Proof. by split; destruct s as [? [] [] ? ? ? ?]. Qed.
Lemma lower_frame_factory s e : lower_frame s (s <| rastafactory_lasterror := e |>).
Proof. by split; destruct s as [? [] [] ? ? ? ?]. Qed.

(** Sending that leaves the connected channels connected. *)
Record did (s s' : sys) (pks : list RastaPacket) : Prop := {
  did_sent : sent s s' pks;
  did_online : online s -> online s'
}.

Lemma did_trans s1 s2 s3 p q : did s1 s2 p -> did s2 s3 q -> did s1 s3 (p ++ q).
Proof. intros [A1 O1] [A2 O2]. split; [by eapply sent_trans|auto]. Qed.
Lemma did_then s1 s2 s3 p : did s1 s2 p -> did s2 s3 [] -> did s1 s3 p.
Proof. rewrite <- (app_nil_r p) at 2. apply did_trans. Qed.
Lemma did_after s1 s2 s3 p : did s1 s2 [] -> did s2 s3 p -> did s1 s3 p.
Proof. apply (did_trans _ _ _ []). Qed.
Lemma did_sent_trans s1 s2 s3 p q : did s1 s2 p -> sent s2 s3 q -> sent s1 s3 (p ++ q).
Proof. intros [A1 O1] A2. by eapply sent_trans. Qed.

Lemma did_refl s : did s s [].
Proof. split; [by apply sent_nil|done]. Qed.
Lemma did_conn s f : did s (s <| conn ::= f |>) [].
Proof. split; [|done]. by apply sent_nil; [apply lower_frame_conn|..]. Qed.
Lemma did_tick s : did s (s <| env ::= fun w => w <| ticks ::= S |> |>) [].
Proof. split; [|done]. by apply sent_nil; [apply lower_frame_tick|..]. Qed.
Lemma did_factory s e : did s (s <| rastafactory_lasterror := e |>) [].
Proof. split; [|done]. by apply sent_nil; [apply lower_frame_factory|..]. Qed.

Lemma did_frame s s' pks : did s s' pks -> lower_frame s s'.
Proof. intros [[]]. done. Qed.

Lemma conn_ok_ids cfg ctx c ts : conn_ok cfg ctx c -> is_u32 ts -> ids_ok (ids_at c ts).
Proof. intros [] ?. by split. Qed.

(** Timers: only the time of the last call moves. *)
Lemma wp_on_event (f : world -> timed_event * world) set Q s :
  (let '(e, w) := f (env s) in Q tt (s <| env := w |> <| conn ::= set e |>)) -> wp (on_event f set) Q s.
Proof. intros HQ. unfold on_event, on_world, wp, mbind, M_bind. by destruct (f (env s)). Qed.

Definition later (t : Z) (e : timed_event) : timed_event := e <| last_call := t |>.

Lemma wp_reschedule_heartbeat Q s :
  (forall t s', did s s' [] -> conn s' = (conn s) <| send_heartbeat_event ::= later t |> -> Q tt s') ->
  wp reschedule_heartbeat Q s.
Proof.
  intros HQ. unfold reschedule_heartbeat. apply wp_bind, wp_gets, wp_on_event.
  eapply HQ; [|done]. eapply did_after; [apply did_tick|apply did_conn].
Qed.

Lemma wp_reschedule_timeout Q s :
  (forall t s', did s s' [] -> conn s' = (conn s) <| timeout_event ::= later t |> -> Q tt s') ->
  wp reschedule_timeout Q s.
Proof.
  intros HQ. unfold reschedule_timeout. apply wp_bind, wp_gets, wp_on_event.
  eapply HQ; [|done]. eapply did_after; [apply did_tick|apply did_conn].
Qed.

Definition armed (t : Z) (e : timed_event) : timed_event := e <| enabled := true |> <| last_call := t |>.

Lemma wp_enable_heartbeat Q s :
  (forall t s', did s s' [] -> conn s' = (conn s) <| send_heartbeat_event ::= armed t |> -> Q tt s') ->
  wp enable_heartbeat Q s.
Proof.
  intros HQ. unfold enable_heartbeat. apply wp_bind, wp_gets, wp_on_event.
  eapply HQ; [|done]. eapply did_after; [apply did_tick|apply did_conn].
Qed.

Lemma wp_enable_timeout Q s :
  (forall t s', did s s' [] -> conn s' = (conn s) <| timeout_event ::= armed t |> -> Q tt s') ->
  wp enable_timeout Q s.
Proof.
  intros HQ. unfold enable_timeout. apply wp_bind, wp_gets, wp_on_event.
  eapply HQ; [|done]. eapply did_after; [apply did_tick|apply did_conn].
Qed.

Lemma wp_enable_send Q s :
  (forall t s', did s s' [] -> conn s' = (conn s) <| send_event ::= armed t |> -> Q tt s') ->
  wp enable_send Q s.
Proof.
  intros HQ. unfold enable_send. apply wp_bind, wp_gets, wp_on_event.
  eapply HQ; [|done]. eapply did_after; [apply did_tick|apply did_conn].
Qed.

Lemma wp_now Q s : (forall ts s', is_u32 ts -> did s s' [] -> conn s' = conn s -> Q ts s') -> wp cur_timestamp_now Q s.
Proof. intros HQ. apply wp_timestamp. intros now Hn. apply HQ; [done|apply did_tick|done]. Qed.

Lemma did_context s s' pks : did s s' pks -> channel_context s' = channel_context s.
Proof. intros D. apply lf_context. by eapply did_frame. Qed.

(** [wires] of one packet. *)
Section Specs.
Context `{TransportOk}.

Lemma wp_mux_send pk r Q s : link_ok s -> role_ok s r -> sendable s pk ->
  (forall s', did s s' [pk] -> conn s' = conn s -> Q tt s') -> wp (redundancy_mux_send pk r) Q s.
Proof.
  intros Hl Hr Hs HQ. eapply wp_mono; [by apply redundancy_mux_send_ok|].
  intros [] s' (A & B & _ & C). by apply HQ.
Qed.

Lemma built_sendable s type i data p : link_ok s -> built (channel_context s) type i data p -> ids_ok i ->
  is_u16 type -> bytes_ok data -> zlen data <= PAYLOAD_MAX ->
  (type = RASTA_TYPE_DATA \/ type = RASTA_TYPE_RETRDATA -> exists msgs, data = encode msgs) -> sendable s p.
Proof.
  intros Hl Hb Hi Ht Hd Hn Hm. pose proof (crc_bytes_range _ (lk_crc _ Hl)).
  pose proof (checksum_len_range (channel_context s)). unfold PAYLOAD_MAX in *. split; [|split].
  - eapply built_wf; try done. lia.
  - rewrite (built_length _ _ _ _ _ Hb). lia.
  - by rewrite (built_type _ _ _ _ _ Hb), (built_data _ _ _ _ _ Hb).
Qed.

(** The packets without payload. *)
Definition control (type : Z) : M sys unit :=
  c ← gets conn; ts ← cur_timestamp_now; ctx ← gets mux_context;
  _ ← redundancy_mux_send (initializePacket type (ids_at c ts) 0 ctx) (role c);
  next_sn.

Lemma wp_control type Q s : sr_ok s -> is_u16 type -> type <> RASTA_TYPE_DATA -> type <> RASTA_TYPE_RETRDATA ->
  (forall ts pk s', is_u32 ts -> built (channel_context s) type (ids_at (conn s) ts) [] pk -> did s s' [pk] ->
     conn s' = (conn s) <| sn_t := u32 (sn_t (conn s) + 1) |> -> Q tt s') ->
  wp (control type) Q s.
Proof.
  intros Hs Ht Hd Hr HQ. unfold control. apply wp_bind, wp_gets, wp_bind, wp_now. intros ts s1 Hts D1 C1.
  pose proof (did_frame _ _ _ D1) as F1. pose proof (link_ok_frame _ _ F1 (ok_link _ Hs)) as L1.
  apply wp_bind, wp_gets. rewrite (lk_mux _ L1), (did_context _ _ _ D1).
  pose proof (initializePacket_built type (ids_at (conn s) ts) 0 (channel_context s)) as Hb.
  pose proof (checksum_len_range (channel_context s)). specialize (Hb (Z.le_refl 0) ltac:(lia)).
  change (zeros 0) with (@nil Z) in Hb. apply wp_bind. eapply wp_mux_send; [done| | |].
  - by apply (role_ok_frame _ _ _ F1), Hs.
  - apply (sendable_frame _ _ _ F1). eapply built_sendable; [apply Hs|done| |done|by constructor|done|by intros [?|?]].
    eapply conn_ok_ids; [apply Hs|done].
  - intros s2 D2 C2. unfold next_sn. apply wp_modify. eapply HQ; [done|done| |].
    + eapply did_after; [done|]. eapply did_then; [done|]. apply did_conn.
    + fields. by rewrite C2, C1.
Qed.

(** What a control message changes in the connection keeps it well-formed. *)
Lemma conn_ok_beat cfg ctx c sn f : conn_ok cfg ctx c ->
  conn_ok cfg ctx (c <| sn_t := u32 sn |> <| send_heartbeat_event ::= f |>).
Proof. intros []. split; fields; try done. apply u32_range. Qed.

Lemma wp_heartbeat (b : bool) Q s : sr_ok s ->
  (forall ts t pk s', is_u32 ts -> built (channel_context s) RASTA_TYPE_HB (ids_at (conn s) ts) [] pk ->
     did s s' [pk] -> conn s' = (conn s) <| sn_t := u32 (sn_t (conn s) + 1) |>
                                <| send_heartbeat_event ::= if b then later t else Datatypes.id |> -> Q tt s') ->
  wp (sendHeartbeat b) Q s.
Proof.
  intros Hs HQ.
  assert (E : sendHeartbeat b s = (control RASTA_TYPE_HB ≫= fun _ => when b reschedule_heartbeat) s).
  { unfold sendHeartbeat, control, createHeartbeat, mbind, M_bind, gets.
    destruct (cur_timestamp_now s) as [[ts s1]|]; [|done]. by destruct (redundancy_mux_send _ _ s1) as [[??]|]. }
  unfold wp. rewrite E. fold (wp (control RASTA_TYPE_HB ≫= fun _ => when b reschedule_heartbeat) Q s).
  apply wp_bind, wp_control; [done|split; zle|done..|].
  intros ts pk s1 Hts Hb D1 C1. unfold when. destruct b.
  - apply wp_reschedule_heartbeat. intros t s2 D2 C2. eapply (HQ ts t pk); [done|done|by eapply did_then|].
    by rewrite C2, C1.
  - apply wp_ret. eapply (HQ ts 0 pk); [done..|]. rewrite C1. by destruct (conn s).
Qed.

Lemma wp_retr_request Q s : sr_ok s ->
  (forall ts pk s', is_u32 ts -> built (channel_context s) RASTA_TYPE_RETRREQ (ids_at (conn s) ts) [] pk ->
     did s s' [pk] -> conn s' = (conn s) <| sn_t := u32 (sn_t (conn s) + 1) |> -> Q tt s') ->
  wp sendRetransmissionRequest Q s.
Proof. intros Hs HQ. apply (wp_control RASTA_TYPE_RETRREQ); [done|split; zle|done..]. Qed.

Lemma wp_retr_response Q s : sr_ok s ->
  (forall ts pk s', is_u32 ts -> built (channel_context s) RASTA_TYPE_RETRRESP (ids_at (conn s) ts) [] pk ->
     did s s' [pk] -> conn s' = (conn s) <| sn_t := u32 (sn_t (conn s) + 1) |> -> Q tt s') ->
  wp sendRetransmissionResponse Q s.
Proof. intros Hs HQ. apply (wp_control RASTA_TYPE_RETRRESP); [done|split; zle|done..]. Qed.

(** *** Sending application messages *)

Definition sending_possible (c : rasta_connection) (cfg : rasta_config_info) : bool :=
  let max := max_retransmission_queue_size (retransmission cfg) in
  let backlog := sr_retransmission_queue_item_count c in
  (backlog <? max) && (0 <? Z.min (sr_send_queue_item_count c) (max - backlog)).

(** The connection after one data packet with [n] messages. *)
Definition sent_data (n : nat) (bytes : list Z) (t : Z) (c : rasta_connection) : rasta_connection :=
  c <| fifo_send ::= fun q => mkQueue (q_max q) (drop n (q_items q)) |>
    <| fifo_retransmission ::= fun q => mkQueue (q_max q) (q_items q ++ [bytes]) |>
    <| sn_t := u32 (sn_t c + 1) |>
    <| send_heartbeat_event ::= later t |>.

(** With nothing left to send, the send timer stops. *)
Definition idle (c : rasta_connection) : rasta_connection :=
  if sr_send_queue_item_count c =? 0 then c <| send_event ::= disable_timed_event |> else c.

Lemma wp_pop_messages n : forall Q s, (n <= length (q_items (fifo_send (conn s))))%nat ->
  (forall s', did s s' [] ->
     conn s' = (conn s) <| fifo_send ::= fun q => mkQueue (q_max q) (drop n (q_items q)) |> ->
     Q (take n (q_items (fifo_send (conn s)))) s') -> wp (pop_messages n) Q s.
Proof.
  induction n as [|n IH]; intros Q s Hn HQ; cbn [pop_messages].
  - apply wp_ret, HQ; [apply did_refl|].
    destruct (conn s). unfold setf. cbn. by match goal with |- context [mkQueue (q_max ?q) _] => destruct q end.
  - apply wp_bind. unfold pop_send. apply wp_bind, wp_gets. unfold queue_pop.
    destruct (q_items (fifo_send (conn s))) as [|m l] eqn:Eq; [cbn in Hn; lia|]. cbn [length] in Hn.
    apply wp_bind, wp_modify, wp_ret, wp_bind, IH; [fields; cbn; lia|].
    intros s' D C. apply wp_ret. revert C. fields. cbn [q_items q_max]. intros C. cbn [take].
    apply HQ; [by eapply did_after; [apply did_conn|]|]. rewrite C. unfold setf. cbn. by rewrite Eq.
Qed.

Lemma encode_limit (k : Z) l : 0 <= k -> Forall (fun m => k * (2 + zlen m) <= PAYLOAD_MAX) l ->
  k * zlen (encode l) <= zlen l * PAYLOAD_MAX.
Proof.
  intros Hk. induction 1 as [|m l Hm _ IH]; [change (zlen (encode [])) with 0; change (zlen []) with 0; lia|]. rewrite zlen_encode_cons, zlen_cons. unfold PAYLOAD_MAX in *. lia.
Qed.

Lemma encode_fits cfg l : 0 <= max_packet (sending cfg) -> Forall (msg_fits cfg) l ->
  zlen l <= max_packet (sending cfg) -> zlen (encode l) <= PAYLOAD_MAX.
Proof.
  intros Hk Hl Hn. set (k := max_packet (sending cfg)) in *. pose proof (encode_limit k l Hk) as He.
  assert (Hb : Forall (fun m => k * (2 + zlen m) <= PAYLOAD_MAX) l) by (eapply Forall_impl; [exact Hl|by intros ? []]).
  specialize (He Hb). destruct (decide (k = 0)).
  - destruct l as [|m l]; [done|]. rewrite zlen_cons in Hn. pose proof (zlen_nonneg l). lia.
  - pose proof (zlen_nonneg l). unfold PAYLOAD_MAX in *. nia.
Qed.

Lemma send_backlog_bound c cfg : is_u32 (max_packet (sending cfg)) -> queue_ok (fifo_send c) ->
  0 <= send_backlog_size c cfg <= max_packet (sending cfg) /\
  send_backlog_size c cfg <= sr_send_queue_item_count c.
Proof.
  intros Hm Hq. unfold is_u32 in Hm. unfold send_backlog_size, sr_send_queue_item_count, sr_retransmission_queue_item_count.
  pose proof (zlen_nonneg (q_items (fifo_send c))). unfold queue_size.
  repeat case_if; zbool; lia.
Qed.

Lemma take_send_fits cfg ctx c n : config_ok cfg -> conn_ok cfg ctx c -> Z.of_nat n <= max_packet (sending cfg) ->
  Forall bytes_ok (take n (q_items (fifo_send c))) /\ zlen (encode (take n (q_items (fifo_send c)))) <= PAYLOAD_MAX.
Proof.
  intros Hc Ho Hn. pose proof (Forall_take _ n _ (co_send _ _ _ Ho)) as Hf. split.
  - eapply Forall_impl; [exact Hf|]. by intros ? [].
  - apply (encode_fits cfg); [apply Hc|done|]. unfold zlen. rewrite length_take. lia.
Qed.

Lemma built_retr s type i msgs pk : link_ok s -> built (channel_context s) type i (encode msgs) pk -> ids_ok i ->
  is_u16 type -> Forall bytes_ok msgs -> zlen (encode msgs) <= PAYLOAD_MAX ->
  sendable s pk /\ retr_packet (channel_context s) pk.
Proof.
  intros Hl Hb Hi Ht Hm Hn.
  assert (Hs : sendable s pk) by (eapply built_sendable; eauto using encode_bytes).
  split; [done|]. split; [apply Hs|]. exists msgs. by rewrite (built_data _ _ _ _ _ Hb).
Qed.

Lemma idle_queue c : fifo_retransmission (idle c) = fifo_retransmission c.
Proof. unfold idle. by case_if. Qed.

(** The end of the handler: an empty send queue stops its timer. *)
Lemma wp_send_done Q s : (forall s', did s s' [] -> conn s' = idle (conn s) -> Q 0 s') ->
  wp (c ← gets conn; _ ← when (sr_send_queue_item_count c =? 0) (setc (fun c => c <| send_event ::= disable_timed_event |>));
      mret 0) Q s.
Proof.
  intros HQ. apply wp_bind, wp_gets, wp_bind. unfold when. case_if.
  - apply wp_modify, wp_ret, HQ; [apply did_conn|]. unfold idle. by rewrite Heqb.
  - apply wp_ret, wp_ret, HQ; [apply did_refl|]. unfold idle. by rewrite Heqb.
Qed.

Lemma wp_data_send Q s : sr_ok s ->
  (sending_possible (conn s) (config s) = false ->
     forall s', did s s' [] -> conn s' = idle (conn s) -> Q 0 s') ->
  (sending_possible (conn s) (config s) = true ->
     forall ts t pk s', is_u32 ts ->
       let n := Z.to_nat (send_backlog_size (conn s) (config s)) in
       built (channel_context s) RASTA_TYPE_DATA (ids_at (conn s) ts) (encode (take n (q_items (fifo_send (conn s))))) pk ->
       retr_packet (channel_context s) pk -> did s s' [pk] ->
       conn s' = idle (sent_data n (wire (channel_context s) pk) t (conn s)) -> Q 0 s') ->
  wp data_send_event Q s.
Proof.
  intros Hs Hno Hyes. unfold data_send_event. apply wp_bind, wp_gets. unfold Datatypes.id. cbv zeta.
  fold (sending_possible (conn s) (config s)). apply wp_bind.
  unfold when at 1. destruct (sending_possible (conn s) (config s)) eqn:Ep.
  2:{ apply wp_ret, wp_send_done. intros s' D C. by apply Hno. }
  destruct Hs as [L R Cf O]. set (n := Z.to_nat (send_backlog_size (conn s) (config s))) in *.
  destruct (send_backlog_bound (conn s) (config s)) as [[Hnn Hmp] Hsz]; [apply Cf|apply O|].
  destruct (take_send_fits (config s) _ (conn s) n Cf O) as [Hmb Hml]; [lia|].
  assert (Hn : (n <= length (q_items (fifo_send (conn s))))%nat).
  { unfold sr_send_queue_item_count, queue_size, zlen in Hsz. lia. }
  apply wp_bind, wp_pop_messages; [done|]. intros s1 D1 C1.
  apply wp_bind, wp_now. intros ts s2 Hts D2 C2.
  pose proof (did_after _ _ _ _ D1 D2) as D12. pose proof (did_frame _ _ _ D12) as F2.
  pose proof (link_ok_frame _ _ F2 L) as L2. pose proof (did_context _ _ _ D12) as X2.
  set (msgs := take n (q_items (fifo_send (conn s)))) in *. rewrite (lk_mux _ L).
  pose proof (checksum_len_range (channel_context s)).
  destruct (createDataMessage_built (channel_context s) (ids_at (conn s) ts) msgs) as (pk & Epk & Hb);
    [unfold PAYLOAD_MAX in Hml; lia|].
  apply wp_bind, wp_lift. exists pk. split; [done|].
  destruct (built_retr s _ _ _ _ L Hb) as [Hsend Hretr]; [by eapply conn_ok_ids|split; zle|done|done|].
  apply wp_bind. unfold wp at 1.
  assert (Eser : serialise_packet pk mux_context s2 = Ok (wire (channel_context s) pk, s2)).
  { rewrite <- X2. rewrite <- serialise_wire; [|done|rewrite X2; apply Hsend].
    unfold serialise_packet, mbind, M_bind, gets, Datatypes.id. by rewrite (lk_mux _ L2). }
  rewrite Eser. apply wp_bind. unfold push_retransmission. apply wp_modify, wp_bind.
  set (s3 := s2 <| conn ::= _ |>). assert (D3 : did s s3 []) by (eapply did_then; [exact D12|apply did_conn]).
  pose proof (did_frame _ _ _ D3) as F3. eapply wp_mux_send.
  - by eapply link_ok_frame.
  - by eapply role_ok_frame.
  - by eapply sendable_frame.
  - intros s4 D4 C4. apply wp_bind, wp_modify, wp_reschedule_heartbeat. intros t s5 D5 C5. apply wp_send_done.
    intros s6 D6 C6. apply (Hyes eq_refl ts t pk s6); [done|done|done| |].
    + eapply did_after; [exact D3|]. eapply did_then; [exact D4|]. eapply did_then; [apply did_conn|].
      by eapply did_then.
    + rewrite C6, C5. fields. f_equal. rewrite C4. unfold s3. fields. rewrite C2, C1.
      assert (Hp : (queue_push (fifo_retransmission (conn s)) (Some (wire (channel_context s) pk))).2 =
        mkQueue (q_max (fifo_retransmission (conn s))) (q_items (fifo_retransmission (conn s)) ++ [wire (channel_context s) pk])).
      { rewrite queue_push_fits; [done|]. unfold sending_possible, sr_retransmission_queue_item_count in Ep. zbool.
        by rewrite (co_retr_max _ _ _ O). }
      rewrite (built_sn _ _ _ _ _ Hb). revert Hp. generalize (wire (channel_context s) pk). intros w Hp.
      unfold sent_data, setf. cbn -[queue_push snd u32]. by rewrite Hp.
Qed.
(** What one run of the send handler does to the connection [c], and what it sends. *)
Definition flushed (cfg : rasta_config_info) (ctx : rasta_hashing_context_t) (c c' : rasta_connection)
    (pks : list RastaPacket) : Prop :=
  if sending_possible c cfg then
    exists ts t pk, is_u32 ts /\ pks = [pk] /\ retr_packet ctx pk /\
      let n := Z.to_nat (send_backlog_size c cfg) in
      built ctx RASTA_TYPE_DATA (ids_at c ts) (encode (take n (q_items (fifo_send c)))) pk /\
      c' = idle (sent_data n (wire ctx pk) t c)
  else pks = [] /\ c' = idle c.

Lemma wp_data_flush Q s : sr_ok s ->
  (forall s' pks, did s s' pks -> flushed (config s) (channel_context s) (conn s) (conn s') pks -> Q 0 s') ->
  wp data_send_event Q s.
Proof.
  intros Hs HQ. unfold flushed in HQ. apply wp_data_send; [done| |]; intros Ep; rewrite Ep in HQ.
  - intros s' D C. by eapply HQ.
  - intros ts t pk s' Hts n Hb Hr D C. eapply HQ; [exact D|]. by exists ts, t, pk.
Qed.

(** The fields neither sending nor confirming touches. *)
Definition same_session (c c' : rasta_connection) : Prop :=
  c' = c <| fifo_send := fifo_send c' |> <| fifo_retransmission := fifo_retransmission c' |>
         <| sn_t := sn_t c' |> <| send_heartbeat_event := send_heartbeat_event c' |>
         <| send_event := send_event c' |>.

Lemma idle_session c : same_session c (idle c).
Proof. unfold idle, same_session. by case_if; destruct c. Qed.

Lemma same_session_trans c1 c2 c3 : same_session c1 c2 -> same_session c2 c3 -> same_session c1 c3.
Proof. unfold same_session. intros -> ->. by destruct c1. Qed.

Lemma session_role c c' : same_session c c' -> role c' = role c.
Proof. intros E. by rewrite E. Qed.
Lemma session_state c c' : same_session c c' -> current_state c' = current_state c.
Proof. intros E. by rewrite E. Qed.

Lemma flushed_session cfg ctx c c' pks : flushed cfg ctx c c' pks -> same_session c c'.
Proof.
  unfold flushed. case_if.
  - intros (ts & t & pk & _ & _ & _ & _ & ->). eapply same_session_trans; [|apply idle_session]. by destruct c.
  - intros [_ ->]. apply idle_session.
Qed.

Lemma idle_ok cfg ctx c : conn_ok cfg ctx c -> conn_ok cfg ctx (idle c).
Proof. intros []. unfold idle. case_if; split; done. Qed.

Lemma queue_ok_app {A} (q : queue A) x : queue_ok q -> queue_size q < q_max q ->
  queue_ok (mkQueue (q_max q) (q_items q ++ [x])).
Proof. intros Hq Hl. pose proof (queue_push_ok q (Some x) Hq) as H1. by rewrite queue_push_fits in H1. Qed.

Lemma queue_ok_sub {A} (q : queue A) (l : list A) : queue_ok q -> (length l <= length (q_items q))%nat ->
  queue_ok (mkQueue (q_max q) l).
Proof. intros [Hq Hs] Hl. split; [done|]. unfold queue_size, zlen in *. cbn. lia. Qed.

Lemma sent_data_ok cfg ctx c n pk t : conn_ok cfg ctx c -> sending_possible c cfg = true -> retr_packet ctx pk ->
  conn_ok cfg ctx (sent_data n (wire ctx pk) t c).
Proof.
  intros [] Hp Hr. unfold sending_possible, sr_retransmission_queue_item_count in Hp. zbool. split; try done.
  - apply u32_range.
  - unfold sent_data. fields. apply queue_ok_sub; [done|]. rewrite length_drop. lia.
  - unfold sent_data. fields. apply queue_ok_app; [done|]. by rewrite co_retr_max0.
  - unfold sent_data. fields. by apply Forall_drop.
  - destruct co_retr0 as (pks & E & F). exists (pks ++ [pk]). unfold unconfirmed, sent_data. fields. cbn [q_items].
    rewrite E, fmap_app. split; [done|]. apply Forall_app. by split; [|constructor].
Qed.

Lemma flushed_ok cfg ctx c c' pks : conn_ok cfg ctx c -> flushed cfg ctx c c' pks -> conn_ok cfg ctx c'.
Proof.
  unfold flushed. intros Hc. destruct (sending_possible c cfg) eqn:Ep.
  - intros (ts & t & pk & _ & _ & Hr & _ & ->). by apply idle_ok, sent_data_ok.
  - intros [_ ->]. by apply idle_ok.
Qed.

(** *** Confirmation *)

(** What is left after the packet with sequence number [cs] is confirmed. *)
Fixpoint drop_confirmed (cs : Z) (pks : list RastaPacket) : list RastaPacket :=
  match pks with
  | [] => []
  | pk :: pks => if p_sequence_number pk =? cs then pks else drop_confirmed cs pks
  end.

Definition with_unconfirmed (ctx : rasta_hashing_context_t) (pks : list RastaPacket) (c : rasta_connection) :
    rasta_connection :=
  c <| fifo_retransmission ::= fun q => mkQueue (q_max q) (wire ctx <$> pks) |>.

Lemma wp_remove_loop fuel : forall pks Q s, link_ok s -> unconfirmed (channel_context s) (conn s) pks ->
  (length pks < fuel)%nat ->
  (forall s', did s s' [] ->
     conn s' = with_unconfirmed (channel_context s) (drop_confirmed (cs_r (conn s)) pks) (conn s) -> Q tt s') ->
  wp (remove_confirmed_loop fuel) Q s.
Proof.
  induction fuel as [|fuel IH]; intros pks Q s L [E F] Hf HQ; [lia|]. cbn [remove_confirmed_loop].
  apply wp_bind, wp_gets. unfold queue_pop. rewrite E. destruct pks as [|pk pks]; cbn [fmap list_fmap].
  - apply wp_ret, HQ; [apply did_refl|]. unfold with_unconfirmed. cbn [drop_confirmed fmap list_fmap]. 
    destruct (conn s). unfold setf. cbn in *. destruct fifo_retransmission. cbn in *. by subst.
  - inversion F as [|? ? [Hwf _] F']; subst. apply wp_bind, wp_modify. set (s1 := s <| conn ::= _ |>).
    assert (D1 : did s s1 []) by apply did_conn. pose proof (did_context _ _ _ D1) as X1.
    apply wp_bind. unfold wp at 1. rewrite <- X1, parse_wire; [|by eapply link_ok_frame, L; eapply did_frame|by rewrite X1].
    change (p_sequence_number (received_packet (channel_context s1) pk)) with (p_sequence_number pk).
    change (cs_r (conn s)) with (cs_r (conn s1)) in HQ. cbn [drop_confirmed] in HQ.
    change (cs_r (conn s)) with (cs_r (conn s1)).
    destruct (p_sequence_number pk =? cs_r (conn s1)).
    + apply wp_ret, HQ; [done|]. by unfold s1, with_unconfirmed, setf; destruct (conn s).
    + apply (IH pks).
      * by eapply link_ok_frame, L; eapply did_frame.
      * split; [|by rewrite X1]. by rewrite X1.
      * cbn in Hf. lia.
      * intros s' D C. apply HQ; [by eapply did_after|]. rewrite C, X1.
        by unfold s1, with_unconfirmed, setf; destruct (conn s).
Qed.

Lemma drop_confirmed_suffix cs pks : exists pre, pks = pre ++ drop_confirmed cs pks.
Proof.
  induction pks as [|pk pks [pre IH]]; cbn; [by exists []|].
  case_if; [by exists [pk]|]. exists (pk :: pre). cbn. by rewrite <- IH.
Qed.

Lemma with_unconfirmed_ok cfg ctx c pks pks' : conn_ok cfg ctx c -> unconfirmed ctx c pks ->
  (length pks' <= length pks)%nat -> Forall (retr_packet ctx) pks' -> conn_ok cfg ctx (with_unconfirmed ctx pks' c).
Proof.
  intros [] [E _] Hl F. unfold with_unconfirmed. split; fields; try done.
  - apply queue_ok_sub; [done|]. by rewrite E, !length_fmap.
  - by exists pks'.
Qed.

Lemma drop_confirmed_ok cfg ctx c pks cs : conn_ok cfg ctx c -> unconfirmed ctx c pks ->
  conn_ok cfg ctx (with_unconfirmed ctx (drop_confirmed cs pks) c).
Proof.
  intros Hc Hu. destruct (drop_confirmed_suffix cs pks) as [pre Hp]. eapply with_unconfirmed_ok; [done..| |].
  - apply (f_equal length) in Hp. rewrite length_app in Hp. lia.
  - destruct Hu as [_ F]. rewrite Hp in F. by apply Forall_app in F as [_ F].
Qed.

(** The queue is thinned; a full send queue is then flushed. *)
Definition confirmed (cfg : rasta_config_info) (ctx : rasta_hashing_context_t) (pks : list RastaPacket)
    (c c' : rasta_connection) (out : list RastaPacket) : Prop :=
  let c1 := with_unconfirmed ctx (drop_confirmed (cs_r c) pks) c in
  if queue_full (fifo_send c) then flushed cfg ctx c1 c' out else out = [] /\ c' = c1.

Lemma wp_remove_confirmed pks Q s : sr_ok s -> unconfirmed (channel_context s) (conn s) pks ->
  (forall s' out, did s s' out -> sr_ok s' ->
     confirmed (config s) (channel_context s) pks (conn s) (conn s') out -> Q tt s') ->
  wp sr_remove_confirmed_messages Q s.
Proof.
  intros Hs Hu HQ. unfold sr_remove_confirmed_messages. apply wp_bind, wp_gets, wp_bind.
  apply (wp_remove_loop _ pks); [apply Hs|done|destruct Hu as [-> _]; rewrite length_fmap; lia|].
  intros s1 D1 C1. pose proof (did_frame _ _ _ D1) as F1.
  assert (S1 : sr_ok s1).
  { eapply sr_ok_frame; [done|done| |].
    - rewrite C1. apply (role_ok_frame _ _ _ F1), Hs.
    - rewrite C1. apply drop_confirmed_ok; [apply Hs|done]. }
  apply wp_bind, wp_gets. unfold when. unfold confirmed in HQ.
  assert (Ef : queue_full (fifo_send (conn s1)) = queue_full (fifo_send (conn s))) by (by rewrite C1).
  rewrite Ef. destruct (queue_full (fifo_send (conn s))).
  - apply wp_bind, wp_data_flush; [done|]. intros s2 out D2 C2. apply wp_ret. pose proof (did_frame _ _ _ D2) as F2.
    rewrite (lf_config _ _ F1), (did_context _ _ _ D1), C1 in C2. apply (HQ s2 out).
    + by eapply did_after.
    + eapply sr_ok_frame; [exact S1|done| |].
      * assert (E2 : role (conn s2) = role (conn s1)) by (rewrite (session_role _ _ (flushed_session _ _ _ _ _ C2)), C1; done).
        rewrite E2. apply (role_ok_frame _ _ _ F2), S1.
      * eapply flushed_ok; [apply S1|]. rewrite (lf_config _ _ F1), (did_context _ _ _ D1), C1. exact C2.
    + exact C2.
  - apply wp_ret, (HQ s1 []); [done|done|]. by rewrite C1.
Qed.
(** *** Retransmission *)

#[local] Opaque wire.

(** [news] are the packets [olds], numbered from [sn] on and marked as
    retransmitted, with unchanged payload. *)
Fixpoint renumbered (ctx : rasta_hashing_context_t) (c : rasta_connection) (sn : Z) (olds news : list RastaPacket) :
    Prop :=
  match olds, news with
  | [], [] => True
  | p :: olds, q :: news =>
      (exists ts, is_u32 ts /\ built ctx RASTA_TYPE_RETRDATA
         (mkIds (remote_id c) (my_id c) sn (cs_t c) ts (ts_r c)) (p_data p) q) /\
      renumbered ctx c (u32 (sn + 1)) olds news
  | _, _ => False
  end.

Definition count_up (sn : Z) {A} (l : list A) : Z := foldl (fun sn _ => u32 (sn + 1)) sn l.

(** The connection after these packets were put into the queue and sent. *)
Definition requeued (ctx : rasta_hashing_context_t) (news : list RastaPacket) (t : Z) (c : rasta_connection) :
    rasta_connection :=
  c <| fifo_retransmission ::= fun q => mkQueue (q_max q) (q_items q ++ (wire ctx <$> news)) |>
    <| sn_t := count_up (sn_t c) news |>
    <| send_heartbeat_event ::= later t |>.

Lemma requeued_cons ctx pk news t t' c :
  requeued ctx news t' (requeued ctx [pk] t c) = requeued ctx (pk :: news) t' c.
Proof.
  unfold requeued. conn_eq. cbn [fmap list_fmap q_max q_items]. by rewrite <- app_assoc.
Qed.

Lemma received_data ctx pk : p_data (received_packet ctx pk) = p_data pk.
Proof. unfold received_packet. by fields. Qed.

Lemma extract_received ctx pk : retr_packet ctx pk ->
  exists msgs, extractMessageData (received_packet ctx pk) = Ok msgs /\ p_data pk = encode msgs /\
    Forall bytes_ok msgs /\ zlen (encode msgs) <= PAYLOAD_MAX.
Proof.
  intros (_ & msgs & E & Hb & Hl). exists msgs. split; [|done].
  apply extractMessageData_encode; [by rewrite received_data|]. unfold PAYLOAD_MAX in Hl. lia.
Qed.

Lemma requeued_ok cfg ctx c pk t : conn_ok cfg ctx c -> retr_packet ctx pk ->
  queue_size (fifo_retransmission c) < q_max (fifo_retransmission c) -> conn_ok cfg ctx (requeued ctx [pk] t c).
Proof.
  intros [] Hr Hq. unfold requeued. split; fields; try done.
  - apply u32_range.
  - by apply queue_ok_app.
  - destruct co_retr0 as (pks & E & F). exists (pks ++ [pk]). unfold unconfirmed. fields. cbn [q_items].
    rewrite E, fmap_app. split; [done|]. apply Forall_app. by split; [|constructor].
Qed.

Lemma wp_retransmit_one pk Q s : sr_ok s -> retr_packet (channel_context s) pk ->
  queue_size (fifo_retransmission (conn s)) < q_max (fifo_retransmission (conn s)) ->
  (forall t new s', renumbered (channel_context s) (conn s) (sn_t (conn s)) [pk] [new] ->
     did s s' [new] -> conn s' = requeued (channel_context s) [new] t (conn s) -> sr_ok s' -> Q tt s') ->
  wp (retransmit_one (wire (channel_context s) pk)) Q s.
Proof.
  intros Hs Hr Hq HQ. destruct (extract_received _ _ Hr) as (msgs & Ex & Ed & Hmb & Hml).
  pose proof Hs as [L R Cf O]. unfold retransmit_one. apply wp_bind. unfold wp at 1.
  rewrite parse_wire by (done || apply Hr). apply wp_bind, wp_lift. exists msgs. split; [done|].
  apply wp_bind, wp_gets, wp_bind, wp_now. intros ts s1 Hts D1 C1. pose proof (did_frame _ _ _ D1) as F1.
  pose proof (did_context _ _ _ D1) as X1. pose proof (link_ok_frame _ _ F1 L) as L1.
  apply wp_bind, wp_gets. rewrite X1. pose proof (checksum_len_range (channel_context s)).
  destruct (createDataMessage_built (channel_context s) (ids_at (conn s) ts) msgs) as (p0 & Ep0 & Hb0);
    [unfold PAYLOAD_MAX in Hml; lia|].
  set (new := p0 <| p_type := RASTA_TYPE_RETRDATA |>).
  assert (Hb : built (channel_context s) RASTA_TYPE_RETRDATA (ids_at (conn s) ts) (encode msgs) new) by (destruct Hb0; by split).
  apply wp_bind, wp_lift. exists new. split; [unfold createRetransmittedDataMessage; by rewrite Ep0|].
  destruct (built_retr s _ _ _ _ L Hb) as [Hsend Hretr]; [by eapply conn_ok_ids|split; zle|done|done|].
  apply wp_bind. unfold wp at 1. rewrite serialise_wire; [|done|rewrite X1; apply Hsend]. rewrite X1.
  apply wp_bind. unfold push_retransmission. apply wp_modify. set (s3 := s1 <| conn ::= _ |>).
  assert (D3 : did s s3 []) by (eapply did_then; [exact D1|apply did_conn]). pose proof (did_frame _ _ _ D3) as F3.
  apply wp_bind. eapply wp_mux_send; [by eapply link_ok_frame|by eapply role_ok_frame|by eapply sendable_frame|].
  intros s4 D4 C4. apply wp_bind, wp_modify, wp_reschedule_heartbeat. intros t s5 D5 C5.
  assert (E5 : conn s5 = requeued (channel_context s) [new] t (conn s)).
  { rewrite C5. fields. rewrite C4. unfold s3. fields. rewrite C1.
    assert (Hp : (queue_push (fifo_retransmission (conn s)) (Some (wire (channel_context s) new))).2 =
        mkQueue (q_max (fifo_retransmission (conn s)))
          (q_items (fifo_retransmission (conn s)) ++ [wire (channel_context s) new])) by (by rewrite queue_push_fits).
    revert Hp. unfold requeued. cbn [fmap list_fmap]. generalize (wire (channel_context s) new). intros w Hp.
    unfold setf. cbn -[queue_push snd u32]. by rewrite Hp. }
  assert (D6 : did s s5 [new]).
  { eapply did_after; [exact D3|]. eapply did_then; [exact D4|]. eapply did_after; [apply did_conn|]. exact D5. }
  apply (HQ t new); [|done|done|].
  - split; [|done]. exists ts. split; [done|]. by rewrite Ed.
  - eapply sr_ok_frame; [done|by eapply did_frame| |].
    + rewrite E5. apply (role_ok_frame _ _ _ (did_frame _ _ _ D6)), R.
    + rewrite E5. by apply requeued_ok.
Qed.

Lemma renumbered_ext ctx c c' sn olds news : remote_id c' = remote_id c -> my_id c' = my_id c -> cs_t c' = cs_t c ->
  ts_r c' = ts_r c -> renumbered ctx c' sn olds news -> renumbered ctx c sn olds news.
Proof.
  intros E1 E2 E3 E4. revert sn news. induction olds as [|p olds IH]; intros sn [|q news]; cbn; try done.
  rewrite E1, E2, E3, E4. intros [Hp Hr]. split; [done|by apply IH].
Qed.

Lemma wp_retransmit_all pks : forall Q s, sr_ok s -> Forall (retr_packet (channel_context s)) pks ->
  queue_size (fifo_retransmission (conn s)) + zlen pks <= q_max (fifo_retransmission (conn s)) ->
  (forall t news s', renumbered (channel_context s) (conn s) (sn_t (conn s)) pks news ->
     did s s' news -> (conn s' = if decide (pks = []) then conn s else requeued (channel_context s) news t (conn s)) ->
     sr_ok s' -> Q tt s') ->
  wp (retransmit_all (wire (channel_context s) <$> pks)) Q s.
Proof.
  induction pks as [|pk pks IH]; intros Q s Hs Hall Hq HQ; cbn [fmap list_fmap retransmit_all].
  - by apply wp_ret, (HQ 0 []), Hs; [|apply did_refl|].
  - inversion Hall as [|? ? Hr Hall']; subst. rewrite zlen_cons in Hq. pose proof (zlen_nonneg pks).
    apply wp_bind, wp_retransmit_one; [done|done|lia|]. intros t new s1 [Hn _] D1 C1 S1.
    pose proof (did_context _ _ _ D1) as X1. rewrite <- X1. apply IH.
    + done.
    + by rewrite X1.
    + rewrite C1. unfold requeued. fields. unfold queue_size in *. cbn [q_items q_max fmap list_fmap].
      rewrite zlen_app. change (zlen [wire (channel_context s) new]) with 1. lia.
    + intros t' news s2 Hrn D2 C2 S2. rewrite X1, C1 in *.
      apply (HQ (if decide (pks = []) then t else t') (new :: news)); [|by apply (did_trans _ s1 _ [new])| |done].
      * split; [done|]. by eapply renumbered_ext, Hrn.
      * rewrite decide_False by done. rewrite C2. case_decide; [|by rewrite requeued_cons].
        subst pks. by destruct news.
Qed.

Lemma drain_ok n : forall Q s j, (n <= length (q_items (fifo_retransmission (conn s))))%nat ->
  j + Z.of_nat n <= max_retransmission_queue_size (retransmission (config s)) ->
  (forall s', did s s' [] ->
     conn s' = (conn s) <| fifo_retransmission ::= fun q => mkQueue (q_max q) (drop n (q_items q)) |> ->
     Q (take n (q_items (fifo_retransmission (conn s)))) s') -> wp (drain_retransmission n j) Q s.
Proof.
  induction n as [|n IH]; intros Q s j Hn Hj HQ; cbn [drain_retransmission].
  - apply wp_ret, HQ; [apply did_refl|].
    destruct (conn s). unfold setf. cbn. by match goal with |- context [mkQueue (q_max ?q) _] => destruct q end.
  - apply wp_bind, wp_gets. unfold Datatypes.id, queue_pop.
    destruct (q_items (fifo_retransmission (conn s))) as [|m l] eqn:Eq; [cbn in Hn; lia|]. cbn [length] in Hn.
    apply wp_bind, wp_modify. ztest (j <? max_retransmission_queue_size (retransmission (config s))).
    apply wp_bind, wp_ret, wp_bind, IH; [fields; cbn; lia|fields; lia|].
    intros s' D C. apply wp_ret. revert C. fields. cbn [q_items q_max]. intros C. cbn [take].
    apply HQ; [by eapply did_after; [apply did_conn|]|]. rewrite C. unfold setf. cbn. by rewrite Eq.
Qed.

(** The connection after retransmission. *)
Definition retransmitted (ctx : rasta_hashing_context_t) (news : list RastaPacket) (t : Z) (c : rasta_connection) :
    rasta_connection :=
  c <| fifo_retransmission ::= fun q => mkQueue (q_max q) (wire ctx <$> news) |>
    <| sn_t := u32 (count_up (sn_t c) news + 1) |>
    <| send_heartbeat_event ::= later t |>.

Lemma wp_retransmit_data pks Q s : sr_ok s -> unconfirmed (channel_context s) (conn s) pks ->
  (forall t ts hb news s', is_u32 ts -> renumbered (channel_context s) (conn s) (sn_t (conn s)) pks news ->
     built (channel_context s) RASTA_TYPE_HB
       (mkIds (remote_id (conn s)) (my_id (conn s)) (count_up (sn_t (conn s)) news) (cs_t (conn s)) ts (ts_r (conn s))) [] hb ->
     did s s' (news ++ [hb]) -> conn s' = retransmitted (channel_context s) news t (conn s) -> sr_ok s' -> Q tt s') ->
  wp sr_retransmit_data Q s.
Proof.
  intros Hs [Eu Fu] HQ. pose proof Hs as [L R Cf O]. unfold sr_retransmit_data. apply wp_bind, wp_gets, wp_bind, drain_ok.
  - done.
  - destruct (co_retr_queue _ _ _ O) as [_ Hq]. rewrite (co_retr_max _ _ _ O) in Hq. unfold queue_size, zlen in Hq. lia.
  - intros s1 D1 C1. rewrite firstn_all, Eu. pose proof (did_frame _ _ _ D1) as F1. pose proof (did_context _ _ _ D1) as X1.
    assert (C1' : conn s1 = with_unconfirmed (channel_context s) [] (conn s)).
    { rewrite C1. unfold with_unconfirmed. conn_eq. cbn [fmap list_fmap]. by rewrite drop_all. }
    assert (S1 : sr_ok s1).
    { eapply sr_ok_frame; [done|done| |]; rewrite C1'.
      - apply (role_ok_frame _ _ _ F1), R.
      - by eapply with_unconfirmed_ok; [done|split; [exact Eu|exact Fu]|cbn; lia|]. }
    rewrite <- X1. apply wp_bind, wp_retransmit_all; [done|by rewrite X1| |].
    { destruct (co_retr_queue _ _ _ O) as [_ Hq]. revert Hq. unfold queue_size. rewrite C1', Eu. unfold zlen at 1. rewrite length_fmap. fold (zlen pks).
      unfold with_unconfirmed. fields. cbn [q_max q_items fmap list_fmap]. by change (zlen (@nil (list Z))) with 0. }
    intros t news s2 Hn D2 C2 S2. pose proof (did_context _ _ _ D2) as X2.
    apply wp_heartbeat; [done|]. intros ts t2 hb s3 Hts Hb D3 C3. rewrite X2, X1 in Hb. rewrite X1, C1' in Hn.
    apply (renumbered_ext _ (conn s)) in Hn; [|done..]. change (sn_t (with_unconfirmed _ [] (conn s))) with (sn_t (conn s)) in Hn.
    assert (E3 : conn s3 = retransmitted (channel_context s) news t2 (conn s)).
    { rewrite C3, C2, X1. destruct pks; [destruct news; [|done]|];
        [rewrite decide_True by done|rewrite decide_False by done]; rewrite C1';
        unfold retransmitted, requeued, with_unconfirmed; by conn_eq. }
    assert (D : did s s3 (news ++ [hb])) by (eapply did_after; [exact D1|]; by eapply did_trans).
    apply (HQ t2 ts hb news); [done|done| |done|done|].
    + revert Hb. unfold ids_at. rewrite C2, X1. destruct pks; [destruct news; [|done]|];
        [rewrite decide_True by done|rewrite decide_False by done]; rewrite C1';
        unfold requeued, with_unconfirmed; by fields.
    + eapply sr_ok_frame; [exact S2|by eapply did_frame| |].
      * rewrite E3. apply (role_ok_frame _ _ _ (did_frame _ _ _ D)), R.
      * rewrite C3. by apply conn_ok_beat, S2.
Qed.
End Specs.
