(* ===== verification/Handlers.v ===== *)
(** * The packet handlers (src/c/retransmission/handlers.c) and [sr_receive]
    (src/c/retransmission/safety_retransmission.c) *)

From stdpp Require Import base numbers list.
From Stdlib Require Import ZArith Lia.
From S2P Require Import Prelude.
From S2P Require Import Fifo.
From S2P Require Import Hashing.
From S2P Require Import Packet.
From S2P Require Import Factory.
From S2P Require Import World.
From S2P Require Import Config.
From S2P Require Import State.
From S2P Require Import Transport.
From S2P Require Import Redundancy.
From S2P Require Import Connection.
From S2P Require Import Retransmission.

Local Open Scope Z_scope.
Local Open Scope record_scope.

Definition set_state (st : rasta_sr_state) : M sys unit := setc (fun c => c <| current_state := st |>).
Definition count_error (f : rasta_error_counters -> rasta_error_counters) : M sys unit :=
  setc (fun c => c <| errors ::= f |>).
Definition count_sn (e : rasta_error_counters) : rasta_error_counters := e <| sn := u32 (sn e + 1) |>.
Definition count_cs (e : rasta_error_counters) : rasta_error_counters := e <| cs := u32 (cs e + 1) |>.
Definition count_type (e : rasta_error_counters) : rasta_error_counters := e <| type := u32 (type e + 1) |>.
Definition count_safety (e : rasta_error_counters) : rasta_error_counters := e <| safety := u32 (safety e + 1) |>.
Definition count_address (e : rasta_error_counters) : rasta_error_counters := e <| address := u32 (address e + 1) |>.

Section Handlers.
Context `{Transport}.

(* retransmission/handlers.c handle_discreq *)
Definition handle_discreq (receivedPacket : RastaPacket) : M sys Z :=
  _ ← set_state RASTA_CONNECTION_CLOSED;
  _ ← setc sr_reset_connection;
  _ ← redundancy_channel_close;
  data ← with_factory_error (fun err => extractRastaDisconnectionData err receivedPacket);
  mret 1.

(* retransmission/handlers.c handle_data *)
Definition handle_data (receivedPacket : RastaPacket) : M sys Z :=
  s ← gets Datatypes.id;
  let c := conn s in
  if sr_sn_in_seq c receivedPacket then
    match current_state c with
    | RASTA_CONNECTION_START | RASTA_CONNECTION_KEX_REQ | RASTA_CONNECTION_KEX_RESP | RASTA_CONNECTION_KEX_AUTH =>
        _ ← sr_close_connection RASTA_DISC_REASON_UNEXPECTEDTYPE 0; mret 0
    | RASTA_CONNECTION_UP =>
        if sr_cts_in_seq c (sending (config s)) receivedPacket then
          _ ← sr_add_app_messages_to_buffer receivedPacket;
          _ ← setc (update_connection_attrs receivedPacket);
          _ ← setc (update_confirmed_attrs receivedPacket);
          _ ← sr_remove_confirmed_messages;
          mret 1
        else
          _ ← count_error count_cs;
          _ ← sr_close_connection RASTA_DISC_REASON_PROTOCOLERROR 0;
          mret 0
    | RASTA_CONNECTION_RETRRUN =>
        if sr_cts_in_seq c (sending (config s)) receivedPacket then
          _ ← setc (update_connection_attrs receivedPacket); mret 0
        else
          _ ← sr_close_connection RASTA_DISC_REASON_PROTOCOLERROR 0; mret 0
    | _ => mret 0
    end
  else
    match current_state c with
    | RASTA_CONNECTION_START => _ ← sr_close_connection RASTA_DISC_REASON_UNEXPECTEDTYPE 0; mret 0
    | RASTA_CONNECTION_RETRRUN | RASTA_CONNECTION_UP =>
        _ ← count_error count_sn;
        _ ← sendRetransmissionRequest;
        _ ← set_state RASTA_CONNECTION_RETRREQ;
        mret 0
    | _ => mret 0
    end.

(** After closing a connection in state RETRRUN the handler goes on. *)
(* retransmission/handlers.c handle_retrreq *)
Definition handle_retrreq (receivedPacket : RastaPacket) : M sys Z :=
  c ← gets conn;
  if sr_sn_in_seq c receivedPacket then
    _ ← when (bool_decide (current_state c = RASTA_CONNECTION_RETRRUN))
      (sr_close_connection RASTA_DISC_REASON_RETRFAILED 0);
    _ ← setc (update_connection_attrs receivedPacket);
    _ ← setc (fun c => c <| cs_r := p_confirmed_sequence_number receivedPacket |>);
    _ ← sr_remove_confirmed_messages;
    _ ← sendRetransmissionResponse;
    _ ← sr_retransmit_data;
    c ← gets conn;
    _ ← match current_state c with
        | RASTA_CONNECTION_UP => set_state RASTA_CONNECTION_UP
        | RASTA_CONNECTION_RETRREQ => set_state RASTA_CONNECTION_RETRREQ
        | _ => mret tt
        end;
    mret 0
  else
    _ ← setc (fun c => c <| cs_r := p_confirmed_sequence_number receivedPacket |>);
    _ ← sr_remove_confirmed_messages;
    _ ← sendRetransmissionResponse;
    _ ← sr_retransmit_data;
    _ ← set_state RASTA_CONNECTION_RETRREQ;
    mret 0.

(* retransmission/handlers.c handle_retrresp *)
Definition handle_retrresp (receivedPacket : RastaPacket) : M sys Z :=
  c ← gets conn;
  match current_state c with
  | RASTA_CONNECTION_RETRREQ =>
      _ ← set_state RASTA_CONNECTION_RETRRUN;
      _ ← setc (update_connection_attrs receivedPacket);
      _ ← setc (update_confirmed_attrs receivedPacket);
      mret 0
  | _ => _ ← sr_close_connection RASTA_DISC_REASON_UNEXPECTEDTYPE 0; mret 0
  end.

(* retransmission/handlers.c handle_retrdata *)
Definition handle_retrdata (receivedPacket : RastaPacket) : M sys Z :=
  s ← gets Datatypes.id;
  let c := conn s in
  if sr_sn_in_seq c receivedPacket then
    match current_state c with
    | RASTA_CONNECTION_UP => _ ← sr_close_connection RASTA_DISC_REASON_UNEXPECTEDTYPE 0; mret 0
    | RASTA_CONNECTION_RETRRUN =>
        if negb (sr_cts_in_seq c (sending (config s)) receivedPacket) then
          _ ← sr_close_connection RASTA_DISC_REASON_PROTOCOLERROR 0; mret 0
        else
          _ ← sr_add_app_messages_to_buffer receivedPacket;
          _ ← setc (update_connection_attrs receivedPacket);
          _ ← setc (fun c => c <| cs_r := p_confirmed_sequence_number receivedPacket |>);
          mret 1
    | _ => mret 0
    end
  else
    match current_state c with
    | RASTA_CONNECTION_UP => _ ← sr_close_connection RASTA_DISC_REASON_UNEXPECTEDTYPE 0; mret 0
    | RASTA_CONNECTION_RETRRUN =>
        _ ← sendRetransmissionRequest;
        _ ← set_state RASTA_CONNECTION_RETRREQ;
        mret 0
    | _ => mret 0
    end.

(** A connection comes up in state [started].  Closing does not end the handler. *)
(* retransmission/handlers.c:268-327 handle_hb *)
Definition handle_hb_start_in (started : rasta_sr_state) (receivedPacket : RastaPacket) : M sys Z :=
  c ← gets conn;
  _ ← when (negb (sr_sn_in_seq c receivedPacket))
    (match role c with
     | RASTA_ROLE_SERVER => sr_close_connection RASTA_DISC_REASON_SEQNERROR 0
     | RASTA_ROLE_CLIENT => sr_close_connection RASTA_DISC_REASON_UNEXPECTEDTYPE 0
     end);
  c ← gets conn;
  _ ← when (bool_decide (role c = RASTA_ROLE_CLIENT)) (sr_close_connection RASTA_DISC_REASON_UNEXPECTEDTYPE 0);
  s ← gets Datatypes.id;
  if sr_cts_in_seq (conn s) (sending (config s)) receivedPacket then
    _ ← setc (update_connection_attrs receivedPacket);
    _ ← setc (fun c => c <| cs_r := p_confirmed_sequence_number receivedPacket |>);
    _ ← set_state started;
    _ ← setc (fun c => c <| hb_locked := false |>);
    _ ← enable_heartbeat;
    _ ← enable_timeout;
    _ ← setc (fun c => c <| is_new := true |>);
    mret 1
  else
    _ ← sr_close_connection RASTA_DISC_REASON_PROTOCOLERROR 0;
    mret 0.

(** Without a key exchange there is only the mode NONE. *)
(* retransmission/handlers.c:296-302 handle_hb *)
Definition state_after_hb (m : KEY_EXCHANGE_MODE) : rasta_sr_state :=
  match m with KEY_EXCHANGE_MODE_NONE => RASTA_CONNECTION_UP end.

(* retransmission/handlers.c:268-327 handle_hb *)
Definition handle_hb_start (receivedPacket : RastaPacket) : M sys Z :=
  cfg ← gets config; handle_hb_start_in (state_after_hb (mode (kex cfg))) receivedPacket.

(* retransmission/handlers.c handle_hb *)
Definition handle_hb (receivedPacket : RastaPacket) : M sys Z :=
  s ← gets Datatypes.id;
  let c := conn s in
  if bool_decide (current_state c = RASTA_CONNECTION_START) then handle_hb_start receivedPacket
  else if sr_sn_in_seq c receivedPacket then
    match current_state c with
    | RASTA_CONNECTION_UP | RASTA_CONNECTION_RETRRUN | RASTA_CONNECTION_KEX_REQ | RASTA_CONNECTION_KEX_RESP
    | RASTA_CONNECTION_KEX_AUTH =>
        if sr_cts_in_seq c (sending (config s)) receivedPacket then
          _ ← sr_update_timeout_interval (p_confirmed_timestamp receivedPacket);
          _ ← sr_diagnostic_update receivedPacket;
          _ ← setc (update_connection_attrs receivedPacket);
          _ ← setc (update_confirmed_attrs receivedPacket);
          _ ← sr_remove_confirmed_messages;
          c ← gets conn;
          _ ← when (bool_decide (current_state c = RASTA_CONNECTION_RETRRUN)) (set_state RASTA_CONNECTION_UP);
          mret 0
        else
          _ ← sr_close_connection RASTA_DISC_REASON_TIMEOUT 0;
          mret 0
    | _ => mret 0
    end
  else
    match current_state c with
    | RASTA_CONNECTION_UP | RASTA_CONNECTION_RETRRUN => _ ← set_state RASTA_CONNECTION_RETRREQ; mret 0
    | _ => mret 0
    end.

(* retransmission/handlers.c handle_received_packet *)
Definition handle_received_packet (receivedPacket : RastaPacket) : M sys Z :=
  let type := p_type receivedPacket in
  if type =? RASTA_TYPE_RETRDATA then handle_retrdata receivedPacket
  else if type =? RASTA_TYPE_DATA then handle_data receivedPacket
  else if type =? RASTA_TYPE_RETRREQ then handle_retrreq receivedPacket
  else if type =? RASTA_TYPE_RETRRESP then handle_retrresp receivedPacket
  else if type =? RASTA_TYPE_DISCREQ then handle_discreq receivedPacket
  else if type =? RASTA_TYPE_HB then handle_hb receivedPacket
  else _ ← count_error count_type; mret 0.

(* retransmission/handlers.c:405-407 handle_conreq *)
Definition version_ok (cfg : rasta_config_info) (version : list Z) : bool :=
  (compare_version RASTA_VERSION version =? 0) || (compare_version RASTA_VERSION version =? -1) ||
  version_accepted cfg version.

(* retransmission/handlers.c:413-440 handle_conreq *)
Definition accept_connection (receivedPacket : RastaPacket) (connectionData : RastaConnectionData) : M sys unit :=
  cfg ← gets config;
  _ ← setc (update_connection_attrs receivedPacket);
  _ ← setc (update_confirmed_attrs receivedPacket);
  _ ← setc (fun c => c <| connected_recv_buffer_size := cd_send_max connectionData |>
                       <| t_i := t_max (sending cfg) |>);
  c ← gets conn;
  ts ← cur_timestamp_now;
  ctx ← gets channel_context;
  conresp ← lift (createConnectionResponse
    (mkIds (remote_id c) (my_id c) (sn_t c) (cs_t c) ts (cts_r c)) (send_max (sending cfg)) RASTA_VERSION ctx);
  _ ← next_sn;
  _ ← set_state RASTA_CONNECTION_START;
  redundancy_mux_send conresp (role c).

(* retransmission/handlers.c handle_conreq *)
Definition handle_conreq (receivedPacket : RastaPacket) : M sys unit :=
  s ← gets Datatypes.id;
  if is_closed (current_state (conn s)) then
    _ ← setc (sr_init_connection RASTA_ROLE_SERVER);
    _ ← setc (fun c => c <| sn_i := initial_sequence_number (config s) |>
                         <| sn_t := initial_sequence_number (config s) |>);
    _ ← set_state RASTA_CONNECTION_DOWN;
    c ← gets conn;
    if negb (sr_check_packet c (sending (config s)) receivedPacket) then
      sr_close_connection RASTA_DISC_REASON_PROTOCOLERROR 0
    else
      connectionData ← with_factory_error (fun err => extractRastaConnectionData err receivedPacket);
      if version_ok (config s) (cd_version connectionData) then accept_connection receivedPacket connectionData
      else sr_close_connection RASTA_DISC_REASON_INCOMPATIBLEVERSION 0
  else sr_close_connection RASTA_DISC_REASON_UNEXPECTEDTYPE 0.

(* retransmission/handlers.c:479-489 handle_conresp *)
Definition confirm_connection (receivedPacket : RastaPacket) : M sys unit :=
  _ ← setc (update_connection_attrs receivedPacket);
  _ ← setc (fun c => c <| cs_r := p_confirmed_sequence_number receivedPacket |>);
  _ ← set_state RASTA_CONNECTION_UP;
  sendHeartbeat true.

(* retransmission/handlers.c:498-512 handle_conresp *)
Definition start_session (connectionData : RastaConnectionData) : M sys unit :=
  _ ← enable_heartbeat;
  _ ← setc (fun c => c <| hb_locked := false |>);
  _ ← setc (fun c => c <| connected_recv_buffer_size := cd_send_max connectionData |>);
  enable_timeout.

(* retransmission/handlers.c:479-512 handle_conresp *)
Definition complete_connection (receivedPacket : RastaPacket) (connectionData : RastaConnectionData) : M sys unit :=
  _ ← confirm_connection receivedPacket; start_session connectionData.

(* retransmission/handlers.c handle_conresp *)
Definition handle_conresp (receivedPacket : RastaPacket) : M sys unit :=
  s ← gets Datatypes.id;
  let c := conn s in
  if negb (sr_check_packet c (sending (config s)) receivedPacket) then
    sr_close_connection RASTA_DISC_REASON_PROTOCOLERROR 0
  else
    match current_state c with
    | RASTA_CONNECTION_START =>
        match role c with
        | RASTA_ROLE_CLIENT =>
            connectionData ← with_factory_error (fun err => extractRastaConnectionData err receivedPacket);
            if version_accepted (config s) (cd_version connectionData)
            then complete_connection receivedPacket connectionData
            else sr_close_connection RASTA_DISC_REASON_INCOMPATIBLEVERSION 0
        | RASTA_ROLE_SERVER => sr_close_connection RASTA_DISC_REASON_UNEXPECTEDTYPE 0
        end
    | RASTA_CONNECTION_RETRREQ | RASTA_CONNECTION_RETRRUN | RASTA_CONNECTION_UP =>
        sr_close_connection RASTA_DISC_REASON_UNEXPECTEDTYPE 0
    | _ => mret tt
    end.

(** [con] is not NULL here: there is one connection. *)
(* safety_retransmission.c sr_receive *)
Definition sr_receive (receivedPacket : RastaPacket) : M sys Z :=
  if p_type receivedPacket =? RASTA_TYPE_CONNREQ then _ ← handle_conreq receivedPacket; mret 0
  else if p_type receivedPacket =? RASTA_TYPE_CONNRESP then _ ← handle_conresp receivedPacket; mret 1
  else if p_checksum_correct receivedPacket =? 0 then _ ← count_error count_safety; mret 0
  else
    s ← gets Datatypes.id;
    let c := conn s in
    let cfg := sending (config s) in
    if negb (sr_message_authentic c receivedPacket) then _ ← count_error count_address; mret 0
    else if negb (sr_sn_range_valid c cfg receivedPacket) then _ ← count_error count_sn; mret 0
    else if negb (sr_cs_valid c receivedPacket) then _ ← count_error count_cs; mret 0
    else if sr_rekeying_skipped c (kex (config s)) then
      _ ← sr_close_connection RASTA_DISC_REASON_TIMEOUT 0; mret 0
    else handle_received_packet receivedPacket.

#[export] Instance sr_upper : UpperLayer := { upper_receive := sr_receive }.

End Handlers.
