(* ===== verification/Session.v ===== *)
(** * What the handlers guarantee

    The handlers of Handlers.v, run on an endpoint that satisfies [sr_ok]: closing
    resets the connection and tells the peer once, a received packet moves the
    connection along the state machine of the protocol ([next_state]), and
    [sr_ok] holds after every packet, so that the safety layer implements the
    interface the redundancy layer delivers to ([UpperOk]). *)

From stdpp Require Import base numbers list.
From Stdlib Require Import ZArith Lia.
From S2P Require Import Prelude.
From S2P Require Import Fifo.
From S2P Require Import Hashing.
From S2P Require Import Packet.
From S2P Require Import Factory.
From S2P Require Import World.
From S2P Require Import Config.
From S2P Require Import State.
From S2P Require Import Transport.
From S2P Require Import Redundancy.
From S2P Require Import Connection.
From S2P Require Import Retransmission.
From S2P Require Import Handlers.
From S2P Require Import DeferQueue.
From S2P Require Import Sample.

Local Open Scope Z_scope.
Local Open Scope record_scope.

(** ** Updates of the connection *)

Create HintDb session.

(** Updates that keep the connection well-formed. *)
Definition safe_update (f : rasta_connection -> rasta_connection) : Prop :=
  forall cfg ctx c, conn_ok cfg ctx c -> conn_ok cfg ctx (f c) /\ (role (f c) = role c \/ role (f c) = RASTA_ROLE_SERVER).

Ltac safe_update := intros ? ? ? []; split; [split; fields; try done; auto using u32_range|auto].

Lemma id_safe : safe_update (fun c => c).
Proof. by split; [|left]. Qed.
Lemma set_state_safe st : safe_update (fun c => c <| current_state := st |>).
Proof. safe_update. Qed.
Lemma init_safe : safe_update (sr_init_connection RASTA_ROLE_SERVER).
Proof. unfold sr_init_connection, sr_reset_connection. safe_update. Qed.
Lemma initial_safe cfg : config_ok cfg -> safe_update
  (fun c => c <| sn_i := initial_sequence_number cfg |> <| sn_t := initial_sequence_number cfg |>).
Proof. intros []. safe_update. Qed.
Lemma count_safe f : safe_update (fun c => c <| errors ::= f |>).
Proof. safe_update. Qed.
Lemma reset_safe : safe_update sr_reset_connection.
Proof. unfold sr_reset_connection. safe_update. Qed.

(** The fields of a packet that was parsed. *)
Record packet_fields (p : RastaPacket) : Prop := {
  pf_sn : is_u32 (p_sequence_number p); pf_cs : is_u32 (p_confirmed_sequence_number p);
  pf_ts : is_u32 (p_timestamp p); pf_cts : is_u32 (p_confirmed_timestamp p)
}.

Lemma attrs_safe p : packet_fields p -> safe_update (update_connection_attrs p).
Proof. intros []. unfold update_connection_attrs. safe_update. Qed.
Lemma confirmed_safe p : packet_fields p -> safe_update (update_confirmed_attrs p).
Proof. intros []. unfold update_confirmed_attrs. safe_update. Qed.
Lemma cs_r_safe p : packet_fields p -> safe_update (fun c => c <| cs_r := p_confirmed_sequence_number p |>).
Proof. intros []. safe_update. Qed.
#[export] Hint Resolve init_safe set_state_safe count_safe reset_safe attrs_safe confirmed_safe cs_r_safe : session.

(** Since [s0] nothing but the connection, the send counter and the transports
    moved, only proper frames were sent, and the invariant holds. *)
Definition ok_from (s0 s : sys) : Prop := spoke s0 s /\ sr_ok s.

Lemma ok_from_refl s : sr_ok s -> ok_from s s.
Proof. by split. Qed.

Lemma ok_from_sent s0 s s' out : ok_from s0 s -> sent s s' out -> sr_ok s' -> ok_from s0 s'.
Proof. intros [F _] D S. split; [|done]. etrans; [exact F|by eapply sent_spoke]. Qed.

Lemma ok_from_did s0 s s' out : ok_from s0 s -> did s s' out -> sr_ok s' -> ok_from s0 s'.
Proof. intros F D S. eapply ok_from_sent; [done|apply D|done]. Qed.

Lemma sr_ok_update s s' out f : sr_ok s -> did s s' out -> conn s' = f (conn s) -> safe_update f -> sr_ok s'.
Proof.
  intros S D C Hf. destruct (Hf _ _ _ (ok_conn _ S)) as [Hc Hr]. pose proof (did_frame _ _ _ D) as F.
  eapply sr_ok_frame; [done|done| |by rewrite C]. rewrite C. destruct Hr as [-> | ->]; [|done].
  apply (role_ok_frame _ _ _ F), S.
Qed.

Lemma wp_setc s0 f Q s : ok_from s0 s -> safe_update f ->
  (forall s', ok_from s0 s' -> did s s' [] -> conn s' = f (conn s) -> Q tt s') -> wp (setc f) Q s.
Proof.
  intros Hok Hf HQ. apply wp_modify. assert (D := did_conn s f). apply HQ; [|done|done].
  eapply ok_from_did; [done..|]. eapply sr_ok_update; [apply Hok|done|done|done].
Qed.

Lemma wp_factory {A} s0 (f : rasta_error_type -> A * rasta_error_type) Q s : ok_from s0 s ->
  (forall s', ok_from s0 s' -> did s s' [] -> conn s' = conn s -> Q (f (rastafactory_lasterror s)).1 s') ->
  wp (with_factory_error f) Q s.
Proof.
  intros Hok HQ. unfold with_factory_error, wp. destruct (f (rastafactory_lasterror s)) as [a err] eqn:E. cbn [fst] in HQ.
  assert (D := did_factory s err). apply HQ; [|done|done]. eapply ok_from_did; [done..|].
  eapply (sr_ok_update _ _ _ (fun c => c)); [apply Hok|done|done|apply id_safe].
Qed.

(** ** Closing *)

Definition disconnection_data (details reason : Z) : list Z := le_enc 2 details ++ le_enc 2 reason.

Lemma createDisconnectionRequest_built ctx i data :
  exists p, createDisconnectionRequest i data ctx = Ok p /\
    built ctx RASTA_TYPE_DISCREQ i (disconnection_data (details data) (reason data)) p.
Proof.
  pose proof (checksum_len_range ctx). unfold createDisconnectionRequest, hostShortTole.
  change (p_data (initializePacket RASTA_TYPE_DISCREQ i 4 ctx)) with (zeros 4).
  rewrite write_front by (rewrite length_le_enc; nle). mcbn. rewrite length_le_enc.
  rewrite write_next; [|by rewrite zlen_le_enc|rewrite length_le_enc; nle]. mcbn. rewrite length_le_enc.
  eexists. split; [done|]. change (drop 2 (drop 2 (zeros 4))) with (@nil Z). rewrite app_nil_r.
  apply (built_with_data _ _ _ (zeros 4)); [apply initializePacket_built; lia|].
  by rewrite zlen_app, !zlen_le_enc.
Qed.

Lemma disconnect_reason_range r : is_u16 (disconnect_reason_val r).
Proof. destruct r; split; zle. Qed.

(** What the peer is told: nothing if the connection was closed already, else
    one disconnection request. *)
Definition farewell (ctx : rasta_hashing_context_t) (c : rasta_connection) (reason : rasta_disconnect_reason)
    (details : Z) (out : list RastaPacket) : Prop :=
  if is_closed (current_state c) then out = []
  else exists ts pk, is_u32 ts /\ out = [pk] /\
    built ctx RASTA_TYPE_DISCREQ (ids_at c ts) (disconnection_data details (disconnect_reason_val reason)) pk.

(** ** Timing *)

(** What the adaptive timeout and the diagnostics may change. *)
Definition timing (c c' : rasta_connection) : Prop :=
  c' = c <| t_i := t_i c' |> <| timeout_event ::= later (last_call (timeout_event c')) |>
         <| diagnostic_intervals := diagnostic_intervals c' |>
         <| received_diagnostic_message_count := received_diagnostic_message_count c' |>.

Lemma timing_refl c : timing c c.
Proof. unfold timing. conn_eq. unfold later. by destruct (timeout_event c). Qed.

Lemma timing_trans c1 c2 c3 : timing c1 c2 -> timing c2 c3 -> timing c1 c3.
Proof. unfold timing. intros E2 E3. rewrite E3. rewrite E2 at 1. by conn_eq. Qed.

Lemma timing_queue c c' : timing c c' -> fifo_receive c' = fifo_receive c.
Proof. by intros ->. Qed.

(** These messages were put into the receive queue, as far as they fit. *)
Definition accept_into (q : queue (list Z)) (msgs : RastaMessageData) : queue (list Z) :=
  mkQueue (q_max q) (q_items q ++ take (Z.to_nat (q_max q - queue_size q)) msgs).
Definition accept (msgs : RastaMessageData) (c : rasta_connection) : rasta_connection :=
  c <| fifo_receive := accept_into (fifo_receive c) msgs |>.

Lemma accept_into_nil q : accept_into q [] = q.
Proof. unfold accept_into. rewrite take_nil, app_nil_r. by destruct q. Qed.

Lemma accept_into_full q msgs : queue_full q = true -> accept_into q msgs = q.
Proof.
  unfold queue_full, accept_into. intros Hf. zbool. rewrite Hf, Z.sub_diag. cbn. rewrite app_nil_r. by destruct q.
Qed.

Lemma accept_into_cons q m msgs : queue_ok q -> queue_full q = false ->
  accept_into q (m :: msgs) = accept_into (queue_push q (Some m)).2 msgs.
Proof.
  intros [_ Hq] Hf. unfold queue_full in Hf. zbool. rewrite queue_push_fits by lia.
  unfold accept_into, queue_size in *. cbn [snd q_max q_items]. rewrite zlen_app, <- app_assoc.
  change (zlen [m]) with 1. replace (Z.to_nat (q_max q - zlen (q_items q)))
    with (S (Z.to_nat (q_max q - (zlen (q_items q) + 1)))) by lia. done.
Qed.

Lemma accept_none msgs c : accept_into (fifo_receive c) msgs = fifo_receive c -> accept msgs c = c.
Proof. intros E. unfold accept. rewrite E. by conn_eq. Qed.

Lemma accept_cons m msgs c : queue_ok (fifo_receive c) -> queue_full (fifo_receive c) = false ->
  accept (m :: msgs) c = accept msgs (c <| fifo_receive ::= fun q => (queue_push q (Some m)).2 |>).
Proof. intros Hq Hf. unfold accept. rewrite accept_into_cons by done. by conn_eq. Qed.

Lemma timing_accept msgs c c' : timing c c' -> timing (accept msgs c) (accept msgs c').
Proof.
  intros T. pose proof (timing_queue _ _ T) as E. unfold timing, accept in *. rewrite E. conn_eq; by rewrite T.
Qed.

Lemma accept_into_ok q msgs : queue_ok q -> queue_ok (accept_into q msgs).
Proof.
  intros [Hm Hq]. split; [done|]. unfold accept_into, queue_size in *. cbn. rewrite zlen_app. unfold zlen at 2.
  rewrite length_take. lia.
Qed.

Lemma timing_ok cfg ctx c c' : timing c c' -> conn_ok cfg ctx c -> conn_ok cfg ctx c'.
Proof. intros -> []. split; fields; done. Qed.

(** ** The state machine of the protocol *)

(** What a parsed packet must satisfy for the handlers to stay in bounds. *)
Definition acceptable (ctx : rasta_hashing_context_t) (p : RastaPacket) : Prop :=
  packet_fields p /\
  (is_type p [RASTA_TYPE_DATA; RASTA_TYPE_RETRDATA] = true -> exists msgs, extractMessageData p = Ok msgs).

(** State and result after a packet: by type, for a packet that is in sequence
    ([sn]) and timely ([cts]) or not. *)
Definition after_data (st : rasta_sr_state) (sn cts : bool) : rasta_sr_state * Z :=
  match st with
  | RASTA_CONNECTION_UP =>
      if negb sn then (RASTA_CONNECTION_RETRREQ, 0) else if cts then (RASTA_CONNECTION_UP, 1) else (RASTA_CONNECTION_CLOSED, 0)
  | RASTA_CONNECTION_RETRRUN =>
      if negb sn then (RASTA_CONNECTION_RETRREQ, 0)
      else if cts then (RASTA_CONNECTION_RETRRUN, 0) else (RASTA_CONNECTION_CLOSED, 0)
  | RASTA_CONNECTION_START => (RASTA_CONNECTION_CLOSED, 0)
  | RASTA_CONNECTION_KEX_REQ | RASTA_CONNECTION_KEX_RESP | RASTA_CONNECTION_KEX_AUTH =>
      (if sn then RASTA_CONNECTION_CLOSED else st, 0)
  | _ => (st, 0)
  end.

Definition after_retrdata (st : rasta_sr_state) (sn cts : bool) : rasta_sr_state * Z :=
  match st with
  | RASTA_CONNECTION_UP => (RASTA_CONNECTION_CLOSED, 0)
  | RASTA_CONNECTION_RETRRUN =>
      if negb sn then (RASTA_CONNECTION_RETRREQ, 0)
      else if cts then (RASTA_CONNECTION_RETRRUN, 1) else (RASTA_CONNECTION_CLOSED, 0)
  | _ => (st, 0)
  end.

Definition after_retrreq (st : rasta_sr_state) (sn cts : bool) : rasta_sr_state * Z :=
  (if negb sn then RASTA_CONNECTION_RETRREQ
   else if bool_decide (st = RASTA_CONNECTION_RETRRUN) then RASTA_CONNECTION_CLOSED else st, 0).

Definition after_retrresp (st : rasta_sr_state) (sn cts : bool) : rasta_sr_state * Z :=
  (if bool_decide (st = RASTA_CONNECTION_RETRREQ) then RASTA_CONNECTION_RETRRUN else RASTA_CONNECTION_CLOSED, 0).

Definition after_hb (st : rasta_sr_state) (sn cts : bool) : rasta_sr_state * Z :=
  match st with
  | RASTA_CONNECTION_START => if cts then (RASTA_CONNECTION_UP, 1) else (RASTA_CONNECTION_CLOSED, 0)
  | RASTA_CONNECTION_UP | RASTA_CONNECTION_RETRRUN =>
      (if negb sn then RASTA_CONNECTION_RETRREQ else if cts then RASTA_CONNECTION_UP else RASTA_CONNECTION_CLOSED, 0)
  | RASTA_CONNECTION_KEX_REQ | RASTA_CONNECTION_KEX_RESP | RASTA_CONNECTION_KEX_AUTH =>
      (if sn && negb cts then RASTA_CONNECTION_CLOSED else st, 0)
  | _ => (st, 0)
  end.

(** The handler ran: below the connection only sending happened, the invariant
    holds, and state, result and receive queue are these. *)
Definition lands (s0 : sys) (v : rasta_sr_state * Z) (q : queue (list Z)) (r : Z) (s' : sys) : Prop :=
  ok_from s0 s' /\ current_state (conn s') = v.1 /\ r = v.2 /\ fifo_receive (conn s') = q.

Section Session.
Context `{TransportOk}.

Lemma wp_timeout_interval cts Q s :
  (forall s', did s s' [] -> timing (conn s) (conn s') -> Q tt s') -> wp (sr_update_timeout_interval cts) Q s.
Proof.
  intros HQ. unfold sr_update_timeout_interval. apply wp_bind, wp_gets, wp_bind, wp_now. intros ts s1 _ D1 C1.
  cbv zeta. apply wp_bind, wp_modify, wp_reschedule_timeout. intros t s2 D2 C2. apply HQ.
  - eapply did_after; [exact D1|]. eapply did_after; [apply did_conn|exact D2].
  - unfold timing. rewrite C2. fields. rewrite C1. by conn_eq.
Qed.

Lemma wp_diagnostic p Q s :
  (forall s', did s s' [] -> timing (conn s) (conn s') -> Q tt s') -> wp (sr_diagnostic_update p) Q s.
Proof.
  intros HQ. unfold sr_diagnostic_update. apply wp_bind, wp_gets, wp_bind, wp_now. intros ts s1 _ D1 C1.
  apply wp_bind, wp_gets. cbv zeta. apply wp_bind, wp_modify, wp_bind, wp_modify, wp_bind, wp_gets. unfold when. case_if.
  - apply wp_modify, HQ.
    + eapply did_after; [exact D1|]. eapply did_after; [apply did_conn|]. eapply did_after; apply did_conn.
    + unfold timing, reset_diagnostic. fields. rewrite C1. conn_eq. by destruct (timeout_event (conn s)).
  - apply wp_ret, HQ.
    + eapply did_after; [exact D1|]. eapply did_after; apply did_conn.
    + unfold timing. fields. rewrite C1. conn_eq. by destruct (timeout_event (conn s)).
Qed.

Lemma wp_buffer p msgs : forall Q s, queue_ok (fifo_receive (conn s)) ->
  (forall s', did s s' [] -> timing (accept msgs (conn s)) (conn s') -> Q tt s') -> wp (buffer_messages p msgs) Q s.
Proof.
  induction msgs as [|m msgs IH]; intros Q s Hq HQ; cbn [buffer_messages].
  - apply wp_ret, HQ; [apply did_refl|]. rewrite accept_none by apply accept_into_nil. apply timing_refl.
  - apply wp_bind, wp_gets. destruct (queue_full (fifo_receive (conn s))) eqn:Ef.
    + apply wp_ret, HQ; [apply did_refl|]. rewrite accept_none by (by apply accept_into_full). apply timing_refl.
    + apply wp_bind, wp_modify. set (s1 := s <| conn ::= _ |>).
      apply wp_bind, wp_timeout_interval. intros s2 D2 T2. apply wp_bind, wp_diagnostic. intros s3 D3 T3.
      pose proof (timing_trans _ _ _ T2 T3) as T. apply IH.
      * rewrite (timing_queue _ _ T). by apply queue_push_ok.
      * intros s4 D4 T4. apply HQ.
        { eapply did_after; [apply did_conn|]. eapply did_after; [exact D2|]. by eapply did_after. }
        eapply timing_trans; [|exact T4]. rewrite accept_cons by done. by apply timing_accept.
Qed.

Lemma wp_channel_close Q s : sr_ok s -> (forall s', sent s s' [] -> conn s' = conn s -> sr_ok s' -> Q tt s') ->
  wp redundancy_channel_close Q s.
Proof.
  intros S HQ. eapply wp_mono; [apply redundancy_channel_close_ok; apply S|].
  intros [] s' (D & C & _). apply HQ; [done|done|]. pose proof (sent_frame _ _ _ D) as F.
  eapply sr_ok_frame; [done|done| |]; rewrite C; [apply (role_ok_frame _ _ _ F), S|apply S].
Qed.

Lemma wp_discreq reason details Q s : sr_ok s -> bytes_ok (le_enc 2 details) ->
  (forall ts pk s', is_u32 ts -> did s s' [pk] -> conn s' = conn s ->
     built (channel_context s) RASTA_TYPE_DISCREQ (ids_at (conn s) ts)
       (disconnection_data details (disconnect_reason_val reason)) pk -> Q tt s') ->
  wp (sendDisconnectionRequest reason details) Q s.
Proof.
  intros S Hd HQ. unfold sendDisconnectionRequest. apply wp_bind, wp_gets, wp_bind, wp_now. intros ts s1 Hts D1 C1.
  pose proof (did_frame _ _ _ D1) as F1. pose proof (link_ok_frame _ _ F1 (ok_link _ S)) as L1.
  apply wp_bind, wp_gets. rewrite (lk_mux _ L1), (did_context _ _ _ D1).
  destruct (createDisconnectionRequest_built (channel_context s) (ids_at (conn s) ts)
    (mkDisconnectionData details (disconnect_reason_val reason))) as (pk & E & Hb).
  apply wp_bind, wp_lift. exists pk. split; [done|]. apply wp_mux_send; [done| | |].
  - apply (role_ok_frame _ _ _ F1), S.
  - apply (sendable_frame _ _ _ F1). eapply built_sendable; [apply S|done| |split; zle| | |].
    + eapply conn_ok_ids; [apply S|done].
    + apply bytes_ok_app. split; [done|apply le_enc_bytes].
    + unfold disconnection_data. by rewrite zlen_app, !zlen_le_enc.
    + by intros [?|?].
  - intros s2 D2 C2. apply (HQ ts pk); [done|by eapply did_after|by rewrite C2|done].
Qed.

Lemma wp_close_connection reason details Q s : sr_ok s ->
  (forall s' out, sent s s' out -> farewell (channel_context s) (conn s) reason details out ->
     conn s' = sr_reset_connection (conn s) -> sr_ok s' -> Q tt s') ->
  wp (sr_close_connection reason details) Q s.
Proof.
  intros S HQ. unfold sr_close_connection. apply wp_bind, wp_gets. unfold farewell in HQ.
  destruct (is_closed (current_state (conn s))) eqn:Ec.
  - apply wp_bind, (wp_setc s); [by apply ok_from_refl|apply reset_safe|]. intros s1 [_ S1] D1 C1.
    apply wp_channel_close; [done|]. intros s2 D2 C2 S2. apply (HQ s2 []); [|done|by rewrite C2|done].
    by apply (did_sent_trans _ s1 _ []).
  - apply wp_bind, (wp_setc s); [by apply ok_from_refl|apply reset_safe|]. intros s1 [_ S1] D1 C1.
    apply wp_bind, wp_discreq; [done|apply le_enc_bytes|]. intros ts pk s2 Hts D2 C2 Hb.
    rewrite (did_context _ _ _ D1), C1 in Hb.
    assert (S2 : sr_ok s2) by (eapply (sr_ok_update _ _ _ (fun c => c)); [exact S1|exact D2|done|apply id_safe]).
    apply wp_bind, (wp_setc s2); [by apply ok_from_refl|apply set_state_safe|]. intros s3 [_ S3] D3 C3.
    apply wp_channel_close; [done|]. intros s4 D4 C4 S4. apply (HQ s4 [pk]); [| | |done].
    + apply (did_sent_trans _ s1 _ []); [done|]. apply (did_sent_trans _ s2 _ [pk]); [done|].
      by apply (did_sent_trans _ s3 _ []).
    + exists ts, pk. by split_and!.
    + rewrite C4, C3, C2, C1. unfold sr_reset_connection. by conn_eq.
Qed.
(** ** Generic steps

    The rules above, with the accumulated [ok_from]. *)

Lemma st_close s0 reason details Q s : ok_from s0 s ->
  (forall s', ok_from s0 s' -> conn s' = sr_reset_connection (conn s) -> Q tt s') ->
  wp (sr_close_connection reason details) Q s.
Proof.
  intros Hok HQ. apply wp_close_connection; [apply Hok|]. intros s' out D _ C S'. apply HQ; [by eapply ok_from_sent|done].
Qed.

Lemma timing_ok_from s0 s s' : ok_from s0 s -> did s s' [] -> timing (conn s) (conn s') -> ok_from s0 s'.
Proof.
  intros Hok D T. apply (ok_from_did _ s _ []); [done|done|]. pose proof (did_frame _ _ _ D) as F.
  destruct Hok as [_ S]. assert (Hr : role (conn s') = role (conn s)) by (rewrite T; done).
  eapply sr_ok_frame; [done|done|rewrite Hr; apply (role_ok_frame _ _ _ F), S|].
  eapply timing_ok; [done|apply S].
Qed.

Lemma st_add s0 p msgs Q s : ok_from s0 s -> extractMessageData p = Ok msgs ->
  (forall s', ok_from s0 s' -> timing (accept msgs (conn s)) (conn s') -> Q tt s') ->
  wp (sr_add_app_messages_to_buffer p) Q s.
Proof.
  intros Hok E HQ. unfold sr_add_app_messages_to_buffer. apply wp_bind, wp_lift. exists msgs. split; [done|].
  destruct Hok as [F S]. apply wp_buffer; [apply S|]. intros s' D T. apply HQ; [|done].
  apply (ok_from_did _ s _ []); [done|done|]. pose proof (did_frame _ _ _ D) as F'.
  assert (Hr : role (conn s') = role (conn s)) by (rewrite T; done).
  eapply sr_ok_frame; [done|done|rewrite Hr; apply (role_ok_frame _ _ _ F'), S|].
  eapply timing_ok; [done|]. destruct (ok_conn _ S). split; unfold accept; fields; try done. by apply accept_into_ok.
Qed.

Lemma st_remove s0 Q s : ok_from s0 s ->
  (forall s', ok_from s0 s' -> same_session (conn s) (conn s') -> Q tt s') -> wp sr_remove_confirmed_messages Q s.
Proof.
  intros Hok HQ. destruct (co_retr _ _ _ (ok_conn _ (proj2 Hok))) as [pks Hu].
  apply (wp_remove_confirmed pks); [apply Hok|done|]. intros s' out D S' C. apply HQ; [by eapply ok_from_did|].
  unfold confirmed in C. destruct (queue_full (fifo_send (conn s))).
  - eapply same_session_trans; [|by eapply flushed_session]. unfold same_session, with_unconfirmed. by conn_eq.
  - destruct C as [_ ->]. unfold same_session, with_unconfirmed. by conn_eq.
Qed.

Lemma st_retransmit s0 Q s : ok_from s0 s ->
  (forall s', ok_from s0 s' -> same_session (conn s) (conn s') -> Q tt s') -> wp sr_retransmit_data Q s.
Proof.
  intros Hok HQ. destruct (co_retr _ _ _ (ok_conn _ (proj2 Hok))) as [pks Hu].
  apply (wp_retransmit_data pks); [apply Hok|done|]. intros t ts hb news s' _ _ _ D C S'.
  apply HQ; [by eapply ok_from_did|]. rewrite C. unfold same_session, retransmitted. by conn_eq.
Qed.

Lemma sn_t_safe sn : safe_update (fun c => c <| sn_t := u32 sn |>).
Proof. safe_update. Qed.

Lemma st_control s0 (m : M sys unit) Q s : ok_from s0 s ->
  (m = sendRetransmissionRequest \/ m = sendRetransmissionResponse) ->
  (forall s', ok_from s0 s' -> same_session (conn s) (conn s') -> Q tt s') -> wp m Q s.
Proof.
  intros Hok Hm HQ. assert (G : forall s' pk, did s s' [pk] -> conn s' = (conn s) <| sn_t := u32 (sn_t (conn s) + 1) |> ->
    Q tt s').
  { intros s' pk D C. apply HQ.
    - eapply ok_from_did; [done|done|]. eapply (sr_ok_update _ _ _ (fun c => c <| sn_t := u32 (sn_t (conn s) + 1) |>));
        [apply Hok|done|done|apply sn_t_safe].
    - rewrite C. unfold same_session. by conn_eq. }
  destruct Hm as [-> | ->]; [apply wp_retr_request|apply wp_retr_response]; try apply Hok; intros; by eapply G.
Qed.

Lemma st_armed s0 Q s : ok_from s0 s ->
  (forall s', ok_from s0 s' -> (exists t, conn s' = (conn s) <| send_heartbeat_event ::= armed t |>) -> Q tt s') ->
  wp enable_heartbeat Q s.
Proof.
  intros Hok HQ. apply wp_enable_heartbeat. intros t s' D C. apply HQ; [|by exists t].
  eapply ok_from_did; [done..|]. eapply sr_ok_update; [apply Hok|done|exact C|]. safe_update.
Qed.
Lemma st_armed_timeout s0 Q s : ok_from s0 s ->
  (forall s', ok_from s0 s' -> (exists t, conn s' = (conn s) <| timeout_event ::= armed t |>) -> Q tt s') ->
  wp enable_timeout Q s.
Proof.
  intros Hok HQ. apply wp_enable_timeout. intros t s' D C. apply HQ; [|by exists t].
  eapply ok_from_did; [done..|]. eapply sr_ok_update; [apply Hok|done|exact C|]. safe_update.
Qed.

Lemma session_receive c c' : same_session c c' -> fifo_receive c' = fifo_receive c.
Proof. intros E. by rewrite E. Qed.
Lemma timing_state c c' : timing c c' -> current_state c' = current_state c.
Proof. intros E. by rewrite E. Qed.
Lemma timing_role c c' : timing c c' -> role c' = role c.
Proof. intros E. by rewrite E. Qed.

(** One step of a handler; what it does to state, role and receive queue is
    kept as equations from the new connection to the old one. *)
Ltac note_session E :=
  pose proof (session_state _ _ E); pose proof (session_receive _ _ E); pose proof (session_role _ _ E); clear E.
Ltac note_timing E :=
  pose proof (timing_state _ _ E); pose proof (timing_queue _ _ E); pose proof (timing_role _ _ E); clear E.
Ltac hstep :=
  let s' := fresh "s'" in let Hok := fresh "Hok" in let E := fresh "E" in
  lazymatch goal with
  | |- wp (mbind _ _) _ _ => apply wp_bind; hstep
  | |- wp (gets _) _ _ => apply wp_gets; cbv beta zeta; unfold Datatypes.id
  | |- wp (getc _) _ _ => apply wp_gets
  | |- wp (mret _) _ _ => apply wp_ret
  | |- wp (set_state _) _ _ => eapply wp_setc; [eassumption|solve [auto with session|safe_update]|intros s' Hok _ E]
  | |- wp (count_error _) _ _ => eapply wp_setc; [eassumption|solve [auto with session|safe_update]|intros s' Hok _ E]
  | |- wp (setc _) _ _ => eapply wp_setc; [eassumption|solve [auto with session|safe_update]|intros s' Hok _ E]
  | |- wp (with_factory_error _) _ _ => eapply wp_factory; [eassumption|intros s' Hok _ E]
  | |- wp (sr_close_connection _ _) _ _ => eapply st_close; [eassumption|intros s' Hok E]
  | |- wp sr_remove_confirmed_messages _ _ => eapply st_remove; [eassumption|intros s' Hok E; note_session E]
  | |- wp sr_retransmit_data _ _ => eapply st_retransmit; [eassumption|intros s' Hok E; note_session E]
  | |- wp sendRetransmissionRequest _ _ => eapply st_control; [eassumption|by auto|intros s' Hok E; note_session E]
  | |- wp sendRetransmissionResponse _ _ => eapply st_control; [eassumption|by auto|intros s' Hok E; note_session E]
  | |- wp enable_heartbeat _ _ => eapply st_armed; [eassumption|intros s' Hok [? E]]
  | |- wp enable_timeout _ _ => eapply st_armed_timeout; [eassumption|intros s' Hok [? E]]
  end.

Ltac open_updates :=
  try unfold sr_reset_connection; try unfold update_connection_attrs; try unfold update_confirmed_attrs;
  try unfold sr_init_connection; try unfold accept; fields.
Ltac chase :=
  repeat match goal with
  | E : conn ?x = _ |- context [conn ?x] => rewrite E; open_updates
  | E : ?f (conn ?x) = _ |- context [?f (conn ?x)] => rewrite E; open_updates
  end; try done.
Ltac state_is st :=
  match goal with |- wp (mbind _ (match current_state (conn ?x) with _ => _ end)) _ _ =>
    let E := fresh in assert (E : current_state (conn x) = st) by chase; rewrite E; clear E
  end.
Ltac land := split; [eassumption|split; [cbn [fst]; chase|split; [done|chase]]].
Ltac handler := repeat hstep; try land.

Lemma handle_discreq_lands p s : sr_ok s ->
  wp (handle_discreq p) (lands s (RASTA_CONNECTION_CLOSED, 1) (fifo_receive (conn s))) s.
Proof.
  intros S. pose proof (ok_from_refl _ S). unfold handle_discreq. do 2 hstep.
  apply wp_bind, wp_channel_close; [apply Hok1|]. intros s2 D2 C2 S2.
  assert (ok_from s s2) by (by eapply ok_from_sent). handler.
Qed.

Definition accepted (c : rasta_connection) (p : RastaPacket) (msgs : RastaMessageData) (r : Z) : queue (list Z) :=
  if r =? 0 then fifo_receive c else accept_into (fifo_receive c) msgs.

Lemma handle_data_lands p msgs s : sr_ok s -> packet_fields p -> extractMessageData p = Ok msgs ->
  let v := after_data (current_state (conn s)) (sr_sn_in_seq (conn s) p)
             (sr_cts_in_seq (conn s) (sending (config s)) p) in
  wp (handle_data p) (lands s v (accepted (conn s) p msgs v.2)) s.
Proof.
  intros S Hp Hm. pose proof (ok_from_refl _ S). unfold handle_data, after_data, accepted. hstep.
  destruct (sr_sn_in_seq (conn s) p); destruct (current_state (conn s)) eqn:Est;
    try (destruct (sr_cts_in_seq (conn s) (sending (config s)) p)); cbn [negb snd Z.eqb Pos.eqb].
  all: try (handler; fail).
  apply wp_bind. eapply st_add; [eassumption|exact Hm|]. intros s1 Hok1 T. note_timing T. handler.
Qed.

Lemma handle_retrdata_lands p msgs s : sr_ok s -> packet_fields p -> extractMessageData p = Ok msgs ->
  let v := after_retrdata (current_state (conn s)) (sr_sn_in_seq (conn s) p)
             (sr_cts_in_seq (conn s) (sending (config s)) p) in
  wp (handle_retrdata p) (lands s v (accepted (conn s) p msgs v.2)) s.
Proof.
  intros S Hp Hm. pose proof (ok_from_refl _ S). unfold handle_retrdata, after_retrdata, accepted. hstep.
  destruct (sr_sn_in_seq (conn s) p); destruct (current_state (conn s)) eqn:Est;
    try (destruct (sr_cts_in_seq (conn s) (sending (config s)) p)); cbn [negb snd Z.eqb Pos.eqb].
  all: try (handler; fail).
  apply wp_bind. eapply st_add; [eassumption|exact Hm|]. intros s1 Hok1 T. note_timing T. handler.
Qed.

Lemma handle_retrreq_lands p s : sr_ok s -> packet_fields p ->
  wp (handle_retrreq p) (lands s (after_retrreq (current_state (conn s)) (sr_sn_in_seq (conn s) p) true)
    (fifo_receive (conn s))) s.
Proof.
  intros S Hp. pose proof (ok_from_refl _ S). unfold handle_retrreq, after_retrreq. hstep.
  destruct (sr_sn_in_seq (conn s) p); cbn [negb]; [|handler].
  case_bool_decide as Est; cbn [when].
  - repeat hstep. state_is RASTA_CONNECTION_CLOSED. handler.
  - apply wp_bind, wp_ret. repeat hstep. state_is (current_state (conn s)).
    destruct (current_state (conn s)) eqn:E'; handler.
Qed.

Lemma handle_retrresp_lands p s : sr_ok s -> packet_fields p ->
  wp (handle_retrresp p) (lands s (after_retrresp (current_state (conn s)) true true) (fifo_receive (conn s))) s.
Proof.
  intros S Hp. pose proof (ok_from_refl _ S). unfold handle_retrresp, after_retrresp. hstep.
  destruct (current_state (conn s)) eqn:Est; handler.
Qed.

Lemma cts_reset p cfg c : sr_cts_in_seq (sr_reset_connection c) cfg p = sr_cts_in_seq c cfg p.
Proof. done. Qed.

Lemma handle_hb_start_in_lands st p s : sr_ok s -> packet_fields p ->
  wp (handle_hb_start_in st p) (lands s (if sr_cts_in_seq (conn s) (sending (config s)) p
    then (st, 1) else (RASTA_CONNECTION_CLOSED, 0)) (fifo_receive (conn s))) s.
Proof.
  intros S Hp. pose proof (ok_from_refl _ S) as O0.
  set (J := fun (_ : unit) s1 => ok_from s s1 /\ fifo_receive (conn s1) = fifo_receive (conn s) /\
    sr_cts_in_seq (conn s1) (sending (config s)) p = sr_cts_in_seq (conn s) (sending (config s)) p).
  assert (Hclose : forall reason s1, J tt s1 -> wp (sr_close_connection reason 0) J s1).
  { intros reason s1 (O1 & Q1 & E1). eapply st_close; [exact O1|]. intros s2 O2 C2. split; [done|].
    rewrite C2. split; [by unfold sr_reset_connection; fields|by rewrite cts_reset]. }
  assert (J0 : J tt s) by done.
  unfold handle_hb_start_in. hstep. apply wp_bind. eapply (wp_mono _ J).
  { unfold when. case_if; [|by apply wp_ret]. destruct (role (conn s)); by apply Hclose. }
  intros [] s1 J1. hstep. apply wp_bind. eapply (wp_mono _ J).
  { unfold when. case_if; [by apply Hclose|by apply wp_ret]. }
  intros [] s2 (O2 & Q2 & E2). hstep. rewrite (lf_config _ _ (sk_frame _ _ (proj1 O2))), E2. rewrite <- Q2.
  destruct (sr_cts_in_seq (conn s) (sending (config s)) p).
  - handler.
  - handler.
Qed.

Lemma handle_hb_start_lands p s : sr_ok s -> packet_fields p ->
  wp (handle_hb_start p) (lands s (if sr_cts_in_seq (conn s) (sending (config s)) p
    then (RASTA_CONNECTION_UP, 1) else (RASTA_CONNECTION_CLOSED, 0)) (fifo_receive (conn s))) s.
Proof.
  intros S Hp. unfold handle_hb_start. apply wp_bind, wp_gets. destruct (mode _). by apply handle_hb_start_in_lands.
Qed.

Lemma handle_hb_lands p s : sr_ok s -> packet_fields p ->
  let v := after_hb (current_state (conn s)) (sr_sn_in_seq (conn s) p)
             (sr_cts_in_seq (conn s) (sending (config s)) p) in
  wp (handle_hb p) (lands s v (fifo_receive (conn s))) s.
Proof.
  intros S Hp. pose proof (ok_from_refl _ S). unfold handle_hb, after_hb. hstep.
  case_bool_decide as Est; [rewrite Est; by apply handle_hb_start_lands|].
  destruct (sr_sn_in_seq (conn s) p); destruct (current_state (conn s)) eqn:Es; try done;
    try (destruct (sr_cts_in_seq (conn s) (sending (config s)) p)); cbn [negb andb].
  all: try (handler; fail).
  all: apply wp_bind, wp_timeout_interval; intros s1 D1 T1; apply wp_bind, wp_diagnostic; intros s2 D2 T2.
  all: pose proof (timing_trans _ _ _ T1 T2) as T; clear T1 T2; pose proof (did_after _ _ _ _ D1 D2) as D; clear D1 D2 s1.
  all: assert (O2 : ok_from s s2) by (by apply (timing_ok_from _ s _)); note_timing T.
  all: repeat hstep; match goal with |- wp (mbind _ (when (bool_decide (current_state (conn ?x) = _)) _)) _ _ =>
    let E := fresh in assert (E : current_state (conn x) = current_state (conn s)) by chase; rewrite E, Es end.
  all: case_bool_decide; cbn [when]; try done; [..|handler]; apply wp_bind, wp_ret; handler.
Qed.

(** ** The handshake *)

(** A connection request was answered. *)
Definition answered (cfg : rasta_config_info) (p : RastaPacket) (d : RastaConnectionData) (c : rasta_connection) :
    rasta_connection :=
  (update_confirmed_attrs p (update_connection_attrs p c))
    <| connected_recv_buffer_size := cd_send_max d |> <| t_i := t_max (sending cfg) |>
    <| sn_t := u32 (sn_t c + 1) |> <| current_state := RASTA_CONNECTION_START |>.

Lemma answered_ok cfg cfg' ctx p d c : packet_fields p -> conn_ok cfg ctx c -> conn_ok cfg ctx (answered cfg' p d c).
Proof. intros [] []. unfold answered, update_confirmed_attrs, update_connection_attrs. split; fields; try done; apply u32_range. Qed.

Lemma connection_data_bytes n : bytes_ok (connection_data n RASTA_VERSION).
Proof.
  unfold connection_data. rewrite !bytes_ok_app. split; [|split; [apply le_enc_bytes|apply bytes_ok_zeros]].
  repeat constructor; unfold is_u8; lia.
Qed.

Lemma wp_accept_connection p d Q s : sr_ok s -> packet_fields p ->
  (forall ts pk s', is_u32 ts ->
     built (channel_context s) RASTA_TYPE_CONNRESP
       (mkIds (remote_id (conn s)) (my_id (conn s)) (sn_t (conn s)) (p_sequence_number p) ts (p_confirmed_timestamp p))
       (connection_data (send_max (sending (config s))) RASTA_VERSION) pk ->
     did s s' [pk] -> conn s' = answered (config s) p d (conn s) -> sr_ok s' -> Q tt s') ->
  wp (accept_connection p d) Q s.
Proof.
  intros S Hp HQ. unfold accept_connection. apply wp_bind, wp_gets. do 3 (apply wp_bind, wp_modify).
  apply wp_bind, wp_gets. set (s1 := s <| conn ::= _ |> <| conn ::= _ |> <| conn ::= _ |>).
  assert (D1 : did s s1 []) by (eapply did_after; [apply did_conn|]; eapply did_after; apply did_conn).
  apply wp_bind, wp_now. intros ts s2 Hts D2 C2. pose proof (did_after _ _ _ _ D1 D2) as D.
  apply wp_bind, wp_gets. rewrite (did_context _ _ _ D).
  set (i := mkIds _ _ _ _ _ _). destruct (putConnectionData_built (channel_context s) RASTA_TYPE_CONNRESP i
    (send_max (sending (config s))) RASTA_VERSION) as (pk & E & Hb); [nle|].
  apply wp_bind, wp_lift. exists pk. split; [exact E|]. unfold next_sn, set_state, setc.
  do 2 (apply wp_bind, wp_modify). set (s3 := s2 <| conn ::= _ |> <| conn ::= _ |>).
  assert (D3 : did s s3 []) by (eapply did_then; [exact D|]; eapply did_after; apply did_conn).
  pose proof (did_frame _ _ _ D3) as F3. pose proof (ok_conn _ S) as O. apply wp_mux_send.
  - by apply (link_ok_frame _ _ F3), S.
  - apply (role_ok_frame _ _ _ F3), S.
  - apply (sendable_frame _ _ _ F3). eapply built_sendable; [apply S|exact Hb| |split; zle|apply connection_data_bytes| |].
    + destruct O, Hp. split; done.
    + unfold connection_data. by rewrite !zlen_app, zlen_le_enc.
    + by intros [?|?].
  - intros s4 D4 C4. assert (E4 : conn s4 = answered (config s) p d (conn s)).
    { rewrite C4. unfold s3. fields. rewrite C2. unfold s1. fields.
      unfold answered, update_confirmed_attrs, update_connection_attrs. by conn_eq. }
    assert (D5 : did s s4 [pk]) by (by eapply did_after).
    apply (HQ ts pk); [done|exact Hb|done|exact E4|].
    eapply sr_ok_frame; [done|by eapply did_frame| |]; rewrite E4.
    + apply (role_ok_frame _ _ _ (did_frame _ _ _ D5)), S.
    + by apply answered_ok.
Qed.

(** The connection of a client after the response: once it is confirmed, and once
    the timers run. *)
Definition greeted (p : RastaPacket) (t : Z) (c : rasta_connection) : rasta_connection :=
  (update_connection_attrs p c)
    <| cs_r := p_confirmed_sequence_number p |> <| current_state := RASTA_CONNECTION_UP |>
    <| sn_t := u32 (sn_t c + 1) |> <| send_heartbeat_event ::= later t |>.
Definition running (d : RastaConnectionData) (t1 t2 : Z) (c : rasta_connection) : rasta_connection :=
  c <| hb_locked := false |> <| connected_recv_buffer_size := cd_send_max d |>
    <| send_heartbeat_event ::= armed t1 |> <| timeout_event ::= armed t2 |>.
Definition established (p : RastaPacket) (d : RastaConnectionData) (t1 t2 : Z) (c : rasta_connection) :
    rasta_connection :=
  running d t1 t2 (greeted p 0 c).

Lemma greeted_safe p t : packet_fields p -> safe_update (greeted p t).
Proof. intros []. unfold greeted, update_connection_attrs. safe_update. Qed.
Lemma running_safe d t1 t2 : safe_update (running d t1 t2).
Proof. unfold running. safe_update. Qed.

Lemma wp_confirm_connection p Q s : sr_ok s -> packet_fields p ->
  (forall ts t pk s', is_u32 ts ->
     built (channel_context s) RASTA_TYPE_HB
       (mkIds (remote_id (conn s)) (my_id (conn s)) (sn_t (conn s)) (p_sequence_number p) ts (p_timestamp p)) [] pk ->
     did s s' [pk] -> conn s' = greeted p t (conn s) -> sr_ok s' -> Q tt s') ->
  wp (confirm_connection p) Q s.
Proof.
  intros S Hp HQ. unfold confirm_connection, set_state, setc. do 3 (apply wp_bind, wp_modify).
  set (s1 := s <| conn ::= _ |> <| conn ::= _ |> <| conn ::= _ |>).
  assert (D1 : did s s1 []) by (eapply did_after; [apply did_conn|]; eapply did_after; apply did_conn).
  assert (S1 : sr_ok s1).
  { eapply (sr_ok_update s s1 [] (fun c => (update_connection_attrs p c) <| cs_r := p_confirmed_sequence_number p |>
      <| current_state := RASTA_CONNECTION_UP |>)); [done|done|done|].
    destruct Hp. unfold update_connection_attrs. safe_update. }
  apply wp_heartbeat; [done|]. intros ts t pk s3 Hts Hb D3 C3. rewrite (did_context _ _ _ D1) in Hb.
  assert (D : did s s3 [pk]) by (by eapply did_after).
  assert (E : conn s3 = greeted p t (conn s)).
  { rewrite C3. unfold s1. fields. unfold greeted, update_connection_attrs. by conn_eq. }
  apply (HQ ts t pk); [done|exact Hb|done|done|]. eapply sr_ok_update; [exact S|exact D|exact E|by apply greeted_safe].
Qed.

Lemma wp_start_session d Q s : sr_ok s ->
  (forall t1 t2 s', did s s' [] -> conn s' = running d t1 t2 (conn s) -> sr_ok s' -> Q tt s') ->
  wp (start_session d) Q s.
Proof.
  intros S HQ. unfold start_session. apply wp_bind, wp_enable_heartbeat. intros t1 s1 D1 C1. do 2 (apply wp_bind, wp_modify).
  set (s2 := s1 <| conn ::= _ |> <| conn ::= _ |>). apply wp_enable_timeout. intros t2 s3 D3 C3.
  assert (D : did s s3 []).
  { eapply did_after; [exact D1|]. eapply did_after; [apply did_conn|]. eapply did_after; [apply did_conn|exact D3]. }
  assert (E : conn s3 = running d t1 t2 (conn s)).
  { rewrite C3. unfold s2. fields. rewrite C1. unfold running. by conn_eq. }
  apply (HQ t1 t2 s3); [done|done|]. eapply sr_ok_update; [exact S|exact D|exact E|by apply running_safe].
Qed.

Lemma wp_complete_connection p d Q s : sr_ok s -> packet_fields p ->
  (forall ts t1 t2 pk s', is_u32 ts ->
     built (channel_context s) RASTA_TYPE_HB
       (mkIds (remote_id (conn s)) (my_id (conn s)) (sn_t (conn s)) (p_sequence_number p) ts (p_timestamp p)) [] pk ->
     did s s' [pk] -> conn s' = established p d t1 t2 (conn s) -> sr_ok s' -> Q tt s') ->
  wp (complete_connection p d) Q s.
Proof.
  intros S Hp HQ. unfold complete_connection. apply wp_bind, wp_confirm_connection; [done|done|].
  intros ts t pk s1 Hts Hb D1 C1 S1. apply wp_start_session; [done|]. intros t1 t2 s2 D2 C2 S2.
  apply (HQ ts t1 t2 pk); [done|exact Hb|by eapply did_then| |done]. rewrite C2, C1. unfold established, running, greeted. by conn_eq.
Qed.

(** State after a connection request or response. *)
Definition opened (cfg : rasta_config_info) (c : rasta_connection) : rasta_connection :=
  (sr_init_connection RASTA_ROLE_SERVER c) <| sn_i := initial_sequence_number cfg |>
    <| sn_t := initial_sequence_number cfg |> <| current_state := RASTA_CONNECTION_DOWN |>.

Definition after_conreq (cfg : rasta_config_info) (c : rasta_connection) (p : RastaPacket) : rasta_sr_state :=
  let d := (extractRastaConnectionData RASTA_ERRORS_NONE p).1 in
  if is_closed (current_state c) && sr_check_packet (opened cfg c) (sending cfg) p && version_ok cfg (cd_version d)
  then RASTA_CONNECTION_START else RASTA_CONNECTION_CLOSED.

Definition after_conresp (cfg : rasta_config_info) (c : rasta_connection) (p : RastaPacket) : rasta_sr_state :=
  let d := (extractRastaConnectionData RASTA_ERRORS_NONE p).1 in
  if sr_check_packet c (sending cfg) p then
    match current_state c with
    | RASTA_CONNECTION_START =>
        if bool_decide (role c = RASTA_ROLE_CLIENT) && version_accepted cfg (cd_version d)
        then RASTA_CONNECTION_UP else RASTA_CONNECTION_CLOSED
    | RASTA_CONNECTION_RETRREQ | RASTA_CONNECTION_RETRRUN | RASTA_CONNECTION_UP => RASTA_CONNECTION_CLOSED
    | st => st
    end
  else RASTA_CONNECTION_CLOSED.

Lemma connection_data_any err p :
  (extractRastaConnectionData err p).1 = (extractRastaConnectionData RASTA_ERRORS_NONE p).1.
Proof. unfold extractRastaConnectionData. by case_if. Qed.

Definition lands_in (s0 : sys) (st : rasta_sr_state) (s' : sys) : Prop :=
  ok_from s0 s' /\ current_state (conn s') = st /\ fifo_receive (conn s') = fifo_receive (conn s0).

Ltac land_in := split; [eassumption|split; chase].

Lemma handle_conresp_lands p s : sr_ok s -> packet_fields p ->
  wp (handle_conresp p) (fun _ => lands_in s (after_conresp (config s) (conn s) p)) s.
Proof.
  intros S Hp. pose proof (ok_from_refl _ S). unfold handle_conresp, after_conresp. hstep.
  destruct (sr_check_packet (conn s) (sending (config s)) p); cbn [negb]; [|hstep; land_in].
  destruct (current_state (conn s)) eqn:Est; try (hstep; land_in).
  destruct (role (conn s)) eqn:Er; [|hstep; land_in]. cbn [bool_decide andb].
  hstep. rewrite connection_data_any. destruct (version_accepted _ _); [|hstep; land_in].
  apply wp_complete_connection; [apply Hok0|done|]. intros ts t1 t2 pk s2 _ _ D C S2.
  assert (ok_from s s2) by (by eapply ok_from_did). split; [done|]. rewrite C, E0. unfold established, update_connection_attrs.
  by fields.
Qed.

Lemma handle_conreq_lands p s : sr_ok s -> packet_fields p ->
  wp (handle_conreq p) (fun _ => lands_in s (after_conreq (config s) (conn s) p)) s.
Proof.
  intros S Hp. unfold handle_conreq, after_conreq. hstep.
  pose proof (ok_from_refl _ S) as O. destruct (is_closed (current_state (conn s))); cbn [andb]; [|hstep; land_in].
  hstep. apply wp_bind. eapply wp_setc; [eassumption|apply initial_safe, S|intros s1 O1 _ E1]. hstep. hstep.
  assert (E : sr_check_packet (conn s'1) (sending (config s)) p = sr_check_packet (opened (config s) (conn s)) (sending (config s)) p).
  { by rewrite E2, E1, E0. }
  rewrite E. fold (opened (config s) (conn s)).
  destruct (sr_check_packet (opened (config s) (conn s)) (sending (config s)) p); cbn [negb andb]; [|hstep; land_in].
  hstep. rewrite connection_data_any. destruct (version_ok _ _); [|hstep; land_in].
  apply wp_accept_connection; [apply Hok2|done|]. intros ts pk s3 _ _ D C S3.
  assert (ok_from s s3) by (by eapply ok_from_did). split; [done|]. rewrite C.
  split; [done|]. unfold answered. open_updates. chase.
Qed.

(** ** All packets *)

(** The first check a packet fails, as the counter that is raised. *)
Definition rejection (cfg : rasta_config_sending) (c : rasta_connection) (p : RastaPacket) :
    option (rasta_error_counters -> rasta_error_counters) :=
  if p_checksum_correct p =? 0 then Some count_safety
  else if negb (sr_message_authentic c p) then Some count_address
  else if negb (sr_sn_range_valid c cfg p) then Some count_sn
  else if negb (sr_cs_valid c p) then Some count_cs
  else if is_type p [RASTA_TYPE_RETRDATA; RASTA_TYPE_DATA; RASTA_TYPE_RETRREQ; RASTA_TYPE_RETRRESP;
                     RASTA_TYPE_DISCREQ; RASTA_TYPE_HB] then None
  else Some count_type.

(** The transition table, by packet type. *)
Definition transition (cfg : rasta_config_sending) (c : rasta_connection) (p : RastaPacket) : rasta_sr_state * Z :=
  let st := current_state c in
  let sn := sr_sn_in_seq c p in
  let cts := sr_cts_in_seq c cfg p in
  let type := p_type p in
  if type =? RASTA_TYPE_RETRDATA then after_retrdata st sn cts
  else if type =? RASTA_TYPE_DATA then after_data st sn cts
  else if type =? RASTA_TYPE_RETRREQ then after_retrreq st sn cts
  else if type =? RASTA_TYPE_RETRRESP then after_retrresp st sn cts
  else if type =? RASTA_TYPE_DISCREQ then (RASTA_CONNECTION_CLOSED, 1)
  else after_hb st sn cts.

(** State and result after any packet. *)
Definition next_state (cfg : rasta_config_info) (c : rasta_connection) (p : RastaPacket) : rasta_sr_state * Z :=
  if p_type p =? RASTA_TYPE_CONNREQ then (after_conreq cfg c p, 0)
  else if p_type p =? RASTA_TYPE_CONNRESP then (after_conresp cfg c p, 1)
  else match rejection (sending cfg) c p with
       | Some _ => (current_state c, 0)
       | None => transition (sending cfg) c p
       end.

(** Whether the messages of a packet are handed to the application. *)
Definition delivers (cfg : rasta_config_info) (c : rasta_connection) (p : RastaPacket) : bool :=
  is_type p [RASTA_TYPE_DATA; RASTA_TYPE_RETRDATA] && negb ((next_state cfg c p).2 =? 0).

Definition buffered (cfg : rasta_config_info) (c : rasta_connection) (p : RastaPacket) : queue (list Z) :=
  if delivers cfg c p then
    match extractMessageData p with Ok msgs => accept_into (fifo_receive c) msgs | Fail _ => fifo_receive c end
  else fifo_receive c.

Lemma lands_accepted s v p msgs r s' : extractMessageData p = Ok msgs ->
  lands s v (accepted (conn s) p msgs v.2) r s' ->
  lands s v (if negb (v.2 =? 0) then
    match extractMessageData p with Ok msgs => accept_into (fifo_receive (conn s)) msgs | Fail _ => fifo_receive (conn s) end
    else fifo_receive (conn s)) r s'.
Proof. intros ->. unfold accepted. by destruct (v.2 =? 0). Qed.

Lemma sr_receive_rejected p s f : p_type p <> RASTA_TYPE_CONNREQ -> p_type p <> RASTA_TYPE_CONNRESP ->
  rejection (sending (config s)) (conn s) p = Some f ->
  sr_receive p s = Ok (0, s <| conn ::= fun c => c <| errors ::= f |> |>).
Proof.
  intros H1 H2. unfold rejection, sr_receive, is_type. ztests.
  destruct (p_checksum_correct p =? 0); [by intros [= <-]|].
  erewrite run_ok by done. unfold Datatypes.id, sr_rekeying_skipped.
  destruct (sr_message_authentic (conn s) p); cbn [negb]; [|by intros [= <-]].
  destruct (sr_sn_range_valid _ _ p); cbn [negb]; [|by intros [= <-]].
  destruct (sr_cs_valid (conn s) p); cbn [negb]; [|by intros [= <-]].
  unfold handle_received_packet. cbn [existsb].
  repeat match goal with |- context [p_type p =? ?t] => destruct (p_type p =? t); cbn [orb]; [done|] end.
  by intros [= <-].
Qed.

Ltac closed_z a :=
  lazymatch a with RASTA_TYPE_RETRDATA => idtac | RASTA_TYPE_DATA => idtac | RASTA_TYPE_RETRREQ => idtac
  | RASTA_TYPE_RETRRESP => idtac | RASTA_TYPE_DISCREQ => idtac | RASTA_TYPE_HB => idtac end.

Lemma dispatch p s : p_type p <> RASTA_TYPE_CONNREQ -> p_type p <> RASTA_TYPE_CONNRESP ->
  rejection (sending (config s)) (conn s) p = None -> sr_receive p s = handle_received_packet p s.
Proof.
  intros H1 H2. unfold rejection, sr_receive. ztests. destruct (p_checksum_correct p =? 0); [done|].
  intros Hr. erewrite run_ok by done. unfold Datatypes.id, sr_rekeying_skipped. revert Hr.
  destruct (sr_message_authentic (conn s) p); cbn [negb]; [|done].
  destruct (sr_sn_range_valid _ _ p); cbn [negb]; [|done].
  by destruct (sr_cs_valid (conn s) p).
Qed.

Lemma rejection_type cfg c p : rejection cfg c p = None ->
  p_type p = RASTA_TYPE_RETRDATA \/ p_type p = RASTA_TYPE_DATA \/ p_type p = RASTA_TYPE_RETRREQ \/
  p_type p = RASTA_TYPE_RETRRESP \/ p_type p = RASTA_TYPE_DISCREQ \/ p_type p = RASTA_TYPE_HB.
Proof.
  unfold rejection. do 4 (case_if; [done|]). unfold is_type. cbn [existsb].
  destruct (Z.eqb_spec (p_type p) RASTA_TYPE_RETRDATA); [auto|]. destruct (Z.eqb_spec (p_type p) RASTA_TYPE_DATA); [auto|].
  destruct (Z.eqb_spec (p_type p) RASTA_TYPE_RETRREQ); [auto|]. destruct (Z.eqb_spec (p_type p) RASTA_TYPE_RETRRESP); [auto|].
  destruct (Z.eqb_spec (p_type p) RASTA_TYPE_DISCREQ); [auto 6|]. destruct (Z.eqb_spec (p_type p) RASTA_TYPE_HB); [auto 7|done].
Qed.

(** Tests between the numbers of packet types, by computation. *)
Ltac types :=
  repeat match goal with
  | H : context [?a =? ?b] |- _ => closed_z a; closed_z b; let v := eval vm_compute in (a =? b) in change (a =? b) with v in H
  | |- context [?a =? ?b] => closed_z a; closed_z b; let v := eval vm_compute in (a =? b) in change (a =? b) with v
  end; cbn [existsb orb andb] in *.

Lemma receive_lands p s : sr_ok s -> acceptable (channel_context s) p ->
  wp (sr_receive p) (lands s (next_state (config s) (conn s) p) (buffered (config s) (conn s) p)) s.
Proof.
  intros S [Hp Hm]. pose proof (ok_from_refl _ S) as O. unfold buffered, delivers, next_state.
  destruct (Z.eqb_spec (p_type p) RASTA_TYPE_CONNREQ) as [E1|E1].
  { unfold sr_receive. rewrite E1. cbn [Z.eqb Pos.eqb snd negb]. rewrite andb_false_r.
    apply wp_bind. eapply wp_mono; [by apply handle_conreq_lands|]. intros [] s' (H1 & H2 & H3). by apply wp_ret. }
  destruct (Z.eqb_spec (p_type p) RASTA_TYPE_CONNRESP) as [E2|E2].
  { unfold sr_receive, is_type. rewrite E2. cbn [Z.eqb Pos.eqb existsb orb andb].
    apply wp_bind. eapply wp_mono; [by apply handle_conresp_lands|]. intros [] s' (H1 & H2 & H3). by apply wp_ret. }
  destruct (rejection _ _ p) as [f|] eqn:Er.
  { unfold wp. rewrite (sr_receive_rejected p s f) by done. cbn [snd Z.eqb negb]. rewrite andb_false_r.
    split; [|done]. apply (ok_from_did _ s _ []); [done|apply did_conn|].
    eapply sr_ok_update; [done|apply did_conn|done|apply count_safe]. }
  pose proof (dispatch p s E1 E2 Er) as Ed. unfold wp. rewrite Ed. clear Ed.
  fold (wp (handle_received_packet p) (lands s (transition (sending (config s)) (conn s) p)
    (if is_type p [RASTA_TYPE_DATA; RASTA_TYPE_RETRDATA] && negb ((transition (sending (config s)) (conn s) p).2 =? 0)
     then match extractMessageData p with Ok msgs => accept_into (fifo_receive (conn s)) msgs | Fail _ => fifo_receive (conn s) end
     else fifo_receive (conn s))) s).
  unfold is_type in *. apply rejection_type in Er.
  destruct Er as [E|[E|[E|[E|[E|E]]]]]; unfold handle_received_packet, transition; rewrite E in *; types.
  - destruct (Hm eq_refl) as [msgs Ex]. eapply wp_mono; [by apply handle_retrdata_lands|].
    intros r s'. by apply lands_accepted.
  - destruct (Hm eq_refl) as [msgs Ex]. eapply wp_mono; [by apply handle_data_lands|].
    intros r s'. by apply lands_accepted.
  - by apply handle_retrreq_lands.
  - by apply handle_retrresp_lands.
  - by apply handle_discreq_lands.
  - by apply handle_hb_lands.
Qed.

Lemma delivers_only cfg c p : delivers cfg c p = true ->
  rejection (sending cfg) c p = None /\ p_sequence_number p = sn_r c /\ sr_cts_in_seq c (sending cfg) p = true /\
  (p_type p = RASTA_TYPE_DATA /\ current_state c = RASTA_CONNECTION_UP \/
   p_type p = RASTA_TYPE_RETRDATA /\ current_state c = RASTA_CONNECTION_RETRRUN).
Proof.
  unfold delivers, next_state, is_type. cbn [existsb].
  destruct (Z.eqb_spec (p_type p) RASTA_TYPE_DATA) as [E|E];
    [|destruct (Z.eqb_spec (p_type p) RASTA_TYPE_RETRDATA) as [E'|E']; [|done]]; rewrite ?E, ?E'.
  all: change (_ =? RASTA_TYPE_CONNREQ) with false; change (_ =? RASTA_TYPE_CONNRESP) with false; cbn iota.
  all: destruct (rejection _ c p); [done|]; unfold transition; rewrite ?E, ?E'; types.
  - unfold after_data. destruct (sr_sn_in_seq c p) eqn:Es, (sr_cts_in_seq c (sending cfg) p), (current_state c); try done.
    unfold sr_sn_in_seq, is_type in Es. rewrite E in Es. cbn in Es. zbool. intros _. split_and!; auto.
  - unfold after_retrdata. destruct (sr_sn_in_seq c p) eqn:Es, (sr_cts_in_seq c (sending cfg) p), (current_state c); try done.
    unfold sr_sn_in_seq, is_type in Es. rewrite E' in Es. cbn in Es. zbool. intros _. split_and!; auto.
Qed.



(** Application data reaches the receive queue only from a data packet in
    state UP or a retransmitted one in state RETRRUN that has the right safety
    code, comes from the peer, carries exactly the expected sequence number and
    is timely. *)
Theorem sr_receive_in_sequence p s r s' : sr_ok s -> acceptable (channel_context s) p ->
  sr_receive p s = Ok (r, s') -> fifo_receive (conn s') <> fifo_receive (conn s) ->
  p_checksum_correct p <> 0 /\ p_sender_id p = remote_id (conn s) /\ p_receiver_id p = my_id (conn s) /\
  p_sequence_number p = sn_r (conn s) /\ sr_cts_in_seq (conn s) (sending (config s)) p = true /\
  (p_type p = RASTA_TYPE_DATA /\ current_state (conn s) = RASTA_CONNECTION_UP \/
   p_type p = RASTA_TYPE_RETRDATA /\ current_state (conn s) = RASTA_CONNECTION_RETRRUN).
Proof.
  intros S A E Hne. pose proof (receive_lands p s S A) as L. unfold wp in L. rewrite E in L.
  destruct L as (_ & _ & _ & Hq). rewrite Hq in Hne. clear Hq E r s'.
  unfold buffered in Hne. destruct (delivers (config s) (conn s) p) eqn:Ed; [|done]. clear Hne.
  apply delivers_only in Ed as (Er & Esn & Ects & Ht). unfold rejection in Er.
  destruct (p_checksum_correct p =? 0) eqn:Ec; [done|].
  destruct (sr_message_authentic (conn s) p) eqn:Ea; [|done]. unfold sr_message_authentic in Ea. zbool. done.
Qed.

(** C24. Closing resets the connection and closes the transports; a connection
    that was not closed sends exactly one disconnection request with the reason
    first, with the sequence numbers of the connection, and leaves the sequence
    numbers and the queues alone. *)
Theorem sr_close_connection_spec reason details s : sr_ok s ->
  exists s' out, sr_close_connection reason details s = Ok (tt, s') /\ sent s s' out /\
    farewell (channel_context s) (conn s) reason details out /\
    conn s' = sr_reset_connection (conn s) /\ sr_ok s'.
Proof.
  intros S. pose proof (wp_close_connection reason details (fun _ s' => exists out, sent s s' out /\
    farewell (channel_context s) (conn s) reason details out /\ conn s' = sr_reset_connection (conn s) /\ sr_ok s') s S) as L.
  apply wp_ok in L as ([] & s' & E & out & L); [by exists s', out|]. intros s' out. by exists out.
Qed.
End Session.

Lemma received_wf ctx pk : packet_wf ctx pk -> packet_wf ctx (received_packet ctx pk).
Proof. intros []. unfold received_packet. by split; fields. Qed.

Lemma acceptable_received ctx pk msgs : packet_wf ctx pk -> p_data pk = encode msgs -> zlen (encode msgs) <= 65535 ->
  acceptable ctx (received_packet ctx pk).
Proof.
  intros [] Hd Hl. split; [unfold received_packet; by split; fields|]. intros _. exists msgs.
  apply extractMessageData_encode; [by rewrite received_data|done].
Qed.

(** ** The safety layer behind the interface of the redundancy layer *)

Lemma sr_ok_next s q rx : sr_ok s -> sr_ok (s <| chan ::= fun c => c <| defer_q := q |> <| seq_rx := rx |> |>).
Proof. intros [[] R C O]. split; [by split|exact R|exact C|exact O]. Qed.

#[export] Instance sr_upper_ok `{TransportOk} : UpperOk sr_ok acceptable.
Proof.
  split.
  - intros p s S A. eapply wp_mono; [by apply receive_lands|]. intros r s' ([[F _] S'] & _).
    split; [done|]. rewrite (lf_chan _ _ F), (lf_context _ _ F). done.
  - apply sr_ok_next.
  - intros s S. apply S.
Qed.

Section Delivery.
Context `{TransportOk}.

(** C21. The safety code of the peer is not verified: the packet of a frame that
    is due is serialised again, with a new safety code, before it is parsed for
    the safety layer.  A data packet whose safety code did not match what was
    received, and which [sr_receive] would reject for it, is therefore delivered
    to the application like any other. *)
Theorem safety_code_not_verified s w msgs : let pk := rp_data (w_packet w) in
  sr_ok s -> defer_ok (defer_q (chan s)) -> elements (defer_q (chan s)) = [w] -> w_sn w = seq_rx (chan s) ->
  packet_wf (channel_context s) pk -> p_data pk = encode msgs -> zlen (encode msgs) <= 65535 ->
  p_checksum_correct pk = 0 ->
  delivers (config s) (conn s) (received_packet (channel_context s) pk) = true ->
  rejection (sending (config s)) (conn s) pk = Some count_safety /\
  exists r s', red_f_deliverDeferQueue s = Ok (r, s') /\ sr_ok s' /\ elements (defer_q (chan s')) = [] /\
    fifo_receive (conn s') = accept_into (fifo_receive (conn s)) msgs.
Proof.
  intros pk K D E Hw Wf Hd Hl Hc Hdel. split; [unfold rejection; by rewrite Hc|].
  assert (A : acceptable (channel_context s) (received_packet (channel_context s) pk)) by (by eapply acceptable_received).
  destruct (deliver_loop_ok (Inv := sr_ok) (acceptable := acceptable) (S (length (elements (defer_q (chan s))))) 0 s K D)
    as (r & s' & ws & R & Dl & S' & _ & _ & Hp & Hn); [rewrite E; apply Forall_cons; by split|lia|].
  unfold red_f_deliverDeferQueue. erewrite run_ok by done. exists r, s'. split; [exact R|]. split; [exact S'|].
  rewrite E in Hp. symmetry in Hp. apply Permutation_singleton_r in Hp.
  destruct ws as [|w' ws]; cbn [app] in Hp.
  - inversion Dl; subst s'. exfalso. apply not_true_iff_false in Hn. apply Hn, deferqueue_contains_spec.
    exists w. split; [rewrite E; by left|done].
  - injection Hp as -> Hrest. apply app_eq_nil in Hrest as [-> ->]. split; [done|].
    inversion Dl as [|? ? r1 s1 ? ? Er Dl']; subst. inversion Dl'; subst. fields.
    pose proof (receive_lands _ s K A) as L. unfold wp in L. change (sr_receive (received_packet (channel_context s) pk) s = Ok (r1, s1)) in Er.
    rewrite Er in L. destruct L as (_ & _ & _ & L). rewrite L. unfold buffered. rewrite Hdel.
    by rewrite (extractMessageData_encode _ msgs) by (by rewrite ?received_data).
Qed.
End Delivery.

(** ** Witnesses *)

Lemma demo_net : net_good demo_world.
Proof. split; intros; cbn; lia. Qed.

Lemma demo_sr_ok r st sn : is_u32 sn -> sr_ok (demo_sys r st sn).
Proof.
  intros Hs. split.
  - split; [apply _|done|done|unfold crc_fits; cbn; lia|apply demo_net].
  - intros _ i Hi. cbn in Hi. assert (i = 0%nat) as -> by lia. exists 0%nat, 0. split_and!; [done..|cbn; lia].
  - split; unfold is_u32, is_u16; cbn; lia.
  - split; try done; try (split; zle); try apply u32_range; try (apply queue_init_ok; split; zle); try (by constructor).
    exists []. by split; [|constructor].
Qed.

Definition demo_up_ok : sr_ok demo_up := demo_sr_ok _ _ 5 ltac:(split; zle).

(** A data packet that is due. *)
Definition demo_due : RastaPacket := received_packet demo_ctx (demo_inner 5).

Lemma demo_acceptable sn pk : is_u32 sn -> pk = demo_inner sn \/ pk = received_packet demo_ctx (demo_inner sn) ->
  acceptable demo_ctx (received_packet demo_ctx pk).
Proof.
  intros Hs Hpk. apply (acceptable_received _ _ [[255]]).
  - destruct Hpk as [-> | ->]; [|apply received_wf]; by apply demo_inner_wf.
  - destruct Hpk as [-> | ->]; [|rewrite received_data]; reflexivity.
  - zle.
Qed.
Definition demo_due_ok : acceptable (channel_context demo_up) demo_due :=
  demo_acceptable 5 _ ltac:(split; zle) (or_introl eq_refl).



Lemma sr_receive_in_sequence_witness :
  exists r s', sr_receive demo_due demo_up = Ok (r, s') /\ fifo_receive (conn s') <> fifo_receive (conn demo_up) /\
    p_sequence_number demo_due = sn_r (conn demo_up).
Proof.
  pose proof (receive_lands demo_due demo_up demo_up_ok demo_due_ok) as L.
  apply wp_ok in L as (r & s' & E & _ & _ & _ & Hq). exists r, s'. split; [exact E|].
  assert (Hne : fifo_receive (conn s') <> fifo_receive (conn demo_up)).
  { rewrite Hq. vm_compute. discriminate. }
  split; [exact Hne|].
  destruct (sr_receive_in_sequence demo_due demo_up r s' demo_up_ok demo_due_ok E Hne) as (_ & _ & _ & Hsn & _).
  exact Hsn.
Defined.

Lemma sr_close_connection_spec_witness :
  sr_ok demo_up /\ exists s' out, sr_close_connection RASTA_DISC_REASON_USERREQUEST 0 demo_up = Ok (tt, s') /\
    sent demo_up s' out /\ farewell (channel_context demo_up) (conn demo_up) RASTA_DISC_REASON_USERREQUEST 0 out /\
    conn s' = sr_reset_connection (conn demo_up) /\ sr_ok s'.
Proof. split; [exact demo_up_ok|]. exact (sr_close_connection_spec RASTA_DISC_REASON_USERREQUEST 0 demo_up demo_up_ok). Defined.

(** Packets 0 and 1 of the channel were received in the wrong order, and 3. *)
Definition demo_deferred : sys :=
  let w rsn sn t := mkWrapper (received_red demo_ctx (demo_red_packet rsn sn)) t in
  demo_up <| chan ::= fun c => c <| defer_q := mkDefer [w 1 6 10; w 0 5 20; w 3 8 30] [None] 4 |> <| seq_rx := 0 |> |>.

Lemma demo_deferred_ok : sr_ok demo_deferred /\ defer_ok (defer_q (chan demo_deferred)) /\
  Forall (deliverable (acceptable := acceptable) (channel_context demo_deferred)) (elements (defer_q (chan demo_deferred))).
Proof.
  split; [exact (sr_ok_next demo_up _ 0 demo_up_ok)|]. split; [split; [split; zle|reflexivity]|].
  assert (G : forall rsn sn t, is_u32 sn -> deliverable (acceptable := acceptable) demo_ctx
    (mkWrapper (received_red demo_ctx (demo_red_packet rsn sn)) t)).
  { intros rsn sn t Hs. split.
    - change (packet_wf demo_ctx (received_packet demo_ctx (demo_inner sn))). by apply received_wf, demo_inner_wf.
    - apply (demo_acceptable sn); [done|by right]. }
  repeat (apply Forall_cons; split; [apply G; split; zle|]). apply Forall_nil. exact I.
Qed.

Lemma red_f_deliverDeferQueue_in_order_witness :
  let s := demo_deferred in
  exists r s' ws, red_f_deliverDeferQueue s = Ok (r, s') /\
    delivered s (inner_packet (channel_context s) <$> ws) s' /\ sr_ok s' /\
    consecutive (seq_rx (chan s)) ws /\ elements (defer_q (chan s)) ≡ₚ ws ++ elements (defer_q (chan s')) /\
    deferqueue_contains (defer_q (chan s')) (seq_rx (chan s')) = false.
Proof.
  intros s. destruct demo_deferred_ok as (S & D & F).
  exact (red_f_deliverDeferQueue_in_order (Inv := sr_ok) (acceptable := acceptable) s S D F).
Defined.

(** A frame that is due, with a packet whose safety code was wrong. *)
Definition demo_forged : rasta_redundancy_packet_wrapper :=
  mkWrapper ((demo_red_packet 0 5) <| rp_data ::= fun pk => pk <| p_checksum := zeros 8 |> <| p_checksum_correct := 0 |> |>) 10.
Definition demo_with_forged : sys := demo_up <| chan ::= fun c => c <| defer_q := mkDefer [demo_forged] [None; None; None] 4 |> <| seq_rx := 0 |> |>.

Lemma safety_code_not_verified_witness : let s := demo_with_forged in
  rejection (sending (config s)) (conn s) (rp_data (w_packet demo_forged)) = Some count_safety /\
  exists r s', red_f_deliverDeferQueue s = Ok (r, s') /\ sr_ok s' /\ elements (defer_q (chan s')) = [] /\
    fifo_receive (conn s') = accept_into (fifo_receive (conn s)) [[255]].
Proof.
  intros s. assert (S : sr_ok s) by exact (sr_ok_next demo_up _ 0 demo_up_ok).
  assert (D : defer_ok (defer_q (chan s))) by (split; [split; zle|reflexivity]).
  assert (W : packet_wf (channel_context s) (rp_data (w_packet demo_forged))).
  { destruct (demo_inner_wf 5) as []; [split; zle|]. by split. }
  assert (L : zlen (encode [[255]]) <= 65535) by (vm_compute; discriminate).
  assert (Del : delivers (config s) (conn s) (received_packet (channel_context s) (rp_data (w_packet demo_forged))) = true)
    by (vm_compute; reflexivity).
  exact (safety_code_not_verified s demo_forged [[255]] S D eq_refl eq_refl W eq_refl L eq_refl Del).
Defined.
