(* ===== verification/Events.v ===== *)
(** * The event handlers (src/c/transport/events.c, handle_closed_transport of
    src/c/redundancy/rasta_red_multiplexer.c)

    What the event loop calls: when a descriptor is readable
    ([channel_accept_event], [channel_receive_event]) and when a timer is due
    ([data_send_event] of Retransmission, [heartbeat_send_event],
    [event_connection_expired]).  [endpoint_ok] is the invariant of a whole
    endpoint; every handler keeps it as long as what arrives is [tame]. *)

From stdpp Require Import base numbers list.
From Stdlib Require Import ZArith Lia.
From S2P Require Import Prelude.
From S2P Require Import Fifo.
From S2P Require Import Crc.
From S2P Require Import Hashing.
From S2P Require Import Packet.
From S2P Require Import Factory.
From S2P Require Import DeferQueue.
From S2P Require Import World.
From S2P Require Import Config.
From S2P Require Import State.
From S2P Require Import Transport.
From S2P Require Import Redundancy.
From S2P Require Import Connection.
From S2P Require Import Retransmission.
From S2P Require Import Handlers.
From S2P Require Import Session.

Local Open Scope Z_scope.
Local Open Scope record_scope.

Section Events.
Context `{Transport}.

(** ** Descriptors *)

(** UDP leaves the address unwritten, and never registers this event. *)
(* transport/events.c channel_accept_event *)
Definition channel_accept_event (socket : nat) : M sys Z :=
  '(accepted, addr) ← transport_accept socket;
  match addr with
  | None => fail Uninitialised
  | Some addr =>
      channel ← gets (fun s => find_channel_by_ip_address s addr);
      match channel with
      | Some i =>
          _ ← set_channel i (fun c => c <| file_descriptor := accepted |>
                 <| receive_event ::= (fun e => e <| fd := accepted |>) |>
                 <| connected := true |> <| associated_socket := Some socket |>);
          _ ← set_channel i (fun c => c <| receive_event ::= enable_fd_event |>);
          mret 0
      | None => _ ← syscall_now SysClose; mret 0
      end
  end.

(* rasta_red_multiplexer.c handle_closed_transport *)
Definition handle_closed_transport : M sys Z :=
  channels ← gets (fun s => transport_channels (chan s));
  if existsb connected channels then mret 0
  else _ ← sr_closed_connection; mret 1.

(** The channel a datagram belongs to: the one the event names, or at a UDP
    socket the one whose peer sent it. *)
(* transport/events.c:75-94 channel_receive_event *)
Definition receiving_channel (socket channel : option nat) (sender : list Z * Z) : M sys (option nat) :=
  match channel with
  | Some i => mret (Some i)
  | None =>
      found ← gets (fun s => find_channel_by_ip_address s sender);
      match found, socket with
      | None, _ => mret None
      | Some _, None => fail NullDeref
      | Some i, Some k =>
          so ← socket_at k;
          _ ← set_channel i (fun c => c <| file_descriptor := so_file_descriptor so |> <| connected := true |>);
          mret (Some i)
      end
  end.

(* transport/events.c:102-120 channel_receive_event *)
Definition broken_connection (socket channel : option nat) (i : nat) : M sys Z :=
  _ ← set_channel i (fun c => c <| connected := false |>);
  _ ← match socket with
      | Some k => set_socket k (fun so => so <| so_receive_event ::= disable_fd_event |>)
      | None => mret tt
      end;
  _ ← match channel with
      | Some j => set_channel j (fun c => c <| receive_event ::= disable_fd_event |>)
      | None => mret tt
      end;
  handle_closed_transport.

(** The buffer is zeroed before; without DTLS [is_dtls_conn_ready] is false. *)
(* transport/events.c channel_receive_event *)
Definition channel_receive_event (socket channel : option nat) : M sys Z :=
  '(len, data, sender) ← receive_callback socket channel;
  let buffer := data ++ zeros (MAX_DEFER_QUEUE_MSG_SIZE - zlen data) in
  transport_channel ← receiving_channel socket channel sender;
  match transport_channel with
  | None => mret 0
  | Some i =>
      c ← channel_at i;
      _ ← run_channel_diagnostics (id c);
      if len <=? 0 then broken_connection socket channel i
      else
        r ← receive_packet (id c) buffer len;
        if negb (r =? 0) then red_f_deliverDeferQueue else mret 0
  end.

(** ** Timers *)

(** The states in which heartbeats are exchanged. *)
Definition alive (st : rasta_sr_state) : bool :=
  match st with RASTA_CONNECTION_UP | RASTA_CONNECTION_RETRREQ | RASTA_CONNECTION_RETRRUN => true | _ => false end.

(* transport/events.c event_connection_expired *)
Definition event_connection_expired : M sys Z :=
  c ← gets conn;
  if hb_locked c then mret 0
  else
    _ ← when (alive (current_state c)) (sr_close_connection RASTA_DISC_REASON_TIMEOUT 0);
    _ ← setc (fun c => c <| send_heartbeat_event ::= disable_timed_event |>);
    _ ← setc (fun c => c <| timeout_event ::= disable_timed_event |>);
    mret 1.

(* transport/events.c heartbeat_send_event *)
Definition heartbeat_send_event : M sys Z :=
  c ← gets conn;
  if hb_locked c then mret 0
  else _ ← when (alive (current_state c)) (sendHeartbeat false); mret 0.

(** Never called in a build without OPAQUE. *)
(* transport/events.c send_timed_key_exchange *)
Definition send_timed_key_exchange : M sys Z := mret 0.

End Events.

(** ** The invariant of an endpoint *)

(** The packets a frame holds: one that passes the frame's checks can be handed
    to the layer above. *)
Definition good_frame (s : sys) (frame : list Z) : Prop :=
  bytes_ok frame /\ leShortToHost (take 2 frame) = zlen frame /\ 2 <= zlen frame /\
  exists rp, (forall r0, bytesToRastaRedundancyPacket RASTA_ERRORS_NONE frame (crc_type (redundancy (config s)))
                (channel_context s) r0 = Ok (rp, RASTA_ERRORS_NONE)) /\
    (rp_checksum_correct rp <> 0 ->
     packet_wf (channel_context s) (rp_data rp) /\
     acceptable (channel_context s) (received_packet (channel_context s) (rp_data rp))).

(** A datagram of whole frames that fits the buffer: anything a correct peer
    sends, reordered, repeated or lost, and frames whose content was damaged as long
    as their check code shows it. *)
Definition tame (s : sys) (data : list Z) : Prop :=
  zlen data <= MAX_DEFER_QUEUE_MSG_SIZE /\
  exists frames, data = concat frames /\ Forall (good_frame s) frames.

(** Channels and sockets are numbered by the entries of the configuration. *)
Definition numbers (s : sys) : list Z := Z.of_nat <$> seq 0 (length (connections (redundancy (config s)))).

(** All but the defer queue. *)
Record base_ok (ctx : rasta_hashing_context_t) (s : sys) : Prop := {
  bo_sr : sr_ok s;
  bo_context : channel_context s = ctx;
  bo_ids : id <$> transport_channels (chan s) = numbers s;
  bo_sockets : so_id <$> transport_sockets (mux s) = numbers s;
  bo_inbox : Forall (fun m => tame s m.2) (inbox (env s))
}.

Record endpoint_ok (s : sys) : Prop := {
  ep_base : base_ok (channel_context s) s;
  ep_defer : defer_ok (defer_q (chan s));
  ep_deferred : Forall (deliverable (acceptable := acceptable) (channel_context s)) (elements (defer_q (chan s)))
}.

(** What the invariant depends on. *)
Record upheld (s s' : sys) : Prop := {
  up_conn : conn s' = conn s;
  up_config : config s' = config s;
  up_error : rastamodule_lasterror s' = rastamodule_lasterror s;
  up_context : channel_context s' = channel_context s;
  up_mux : mux_context s' = mux_context s;
  up_attached : forall i, attached s i -> attached s' i;
  up_ids : id <$> transport_channels (chan s') = id <$> transport_channels (chan s);
  up_sockets : so_id <$> transport_sockets (mux s') = so_id <$> transport_sockets (mux s);
  up_outcome : outcome (env s') = outcome (env s);
  up_trace : trace (env s') = trace (env s)
}.

Lemma upheld_refl s : upheld s s.
Proof. done. Qed.
Lemma upheld_trans s1 s2 s3 : upheld s1 s2 -> upheld s2 s3 -> upheld s1 s3.
Proof. intros [] []. split; try (by etrans). eauto. Qed.
#[export] Instance upheld_preorder : PreOrder upheld.
Proof. split; [exact upheld_refl|exact upheld_trans]. Qed.

Lemma upheld_length s s' : upheld s s' -> length (transport_channels (chan s')) = length (transport_channels (chan s)).
Proof. intros U%up_ids. apply (f_equal length) in U. by rewrite !length_fmap in U. Qed.

Lemma link_upheld s s' : upheld s s' -> link_ok s -> link_ok s'.
Proof.
  intros [] []. split; rewrite ?up_context0, ?up_mux0, ?up_error0, ?up_config0; try done.
  destruct lk_net. by split; rewrite up_outcome0.
Qed.

Lemma upheld_sr s s' : upheld s s' -> sr_ok s -> sr_ok s'.
Proof.
  intros U [L R C O]. pose proof (link_upheld _ _ U L). destruct U. split; [done|..].
  - rewrite up_conn0. intros E i Hi. destruct (R E i) as (j & so & H1 & H2 & H3).
    + apply (f_equal length) in up_ids0. rewrite !length_fmap in up_ids0. by rewrite <- up_ids0.
    + apply up_attached0. by exists j, so.
  - by rewrite up_config0.
  - by rewrite up_config0, up_context0, up_conn0.
Qed.

Lemma tame_same s s' data : config s' = config s -> channel_context s' = channel_context s -> tame s data -> tame s' data.
Proof. unfold tame, good_frame. by intros -> ->. Qed.

Lemma tame_nil s : tame s [].
Proof. split; [zle|]. by exists []. Qed.

(** The invariant after a step that keeps what it depends on. *)
Lemma base_same ctx s s' : base_ok ctx s -> sr_ok s' -> config s' = config s -> channel_context s' = channel_context s ->
  id <$> transport_channels (chan s') = id <$> transport_channels (chan s) ->
  so_id <$> transport_sockets (mux s') = so_id <$> transport_sockets (mux s) ->
  Forall (fun m => tame s m.2) (inbox (env s')) -> base_ok ctx s'.
Proof.
  intros [S X I K N] S' E1 E2 E3 E4 Hin. split.
  - done.
  - by rewrite E2.
  - unfold numbers. by rewrite E1, E3.
  - unfold numbers. by rewrite E1, E4.
  - eapply Forall_impl; [exact Hin|]. intros m. by apply tame_same.
Qed.

Lemma base_upheld ctx s s' : upheld s s' -> base_ok ctx s -> Forall (fun m => tame s m.2) (inbox (env s')) -> base_ok ctx s'.
Proof. intros U B Hin. eapply base_same; [done|by eapply upheld_sr, B|apply U..|done]. Qed.

Lemma base_lower ctx s s' : base_ok ctx s -> lower_frame s s' -> sr_ok s' -> base_ok ctx s'.
Proof.
  intros B L S'. eapply base_same; [done|done|apply L|by apply lf_context|apply L|apply L|]. rewrite (lf_inbox _ _ L). apply B.
Qed.

Lemma endpoint_same s s' : endpoint_ok s -> base_ok (channel_context s) s' -> defer_q (chan s') = defer_q (chan s) ->
  endpoint_ok s'.
Proof. intros [B D F] B' Eq. split; rewrite ?(bo_context _ _ B'), ?Eq; done. Qed.

Lemma endpoint_upheld s s' : upheld s s' -> endpoint_ok s ->
  defer_q (chan s') = defer_q (chan s) -> Forall (fun m => tame s m.2) (inbox (env s')) -> endpoint_ok s'.
Proof. intros U E Eq Hin. eapply endpoint_same; [done| |done]. eapply base_upheld; [done|apply E|done]. Qed.

(** [sr_ok] and [lower_frame] cover the handlers of the safety layer. *)
Lemma endpoint_lower s s' : endpoint_ok s -> lower_frame s s' -> sr_ok s' -> endpoint_ok s'.
Proof.
  intros E L S'. eapply endpoint_same; [done|eapply base_lower; [apply E|done|done]|]. by rewrite (lf_chan _ _ L).
Qed.

Lemma attached_same s s' : attachment s' = attachment s ->
  so_id <$> transport_sockets (mux s') = so_id <$> transport_sockets (mux s) -> config s' = config s ->
  forall i, attached s i -> attached s' i.
Proof. intros E1 E2 E3 i (j & so & H1 & H2 & H3). exists j, so. by rewrite E1, E2, E3. Qed.

Lemma upheld_net s s' : net_frame s s' -> attachment s' = attachment s -> trace (env s') = trace (env s) -> upheld s s'.
Proof.
  intros [] ? ?. split; try done.
  - unfold channel_context. by rewrite nf_chan.
  - unfold mux_context. by rewrite nf_mux.
  - by apply attached_same.
Qed.

Lemma upheld_received s s' : received_frame s s' -> rastamodule_lasterror s' = rastamodule_lasterror s -> upheld s s'.
Proof.
  intros [] ?. split; try done.
  - unfold channel_context. by rewrite rf_chan.
  - unfold mux_context. by rewrite rf_mux.
  - apply attached_same; [|by rewrite rf_mux|done].
    unfold attachment. apply (f_equal (fmap associated_socket)) in rf_channels. by rewrite <- !list_fmap_compose in rf_channels.
  - apply (f_equal (fmap id)) in rf_channels. by rewrite <- !list_fmap_compose in rf_channels.
  - by rewrite rf_mux.
  - by rewrite rf_env.
  - by rewrite rf_env.
Qed.

Lemma upheld_set_channel s f i : (forall c, associated_socket (f c) = associated_socket c) -> (forall c, id (f c) = id c) ->
  upheld s (s <| chan ::= fun c => c <| transport_channels ::= alter f i |> |>).
Proof.
  intros H1 H2. split; fields; try done.
  - apply attached_same; [by apply attachment_channel|done..].
  - by apply fmap_alter_id.
Qed.

Lemma upheld_set_socket s f i : (forall c, so_id (f c) = so_id c) ->
  upheld s (s <| mux ::= fun m => m <| transport_sockets ::= alter f i |> |>).
Proof.
  intros H1. split; fields; try done; [|by apply fmap_alter_id].
  apply attached_same; [done| |done]. fields. by apply fmap_alter_id.
Qed.

(** ** Receiving *)

(** Frames one after the other are taken apart one after the other. *)
Record taken_apart (s s' : sys) : Prop := {
  ta_frame : received_frame s s';
  ta_error : rastamodule_lasterror s' = rastamodule_lasterror s;
  ta_defer : defer_ok (defer_q (chan s'));
  ta_deferred : Forall (deliverable (acceptable := acceptable) (channel_context s)) (elements (defer_q (chan s')))
}.

Lemma received_context s s' : received_frame s s' -> channel_context s' = channel_context s.
Proof. intros F. unfold channel_context. by rewrite (rf_chan _ _ F). Qed.

Lemma taken_apart_trans s1 s2 s3 : received_frame s1 s2 -> rastamodule_lasterror s2 = rastamodule_lasterror s1 ->
  taken_apart s2 s3 -> taken_apart s1 s3.
Proof. intros F E [F' E' D A]. rewrite (received_context _ _ F) in A. split; [by etrans|by rewrite E'|done|done]. Qed.

Lemma good_frame_same s s' f : config s' = config s -> channel_context s' = channel_context s -> good_frame s f -> good_frame s' f.
Proof. unfold good_frame. by intros -> ->. Qed.

(** A frame that is not the one the channel waits for. *)
Definition out_of_turn (s : sys) (frame : list Z) : Prop :=
  exists rp, (forall r0, bytesToRastaRedundancyPacket RASTA_ERRORS_NONE frame (crc_type (redundancy (config s)))
    (channel_context s) r0 = Ok (rp, RASTA_ERRORS_NONE)) /\ rp_sequence_number rp <> seq_rx (chan s).

Lemma received_rx s s' : received_frame s s' -> seq_rx (chan s') = seq_rx (chan s).
Proof. intros F. by rewrite (rf_chan _ _ F). Qed.

(** One frame. *)
Lemma receive_good_frame s i f Q : link_ok s -> has_channel s i -> defer_ok (defer_q (chan s)) ->
  Forall (deliverable (acceptable := acceptable) (channel_context s)) (elements (defer_q (chan s))) -> good_frame s f ->
  (forall r s', taken_apart s s' -> (out_of_turn s f -> r = 0) -> Q r s') ->
  wp (receivedPacket ← handle_received_data f;
      c ← gets chan;
      if negb (associated_id c =? p_sender_id (rp_data receivedPacket)) then mret 0
      else if deferqueue_isfull (defer_q c) then mret 0
      else red_f_receiveData receivedPacket i) Q s.
Proof.
  intros L Hi D A (Hb & Hl & H2 & rp & Hp & Hg) HQ.
  apply wp_bind. unfold handle_received_data. apply wp_bind, wp_gets. unfold with_module_error, wp at 1, Datatypes.id.
  rewrite (lk_mux _ L), (lk_error _ L), Hp. rewrite <- (lk_error _ L), set_error_id. apply wp_bind, wp_gets.
  assert (T : taken_apart s s) by (by split).
  case_if; [by apply wp_ret, HQ|]. case_if; [by apply wp_ret, HQ|].
  eapply wp_mono; [by apply red_f_receiveData_ok|]. intros r s' (F & E & Hr & now & Hd). apply HQ.
  2:{ intros (rp' & Hp' & Hne). pose proof (Hp' rp) as E'. rewrite Hp in E'. injection E' as <-. rewrite Hr.
      replace (rp_sequence_number rp =? seq_rx (chan s)) with false by (symmetry; by apply Z.eqb_neq).
      by rewrite andb_false_r. }
  destruct (stored (chan s) rp) eqn:Es; [|split; [done|done|by rewrite Hd|by rewrite Hd]].
  destruct (deferqueue_add_ok (defer_q (chan s)) rp now D) as [Hok He]. rewrite Heqb0 in He.
  assert (Hc : rp_checksum_correct rp <> 0). { unfold stored, admissible in Es. zbool. done. }
  split; [done|done|by rewrite Hd|]. rewrite Hd, He. constructor; [by apply Hg|done].
Qed.

Lemma read_length_field pre f rest : 2 <= zlen f -> read_at (pre ++ f ++ rest) (zlen pre) 2 = Ok (take 2 f).
Proof.
  intros H2. rewrite <- (take_drop 2 f) at 1. rewrite <- app_assoc. apply read_at_app; [done|].
  unfold zlen in *. rewrite length_take. lia.
Qed.

Lemma receive_frames fs : forall fuel i pre rest result s, link_ok s -> has_channel s i -> defer_ok (defer_q (chan s)) ->
  Forall (deliverable (acceptable := acceptable) (channel_context s)) (elements (defer_q (chan s))) ->
  Forall (good_frame s) fs -> zlen (concat fs) < 2 ^ 63 -> (length fs < fuel)%nat ->
  wp (receive_loop fuel i (pre ++ concat fs ++ rest) (zlen pre) (zlen (concat fs)) result)
    (fun r s' => taken_apart s s' /\ (Forall (out_of_turn s) fs -> r = result)) s.
Proof.
  induction fs as [|f fs IH]; intros fuel i pre rest result s L Hi D A Hf Hlen Hfuel; (destruct fuel as [|fuel]; [cbn in Hfuel; lia|]).
  { by apply wp_ret. }
  apply Forall_cons in Hf as [Hg Hf]. pose proof Hg as (_ & Hl & H2 & _). cbn [concat receive_loop] in *.
  rewrite zlen_app in *. pose proof (zlen_nonneg (concat fs)). ztests. rewrite <- app_assoc.
  apply wp_bind, wp_lift. eexists. split; [by apply read_length_field|]. rewrite Hl.
  apply wp_bind, wp_lift. eexists. split; [by apply read_at_app|].
  assert (E : forall (k : Z -> M sys Z), wp (receivedPacket ← handle_received_data f; c ← gets chan;
      if negb (associated_id c =? p_sender_id (rp_data receivedPacket)) then mret 0
      else if deferqueue_isfull (defer_q c) then mret 0 else red_f_receiveData receivedPacket i)
      (fun r => wp (k r) (fun r s' => taken_apart s s' /\ (Forall (out_of_turn s) (f :: fs) -> r = result))) s ->
    wp (receivedPacket ← handle_received_data f; c ← gets chan;
      r ← (if negb (associated_id c =? p_sender_id (rp_data receivedPacket)) then mret 0
      else if deferqueue_isfull (defer_q c) then mret 0 else red_f_receiveData receivedPacket i); k r)
      (fun r s' => taken_apart s s' /\ (Forall (out_of_turn s) (f :: fs) -> r = result)) s).
  { intros k Hk. apply wp_bind. unfold wp in Hk at 1. unfold mbind at 1, M_bind at 1 in Hk.
    unfold wp at 1. destruct (handle_received_data f s) as [[rp s1]|]; [|done].
    apply wp_bind, wp_gets, wp_bind. exact Hk. }
  apply E. apply receive_good_frame; [done..|]. intros r s1 T1 Hr.
  pose proof (ta_frame _ _ T1) as F1. pose proof (received_context _ _ F1) as X1.
  replace (u64 (zlen f + zlen (concat fs) - zlen f)) with (zlen (concat fs)) by (rewrite u64_small; unfold is_u64; lia).
  rewrite <- zlen_app, app_assoc.
  eapply wp_mono; [apply IH|].
  8:{ intros r' s2 [T2 Hr2]. split; [eapply taken_apart_trans; [done|apply T1|done]|].
      intros [Hf1 Hf2]%Forall_cons. rewrite Hr2, (Hr Hf1); [apply Z.lor_0_r|]. eapply Forall_impl; [exact Hf2|].
      intros g. unfold out_of_turn. by rewrite (rf_config _ _ F1), X1, (received_rx _ _ F1). }
  - eapply link_upheld; [by apply upheld_received, T1|done].
  - unfold has_channel, zlen. by rewrite (received_frame_length _ _ F1).
  - apply T1.
  - rewrite X1. apply T1.
  - eapply Forall_impl; [exact Hf|]. intros g. apply good_frame_same; [apply F1|done].
  - lia.
  - cbn in Hfuel. lia.
Qed.

Lemma frames_count s fs : Forall (good_frame s) fs -> (length fs <= length (concat fs))%nat.
Proof.
  induction 1 as [|f fs (_ & _ & H2 & _) _ IH]; cbn [concat length]; [done|]. rewrite length_app. unfold zlen in H2. lia.
Qed.

Lemma receive_tame s i data : endpoint_ok s -> tame s data -> has_channel s i ->
  wp (receive_packet i (data ++ zeros (MAX_DEFER_QUEUE_MSG_SIZE - zlen data)) (zlen data)) (fun _ => taken_apart s) s.
Proof.
  intros [B D A] (Hl & fs & -> & Hf) Hi. unfold receive_packet.
  eapply wp_mono; [apply (receive_frames fs _ i []); try done|by intros ? ? []].
  - apply B.
  - unfold MAX_DEFER_QUEUE_MSG_SIZE in Hl. lia.
  - pose proof (frames_count s fs Hf). rewrite length_app. lia.
Qed.

(** Only frames of packets that can be sent were sent. *)
Definition said (s s' : sys) : Prop :=
  exists l, trace (env s') = trace (env s) ++ l /\ Forall (fun d => spoken s (out_data d)) l.

Lemma said_quiet s s' : trace (env s') = trace (env s) -> said s s'.
Proof. intros E. exists []. by rewrite E, app_nil_r. Qed.

Lemma said_trans s1 s2 s3 : config s2 = config s1 -> channel_context s2 = channel_context s1 ->
  said s1 s2 -> said s2 s3 -> said s1 s3.
Proof.
  intros E1 E2 (l1 & R1 & W1) (l2 & R2 & W2). exists (l1 ++ l2). rewrite R2, R1, app_assoc. split; [done|].
  apply Forall_app. split; [done|]. eapply Forall_impl; [exact W2|]. cbn. intros d. unfold spoken, sendable. by rewrite E1, E2.
Qed.

(** What every callback of the event loop does: it ends, and the endpoint is fine. *)
Record kept (s s' : sys) : Prop := {
  kp_ok : endpoint_ok s';
  kp_channels : length (transport_channels (chan s')) = length (transport_channels (chan s));
  kp_sockets : length (transport_sockets (mux s')) = length (transport_sockets (mux s));
  kp_config : config s' = config s;
  kp_context : channel_context s' = channel_context s;
  kp_said : said s s'
}.

Lemma kept_trans s1 s2 s3 : kept s1 s2 -> kept s2 s3 -> kept s1 s3.
Proof. intros [] []. split; [done|by etrans..|]. by eapply said_trans. Qed.

Lemma upheld_socket_count s s' : upheld s s' -> length (transport_sockets (mux s')) = length (transport_sockets (mux s)).
Proof. intros U%up_sockets. apply (f_equal length) in U. by rewrite !length_fmap in U. Qed.

Lemma lower_socket_count s s' : lower_frame s s' -> length (transport_sockets (mux s')) = length (transport_sockets (mux s)).
Proof. intros U%lf_sockets. apply (f_equal length) in U. by rewrite !length_fmap in U. Qed.

Lemma kept_upheld s s' : upheld s s' -> endpoint_ok s -> defer_q (chan s') = defer_q (chan s) ->
  Forall (fun m => tame s m.2) (inbox (env s')) -> kept s s'.
Proof.
  intros U E Eq Hin. split; [by eapply endpoint_upheld|by apply upheld_length|by apply upheld_socket_count|apply U..|by apply said_quiet, U].
Qed.

Lemma kept_lower s s' : endpoint_ok s -> spoke s s' -> sr_ok s' -> kept s s'.
Proof.
  intros E [L W] S. split; [by eapply endpoint_lower|by apply lf_length|by apply lower_socket_count|apply L|by apply lf_context|done].
Qed.

Lemma kept_refl s : endpoint_ok s -> kept s s.
Proof. intros E. split; try done. by apply said_quiet. Qed.

Lemma kept_apart s s' : endpoint_ok s -> taken_apart s s' -> kept s s'.
Proof.
  intros [B D A] [F Er D' A']. pose proof (upheld_received _ _ F Er) as U. split.
  - rewrite <- (received_context _ _ F) in A'. split; [|done|done]. rewrite (received_context _ _ F).
    eapply base_upheld; [done|done|]. rewrite (rf_env _ _ F). apply B.
  - by apply upheld_length.
  - by apply upheld_socket_count.
  - apply U.
  - apply U.
  - apply said_quiet, U.
Qed.

(** ** A lost frame *)

(** Datagrams received one after the other on a channel, as long as none makes
    the layer deliver. *)
Fixpoint receive_each (i : Z) (datagrams : list (list Z)) : M sys Z :=
  match datagrams with
  | [] => mret 0
  | d :: datagrams =>
      r ← receive_packet i (d ++ zeros (MAX_DEFER_QUEUE_MSG_SIZE - zlen d)) (zlen d);
      rest ← receive_each i datagrams;
      mret (Z.lor r rest)
  end.

Definition overtaking (s : sys) (d : list Z) : Prop := zlen d <= MAX_DEFER_QUEUE_MSG_SIZE /\
  exists fs, d = concat fs /\ Forall (good_frame s) fs /\ Forall (out_of_turn s) fs.

Lemma overtaking_same s s' d : config s' = config s -> channel_context s' = channel_context s ->
  seq_rx (chan s') = seq_rx (chan s) -> overtaking s d -> overtaking s' d.
Proof. unfold overtaking, good_frame, out_of_turn. by intros -> -> ->. Qed.

(** C6. Once a frame is lost on all channels, nothing is delivered any more:
    however many frames follow it, receiving them reports that nothing is due,
    so that [channel_receive_event] never calls [red_f_deliverDeferQueue]; the
    connection is not touched, not even to request a retransmission, and
    [seq_rx] stays at the lost frame for ever, because [red_f_deferTmo], which
    would go past it, is never called. *)
Theorem lost_frame_stalls i datagrams : forall s, endpoint_ok s -> has_channel s i ->
  Forall (overtaking s) datagrams ->
  exists s', receive_each i datagrams s = Ok (0, s') /\ endpoint_ok s' /\
    conn s' = conn s /\ seq_rx (chan s') = seq_rx (chan s) /\ trace (env s') = trace (env s).
Proof.
  induction datagrams as [|d datagrams IH]; intros s E Hi Hd; cbn [receive_each]; [by exists s|].
  apply Forall_cons in Hd as [(Hl & fs & -> & Hg & Ho) Hd].
  assert (L : wp (receive_packet i (concat fs ++ zeros (MAX_DEFER_QUEUE_MSG_SIZE - zlen (concat fs))) (zlen (concat fs)))
    (fun r s' => taken_apart s s' /\ (Forall (out_of_turn s) fs -> r = 0)) s).
  { apply (receive_frames fs _ i []); try done; try apply E.
    - unfold MAX_DEFER_QUEUE_MSG_SIZE in Hl. lia.
    - pose proof (frames_count s fs Hg). rewrite length_app. lia. }
  apply wp_ok in L as (r & s1 & E1 & T & Hr). rewrite (Hr Ho) in E1. pose proof (ta_frame _ _ T) as F.
  destruct (IH s1) as (s' & E' & Ok' & C & R & W).
  - by eapply kp_ok, kept_apart.
  - unfold has_channel, zlen. by rewrite (received_frame_length _ _ F).
  - eapply Forall_impl; [exact Hd|]. intros g. apply overtaking_same; [apply F|by apply received_context|by apply received_rx].
  - exists s'. split; [|split; [done|]].
    + erewrite run_ok by exact E1. by erewrite run_ok by exact E'.
    + by rewrite C, R, W, (rf_conn _ _ F), (received_rx _ _ F), (rf_env _ _ F).
Qed.

(** ** What one endpoint sends, the other one can receive *)

Lemma spoken_good s bs : link_ok s -> spoken s bs -> good_frame s bs.
Proof.
  intros [Hh _ _ Hc _] (tx & pk & Hs & ->). pose proof (createRedundancyPacket_wf s pk Hc Hs tx) as Hwf.
  set (rp := createRedundancyPacket _ _ _) in *. set (ctx := channel_context s) in *.
  destruct Hs as (Hpk & _ & Hm). fold ctx in Hpk. pose proof (red_wire_length ctx rp Hh Hwf) as Hl.
  pose proof (rwf_u16 _ _ Hwf) as Hu. split; [by apply red_wire_bytes|]. split.
  { rewrite Hl. unfold red_wire, red_header. rewrite <- !app_assoc, take_app_length' by done.
    unfold leShortToHost. by rewrite le_dec_enc_u16. }
  split.
  { rewrite Hl, (rwf_length _ _ Hwf), (wf_length _ _ (rwf_inner _ _ Hwf)). pose proof (crc_bytes_range _ Hc).
    pose proof (checksum_len_range ctx). pose proof (zlen_nonneg (p_data (rp_data rp))). change (rp_checksum_type rp) with (crc_type (redundancy (config s))). lia. }
  exists (received_red ctx rp). split; [intros r0; by apply (bytesToRastaRedundancyPacket_wire _ ctx rp)|].
  intros _. change (rp_data (received_red ctx rp)) with (received_packet ctx pk). split; [by apply received_wf|].
  split.
  - destruct Hpk. unfold received_packet. by split; fields.
  - intros Ht. assert (p_type pk = RASTA_TYPE_DATA \/ p_type pk = RASTA_TYPE_RETRDATA) as Ht'.
    { change (existsb (Z.eqb (p_type pk)) [RASTA_TYPE_DATA; RASTA_TYPE_RETRDATA] = true) in Ht.
      cbn [existsb] in Ht. destruct (Z.eqb_spec (p_type pk) RASTA_TYPE_DATA); [by left|].
      destruct (Z.eqb_spec (p_type pk) RASTA_TYPE_RETRDATA); [by right|done]. }
    destruct (Hm Ht') as [msgs Ed]. exists msgs. apply extractMessageData_encode; [by rewrite !received_data|].
    pose proof (wf_length _ _ Hpk) as El. pose proof (wf_u16 _ _ Hpk) as Eu. rewrite Ed in El. unfold is_u16 in Eu.
    pose proof (checksum_len_range ctx). lia.
Qed.

Lemma spoken_tame s bs : link_ok s -> spoken s bs -> zlen bs <= MAX_DEFER_QUEUE_MSG_SIZE -> tame s bs.
Proof.
  intros L Hs Hl. split; [done|]. exists [bs]. split; [cbn; by rewrite app_nil_r|]. constructor; [by apply spoken_good|done].
Qed.

Lemma numbers_lookup {A} s (l : list A) i x f : f <$> l = numbers s -> l !! i = Some x ->
  f x = Z.of_nat i /\ (i < length (connections (redundancy (config s))))%nat.
Proof.
  intros E Hi. assert (Hn : numbers s !! i = Some (f x)) by (by rewrite <- E, list_lookup_fmap, Hi).
  unfold numbers in Hn. apply list_lookup_fmap_Some in Hn as (k & -> & Hk). apply lookup_seq in Hk as [-> Hk]. done.
Qed.

Lemma numbers_length {A} s (l : list A) f : f <$> l = numbers s -> length l = length (connections (redundancy (config s))).
Proof. intros E%(f_equal length). unfold numbers in E. by rewrite !length_fmap, length_seq in E. Qed.

Lemma channel_number ctx s i c : base_ok ctx s -> transport_channels (chan s) !! i = Some c -> has_channel s (id c).
Proof.
  intros B Hi. destruct (numbers_lookup s _ i c id (bo_ids _ _ B) Hi) as [-> Hl].
  unfold has_channel, zlen. rewrite (numbers_length _ _ _ (bo_ids _ _ B)). lia.
Qed.

Section Kept.
Context `{TransportOk}.

(** Delivery keeps this. *)
Definition sized (s0 s : sys) : Prop :=
  base_ok (channel_context s0) s /\ config s = config s0 /\
  length (transport_channels (chan s)) = length (transport_channels (chan s0)) /\
  length (transport_sockets (mux s)) = length (transport_sockets (mux s0)) /\ said s0 s.

#[local] Instance base_upper s0 : UpperOk (sized s0) acceptable.
Proof.
  split.
  - intros p s (B & Hc & Hn & Hm & W) A. eapply wp_mono; [apply receive_lands; [apply B|done]|].
    intros r s' ([[F W'] S'] & _). split; [|by rewrite (lf_chan _ _ F), (lf_context _ _ F)].
    split; [by eapply base_lower|]. rewrite (lf_config _ _ F), (lf_length _ _ F), (lower_socket_count _ _ F).
    do 3 (split; [done|]). eapply said_trans; [done|apply B|done|done].
  - intros s q rx [B Hl]. split; [|done]. eapply base_same; [done|apply sr_ok_next, B|try done..]. apply B.
  - intros s [B _]. apply B.
Qed.

Lemma deliver_kept s : endpoint_ok s -> wp red_f_deliverDeferQueue (fun _ => kept s) s.
Proof.
  intros [B D A]. unfold red_f_deliverDeferQueue. apply wp_bind, wp_gets.
  assert (I0 : sized s s) by (split_and!; try done; by apply said_quiet).
  destruct (deliver_loop_ok (Inv := sized s) (acceptable := acceptable)
    (S (length (elements (defer_q (chan s))))) 0 s I0 D A) as (r & s' & ws & E & _ & (B' & Hc & Hn & Hm & W) & D' & _ & Hp & _); [lia|].
  unfold wp. rewrite E. split; [|done|done|done|apply B'|done]. split; rewrite ?(bo_context _ _ B'); [done..|].
  rewrite Hp in A. apply Forall_app in A. apply A.
Qed.

(** The state machine's timers. *)
Lemma kept_did s s' out : endpoint_ok s -> did s s' out -> sr_ok s' -> kept s s'.
Proof. intros E D S. eapply kept_lower; [done|by eapply sent_spoke, did_sent|done]. Qed.

Lemma did_sr s s' out : sr_ok s -> did s s' out -> role (conn s') = role (conn s) ->
  conn_ok (config s) (channel_context s) (conn s') -> sr_ok s'.
Proof.
  intros S D Hr O. pose proof (did_frame _ _ _ D) as F. eapply sr_ok_frame; [done|done| |done].
  rewrite Hr. apply (role_ok_frame _ _ _ F), S.
Qed.

Lemma data_send_sr s : sr_ok s -> wp data_send_event (fun r s' => r = 0 /\ exists out, did s s' out /\ sr_ok s' /\
  flushed (config s) (channel_context s) (conn s) (conn s') out) s.
Proof.
  intros S. apply wp_data_flush; [done|]. intros s' pks D Fl. split; [done|]. exists pks. split; [done|]. split; [|done].
  eapply did_sr; [done|done|by eapply session_role, flushed_session|]. by eapply flushed_ok; [apply S|].
Qed.

Lemma data_send_kept s : endpoint_ok s -> wp data_send_event (fun _ => kept s) s.
Proof.
  intros E. eapply wp_mono; [apply data_send_sr, E|]. intros r s' (_ & out & D & S & _). by eapply kept_did.
Qed.

Lemma heartbeat_kept s : endpoint_ok s -> wp heartbeat_send_event (fun _ => kept s) s.
Proof.
  intros E. unfold heartbeat_send_event. apply wp_bind, wp_gets. case_if; [by apply wp_ret, kept_refl|].
  apply wp_bind. unfold when. case_if; [|by apply wp_ret, wp_ret, kept_refl].
  apply wp_heartbeat; [apply E|]. intros ts t pk s' Hts Hb D C. apply wp_ret. eapply kept_did; [done|done|].
  eapply did_sr; [apply E|done|by rewrite C|]. rewrite C. apply conn_ok_beat, E.
Qed.

Lemma expired_kept s : endpoint_ok s -> wp event_connection_expired (fun _ => kept s) s.
Proof.
  intros E. unfold event_connection_expired. apply wp_bind, wp_gets. case_if; [by apply wp_ret, kept_refl|].
  assert (Hend : forall s1, ok_from s s1 -> wp (_ ← setc (fun c => c <| send_heartbeat_event ::= disable_timed_event |>);
    _ ← setc (fun c => c <| timeout_event ::= disable_timed_event |>); mret 1) (fun _ => kept s) s1).
  { intros s1 O1. apply wp_bind. eapply wp_setc; [exact O1|safe_update|]. intros s2 O2 _ _.
    apply wp_bind. eapply wp_setc; [exact O2|safe_update|]. intros s3 [F3 S3] _ _. apply wp_ret. by eapply kept_lower. }
  apply wp_bind. pose proof (ok_from_refl _ (bo_sr _ _ (ep_base _ E))) as O.
  unfold when. case_if; [|by apply wp_ret, Hend]. eapply st_close; [exact O|]. intros s' O' _. by apply Hend.
Qed.

Lemma closed_connection_kept s : endpoint_ok s -> wp sr_closed_connection (fun _ => kept s) s.
Proof.
  intros E. unfold sr_closed_connection. pose proof (ok_from_refl _ (bo_sr _ _ (ep_base _ E))) as O.
  apply wp_bind. eapply wp_setc; [exact O|safe_update|]. intros s1 O1 _ _.
  apply wp_bind. eapply wp_setc; [exact O1|apply reset_safe|]. intros s2 O2 _ _.
  apply wp_channel_close; [apply O2|]. intros s3 D3 _ S3. destruct (ok_from_sent _ _ _ _ O2 D3 S3) as [F _].
  by eapply kept_lower.
Qed.

Lemma closed_transport_kept s : endpoint_ok s -> wp handle_closed_transport (fun _ => kept s) s.
Proof.
  intros E. unfold handle_closed_transport. apply wp_bind, wp_gets. case_if; [by apply wp_ret, kept_refl|].
  apply wp_bind. eapply wp_mono; [by apply closed_connection_kept|]. intros [] s' K. by apply wp_ret.
Qed.

(** ** The descriptors' callbacks *)

(** The event comes from a channel or a socket that exists. *)
Definition event_ok (s : sys) (socket channel : option nat) : Prop :=
  match channel with
  | Some i => (i < length (transport_channels (chan s)))%nat
  | None => exists k, socket = Some k
  end /\ (forall k, socket = Some k -> (k < length (transport_sockets (mux s)))%nat).

Lemma taken_kept s s' data : endpoint_ok s -> taken s s' data -> kept s s' /\ tame s' data.
Proof.
  intros E [Es Hl Hd].
  assert (U : upheld s s') by (rewrite Es; by split).
  assert (Hq : defer_q (chan s') = defer_q (chan s)) by (by rewrite Es).
  pose proof (bo_inbox _ _ (ep_base _ E)) as N.
  assert (Hin : Forall (fun m => tame s m.2) (inbox (env s')) /\ tame s data).
  { destruct Hd as [[-> ->]|(sender & d & rest & Ei & -> & Hr)]; [split; [done|apply tame_nil]|].
    rewrite Ei in N. apply Forall_cons in N as [T N]. pose proof (proj1 T) as Hz. cbn in Hz. rewrite Hr by done.
    split; [done|]. rewrite firstn_all2; [done|]. unfold zlen in Hz. lia. }
  split; [apply kept_upheld; try done; apply Hin|]. eapply tame_same; [apply U..|apply Hin].
Qed.

Lemma find_channel_in s sender i : find_channel_by_ip_address s sender = Some i ->
  (i < length (transport_channels (chan s)))%nat.
Proof.
  unfold find_channel_by_ip_address. intros ([j c] & Hf & ->)%fmap_Some. apply list_find_Some in Hf as (Hl & _).
  by eapply lookup_lt_Some.
Qed.

Lemma kept_channel s f i : endpoint_ok s -> (forall c, associated_socket (f c) = associated_socket c) ->
  (forall c, id (f c) = id c) -> kept s (s <| chan ::= fun c => c <| transport_channels ::= alter f i |> |>).
Proof. intros E H1 H2. apply kept_upheld; [by apply upheld_set_channel|done|done|apply E]. Qed.

Lemma kept_socket s f i : endpoint_ok s -> (forall c, so_id (f c) = so_id c) ->
  kept s (s <| mux ::= fun m => m <| transport_sockets ::= alter f i |> |>).
Proof. intros E H1. apply kept_upheld; [by apply upheld_set_socket|done|done|apply E]. Qed.

Lemma receiving_channel_kept s socket channel sender : endpoint_ok s -> event_ok s socket channel ->
  wp (receiving_channel socket channel sender) (fun r s' => kept s s' /\
    forall i, r = Some i -> (i < length (transport_channels (chan s')))%nat) s.
Proof.
  intros E [Hc Hs]. unfold receiving_channel. destruct channel as [i|].
  { apply wp_ret. split; [by apply kept_refl|]. by intros ? [= <-]. }
  destruct Hc as [k ->]. specialize (Hs k eq_refl). apply wp_bind, wp_gets.
  destruct (find_channel_by_ip_address s sender) as [i|] eqn:Ef; [|by apply wp_ret; split; [apply kept_refl|]].
  apply find_channel_in in Ef as Hi. destruct (lookup_lt_is_Some_2 _ _ Hs) as [so Hso].
  apply wp_bind. eapply wp_socket_at; [done|]. apply wp_bind, wp_set_channel; [done|]. apply wp_ret.
  split; [by apply kept_channel|]. intros ? [= <-]. fields. by rewrite length_alter.
Qed.

Lemma broken_kept s socket channel i : endpoint_ok s -> event_ok s socket channel ->
  (i < length (transport_channels (chan s)))%nat -> wp (broken_connection socket channel i) (fun _ => kept s) s.
Proof.
  intros E [Hc Hs] Hi. unfold broken_connection. apply wp_bind, wp_set_channel; [done|].
  set (s1 := s <| chan ::= _ |>). assert (K1 : kept s s1) by (by apply kept_channel). clearbody s1.
  apply wp_bind. apply (wp_mono _ (fun _ => kept s)).
  { destruct socket as [k|]; [|by apply wp_ret]. apply wp_set_socket; [rewrite (kp_sockets _ _ K1); auto|].
    eapply kept_trans; [exact K1|]. apply kept_socket; [apply K1|done]. }
  intros _ s2 K2. apply wp_bind. apply (wp_mono _ (fun _ => kept s)).
  { destruct channel as [j|]; [|by apply wp_ret]. apply wp_set_channel; [by rewrite (kp_channels _ _ K2)|].
    eapply kept_trans; [exact K2|]. apply kept_channel; [apply K2|done..]. }
  intros _ s3 K3. eapply wp_mono; [apply closed_transport_kept, K3|]. intros ? s4. by apply kept_trans.
Qed.

Lemma kept_received s s' : endpoint_ok s -> received_frame s s' -> rastamodule_lasterror s' = rastamodule_lasterror s ->
  defer_q (chan s') = defer_q (chan s) -> kept s s'.
Proof.
  intros E F Er Eq. apply kept_upheld; [by apply upheld_received|done|done|]. rewrite (rf_env _ _ F). apply E.
Qed.

Lemma diagnostics_kept s i : endpoint_ok s -> has_channel s i -> wp (run_channel_diagnostics i) (fun _ => kept s) s.
Proof.
  intros E Hi. unfold run_channel_diagnostics. apply wp_bind, wp_gets. pose proof Hi as [Hi0 Hi1].
  ztest (i <? 0). apply wp_bind, wp_ret, wp_bind.
  destruct (lookup_lt_is_Some_2 (transport_channels (chan s)) (Z.to_nat i)) as [c Hc]; [unfold zlen in Hi1; lia|].
  eapply wp_channel_at; [done|]. apply wp_bind, wp_timestamp. intros now _.
  set (s1 := s <| env ::= _ |>). assert (F1 : received_frame s s1) by apply received_frame_tick.
  unfold when. case_if; [|by apply wp_ret, kept_received].
  apply wp_bind, wp_setdiag; [done|]. intros s2 F2 E2 D2.
  apply wp_bind, wp_timestamp. intros now' _. set (s3 := s2 <| env ::= _ |>).
  assert (F3 : received_frame s s3) by (etrans; [exact F1|]; etrans; [exact F2|apply received_frame_tick]).
  apply wp_bind, wp_setdiag; [unfold has_channel, zlen; rewrite (received_frame_length _ _ F3); exact Hi|].
  intros s4 F4 E4 D4. apply wp_modify, kept_received; [done| | |].
  - etrans; [exact F3|]. etrans; [exact F4|]. apply received_frame_diag.
  - fields. rewrite E4. exact E2.
  - fields. rewrite D4. exact D2.
Qed.

Lemma receive_event_kept s socket channel : endpoint_ok s -> event_ok s socket channel ->
  wp (channel_receive_event socket channel) (fun _ => kept s) s.
Proof.
  intros E Hev. unfold channel_receive_event. apply wp_bind.
  eapply wp_mono; [apply receive_ok, E|]. intros [[len data] sender] s1 [T Hlen]. cbn [fst snd] in T, Hlen.
  apply taken_kept in T as [K1 T1]; [|done].
  assert (Hev1 : event_ok s1 socket channel).
  { unfold event_ok in *. by rewrite (kp_channels _ _ K1), (kp_sockets _ _ K1). }
  apply wp_bind. eapply wp_mono; [apply receiving_channel_kept; [apply K1|done]|].
  intros [i|] s2 [K2 Hi]; [|by apply wp_ret; eapply kept_trans]. specialize (Hi i eq_refl).
  pose proof (kept_trans _ _ _ K1 K2) as K12.
  destruct (lookup_lt_is_Some_2 _ _ Hi) as [c Hc]. apply wp_bind. eapply wp_channel_at; [done|].
  assert (Hid : has_channel s2 (id c)).
  { eapply channel_number; [apply K2|done]. }
  apply wp_bind. eapply wp_mono; [apply diagnostics_kept; [apply K2|done]|]. intros [] s3 K3.
  pose proof (kept_trans _ _ _ K12 K3) as K. case_if.
  { eapply wp_mono; [apply broken_kept; [apply K3| |by rewrite (kp_channels _ _ K3)]|intros ? s4; by apply kept_trans].
    unfold event_ok in *. by rewrite (kp_channels _ _ K), (kp_sockets _ _ K). }
  destruct Hlen as [-> |[-> _]]; [|done]. zbool. apply wp_bind.
  assert (T3 : tame s3 data) by (eapply tame_same; [eapply kp_config, kept_trans, K3; exact K2|eapply kp_context, kept_trans, K3; exact K2|done]).
  eapply wp_mono; [apply receive_tame; [apply K3|done|]|].
  { unfold has_channel, zlen in *. by rewrite (kp_channels _ _ K3). }
  intros r s4 T4. apply kept_apart in T4; [|apply K3]. pose proof (kept_trans _ _ _ K T4) as K4. case_if; [|by apply wp_ret].
  eapply wp_mono; [apply deliver_kept, T4|]. intros ? s5. by apply kept_trans.
Qed.

(** Attaching a channel to a socket of the multiplexer. *)
Lemma attached_insert s s' i k so : attachment s' = <[i := Some k]> (attachment s) ->
  so_id <$> transport_sockets (mux s') = so_id <$> transport_sockets (mux s) -> config s' = config s ->
  (so_id <$> transport_sockets (mux s)) !! k = Some so ->
  (Z.to_nat so < length (connections (redundancy (config s))))%nat ->
  forall j, attached s j -> attached s' j.
Proof.
  intros Ea Es Ec Hso Hlt j (l & so' & H1 & H2 & H3). destruct (decide (i = j)) as [<-|Hne].
  - exists k, so. rewrite Ea, Es, Ec, list_lookup_insert_eq by (by eapply lookup_lt_Some). done.
  - exists l, so'. by rewrite Ea, Es, Ec, list_lookup_insert_ne.
Qed.

Lemma socket_configured ctx s k so : base_ok ctx s -> transport_sockets (mux s) !! k = Some so ->
  (Z.to_nat (so_id so) < length (connections (redundancy (config s))))%nat.
Proof.
  intros B Hk. destruct (numbers_lookup s _ k so so_id (bo_sockets _ _ B) Hk) as [-> Hl]. by rewrite Nat2Z.id.
Qed.

Lemma accept_event_kept s k : endpoint_ok s -> (k < length (transport_sockets (mux s)))%nat ->
  socket_events k = [FdAccept k] -> wp (channel_accept_event k) (fun _ => kept s) s.
Proof.
  intros E Hk Hev. unfold channel_accept_event. apply wp_bind.
  eapply wp_mono; [apply accept_ok; [apply E|done]|]. intros [accepted addr] s1 (n & Es1 & [a Ha]). cbn in Ha. subst addr.
  assert (K1 : kept s s1) by (rewrite Es1; by apply kept_upheld; [|..|apply E]).
  assert (Hk1 : (k < length (transport_sockets (mux s1)))%nat) by (by rewrite (kp_sockets _ _ K1)).
  clear Es1. apply wp_bind, wp_gets. destruct (find_channel_by_ip_address s1 a) as [i|] eqn:Ef.
  2:{ apply wp_bind, wp_syscall, wp_ret. eapply kept_trans; [exact K1|]. apply kept_upheld; [|apply K1|done|apply K1].
      apply upheld_net; [apply net_frame_call|done|done]. }
  apply find_channel_in in Ef. apply wp_bind, wp_set_channel; [done|]. set (s2 := s1 <| chan ::= _ |>).
  assert (K2 : kept s1 s2).
  { destruct (lookup_lt_is_Some_2 _ _ Hk1) as [so Hso]. apply kept_upheld; [|apply K1|done|apply K1]. split; try done.
    - apply (attached_insert _ _ i k (so_id so)); [by apply attachment_set|done|done|by rewrite list_lookup_fmap, Hso|].
      eapply socket_configured; [apply K1|done].
    - unfold s2. fields. by apply fmap_alter_id. }
  assert (Hi : (i < length (transport_channels (chan s2)))%nat) by (by rewrite (kp_channels _ _ K2)). clearbody s2.
  apply wp_bind, wp_set_channel; [done|]. apply wp_ret. eapply kept_trans; [exact K1|]. eapply kept_trans; [exact K2|].
  apply kept_channel; [apply K2|done..].
Qed.
End Kept.
