(* ===== verification/EventLoop.v ===== *)
(** * The event loop (src/c/util/event_system.c)

    [event_system_start] waits for the next timer or descriptor and calls the
    handler; it runs until a handler returns nonzero or [select] fails.  It is a
    function with fuel: the loop of a server need not end.  The lists of events
    are the four timers of the connection and the descriptor events of sockets,
    channels and the application, in the order they were registered in; that the
    linked lists of the code hold such a sequence is shown in EventList. *)

From stdpp Require Import base numbers list sets.
From Stdlib Require Import ZArith Lia.
From S2P Require Import Prelude.
From S2P Require Import Fifo.
From S2P Require Import Hashing.
From S2P Require Import Packet.
From S2P Require Import DeferQueue.
From S2P Require Import World.
From S2P Require Import Config.
From S2P Require Import State.
From S2P Require Import Sample.
From S2P Require Import Transport.
From S2P Require Import Redundancy.
From S2P Require Import Connection.
From S2P Require Import Retransmission.
From S2P Require Import Handlers.
From S2P Require Import Session.
From S2P Require Import Events.

Local Open Scope Z_scope.
Local Open Scope record_scope.

Definition UINT64_MAX : Z := 2 ^ 64 - 1.
Definition FD_SETSIZE : Z := 1024.

(** ** Timed events *)

(** The timers of a connection, in the order of their registration. *)
Inductive timer := TSend | THandshake | TTimeout | THeartbeat.
#[export] Instance timer_eq : EqDecision timer.
Proof. solve_decision. Defined.

Definition timer_event (c : rasta_connection) (t : timer) : timed_event :=
  match t with
  | TSend => send_event c
  | THandshake => handshake_timeout_event c
  | TTimeout => timeout_event c
  | THeartbeat => send_heartbeat_event c
  end.
Definition set_timer (t : timer) (f : timed_event -> timed_event) (c : rasta_connection) : rasta_connection :=
  match t with
  | TSend => c <| send_event ::= f |>
  | THandshake => c <| handshake_timeout_event ::= f |>
  | TTimeout => c <| timeout_event ::= f |>
  | THeartbeat => c <| send_heartbeat_event ::= f |>
  end.
Definition timers : list timer := [TSend; THandshake; TTimeout; THeartbeat].
Definition timed_events (c : rasta_connection) : list (timer * timed_event) :=
  (fun t => (t, timer_event c t)) <$> timers.

(** The scan of the list: [best] is what was found so far. *)
(* event_system.c:103-122 calc_next_timed_event *)
Fixpoint next_timed_loop {A} (events : list (A * timed_event)) (cur_time time_to_wait : Z) (best : option A) :
    Z * option A :=
  match events with
  | [] => (time_to_wait, best)
  | (t, current) :: events =>
      if enabled current then
        let continue_at := u64 (last_call current + interval current) in
        if continue_at <=? cur_time then (0, Some t)
        else
          let new_time_to_wait := continue_at - cur_time in
          if new_time_to_wait <? time_to_wait then next_timed_loop events cur_time new_time_to_wait (Some t)
          else next_timed_loop events cur_time time_to_wait best
      else next_timed_loop events cur_time time_to_wait best
  end.

(* event_system.c calc_next_timed_event *)
Definition calc_next_timed_event {A} (timed_events : list (A * timed_event)) (cur_time : Z) : Z * option A :=
  next_timed_loop timed_events cur_time UINT64_MAX None.

(** ** Descriptor events *)

(** The events the application has added with [rasta_add_fd_event], after those of
    the library: a descriptor it waits for and the callback, which may use the
    library.  [ApplicationOk] is what the library relies on, with the configuration
    the application was written for. *)
Class Application := user_events : list (fd_event * M sys Z).
Class ApplicationOk (App : Application) (cfg : rasta_config_info) : Prop :=
  user_ok : forall e callback, (e, callback) ∈ user_events -> forall s, endpoint_ok s -> config s = cfg ->
    wp callback (fun _ => kept s) s.

(** An application that only calls the library. *)
#[export] Instance no_events : Application := [].
#[export] Instance no_events_ok cfg : ApplicationOk no_events cfg.
Proof. intros e callback []%not_elem_of_nil. Qed.

Section Loop.
Context `{Transport} {App : Application}.

Definition fd_events (s : sys) : list source :=
  mjoin (socket_events <$> seq 0 (length (transport_sockets (mux s)))) ++
  (FdChannel <$> seq 0 (length (transport_channels (chan s)))) ++
  (FdUser <$> seq 0 (length user_events)).

Definition source_event (s : sys) (src : source) : option fd_event :=
  match src with
  | FdAccept k => so_accept_event <$> transport_sockets (mux s) !! k
  | FdSocket k => so_receive_event <$> transport_sockets (mux s) !! k
  | FdChannel i => receive_event <$> transport_channels (chan s) !! i
  | FdUser n => fst <$> user_events !! n
  end.

(* event_system.c get_max_nfds *)
Definition get_max_nfds (events : list fd_event) : Z :=
  foldl (fun nfds current => if nfds <? fd current then fd current else nfds) 0 events + 1.

(** The callback of a descriptor event, with what it carries. *)
Definition fd_callback (src : source) : M sys Z :=
  match src with
  | FdAccept k => channel_accept_event k
  | FdSocket k => channel_receive_event (Some k) None
  | FdChannel i => channel_receive_event None (Some i)
  | FdUser n => match user_events !! n with Some (_, callback) => callback | None => fail NullDeref end
  end.

Definition timer_callback (t : timer) : M sys Z :=
  match t with
  | TSend => data_send_event
  | THandshake => channel_timeout_event
  | TTimeout => event_connection_expired
  | THeartbeat => heartbeat_send_event
  end.

(** The descriptors [select] is asked about: those of the enabled events. *)
Definition requested (s : sys) (descriptor : Z) : bool :=
  existsb (fun src => match source_event s src with
                      | Some e => fd_enabled e && Z.testbit (options e) 0 && (fd e =? descriptor)
                      | None => false
                      end) (fd_events s).

(** After [select]: every event that is (still) enabled and whose descriptor is
    readable is called, until a callback ends the loop.  No event of the library
    waits for anything but readability. *)
(* event_system.c:70-80 event_system_sleep *)
Fixpoint dispatch_fds (events : list source) (on_readable : Z -> bool) : M sys bool :=
  match events with
  | [] => mret false
  | current :: events =>
      s ← gets Datatypes.id;
      match source_event s current with
      | None => fail NullDeref
      | Some e =>
          stop ← (if fd_enabled e && on_readable (fd e)
                  then r ← fd_callback current; mret (negb (r =? 0)) else mret false);
          if stop : bool then mret true else dispatch_fds events on_readable
      end
  end.

(** When [select] times out ([result] is 0) no descriptor is readable. *)
(* event_system.c event_system_sleep *)
Definition event_system_sleep (time_to_wait : Z) : M sys Z :=
  s ← gets Datatypes.id;
  let nfds := get_max_nfds (omap (source_event s) (fd_events s)) in
  if FD_SETSIZE <=? nfds then mret (-1)
  else
    let call := calls (env s) in
    result ← syscall_now SysSelect;
    if result =? -1 then mret (-1)
    else
      stop ← dispatch_fds (fd_events s)
        (fun descriptor => (0 <? result) && requested s descriptor && ready (env s) call descriptor);
      mret (if stop : bool then -1 else result).

(** The callback, and its time of the last call; [next_event] is unset only when
    no timer is enabled. *)
(* event_system.c:158-163 event_system_start *)
Definition fire_timer (next_event : option timer) (cur_time time_to_wait : Z) : M sys bool :=
  match next_event with
  | None => fail Uninitialised
  | Some t =>
      r ← timer_callback t;
      if negb (r =? 0) then mret true
      else
        _ ← setc (set_timer t (fun e => e <| last_call := u64 (cur_time + time_to_wait) |>));
        mret false
  end.

(** A sleep that times out is not told apart from one that a descriptor ended:
    either way the timers are looked at again. *)
(* event_system.c:136-164 event_system_start *)
Fixpoint event_loop (fuel : nat) : M sys unit :=
  match fuel with
  | O => fail OutOfFuel
  | S fuel =>
      cur_time ← on_world get_nanotime;
      c ← gets conn;
      let '(time_to_wait, next_event) := calc_next_timed_event (timed_events c) cur_time in
      if time_to_wait =? UINT64_MAX then
        result ← event_system_sleep time_to_wait;
        if result =? -1 then mret tt else event_loop fuel
      else
        result ← (if negb (time_to_wait =? 0) then event_system_sleep time_to_wait else mret (-2));
        if result =? -1 then mret tt
        else if 0 <=? result then event_loop fuel
        else
          stop ← fire_timer next_event cur_time time_to_wait;
          if stop : bool then mret tt else event_loop fuel
  end.

(** All timers, also those that are not enabled, start anew. *)
(* event_system.c event_system_start *)
Definition event_system_start (fuel : nat) : M sys unit :=
  cur_time ← on_world get_nanotime;
  let restart e := e <| last_call := cur_time |> in
  _ ← setc (fun c => foldr (fun t c => set_timer t restart c) c timers);
  event_loop fuel.
End Loop.

(** ** The next timer *)

(** How long a timer still has to wait. *)
Definition waiting (e : timed_event) (cur_time : Z) : Z :=
  let continue_at := u64 (last_call e + interval e) in
  if continue_at <=? cur_time then 0 else continue_at - cur_time.

(** [t] is one of the enabled timers, [w] its waiting time, and none waits less. *)
Definition soonest {A} (events : list (A * timed_event)) (cur_time w : Z) (t : A) : Prop :=
  exists e, (t, e) ∈ events /\ enabled e = true /\ w = waiting e cur_time /\
    forall t' e', (t', e') ∈ events -> enabled e' = true -> w <= waiting e' cur_time.

Lemma waiting_nonneg e cur : 0 <= waiting e cur.
Proof. unfold waiting. case_if; zbool; lia. Qed.

(** The state of the scan after [seen]. *)
Definition scanned {A} (seen : list (A * timed_event)) (cur w : Z) (best : option A) : Prop :=
  match best with
  | None => w = UINT64_MAX /\ forall t e, (t, e) ∈ seen -> enabled e = true -> UINT64_MAX <= waiting e cur
  | Some t => soonest seen cur w t /\ w < UINT64_MAX
  end.

Lemma scanned_skip {A} (seen : list (A * timed_event)) cur w best t e : scanned seen cur w best ->
  (enabled e = true -> w <= waiting e cur) -> scanned (seen ++ [(t, e)]) cur w best.
Proof.
  intros Hs He. destruct best as [b|]; cbn in *.
  - destruct Hs as [(eb & Hin & Hen & -> & Hmin) Hlt]. split; [|done]. exists eb. split; [set_solver|]. do 2 (split; [done|]).
    intros t' e' [H1|H1]%elem_of_app; [by eapply Hmin|]. apply list_elem_of_singleton in H1. by injection H1 as -> ->.
  - destruct Hs as [-> Hmin]. split; [done|]. intros t' e' [H1|H1]%elem_of_app; [by eapply Hmin|].
    apply list_elem_of_singleton in H1. by injection H1 as -> ->.
Qed.

Lemma scanned_take {A} (seen : list (A * timed_event)) cur w best t e : scanned seen cur w best ->
  enabled e = true -> waiting e cur < w -> w <= UINT64_MAX -> soonest (seen ++ [(t, e)]) cur (waiting e cur) t.
Proof.
  intros Hs He Hlt Hw. exists e. split; [set_solver|]. do 2 (split; [done|]).
  intros t' e' [H1|H1]%elem_of_app Hen; [|apply list_elem_of_singleton in H1; by injection H1 as -> ->].
  destruct best as [b|]; cbn in Hs.
  - destruct Hs as [(eb & _ & _ & -> & Hmin) _]. specialize (Hmin t' e' H1 Hen). lia.
  - destruct Hs as [-> Hmin]. specialize (Hmin t' e' H1 Hen). lia.
Qed.

Lemma next_timed_scan {A} cur (events : list (A * timed_event)) : forall seen w best,
  scanned seen cur w best -> 0 <= w <= UINT64_MAX ->
  let r := next_timed_loop events cur w best in
  scanned (seen ++ events) cur r.1 r.2 \/
  exists t e, r = (0, Some t) /\ (t, e) ∈ events /\ enabled e = true /\ waiting e cur = 0.
Proof.
  induction events as [|[t e] events IH]; intros seen w best Hs Hw; cbn [next_timed_loop].
  { left. by rewrite app_nil_r. }
  assert (Hnext : forall w' best', scanned (seen ++ [(t, e)]) cur w' best' -> 0 <= w' <= UINT64_MAX ->
    let r := next_timed_loop events cur w' best' in
    scanned (seen ++ (t, e) :: events) cur r.1 r.2 \/
    exists t' e', r = (0, Some t') /\ (t', e') ∈ (t, e) :: events /\ enabled e' = true /\ waiting e' cur = 0).
  { intros w' best' Hs' Hw'. specialize (IH (seen ++ [(t, e)]) w' best' Hs' Hw'). rewrite <- app_assoc in IH.
    destruct IH as [IH|(t' & e' & H1 & H2 & H3)]; [by left|right]. exists t', e'. split; [done|]. split; [set_solver|done]. }
  pose proof (waiting_nonneg e cur) as Hnn.
  destruct (enabled e) eqn:Een; [|by apply Hnext; [apply scanned_skip; [done|congruence]|]].
  unfold waiting in Hnn. destruct (u64 (last_call e + interval e) <=? cur) eqn:Edue.
  { right. exists t, e. split; [done|]. split; [set_solver|]. split; [done|]. unfold waiting. by rewrite Edue. }
  assert (Ew : waiting e cur = u64 (last_call e + interval e) - cur) by (unfold waiting; by rewrite Edue).
  rewrite <- Ew in *. case_if; zbool.
  - apply Hnext; [|lia]. split; [|lia]. eapply scanned_take; [done|done|lia|lia].
  - apply Hnext; [|done]. apply scanned_skip; [done|]. lia.
Qed.

Lemma next_event_spec {A} (events : list (A * timed_event)) cur : let r := calc_next_timed_event events cur in
  scanned events cur r.1 r.2.
Proof.
  cbv zeta. unfold calc_next_timed_event.
  destruct (next_timed_scan cur events [] UINT64_MAX None) as [H|(t & e & Hr & Hin & Hen & Hw)].
  - split; [done|]. intros t e Hin. set_solver.
  - unfold UINT64_MAX. lia.
  - done.
  - rewrite Hr. cbn. split; [|unfold UINT64_MAX; lia]. exists e. split; [done|]. split; [done|]. split; [done|].
    intros t' e' _ _. apply waiting_nonneg.
Qed.

(** The event loop picks an enabled timer that has to wait least, with its
    waiting time, 0 if it is due; it picks none only if every enabled timer waits
    for the whole range of the clock. *)
Theorem calc_next_timed_event_spec {A} (events : list (A * timed_event)) cur :
  match calc_next_timed_event events cur with
  | (w, Some t) => soonest events cur w t /\ 0 <= w < UINT64_MAX
  | (w, None) => w = UINT64_MAX /\ forall t e, (t, e) ∈ events -> enabled e = true -> UINT64_MAX <= waiting e cur
  end.
Proof.
  pose proof (next_event_spec events cur) as Hs. destruct (calc_next_timed_event events cur) as [w [t|]]; cbn in Hs; [|done].
  destruct Hs as [Hs Hlt]. split; [done|]. destruct Hs as (e & _ & _ & -> & _). pose proof (waiting_nonneg e cur). lia.
Qed.

(** ** The loop keeps the endpoint *)

Section Safety.
Context `{TransportOk} {App : Application} {cfg : rasta_config_info} {AppOk : ApplicationOk App cfg}.

(** A descriptor event that exists. *)
Definition source_ok (s : sys) (src : source) : Prop :=
  match src with
  | FdAccept k => (k < length (transport_sockets (mux s)))%nat /\ socket_events k = [FdAccept k]
  | FdSocket k => (k < length (transport_sockets (mux s)))%nat
  | FdChannel i => (i < length (transport_channels (chan s)))%nat
  | FdUser n => (n < length user_events)%nat
  end.

Lemma fd_events_ok s : Forall (source_ok s) (fd_events s).
Proof.
  unfold fd_events. apply Forall_app. split.
  - apply Forall_forall. intros src (l & Hsrc & Hl)%list_elem_of_join.
    apply list_elem_of_fmap in Hl as (k & -> & Hk). apply elem_of_seq in Hk.
    destruct (socket_events_ok k) as [E|E]; rewrite E in Hsrc; apply list_elem_of_singleton in Hsrc as ->; cbn; [lia|].
    split; [lia|done].
  - apply Forall_app. split; apply Forall_fmap, Forall_forall; intros i Hi%elem_of_seq; cbn; lia.
Qed.

Lemma source_ok_kept s s' src : kept s s' -> source_ok s src -> source_ok s' src.
Proof. intros K. unfold source_ok. by rewrite (kp_channels _ _ K), (kp_sockets _ _ K). Qed.

Lemma source_event_some s src : source_ok s src -> is_Some (source_event s src).
Proof.
  destruct src; cbn; [intros [Hk _]|intros Hk..]; apply lookup_lt_is_Some_2 in Hk as [x ->]; by eexists.
Qed.

Lemma fd_callback_kept s src : endpoint_ok s -> config s = cfg -> source_ok s src -> wp (fd_callback src) (fun _ => kept s) s.
Proof.
  intros E Ec Hs. destruct src as [k|k|i|n]; cbn in *.
  - destruct Hs. by apply accept_event_kept.
  - apply receive_event_kept; [done|]. split; [by exists k|]. by intros ? [= <-].
  - apply receive_event_kept; [done|]. by split.
  - destruct (lookup_lt_is_Some_2 _ _ Hs) as [[e callback] E']. rewrite E'.
    apply (user_ok e); [by eapply list_elem_of_lookup_2|done|done].
Qed.

Lemma timer_callback_kept s t : endpoint_ok s -> wp (timer_callback t) (fun _ => kept s) s.
Proof.
  intros E. destruct t; cbn; [by apply data_send_kept| |by apply expired_kept|by apply heartbeat_kept].
  by apply wp_ret, kept_refl.
Qed.

Lemma dispatch_kept events : forall readable s, endpoint_ok s -> config s = cfg -> Forall (source_ok s) events ->
  wp (dispatch_fds events readable) (fun _ => kept s) s.
Proof.
  induction events as [|src events IH]; intros readable s E Ec Hf; cbn [dispatch_fds]; [by apply wp_ret, kept_refl|].
  apply Forall_cons in Hf as [Hs Hf]. apply wp_bind, wp_gets. unfold Datatypes.id.
  destruct (source_event_some s src Hs) as [e He]. rewrite He. apply wp_bind.
  apply (wp_mono _ (fun _ => kept s)).
  { case_if; [|by apply wp_ret, kept_refl]. apply wp_bind. eapply wp_mono; [by apply fd_callback_kept|]. by intros. }
  intros stop s1 K1. destruct stop; [by apply wp_ret|].
  eapply wp_mono; [apply IH; [apply K1|by rewrite (kp_config _ _ K1)|]|intros ? s2; by apply kept_trans].
  eapply Forall_impl; [exact Hf|]. intros x. by apply source_ok_kept.
Qed.

Lemma called_kept s : endpoint_ok s -> kept s (called s).
Proof. intros E. apply kept_upheld; [apply upheld_net; [apply net_frame_call|done|done]|done|done|apply E]. Qed.

Lemma sleep_kept s t : endpoint_ok s -> config s = cfg -> wp (event_system_sleep t) (fun r s' => kept s s' /\ (r = -1 \/ 0 <= r \/ r < -1)) s.
Proof.
  intros E Ec. unfold event_system_sleep. apply wp_bind, wp_gets. unfold Datatypes.id. cbv zeta.
  pose proof (called_kept s E) as K. case_if; [apply wp_ret; split; [by apply kept_refl|lia]|].
  apply wp_bind, wp_syscall. fold (called s). case_if; [apply wp_ret; split; [done|lia]|].
  apply wp_bind. eapply wp_mono; [apply dispatch_kept; [apply K|done|]|].
  - eapply Forall_impl; [apply fd_events_ok|]. intros x. by apply source_ok_kept.
  - intros stop s' K'. apply wp_ret. split; [by eapply kept_trans|]. destruct stop; lia.
Qed.

Lemma set_timer_safe t f : safe_update (set_timer t f).
Proof. destruct t; cbn; safe_update. Qed.

Lemma set_timer_kept s t f : endpoint_ok s -> wp (setc (set_timer t f)) (fun _ => kept s) s.
Proof.
  intros E. eapply wp_setc; [apply ok_from_refl, E|apply set_timer_safe|]. intros s' [F S'] _ _. by apply kept_lower.
Qed.

Lemma fire_kept s t cur w : endpoint_ok s -> wp (fire_timer (Some t) cur w) (fun _ => kept s) s.
Proof.
  intros E. unfold fire_timer. apply wp_bind. eapply wp_mono; [by apply timer_callback_kept|]. intros r s1 K1.
  case_if; [by apply wp_ret|]. apply wp_bind. eapply wp_mono; [apply set_timer_kept, K1|]. intros [] s2 K2.
  apply wp_ret. exact (kept_trans _ _ _ K1 K2).
Qed.

(** The run ends with [Q] or is still going on when the fuel is used up. *)
Definition runs {A} (m : M sys A) (Q : A -> sys -> Prop) (s : sys) : Prop :=
  match m s with Ok (a, s') => Q a s' | Fail e => e = OutOfFuel end.

Lemma runs_bind {A B} (m : M sys A) (k : A -> M sys B) Q s :
  wp m (fun a => runs (k a) Q) s -> runs (m ≫= k) Q s.
Proof. unfold wp, runs, mbind, M_bind. by destruct (m s) as [[??]|]. Qed.
Lemma runs_wp {A} (m : M sys A) Q s : wp m Q s -> runs m Q s.
Proof. unfold wp, runs. by destruct (m s) as [[??]|]. Qed.

Lemma clock_kept s : endpoint_ok s -> wp (on_world get_nanotime) (fun _ => kept s) s.
Proof. intros E. apply kept_received; [done|apply received_frame_tick|done|done]. Qed.

Lemma event_loop_kept fuel : forall s0 s, config s0 = cfg -> kept s0 s -> runs (event_loop fuel) (fun _ => kept s0) s.
Proof.
  induction fuel as [|fuel IH]; intros s0 s Ec K; cbn [event_loop]; [done|].
  apply runs_bind. eapply wp_mono; [apply clock_kept, K|]. intros cur s1 K1. pose proof (kept_trans _ _ _ K K1) as K'.
  assert (Ec1 : config s1 = cfg) by (by rewrite (kp_config _ _ K')).
  apply runs_bind, wp_gets. pose proof (next_event_spec (timed_events (conn s1)) cur) as Hn.
  destruct (calc_next_timed_event (timed_events (conn s1)) cur) as [w best]. cbn [fst snd] in Hn. destruct (w =? UINT64_MAX) eqn:Ew; zbool.
  - apply runs_bind. eapply wp_mono; [by apply sleep_kept; [apply K1|]|]. intros r s2 [K2 _]. pose proof (kept_trans _ _ _ K' K2).
    case_if; [by apply runs_wp, wp_ret|]. by apply IH.
  - apply runs_bind. apply (wp_mono _ (fun _ => kept s1)).
    { case_if; [|apply wp_ret, kept_refl, K1]. eapply wp_mono; [by apply sleep_kept; [apply K1|]|]. by intros r s2 [K2 _]. }
    intros r s2 K2. pose proof (kept_trans _ _ _ K' K2) as K02. case_if; [by apply runs_wp, wp_ret|].
    case_if; [by apply IH|]. destruct best as [t|]; [|by destruct Hn as [-> _]].
    apply runs_bind. eapply wp_mono; [apply fire_kept, K2|]. intros stop s3 K3. pose proof (kept_trans _ _ _ K02 K3).
    destruct stop; [by apply runs_wp, wp_ret|]. by apply IH.
Qed.

Lemma event_system_kept fuel s : endpoint_ok s -> config s = cfg -> runs (event_system_start fuel) (fun _ => kept s) s.
Proof.
  intros E Ec. unfold event_system_start. apply runs_bind. eapply wp_mono; [by apply clock_kept|]. intros cur s1 K1.
  cbv zeta. apply runs_bind. eapply wp_setc; [apply ok_from_refl, K1| |].
  - unfold timers. cbn [foldr set_timer]. safe_update.
  - intros s2 [F2 S2] _ _. apply event_loop_kept; [done|]. eapply kept_trans; [exact K1|]. apply kept_lower; [apply K1|done|done].
Qed.

End Safety.

(** ** Witness *)

(** The frame of the data packet [demo_due] waits at the socket. *)
Definition demo_frame : list Z := red_wire demo_ctx (demo_red_packet 0 5).
Definition demo_receiving : sys := demo_up <| env ::= fun w => w <| inbox := [((demo_address, 8888), demo_frame)] |> |>.

Lemma demo_spoken : spoken demo_up demo_frame.
Proof.
  exists 0, (demo_inner 5). split; [|reflexivity]. split; [apply demo_inner_wf; split; zle|]. split.
  - vm_compute. discriminate.
  - intros _. exists [[255]]. reflexivity.
Qed.

Lemma demo_receiving_ok : endpoint_ok demo_receiving.
Proof.
  assert (B : base_ok demo_ctx demo_up).
  { split; [exact demo_up_ok|done..|constructor]. }
  split; [|apply demo_defer_ok|constructor].
  apply (base_upheld demo_ctx demo_up); [by split|exact B|]. constructor; [|constructor]. cbn [snd].
  apply spoken_tame; [apply demo_up_ok|apply demo_spoken|]. vm_compute. discriminate.
Qed.


(** Frame 0 of the channel is lost; frames 1 and 2 arrive. *)
Lemma lost_frame_stalls_witness :
  let later := [red_wire demo_ctx (demo_red_packet 1 6); red_wire demo_ctx (demo_red_packet 2 7)] in
  Forall (overtaking demo_receiving) later /\
  exists s', receive_each 0 later demo_receiving = Ok (0, s') /\ endpoint_ok s' /\
    conn s' = conn demo_receiving /\ seq_rx (chan s') = seq_rx (chan demo_receiving) /\
    trace (env s') = trace (env demo_receiving).
Proof.
  intros later.
  assert (G : forall rsn sn, is_u32 rsn -> is_u32 sn -> rsn <> 0 ->
    zlen (red_wire demo_ctx (demo_red_packet rsn sn)) <= MAX_DEFER_QUEUE_MSG_SIZE /\ spoken demo_receiving (red_wire demo_ctx (demo_red_packet rsn sn)) /\
    out_of_turn demo_receiving (red_wire demo_ctx (demo_red_packet rsn sn))).
  { intros rsn sn Hr Hs Hne.
    assert (Hsend : sendable demo_receiving (demo_inner sn)).
    { split; [by apply demo_inner_wf|]. split; [vm_compute; discriminate|]. intros _. exists [[255]]. reflexivity. }
    assert (Hw : red_packet_wf demo_ctx (demo_red_packet rsn sn)).
    { pose proof (createRedundancyPacket_wf demo_receiving (demo_inner sn) (lk_crc _ (ok_link _ demo_up_ok)) Hsend rsn) as W.
      rewrite u32_small in W by done. exact W. }
    split; [rewrite (red_wire_length _ _ _ Hw); change (rp_length (demo_red_packet 0 5) <= MAX_DEFER_QUEUE_MSG_SIZE); vm_compute; discriminate|]. split.
    - exists rsn, (demo_inner sn). split; [done|]. by rewrite u32_small.
    - exists (received_red demo_ctx (demo_red_packet rsn sn)). split; [|done]. intros r0.
      exact (bytesToRastaRedundancyPacket_wire RASTA_ERRORS_NONE demo_ctx (demo_red_packet rsn sn) r0 _ Hw). }
  assert (O : Forall (overtaking demo_receiving) later).
  { assert (L : link_ok demo_receiving) by apply (bo_sr _ _ (ep_base _ demo_receiving_ok)).
    assert (G1 : forall rsn sn, is_u32 rsn -> is_u32 sn -> rsn <> 0 ->
      overtaking demo_receiving (red_wire demo_ctx (demo_red_packet rsn sn))).
    { intros rsn sn Hr Hs Hne. destruct (G rsn sn Hr Hs Hne) as (Hl & Hsp & Ho). split; [exact Hl|].
      exists [red_wire demo_ctx (demo_red_packet rsn sn)]. split; [by rewrite <- (app_nil_r (red_wire _ _)) at 1|].
      split; (constructor; [|constructor]); [by apply spoken_good|exact Ho]. }
    constructor; [apply G1; first [lia | split; zle]|]. constructor; [apply G1; first [lia | split; zle]|constructor]. }
  split; [exact O|].
  assert (Hc : has_channel demo_receiving 0) by (split; [lia|reflexivity]).
  exact (lost_frame_stalls 0 later demo_receiving demo_receiving_ok Hc O).
Defined.
