(* ===== verification/EventList.v ===== *)
(** * The lists of events (src/c/util/event_system.c)

    Events are cells of doubly linked lists that the event system walks; the
    program registers an event by linking it at the end and takes it out by
    unlinking it.  The cells live in a heap, as the code has them.  The theorem
    states that the lists represent the sequence of registered events, which is
    what the event loop ([EventLoop]) is defined on, and what the assertions of
    the code do to an event that is alone in its list, or was in a list before. *)

From stdpp Require Import base numbers list gmap.
From Stdlib Require Import ZArith Lia.
From S2P Require Import Prelude.
From S2P Require Import World.
From S2P Require Import EventLoop.

Local Open Scope Z_scope.
Local Open Scope record_scope.

(** ** Cells *)

(** An event with its links; [payload] is what else the struct holds. *)
Record event (A : Type) := mkEvent { payload : A; prev : option positive; next : option positive }.
Arguments mkEvent {A} _ _ _.
Arguments payload {A} _.
Arguments prev {A} _.
Arguments next {A} _.

(* util/event_system.h timed_event_linked_list_s *)
Record event_linked_list_s := mkEventList { first : option positive; last : option positive }.
#[export] Instance eta_event_list : Eta event_linked_list_s := fun l => mkEventList (first l) (last l).

Record events_state (A : Type) := mkEvents { events : event_linked_list_s; cells : gmap positive (event A) }.
Arguments mkEvents {A} _ _.
Arguments events {A} _.
Arguments cells {A} _.
#[export] Instance eta_events A : Eta (events_state A) := fun s => mkEvents (events s) (cells s).

Section EventList.
Context {A : Type}.
#[local] Abbreviation EM := (M (events_state A)).

Definition load_event (p : positive) : EM (event A) := fun s =>
  match cells s !! p with Some n => Ok (n, s) | None => Fail NullDeref end.
Definition update_event (p : positive) (f : event A -> event A) : EM unit :=
  n ← load_event p;
  modify (fun s => s <| cells ::= <[p := f n]> |>).
Definition set_prev (pv : option positive) (n : event A) : event A := mkEvent (payload n) pv (next n).
Definition set_next (nx : option positive) (n : event A) : event A := mkEvent (payload n) (prev n) nx.
Definition set_list (f : event_linked_list_s -> event_linked_list_s) : EM unit := modify (fun s => s <| events ::= f |>).

Definition assert_that (b : bool) : EM unit := if b then mret tt else fail AbortCalled.
Definition is_null (p : option positive) : bool := match p with None => true | Some _ => false end.

(** ** Operations *)

(* event_system.c:207-224 add_timed_event *)
Definition link_event (ev : positive) : EM unit :=
  n ← load_event ev;
  _ ← assert_that (is_null (prev n));
  _ ← assert_that (is_null (next n));
  l ← gets events;
  match last l with
  | Some p =>
      _ ← update_event ev (set_prev (Some p));
      _ ← update_event ev (set_next None);
      _ ← update_event p (set_next (Some ev));
      set_list (fun l => l <| last := Some ev |>)
  | None =>
      _ ← set_list (fun l => l <| first := Some ev |>);
      _ ← set_list (fun l => l <| last := Some ev |>);
      _ ← update_event ev (set_next None);
      update_event ev (set_prev None)
  end.

(** The links of the event that is taken out stay as they are. *)
(* event_system.c:231-241 remove_timed_event *)
Definition unlink_event (ev : positive) : EM unit :=
  l ← gets events;
  _ ← when (bool_decide (first l = Some ev)) (n ← load_event ev; set_list (fun l => l <| first := next n |>));
  l ← gets events;
  _ ← when (bool_decide (last l = Some ev)) (n ← load_event ev; set_list (fun l => l <| last := prev n |>));
  n ← load_event ev;
  _ ← match prev n with Some p => update_event p (set_next (next n)) | None => mret tt end;
  n ← load_event ev;
  match next n with Some p => update_event p (set_prev (prev n)) | None => mret tt end.

(** [for (current = first; current; current = current->next)] *)
Fixpoint events_from (fuel : nat) (current : option positive) : EM (list (positive * A)) :=
  match current with
  | None => mret []
  | Some p =>
      match fuel with
      | O => fail OutOfFuel
      | S fuel => n ← load_event p; rest ← events_from fuel (next n); mret ((p, payload n) :: rest)
      end
  end.

(** The events of the list, as a loop over it sees them. *)
Definition listed : EM (list (positive * A)) :=
  s ← gets Datatypes.id;
  events_from (size (cells s)) (first (events s)).
End EventList.

(* event_system.c add_timed_event *)
Definition add_timed_event (ev : positive) : M (events_state timed_event) unit := link_event ev.
(* event_system.c remove_timed_event *)
Definition remove_timed_event (ev : positive) : M (events_state timed_event) unit := unlink_event ev.

(* event_system.c add_fd_event *)
Definition add_fd_event (ev : positive) (opts : Z) : M (events_state fd_event) unit :=
  _ ← link_event ev;
  update_event ev (fun n => mkEvent ((payload n) <| options := opts |>) (prev n) (next n)).

(* event_system.c remove_fd_event *)
Definition remove_fd_event (ev : positive) : M (events_state fd_event) unit :=
  n ← load_event ev;
  _ ← assert_that (negb (is_null (prev n)) || negb (is_null (next n)));
  unlink_event ev.

(* event_system.c rasta_add_fd_event *)
Definition rasta_add_fd_event (ev : positive) (opts : Z) : M (events_state fd_event) unit := add_fd_event ev opts.
(* event_system.c rasta_remove_fd_event *)
Definition rasta_remove_fd_event (ev : positive) : M (events_state fd_event) unit := remove_fd_event ev.

(** ** Representation *)

Section Representation.
Context {A : Type}.
Implicit Types (l : list (positive * A)) (h : gmap positive (event A)).

Definition head_of l (nx : option positive) : option positive := match l with [] => nx | (x, _) :: _ => Some x end.
Fixpoint last_of (pv : option positive) l : option positive := match l with [] => pv | (x, _) :: l => last_of (Some x) l end.

(** These cells, linked in this order, between [pv] and [nx]. *)
Fixpoint chain h (pv : option positive) l (nx : option positive) : Prop :=
  match l with
  | [] => True
  | (x, a) :: l => h !! x = Some (mkEvent a pv (head_of l nx)) /\ chain h (Some x) l nx
  end.

(** The list of [s] consists of the events [l]. *)
Definition lists (s : events_state A) l : Prop :=
  NoDup l.*1 /\ first (events s) = head_of l None /\ last (events s) = last_of None l /\ chain (cells s) None l None.

Lemma chain_app h pv l1 l2 nx :
  chain h pv (l1 ++ l2) nx <-> chain h pv l1 (head_of l2 nx) /\ chain h (last_of pv l1) l2 nx.
Proof.
  revert pv. induction l1 as [|[x a] l1 IH]; intros pv; cbn [app chain last_of]; [tauto|].
  rewrite IH. assert (E : head_of (l1 ++ l2) nx = head_of l1 (head_of l2 nx)) by (by destruct l1 as [|[]]).
  rewrite E. tauto.
Qed.

Lemma last_of_app pv l1 l2 : last_of pv (l1 ++ l2) = last_of (last_of pv l1) l2.
Proof. revert pv. induction l1 as [|[x a] l1 IH]; intros pv; cbn; [done|apply IH]. Qed.

Lemma head_of_app l1 l2 nx : head_of (l1 ++ l2) nx = head_of l1 (head_of l2 nx).
Proof. by destruct l1 as [|[]]. Qed.

Lemma last_of_none l : last_of None l = None -> l = [].
Proof.
  destruct l as [|[x a] l] using rev_ind; [done|]. by rewrite last_of_app.
Qed.

Lemma chain_frame h pv l nx x n : x ∉ l.*1 -> chain h pv l nx -> chain (<[x := n]> h) pv l nx.
Proof.
  revert pv. induction l as [|[y a] l IH]; intros pv Hx; cbn [chain fmap list_fmap fst] in *; [done|].
  apply not_elem_of_cons in Hx as [Hne Hx]. intros [Hy Hl]. split; [by rewrite lookup_insert_ne|by apply IH].
Qed.

(** The link that leaves the segment. *)
Lemma chain_next h pv l x a nx nx' : x ∉ l.*1 ->
  chain h pv (l ++ [(x, a)]) nx -> chain (<[x := mkEvent a (last_of pv l) nx']> h) pv (l ++ [(x, a)]) nx'.
Proof.
  rewrite !chain_app. cbn [chain head_of]. intros Hx (H1 & _ & _). split; [by apply chain_frame|].
  by rewrite lookup_insert_eq.
Qed.

(** The link that enters it. *)
Lemma chain_prev h pv pv' x a l nx : x ∉ l.*1 ->
  chain h pv ((x, a) :: l) nx -> chain (<[x := mkEvent a pv' (head_of l nx)]> h) pv' ((x, a) :: l) nx.
Proof. cbn [chain]. intros Hx [_ H2]. split; [by rewrite lookup_insert_eq|by apply chain_frame]. Qed.

Lemma chain_ext h h' pv l nx : (forall y, y ∈ l.*1 -> h' !! y = h !! y) -> chain h pv l nx -> chain h' pv l nx.
Proof.
  revert pv. induction l as [|[y a] l IH]; intros pv Hh; cbn [chain fmap list_fmap fst] in *; [done|].
  intros [Hy Hl]. split; [by rewrite Hh by left|]. apply IH; [|done]. intros z Hz. apply Hh. by right.
Qed.

Lemma chain_lookup h pv l1 x a l2 nx : chain h pv (l1 ++ (x, a) :: l2) nx ->
  h !! x = Some (mkEvent a (last_of pv l1) (head_of l2 nx)).
Proof. rewrite chain_app. cbn [chain]. tauto. Qed.
End Representation.

(** ** The operations on represented lists *)

Section Operations.
Context {A : Type}.
Implicit Types (l : list (positive * A)) (s : events_state A).

Lemma wp_load_event p n Q s : cells s !! p = Some n -> Q n s -> wp (load_event p) Q s.
Proof. unfold load_event, wp. by intros ->. Qed.

Lemma wp_update p f n Q s : cells s !! p = Some n -> Q tt (s <| cells ::= <[p := f n]> |>) -> wp (update_event p f) Q s.
Proof. intros Hp HQ. unfold update_event. eapply wp_bind, wp_load_event; [done|]. by apply wp_modify. Qed.

Lemma nodup_snoc l x (a : A) : NoDup l.*1 -> x ∉ l.*1 -> NoDup (l ++ [(x, a)]).*1.
Proof.
  intros Hd Hx. rewrite fmap_app. apply NoDup_app. split; [done|]. split; [|by apply NoDup_singleton].
  intros y Hy Hy'. cbn in Hy'. apply list_elem_of_singleton in Hy' as ->. done.
Qed.

Lemma wp_link ev a l Q s : lists s l -> ev ∉ l.*1 -> cells s !! ev = Some (mkEvent a None None) ->
  (forall s', lists s' (l ++ [(ev, a)]) -> Q tt s') -> wp (link_event ev) Q s.
Proof.
  intros (Hd & Hf & Hl & Hc) Hev Ha HQ. unfold link_event. eapply wp_bind, wp_load_event; [done|].
  apply wp_bind, wp_ret, wp_bind, wp_ret, wp_bind, wp_gets. rewrite Hl.
  pose proof (nodup_snoc _ _ a Hd Hev) as Hd'.
  destruct l as [|[x b] l _] using rev_ind.
  - cbn [last_of app] in *. unfold set_list. do 2 (apply wp_bind, wp_modify).
    eapply wp_bind, wp_update; [exact Ha|]. eapply wp_update; [apply lookup_insert_eq|].
    apply HQ. split; [exact Hd'|]. split; [done|]. split; [done|]. split; [|done]. apply lookup_insert_eq.
  - rewrite last_of_app. cbn [last_of]. pose proof Hev as Hout. rewrite fmap_app in Hev, Hd. cbn [fmap list_fmap fst] in Hev, Hd.
    apply not_elem_of_app in Hev as [Hev1 Hne]. apply not_elem_of_cons in Hne as [Hne _].
    apply NoDup_app in Hd as (_ & Hx & _).
    assert (Hx' : x ∉ l.*1) by (intros Hi; apply (Hx x Hi); by left).
    eapply wp_bind, wp_update; [exact Ha|]. eapply wp_bind, wp_update; [apply lookup_insert_eq|].
    eapply wp_bind, wp_update.
    { fields. rewrite !lookup_insert_ne by done. by eapply chain_lookup in Hc. }
    unfold set_list. apply wp_modify, HQ. split; [exact Hd'|].
    split; [by fields; rewrite Hf, !head_of_app|]. split; [by rewrite !last_of_app|].
    fields. unfold set_next, set_prev. cbn [payload prev next]. apply chain_app. split.
    + apply (chain_next _ _ _ _ _ None); [done|]. by apply chain_frame, chain_frame, Hc.
    + rewrite last_of_app. cbn [chain head_of last_of]. split; [|done]. rewrite lookup_insert_ne by done. apply lookup_insert_eq.
Qed.

(** The two links around an event that is taken out. *)
Lemma wp_bridge_next l nx nx' Q s : NoDup l.*1 -> chain (cells s) None l nx ->
  (forall s', events s' = events s -> chain (cells s') None l nx' ->
     (forall y, y ∉ l.*1 -> cells s' !! y = cells s !! y) -> Q tt s') ->
  wp (match last_of None l with Some p => update_event p (set_next nx') | None => mret tt end) Q s.
Proof.
  intros Hd Hc HQ. destruct l as [|[p b] l _] using rev_ind; [by apply wp_ret, HQ|].
  rewrite last_of_app. cbn [last_of]. rewrite fmap_app in Hd. apply NoDup_app in Hd as (_ & Hp & _).
  eapply wp_update; [by eapply chain_lookup|]. apply HQ; [done| |].
  - apply (chain_next _ _ _ _ _ nx); [|exact Hc]. intros Hi. apply (Hp p Hi). by left.
  - intros y Hy. fields. apply lookup_insert_ne. intros <-. apply Hy. rewrite fmap_app. apply elem_of_app. right. by left.
Qed.

Lemma wp_bridge_prev l pv pv' Q s : NoDup l.*1 -> chain (cells s) pv l None ->
  (forall s', events s' = events s -> chain (cells s') pv' l None ->
     (forall y, y ∉ l.*1 -> cells s' !! y = cells s !! y) -> Q tt s') ->
  wp (match head_of l None with Some p => update_event p (set_prev pv') | None => mret tt end) Q s.
Proof.
  intros Hd Hc HQ. destruct l as [|[q b] l]; [by apply wp_ret, HQ|]. cbn [head_of].
  cbn [fmap list_fmap fst] in Hd. apply NoDup_cons in Hd as [Hq _].
  eapply wp_update; [exact (proj1 Hc)|]. apply HQ; [done|by eapply chain_prev|].
  intros y Hy. fields. apply lookup_insert_ne. intros <-. apply Hy. by left.
Qed.

Lemma head_of_out l nx x : x ∉ l.*1 -> nx <> Some x -> head_of l nx <> Some x.
Proof. destruct l as [|[y a] l]; [done|]. cbn. intros Hx _ [= ->]. apply Hx. by left. Qed.
Lemma last_of_out l : forall pv x, x ∉ l.*1 -> pv <> Some x -> last_of pv l <> Some x.
Proof.
  induction l as [|[y a] l IH]; intros pv x; cbn [last_of fmap list_fmap fst]; [done|]. intros Hx _.
  apply not_elem_of_cons in Hx as [Hne Hx]. apply IH; [done|]. by intros [= ->].
Qed.

(** The list without its middle. *)
Lemma wp_unlink x a l1 l2 Q s : lists s (l1 ++ (x, a) :: l2) ->
  (forall s', lists s' (l1 ++ l2) -> cells s' !! x = Some (mkEvent a (last_of None l1) (head_of l2 None)) -> Q tt s') ->
  wp (unlink_event x) Q s.
Proof.
  intros (Hd & Hf & Hl & Hc) HQ. pose proof (chain_lookup _ _ _ _ _ _ _ Hc) as Hx.
  rewrite fmap_app in Hd. cbn [fmap list_fmap fst] in Hd.
  assert (Hd12 : NoDup (l1 ++ l2).*1 /\ x ∉ l1.*1 /\ x ∉ l2.*1 /\ NoDup l1.*1 /\ NoDup l2.*1 /\ forall y, y ∈ l1.*1 -> y ∉ l2.*1).
  { apply NoDup_app in Hd as (D1 & D & D2). apply NoDup_cons in D2 as [D3 D2]. rewrite fmap_app.
    assert (forall y, y ∈ l1.*1 -> y ∉ l2.*1) by (intros y Hy Hy'; apply (D y Hy); by right).
    split; [by apply NoDup_app|]. split; [|done]. intros Hi. apply (D x Hi). by left. }
  destruct Hd12 as (D & X1 & X2 & D1 & D2 & Hdis).
  set (pv := last_of None l1) in *. set (nx := head_of l2 None) in *.
  unfold unlink_event. apply wp_bind, wp_gets, wp_bind.
  set (F := head_of l1 nx).
  assert (W : forall Q', (forall s', cells s' = cells s -> events s' = mkEventList F (last (events s)) -> Q' tt s') ->
    wp (when (bool_decide (first (events s) = Some x)) (n ← load_event x; set_list (fun e => e <| first := next n |>))) Q' s).
  { intros Q' H'. rewrite Hf, head_of_app. cbn [head_of]. unfold F, when. destruct l1 as [|[y b] l1]; cbn [head_of].
    - rewrite bool_decide_true by done. eapply wp_bind, wp_load_event; [exact Hx|]. unfold set_list. apply wp_modify, H'; [done|]. by fields.
    - rewrite bool_decide_false. 2:{ intros [= ->]. apply X1. by left. }
      apply wp_ret, H'; [done|]. rewrite head_of_app in Hf. cbn [head_of] in Hf. change F with (Some y). rewrite <- Hf. by destruct (events s). }
  apply W. clear W. intros s1 C1 E1. apply wp_bind, wp_gets, wp_bind. rewrite E1. cbn [last].
  set (L := last_of pv l2).
  assert (W : forall Q', (forall s', cells s' = cells s -> events s' = mkEventList F L -> Q' tt s') ->
    wp (when (bool_decide (last (events s) = Some x)) (n ← load_event x; set_list (fun e => e <| last := prev n |>))) Q' s1).
  { intros Q' H'. rewrite Hl, last_of_app. cbn [last_of]. fold pv. unfold L, when. destruct l2 as [|[y b] l2]; cbn [last_of].
    - rewrite bool_decide_true by done. eapply wp_bind, wp_load_event; [rewrite C1; exact Hx|]. unfold set_list. apply wp_modify, H'; [done|].
      fields. by rewrite E1.
    - cbn [fmap list_fmap fst] in X2. apply not_elem_of_cons in X2 as [Hne X2].
      rewrite bool_decide_false by (apply last_of_out; [done|by intros [= ->]]).
      apply wp_ret, H'; [done|]. rewrite E1, Hl, last_of_app. done. }
  apply W. clear W. intros s2 C2 E2.
  apply chain_app in Hc as [Hc1 [_ Hc2]]. cbn [head_of] in Hc1. fold pv in Hc2.
  eapply wp_bind, wp_load_event; [rewrite C2; exact Hx|]. cbn [prev next].
  apply wp_bind, (wp_bridge_next l1 (Some x)); [done|by rewrite C2|]. intros s3 E3 Hc1' F3.
  eapply wp_bind, wp_load_event; [rewrite F3, C2 by done; exact Hx|]. cbn [prev next].
  apply (wp_bridge_prev l2 (Some x)); [done| |].
  { eapply chain_ext; [|exact Hc2]. intros y Hy. rewrite F3, C2; [done|]. intros Hy'. by apply (Hdis y). }
  intros s4 E4 Hc2' F4. apply HQ.
  - split; [done|]. rewrite E4, E3, E2. cbn [first last]. rewrite head_of_app, last_of_app. split; [done|]. split; [done|].
    apply chain_app. split; [|exact Hc2']. eapply chain_ext; [|exact Hc1']. intros y Hy. apply F4. by apply Hdis.
  - rewrite F4, F3, C2 by done. exact Hx.
Qed.

(** A loop over the list sees its events, in order. *)
Lemma chain_size (h : gmap positive (event A)) pv l nx : NoDup l.*1 -> chain h pv l nx -> (length l <= size h)%nat.
Proof.
  intros Hd Hc. rewrite <- (length_fmap fst). rewrite <- (size_list_to_set (C := gset positive) l.*1) by done.
  rewrite <- size_dom. apply subseteq_size. intros x Hx. apply elem_of_list_to_set in Hx.
  apply elem_of_dom. clear Hd. revert pv Hc. induction l as [|[y a] l IH]; intros pv; cbn [chain fmap list_fmap fst] in *; [by apply elem_of_nil in Hx|].
  intros [Hy Hl]. apply elem_of_cons in Hx as [->|Hx]; [by eexists|by eapply IH].
Qed.

Lemma wp_events_from l : forall fuel pv Q s, (length l <= fuel)%nat -> chain (cells s) pv l None -> Q l s ->
  wp (events_from fuel (head_of l None)) Q s.
Proof.
  induction l as [|[x a] l IH]; intros fuel pv Q s Hn Hc HQ; cbn [head_of].
  - destruct fuel; by apply wp_ret.
  - destruct Hc as [Hx Hc]. destruct fuel as [|fuel]; [cbn in Hn; lia|]. cbn [events_from].
    eapply wp_bind, wp_load_event; [exact Hx|]. cbn [next payload]. eapply wp_bind, IH; [cbn in Hn; lia|exact Hc|]. by apply wp_ret.
Qed.

Lemma wp_listed l Q s : lists s l -> Q l s -> wp listed Q s.
Proof.
  intros (Hd & Hf & Hl & Hc) HQ. unfold listed. apply wp_bind, wp_gets. unfold Datatypes.id. rewrite Hf.
  eapply wp_events_from; [by eapply chain_size|exact Hc|exact HQ].
Qed.
End Operations.

(** ** Properties *)

(** [s'] is reached by [m] from [s]. *)
Notation "s -{ m }-> s'" := (m s = Ok (tt, s')) (at level 70, m at level 60, only parsing).

Lemma wp_unit {S} (m : M S unit) (P : S -> Prop) s : wp m (fun _ => P) s -> exists s', s -{ m }-> s' /\ P s'.
Proof. intros W. apply wp_ok in W as ([] & s' & E & HP). by exists s'. Qed.

Lemma add_fd_lists ev opts e l s : lists s l -> ev ∉ l.*1 -> cells s !! ev = Some (mkEvent e None None) ->
  wp (add_fd_event ev opts) (fun _ s' => lists s' (l ++ [(ev, e <| options := opts |>)])) s.
Proof.
  intros H Hev Ha. unfold add_fd_event. eapply wp_bind, wp_link; [done|exact Hev|exact Ha|].
  intros s1 (Hd & Hf & Hl & Hc). rewrite fmap_app in Hd. cbn [fmap list_fmap fst] in Hd.
  assert (Hn := chain_lookup _ _ _ _ _ _ _ Hc). eapply wp_update; [exact Hn|]. cbn [payload prev next].
  split; [by rewrite fmap_app|]. fields. rewrite Hf, Hl, !head_of_app, !last_of_app. split; [done|]. split; [done|].
  apply chain_app in Hc as [Hc _]. apply chain_app. split; [by apply chain_frame|]. split; [|done].
  rewrite lookup_insert_eq. done.
Qed.

Lemma remove_fd_lists ev e l1 l2 s : lists s (l1 ++ (ev, e) :: l2) -> l1 ++ l2 <> [] ->
  wp (remove_fd_event ev) (fun _ s' => lists s' (l1 ++ l2) /\
    cells s' !! ev = Some (mkEvent e (last_of None l1) (head_of l2 None))) s.
Proof.
  intros H Hne. pose proof H as (_ & _ & _ & Hc). apply chain_lookup in Hc. unfold remove_fd_event.
  eapply wp_bind, wp_load_event; [exact Hc|]. cbn [prev next].
  replace (negb (is_null (last_of None l1)) || negb (is_null (head_of l2 None))) with true.
  - apply wp_bind, wp_ret. eapply wp_unlink; [exact H|]. by intros.
  - destruct l2 as [|[]]; [|by rewrite orb_true_r]. rewrite app_nil_r in Hne.
    destruct l1 as [|[y b] l1 _] using rev_ind; [done|]. by rewrite last_of_app.
Qed.


(** Removing descriptor events has two traps: the only event of a list cannot be
    removed, an assertion fails; and an event that was removed keeps its
    links, so that adding it again fails an assertion. *)
Theorem remove_only_fd_event s ev e l1 l2 : lists s (l1 ++ (ev, e) :: l2) ->
  if bool_decide ((l1 ++ l2).*1 = []) then remove_fd_event ev s = Fail AbortCalled
  else exists s', s -{ remove_fd_event ev }-> s' /\ lists s' (l1 ++ l2) /\ forall opts, add_fd_event ev opts s' = Fail AbortCalled.
Proof.
  intros H. case_bool_decide as Hn.
  - apply fmap_nil_inv, app_nil in Hn as [-> ->]. destruct H as (_ & _ & _ & Hc & _). cbn [head_of] in Hc.
    unfold remove_fd_event, load_event, mbind, M_bind. by rewrite Hc.
  - assert (Hne : l1 ++ l2 <> []) by (by intros E; rewrite E in Hn). destruct (wp_unit _ _ _ (remove_fd_lists _ _ _ _ _ H Hne)) as (s' & R & Hl & Hc).
    exists s'. split; [exact R|]. split; [exact Hl|]. intros opts. unfold add_fd_event, link_event, load_event, mbind, M_bind. rewrite Hc.
    cbn [prev next]. destruct l2 as [|[y b] l2]; cbn [head_of].
    + rewrite app_nil_r in Hne. destruct l1 as [|[y b] l1 _] using rev_ind; [done|]. by rewrite last_of_app.
    + by destruct (last_of None l1).
Qed.

(** ** Witnesses *)

(** Three descriptor events, the first two of which are registered. *)
Definition demo_fd (n : Z) : fd_event := mkFdEvent n 1 true.
Definition demo_fd_events : events_state fd_event :=
  mkEvents (mkEventList (Some 1%positive) (Some 2%positive))
    (<[1%positive := mkEvent (demo_fd 3) None (Some 2%positive)]>
    (<[2%positive := mkEvent (demo_fd 4) (Some 1%positive) None]>
    (<[3%positive := mkEvent (demo_fd 5) None None]> ∅))).
Definition demo_timed_events : events_state timed_event :=
  mkEvents (mkEventList (Some 1%positive) (Some 1%positive)) {[ 1%positive := mkEvent (mkTimed 10 0 true) None None ]}.

Lemma demo_fd_lists : lists demo_fd_events [(1%positive, demo_fd 3); (2%positive, demo_fd 4)].
Proof. split; [by apply (bool_decide_unpack _); vm_compute|]. by repeat split. Qed.
Lemma demo_timed_lists : lists demo_timed_events [(1%positive, mkTimed 10 0 true)].
Proof. split; [apply NoDup_singleton|]. by repeat split. Qed.


Lemma remove_only_fd_event_witness : lists demo_fd_events ([(1%positive, demo_fd 3)] ++ [(2%positive, demo_fd 4)]) /\
  exists s', demo_fd_events -{ remove_fd_event 2%positive }-> s' /\ lists s' [(1%positive, demo_fd 3)] /\
    forall opts, add_fd_event 2%positive opts s' = Fail AbortCalled.
Proof.
  split; [exact demo_fd_lists|]. exact (remove_only_fd_event demo_fd_events 2%positive (demo_fd 4) [(1%positive, demo_fd 3)] [] demo_fd_lists).
Defined.
