(* ===== verification/Rasta.v ===== *)
(** * The library as its user sees it (src/c/rasta.c, src/c/rasta_init.c, src/c/rastahandle.c and the
    service primitives of src/c/retransmission/safety_retransmission.c)

    Set-up, connecting, accepting, sending, receiving and disconnecting.  The
    primitives that wait run the event loop, with the loop's fuel and the events
    of the application.  An accept is cancelled through a pipe, whose descriptors
    are an argument. *)

From stdpp Require Import base numbers list.
From Stdlib Require Import ZArith Lia.
From S2P Require Import Prelude.
From S2P Require Import Fifo.
From S2P Require Import Hashing.
From S2P Require Import Packet.
From S2P Require Import Factory.
From S2P Require Import DeferQueue.
From S2P Require Import World.
From S2P Require Import Config.
From S2P Require Import State.
From S2P Require Import Transport.
From S2P Require Import Redundancy.
From S2P Require Import Connection.
From S2P Require Import Retransmission.
From S2P Require Import Handlers.
From S2P Require Import Session.
From S2P Require Import Events.
From S2P Require Import EventLoop.

Local Open Scope Z_scope.
Local Open Scope record_scope.

Definition NS_PER_MS : Z := 1000000.
(* rasta_init.c IO_INTERVAL *)
Definition IO_INTERVAL : Z := 10.

Section Rasta.
Context `{Transport} {App : Application}.

(** ** Set-up *)

Definition timer_of (interval : Z) : timed_event := mkTimed (u64 interval) 0 false.

(* rasta_init.c init_connection_timeout_event *)
Definition init_connection_timeout_event (cfg : rasta_config_info) : timed_event :=
  timer_of (t_max (sending cfg) * NS_PER_MS).
(* rasta_init.c init_send_heartbeat_event *)
Definition init_send_heartbeat_event (cfg : rasta_config_info) : timed_event :=
  timer_of (t_h (sending cfg) * NS_PER_MS).
(** The argument is an [int]. *)
(* rasta_red_multiplexer.c init_handshake_timeout_event *)
Definition init_handshake_timeout_event (channel_timeout_ms : Z) : timed_event :=
  timer_of (s32 channel_timeout_ms * NS_PER_MS).

(** Adding the events to the event system is the list [timers]. *)
(* rasta_init.c init_connection_events *)
Definition init_connection_events (cfg : rasta_config_info) (c : rasta_connection) : rasta_connection :=
  c <| handshake_timeout_event := init_handshake_timeout_event (t_max (sending cfg)) |>
    <| timeout_event := init_connection_timeout_event cfg |>
    <| send_heartbeat_event := init_send_heartbeat_event cfg |>.

Definition blank_event : fd_event := mkFdEvent 0 0 false.
Definition blank_connection : rasta_connection :=
  let t := mkTimed 0 0 false in
  mkConnection false t t t t false RASTA_CONNECTION_CLOSED (queue_init 0) (queue_init 0) 0 RASTA_ROLE_CLIENT
    0 0 0 0 0 0 0 0 0 0 0 0 [] (queue_init 0) (mkErrors 0 0 0 0 0).

(** The ports array is never filled. *)
(* rasta_red_multiplexer.c redundancy_mux_allocate_channels *)
Definition redundancy_mux_allocate_channels : M sys unit :=
  cfg ← gets config;
  let port_count := length (connections (redundancy cfg)) in
  _ ← modify (fun s => s <| mux ::= fun m => m
        <| transport_sockets := replicate port_count (mkSocket 0 0 blank_event blank_event) |> |>);
  _ ← for_up port_count 0 transport_create_socket;
  if bool_decide (length (connections (redundancy_remote cfg)) = port_count) then
    channel ← lift (redundancy_channel_alloc cfg);
    setch (fun _ => channel)
  else fail AbortCalled.

(* rasta_red_multiplexer.c redundancy_mux_alloc *)
Definition redundancy_mux_alloc : M sys unit :=
  cfg ← gets config;
  ctx ← lift (init_hashing_context (sending cfg));
  _ ← modify (fun s => s <| mux := mkMux [] [] 0 ctx |>);
  redundancy_mux_allocate_channels.

(* rasta_init.c rasta_lib_init_configuration *)
Definition rasta_lib_init_configuration : M sys unit :=
  _ ← redundancy_mux_alloc;
  cfg ← gets config;
  setc (fun _ => init_connection_events cfg
    ((sr_reset_connection blank_connection)
       <| remote_id := u32 (rasta_id_remote (general cfg)) |>
       <| my_id := u32 (rasta_id (general cfg)) |>
       <| network_id := u32 (rasta_network (general cfg)) |>
       <| send_event := timer_of (IO_INTERVAL * NS_PER_MS) |>
       <| fifo_retransmission := queue_init (max_retransmission_queue_size (retransmission cfg)) |>
       <| fifo_send := queue_init (u32 (2 * max_packet (sending cfg))) |>
       <| fifo_receive := queue_init (max_recvqueue_size (receive cfg)) |>)).

(* rasta.c rasta_bind *)
Definition rasta_bind : M sys bool := redundancy_mux_bind.

(** ** Service primitives *)

(* safety_retransmission.c sr_listen *)
Definition sr_listen : M sys unit := redundancy_mux_listen_channels.

(* safety_retransmission.c:389-411 sr_send *)
Fixpoint queue_messages (app_messages : RastaMessageData) : M sys Z :=
  match app_messages with
  | [] => mret 0
  | msg :: app_messages =>
      c ← gets conn;
      _ ← when (queue_full (fifo_send c)) (_ ← data_send_event; mret tt);
      c ← gets conn;
      let '(pushed, q) := queue_push (fifo_send c) (Some msg) in
      if negb pushed then mret (-1)
      else
        _ ← setc (fun c => c <| fifo_send := q |>);
        _ ← enable_send;
        queue_messages app_messages
  end.

(** In any other state the peer is told, but neither the connection is reset
    nor are the transports closed. *)
(* safety_retransmission.c sr_send *)
Definition sr_send (app_messages : RastaMessageData) : M sys Z :=
  s ← gets Datatypes.id;
  match current_state (conn s) with
  | RASTA_CONNECTION_UP =>
      if max_packet (sending (config s)) <? zlen app_messages then mret (-1) else queue_messages app_messages
  | RASTA_CONNECTION_CLOSED | RASTA_CONNECTION_DOWN => _ ← set_state RASTA_CONNECTION_CLOSED; mret 0
  | _ =>
      _ ← sendDisconnectionRequest RASTA_DISC_REASON_SERVICENOTALLOWED 0;
      _ ← set_state RASTA_CONNECTION_CLOSED;
      mret (-1)
  end.

(** Up to the event loop: the request is sent, the timer runs.  [false] when the
    connection or a transport channel is missing. *)
(* safety_retransmission.c:436-484 sr_connect *)
Definition request_connection : M sys bool :=
  s ← gets Datatypes.id;
  let cfg := config s in
  if negb (remote_id (conn s) =? rasta_id_remote (general cfg)) then mret false
  else
    r ← redundancy_channel_connect;
    if negb (r =? 0) then mret false
    else
      _ ← setc (sr_init_connection RASTA_ROLE_CLIENT);
      _ ← setc (fun c => c <| sn_t := initial_sequence_number cfg |> <| cs_t := 0 |>);
      ts ← cur_timestamp_now;
      _ ← setc (fun c => c <| cts_r := ts |> <| t_i := t_max (sending cfg) |>);
      c ← gets conn;
      ts ← cur_timestamp_now;
      ctx ← gets channel_context;
      conreq ← lift (createConnectionRequest (remote_id c) (my_id c) (sn_t c) ts (send_max (sending cfg))
                       RASTA_VERSION ctx);
      _ ← setc (fun c => c <| sn_i := sn_t c |>);
      _ ← redundancy_mux_send conreq (role c);
      _ ← next_sn;
      _ ← set_state RASTA_CONNECTION_START;
      _ ← enable_handshake_timeout;
      mret true.

(** What became of the request. *)
(* safety_retransmission.c:490-500 sr_connect *)
Definition connection_outcome : M sys bool :=
  _ ← setc (fun c => c <| handshake_timeout_event ::= disable_timed_event |>);
  st ← getc current_state;
  if bool_decide (st = RASTA_CONNECTION_UP) then mret true
  else _ ← redundancy_channel_close; mret false.

(* safety_retransmission.c sr_connect *)
Definition sr_connect (fuel : nat) : M sys bool :=
  requested ← request_connection;
  if requested : bool then _ ← event_system_start fuel; connection_outcome else mret false.

(* safety_retransmission.c sr_disconnect *)
Definition sr_disconnect : M sys unit :=
  _ ← sr_close_connection RASTA_DISC_REASON_USERREQUEST 0;
  _ ← setc (fun c => c <| timeout_event ::= disable_timed_event |>);
  setc (fun c => c <| send_heartbeat_event ::= disable_timed_event |>).

(** The notifications are not part of the model. *)
(* safety_retransmission.c sr_cleanup *)
Definition sr_cleanup : M sys unit := redundancy_mux_close.

(** ** The interface *)

(* rasta.c rasta_listen *)
Definition rasta_listen : M sys unit := sr_listen.

(* rasta.c rasta_accept *)
Definition rasta_accept (fuel : nat) : M sys bool :=
  _ ← redundancy_mux_init;
  _ ← event_system_start fuel;
  new ← getc is_new;
  if new : bool then _ ← setc (fun c => c <| is_new := false |>); mret true else mret false.

(* rasta.c rasta_connect *)
Definition rasta_connect (fuel : nat) : M sys bool := sr_connect fuel.

(** The loop of [rasta_recv]: each round runs the event loop. *)
(* rasta.c:137-140 rasta_recv *)
Fixpoint await_message (rounds fuel : nat) : M sys unit :=
  c ← gets conn;
  if bool_decide (current_state c = RASTA_CONNECTION_UP) && (sr_recv_queue_item_count c =? 0) then
    match rounds with
    | O => fail OutOfFuel
    | S rounds => _ ← event_system_start fuel; await_message rounds fuel
    end
  else mret tt.

(** The bytes that were copied to the caller's buffer of [len] bytes, or
    nothing when the connection is not up. *)
(* rasta.c rasta_recv *)
Definition rasta_recv (rounds fuel : nat) (len : Z) : M sys (option (list Z)) :=
  _ ← await_message rounds fuel;
  c ← gets conn;
  if negb (bool_decide (current_state c = RASTA_CONNECTION_UP)) then mret None
  else
    match queue_pop (fifo_receive c) with
    | (None, _) => fail NullDeref
    | (Some elem, q) =>
        _ ← setc (fun c => c <| fifo_receive := q |>);
        let received_len := if len <? zlen elem then len else zlen elem in
        mret (Some (take (Z.to_nat received_len) elem))
    end.

(* rasta.c rasta_send *)
Definition rasta_send (buf : list Z) : M sys Z := sr_send [buf].

(* rasta.c rasta_disconnect *)
Definition rasta_disconnect : M sys unit := sr_disconnect.

(** [fifo_pop] until the queue is empty or a popped element is NULL. *)
(* rasta.c:181-185 rasta_cleanup *)
Fixpoint free_elements (n : nat) : M sys unit :=
  q ← getc fifo_retransmission;
  let '(elem, q) := queue_pop q in
  _ ← setc (fun c => c <| fifo_retransmission := q |>);
  match elem, n with Some _, S n => free_elements n | _, _ => mret tt end.

(** What [fifo_destroy] and [rfree] release is not accessible afterwards; the
    connection is left with empty queues. *)
(* rasta.c rasta_cleanup *)
Definition rasta_cleanup : M sys unit :=
  _ ← sr_cleanup;
  n ← getc (fun c => length (q_items (fifo_retransmission c)));
  _ ← free_elements n;
  setc (fun c => c <| fifo_retransmission := queue_init 0 |> <| fifo_send := queue_init 0 |> <| fifo_receive := queue_init 0 |>).
End Rasta.

(** ** Cancelling an accept *)

(** The two ends of a pipe. *)
(* rasta.c:79-81 rasta_cancellation *)
Record rasta_cancellation := mkCancellation { read_end : Z; write_end : Z }.

(** [fds] is what [pipe] stores when it succeeds. *)
(* rasta.c rasta_prepare_cancellation *)
Definition rasta_prepare_cancellation (fds : Z * Z) : M sys (option rasta_cancellation) :=
  r ← syscall_now SysPipe;
  if r <? 0 then mret None else mret (Some (mkCancellation (fst fds) (snd fds))).

(** Neither the result of [read] nor that of [close] is looked at. *)
(* rasta.c terminator_callback *)
Definition terminator_callback : M sys Z :=
  _ ← syscall_now SysRead;
  _ ← syscall_now SysClose;
  mret 1.

(** The application with the terminator event, as the last one. *)
Definition with_terminator (cancellation : rasta_cancellation) (App : Application) : Application :=
  user_events ++ [(mkFdEvent (read_end cancellation) 1 true, terminator_callback)].

(* rasta.c rasta_accept_with_cancel *)
Definition rasta_accept_with_cancel `{Transport} {App : Application} (cancellation : rasta_cancellation) (fuel : nat) : M sys bool :=
  result ← rasta_accept (App := with_terminator cancellation App) fuel;
  _ ← syscall_now SysClose;
  mret result.

(** Called by another thread; what is written makes the other end readable. *)
(* rasta.c rasta_cancel_operation *)
Definition rasta_cancel_operation (cancel : rasta_cancellation) : M sys unit :=
  _ ← syscall_now SysWrite;
  mret tt.
