(* ===== verification/Service.v ===== *)
(** * What the service primitives guarantee

    Setting an endpoint up establishes the invariant of Events.v but for the
    role, opening a connection establishes all of it, and every primitive keeps
    it, whatever the event loop does meanwhile. *)

From stdpp Require Import base numbers list.
From Stdlib Require Import ZArith Lia.
From S2P Require Import Prelude.
From S2P Require Import Fifo.
From S2P Require Import Crc.
From S2P Require Import Siphash.
From S2P Require Import Hashing.
From S2P Require Import Packet.
From S2P Require Import Factory.
From S2P Require Import DeferQueue.
From S2P Require Import World.
From S2P Require Import Config.
From S2P Require Import State.
From S2P Require Import Sample.
From S2P Require Import Transport.
From S2P Require Import Redundancy.
From S2P Require Import Connection.
From S2P Require Import Retransmission.
From S2P Require Import Handlers.
From S2P Require Import Session.
From S2P Require Import Events.
From S2P Require Import EventLoop.
From S2P Require Import Rasta.

Local Open Scope Z_scope.
Local Open Scope record_scope.

(** ** Set-up *)

(** What the configuration must satisfy.  With SipHash the key buffer is shorter
    than what the algorithm reads. *)
Record config_valid (cfg : rasta_config_info) : Prop := {
  cv_config : config_ok cfg;
  cv_crc : crc_fits (crc_type (redundancy cfg));
  cv_hash : sr_hash_algorithm (sending cfg) <> RASTA_ALGO_SIPHASH_2_4;
  cv_count : length (connections (redundancy_remote cfg)) = length (connections (redundancy cfg));
  cv_defer : is_u32 (n_deferqueue_size (redundancy cfg));
  cv_retr : is_u32 (max_retransmission_queue_size (retransmission cfg));
  cv_receive : is_u32 (max_recvqueue_size (receive cfg))
}.

Lemma init_context_ok cfg : sr_hash_algorithm cfg <> RASTA_ALGO_SIPHASH_2_4 ->
  exists ctx, init_hashing_context cfg = Ok ctx /\ HashOk ctx.
Proof.
  intros Ha. unfold init_hashing_context. destruct (sr_hash_algorithm cfg) eqn:E; [| |done].
  - rewrite rasta_md4_set_key_ok. eexists. split; [done|]. apply key_hash_ok. unfold KeyOk. cbn. lia.
  - eexists. split; [done|]. apply key_hash_ok. unfold KeyOk. cbn. lia.
Qed.

(** The endpoint as if it had accepted a connection: a server need not have
    attached its channels to sockets. *)
Definition as_server (s : sys) : sys := s <| conn ::= fun c => c <| role := RASTA_ROLE_SERVER |> |>.

(** An endpoint that was set up and has no connection yet. *)
Record fresh (s : sys) : Prop := {
  fr_ok : endpoint_ok (as_server s);
  fr_closed : current_state (conn s) = RASTA_CONNECTION_CLOSED;
  fr_locked : hb_locked (conn s) = true;
  fr_attachment : Forall (fun a => a = None) (attachment s)
}.

(** The sockets below [i] have their number. *)
Definition numbered (n i : nat) (s s' : sys) : Prop := exists socks k,
  s' = s <| mux ::= fun m => m <| transport_sockets := socks |> |> <| env ::= fun w => w <| calls := k |> |> /\
  length socks = n /\ forall j so, (j < i)%nat -> socks !! j = Some so -> so_id so = Z.of_nat j.

Section Service.
Context `{TransportOk} {App : Application} {app_cfg : rasta_config_info} {AppOk : ApplicationOk App app_cfg}.

Lemma create_sockets n s : net_good (env s) -> length (transport_sockets (mux s)) = n ->
  wp (for_up n 0 transport_create_socket) (fun _ => numbered n n s) s.
Proof.
  intros Hg Hn. apply (for_up_inv _ 0 _ (fun i => numbered n i s)).
  - exists (transport_sockets (mux s)), (calls (env s)). split; [by destruct s as [? ? [] ? ? ? []]|]. split; [done|]. lia.
  - intros i s' Hi (socks & k & -> & Hl & Hj). eapply wp_mono; [apply create_ok; [by destruct Hg|fields; lia]|].
    intros _ s' (socks' & k' & -> & Hs). revert Hs. fields. intros Hs.
    exists socks', k'. split; [by destruct s as [? ? [] ? ? ? []]|].
    assert (Hl' : length socks' = n) by (apply (f_equal length) in Hs; by rewrite length_insert, !length_fmap, Hl in Hs).
    split; [done|]. intros j so Hji Hso. assert (E : (so_id <$> socks') !! j = Some (so_id so)) by (by rewrite list_lookup_fmap, Hso).
    rewrite Hs in E. destruct (decide (i = j)) as [->|Hne].
    + rewrite list_lookup_insert_eq in E by (rewrite length_fmap; lia). by injection E.
    + rewrite list_lookup_insert_ne, list_lookup_fmap in E by done. apply fmap_Some in E as (so' & Hso' & ->).
      apply (Hj j); [lia|done].
Qed.

Lemma numbers_ext {A} (l : list A) (f : A -> Z) n : length l = n ->
  (forall j x, l !! j = Some x -> f x = Z.of_nat j) -> f <$> l = Z.of_nat <$> seq 0 n.
Proof.
  intros Hn Hl. apply list_eq. intros i. rewrite !list_lookup_fmap. destruct (decide (i < n)%nat) as [Hi|Hi].
  - rewrite (proj2 (lookup_seq 0 n i i)) by lia. destruct (lookup_lt_is_Some_2 l i) as [x Hx]; [lia|].
    rewrite Hx. cbn. by rewrite (Hl i x Hx).
  - rewrite !lookup_ge_None_2; [done|rewrite length_seq; lia|lia].
Qed.

(** The connection of an endpoint that was set up. *)
Definition initial_connection (cfg : rasta_config_info) : rasta_connection :=
  init_connection_events cfg
    ((sr_reset_connection blank_connection)
       <| remote_id := u32 (rasta_id_remote (general cfg)) |>
       <| my_id := u32 (rasta_id (general cfg)) |>
       <| network_id := u32 (rasta_network (general cfg)) |>
       <| send_event := timer_of (IO_INTERVAL * NS_PER_MS) |>
       <| fifo_retransmission := queue_init (max_retransmission_queue_size (retransmission cfg)) |>
       <| fifo_send := queue_init (u32 (2 * max_packet (sending cfg))) |>
       <| fifo_receive := queue_init (max_recvqueue_size (receive cfg)) |>).

Lemma initial_conn_ok cfg ctx f : config_valid cfg ->
  conn_ok cfg ctx ((initial_connection cfg) <| role ::= f |>).
Proof.
  intros []. assert (Z0 : is_u32 0) by (split; zle).
  unfold initial_connection, init_connection_events, sr_reset_connection, blank_connection.
  split; fields; try done; try apply u32_range; try (apply queue_init_ok; done || apply u32_range).
  exists []. split; [done|constructor].
Qed.

Lemma init_lands s : config_valid (config s) -> net_good (env s) -> rastamodule_lasterror s = RASTA_ERRORS_NONE ->
  inbox (env s) = [] ->
  wp rasta_lib_init_configuration (fun _ s' => fresh s' /\ config s' = config s /\
    conn s' = initial_connection (config s) /\ trace (env s') = trace (env s)) s.
Proof.
  intros V Hg He Hin. destruct (init_context_ok (sending (config s)) (cv_hash _ V)) as (ctx & Ec & Hh).
  unfold rasta_lib_init_configuration, redundancy_mux_alloc, redundancy_mux_allocate_channels.
  set (n := length (connections (redundancy (config s)))).
  apply wp_bind, wp_bind, wp_gets, wp_bind, wp_lift. exists ctx. split; [done|].
  apply wp_bind, wp_modify, wp_bind, wp_gets. cbv zeta. change (config (s <| mux := mkMux [] [] 0 ctx |>)) with (config s).
  fold n. apply wp_bind, wp_modify. set (s1 := s <| mux := _ |> <| mux ::= _ |>).
  assert (N1 : net_good (env s1)) by exact Hg.
  apply wp_bind. eapply wp_mono; [apply create_sockets; [exact N1|apply length_replicate]|].
  intros [] s2 (socks & k & -> & Hl & Hids). rewrite bool_decide_eq_true_2 by apply V.
  apply wp_bind, wp_lift. unfold redundancy_channel_alloc. rewrite Ec. eexists. split; [done|].
  apply wp_modify, wp_bind, wp_gets, wp_modify. unfold s1. clear s1 N1.
  fields. fold (initial_connection (config s)).
  assert (Ids : id <$> imap (fun i d => transport_init blank_channel i (ip d) (u16 (port d)))
    (connections (redundancy_remote (config s))) = Z.of_nat <$> seq 0 n).
  { apply numbers_ext; [rewrite length_imap; apply V|]. intros j c. rewrite list_lookup_imap.
    by intros (d & _ & ->)%fmap_Some. }
  assert (Sids : so_id <$> socks = Z.of_nat <$> seq 0 n).
  { apply numbers_ext; [exact Hl|]. intros j so Hj. apply (Hids j so); [|done].
    apply lookup_lt_Some in Hj. by rewrite Hl in Hj. }
  split; [|done]. split; fields; try done.
  - split; [|apply deferqueue_init_ok, V|constructor]. split; [|done|exact Ids|exact Sids|unfold as_server; fields; rewrite Hin; constructor].
    split; [split; [exact Hh|done|exact He|apply V|by destruct Hg]|done|apply V|by apply initial_conn_ok].
  - unfold attachment. fields. apply Forall_fmap, Forall_lookup_2. intros i c Hc. cbn in Hc.
    rewrite list_lookup_imap in Hc. by apply fmap_Some in Hc as (d & _ & ->).
Qed.

(** ** Opening a connection *)

Lemma attached_config s s' i : attachment s' = attachment s ->
  so_id <$> transport_sockets (mux s') = so_id <$> transport_sockets (mux s) -> config s' = config s ->
  attached s i -> attached s' i.
Proof. intros. by eapply attached_same. Qed.

(** What connecting the channels from [i] on does. *)
Record dialled (i k : nat) (s s' : sys) : Prop := {
  di_net : net_frame s s';
  di_trace : trace (env s') = trace (env s);
  di_attached : forall j, attached s j -> attached s' j;
  di_new : forall j, (i <= j < k)%nat -> attached s' j
}.

Definition well_numbered (s : sys) : Prop :=
  id <$> transport_channels (chan s) = numbers s /\ so_id <$> transport_sockets (mux s) = numbers s.

Lemma well_numbered_net s s' : net_frame s s' -> well_numbered s -> well_numbered s'.
Proof. intros F [E1 E2]. unfold well_numbered, numbers. by rewrite (nf_ids _ _ F), (nf_sockets _ _ F), (nf_config _ _ F). Qed.

Lemma connect_one s i : net_good (env s) -> well_numbered s -> (i < length (transport_channels (chan s)))%nat ->
  wp (rasta_red_connect_transport_channel i) (fun _ => dialled i (S i) s) s.
Proof.
  intros Hg [E1 E2] Hi. unfold rasta_red_connect_transport_channel.
  assert (Hk : (i < length (transport_sockets (mux s)))%nat).
  { rewrite (numbers_length _ _ _ E2), <- (numbers_length _ _ _ E1). done. }
  destruct (lookup_lt_is_Some_2 _ _ Hk) as [so Hso]. destruct (numbers_lookup _ _ _ _ _ E2 Hso) as [Hid Hc].
  apply wp_bind. eapply wp_socket_at; [done|]. rewrite Hid, Nat2Z.id. cbv zeta. apply wp_bind.
  eapply wp_mono; [apply connect_ok; [done..|by rewrite E1, E2]|]. intros r s' (F & T & A).
  destruct (lookup_lt_is_Some_2 (transport_channels (chan s')) i) as [c Hc']; [by rewrite (net_frame_length _ _ F)|].
  apply wp_bind. eapply wp_channel_at; [done|]. apply wp_ret.
  assert (Hs : (so_id <$> transport_sockets (mux s)) !! i = Some (Z.of_nat i)) by (by rewrite list_lookup_fmap, Hso; cbn; rewrite Hid).
  split; [done|done| |].
  - apply (attached_insert _ _ i i (Z.of_nat i)); [done|apply F|apply F|done|by rewrite Nat2Z.id].
  - intros j Hj. assert (j = i) as -> by lia. exists i, (Z.of_nat i). rewrite A, (nf_sockets _ _ F), (nf_config _ _ F), Nat2Z.id.
    rewrite list_lookup_insert_eq; [done|]. unfold attachment. by rewrite length_fmap.
Qed.

Lemma connect_all n : forall i success s, net_good (env s) -> well_numbered s ->
  (i + n <= length (transport_channels (chan s)))%nat ->
  wp (connect_channels n i success) (fun _ => dialled i (i + n) s) s.
Proof.
  induction n as [|n IH]; intros i success s Hg W Hi; cbn [connect_channels].
  - apply wp_ret. split; [apply net_frame_refl|done|done|lia].
  - apply wp_bind. eapply wp_mono; [apply connect_one; [done..|lia]|]. intros ok s1 [F1 T1 A1 N1].
    eapply wp_mono; [apply IH; [by eapply net_frame_good|by eapply well_numbered_net|rewrite (net_frame_length _ _ F1); lia]|].
    intros r s2 [F2 T2 A2 N2]. split; [by eapply net_frame_trans|by rewrite T2|auto|].
    intros j Hj. destruct (decide (j = i)) as [->|]; [apply A2, N1; lia|apply N2; lia].
Qed.

(** The channel layer as it starts. *)
Definition restarted (s : sys) : sys := s <| chan ::= redundancy_channel_init |>.

Lemma connect_lands s : net_good (env s) -> well_numbered s ->
  wp redundancy_channel_connect (fun _ s' => dialled 0 (length (transport_channels (chan s))) (restarted s) s') s.
Proof.
  intros Hg W. unfold redundancy_channel_connect. apply wp_bind, wp_modify. fold (restarted s).
  apply wp_bind, wp_gets, wp_bind. eapply wp_mono; [apply connect_all; [done|done|done]|]. intros r s' D. by apply wp_ret.
Qed.

Lemma endpoint_emptied s s' : upheld s s' -> endpoint_ok s ->
  defer_q (chan s') = deferqueue_clear (defer_q (chan s)) -> inbox (env s') = inbox (env s) -> endpoint_ok s'.
Proof.
  intros U [B D A] Eq Hin. pose proof (up_context _ _ U) as X.
  assert (B' : base_ok (channel_context s) s') by (eapply base_upheld; [done|done|rewrite Hin; apply B]).
  split; rewrite ?X, ?Eq; [done|by apply deferqueue_clear_ok|constructor].
Qed.

Lemma upheld_dialled s s' i k : dialled i k (restarted s) s' -> upheld s s'.
Proof.
  intros [[] T A _]. split; try done.
  - unfold channel_context. by rewrite nf_chan.
  - unfold mux_context. by rewrite nf_mux.
Qed.

Lemma upheld_server s s' : upheld s s' -> upheld (as_server s) (as_server s').
Proof. intros []. split; try done. unfold as_server. fields. by f_equal. Qed.

Lemma conn_ok_unrole cfg ctx c f : conn_ok cfg ctx (c <| role ::= f |>) -> conn_ok cfg ctx c.
Proof. intros []. split; done. Qed.

(** The role does not matter when every channel is attached. *)
Lemma endpoint_attached s : endpoint_ok (as_server s) ->
  (forall i, (i < length (transport_channels (chan s)))%nat -> attached s i) -> endpoint_ok s.
Proof.
  intros [[[L R C O] X I K N] D A] Ha. apply conn_ok_unrole in O. split; [|exact D|exact A].
  split; [|done..]. split; [by destruct L|intros _ i Hi; exact (Ha i Hi)|exact C|exact O].
Qed.

(** The connection of a client that waits for the response. *)
Definition requested (cfg : rasta_config_info) (ts t : Z) (c : rasta_connection) : rasta_connection :=
  (sr_init_connection RASTA_ROLE_CLIENT c)
    <| sn_t := u32 (initial_sequence_number cfg + 1) |> <| cs_t := 0 |> <| cts_r := ts |>
    <| t_i := t_max (sending cfg) |> <| sn_i := initial_sequence_number cfg |>
    <| current_state := RASTA_CONNECTION_START |> <| handshake_timeout_event ::= armed t |>.

Lemma requested_ok cfg ctx ts t c : is_u32 ts -> conn_ok cfg ctx c -> conn_ok cfg ctx (requested cfg ts t c).
Proof.
  intros Ht []. unfold requested, sr_init_connection, sr_reset_connection.
  split; fields; try done; apply u32_range.
Qed.

Lemma createConnectionRequest_built ctx r se sn ts m : exists pk,
  createConnectionRequest r se sn ts m RASTA_VERSION ctx = Ok pk /\
  built ctx RASTA_TYPE_CONNREQ (mkIds r se sn 0 ts 0) (connection_data m RASTA_VERSION) pk.
Proof. apply putConnectionData_built. cbn. lia. Qed.

Lemma wp_enable_handshake Q s :
  (forall t s', did s s' [] -> conn s' = (conn s) <| handshake_timeout_event ::= armed t |> -> Q tt s') ->
  wp enable_handshake_timeout Q s.
Proof.
  intros HQ. unfold enable_handshake_timeout. apply wp_bind, wp_gets, wp_on_event.
  eapply HQ; [|done]. eapply did_after; [apply did_tick|apply did_conn].
Qed.

(** What [request_connection] does: nothing without a peer; else the channels are
    attached, the channel layer starts anew, one request is sent, and the
    connection waits for the response. *)
Record opens (s s1 s' : sys) (pk : RastaPacket) : Prop := {
  op_dialled : dialled 0 (length (transport_channels (chan s))) (restarted s) s1;
  op_sent : did s1 s' [pk];
  op_packet : exists ts, is_u32 ts /\ built (channel_context s) RASTA_TYPE_CONNREQ
    (mkIds (remote_id (conn s)) (my_id (conn s)) (initial_sequence_number (config s)) 0 ts 0)
    (connection_data (send_max (sending (config s))) RASTA_VERSION) pk;
  op_conn : exists ts t, is_u32 ts /\ conn s' = requested (config s) ts t (conn s);
  op_ok : endpoint_ok s'
}.

Lemma wp_request_connection Q s : endpoint_ok (as_server s) ->
  (forall s', upheld s s' -> endpoint_ok (as_server s') -> (endpoint_ok s -> endpoint_ok s') -> Q false s') ->
  (forall s1 s' pk, opens s s1 s' pk -> Q true s') ->
  wp request_connection Q s.
Proof.
  intros E Hno Hyes. pose proof (ep_base _ E) as B. unfold request_connection.
  apply wp_bind, wp_gets. unfold Datatypes.id. cbv zeta. case_if; [by apply wp_ret, Hno|].
  assert (W : well_numbered s) by (split; apply B).
  apply wp_bind. eapply wp_mono; [apply connect_lands; [apply B|done]|]. intros r s1 D.
  pose proof (upheld_dialled _ _ _ _ D) as U. pose proof (upheld_server _ _ U) as US.
  assert (Eq : defer_q (chan s1) = deferqueue_clear (defer_q (chan s))) by (by rewrite (nf_chan _ _ (di_net _ _ _ _ D))).
  assert (Ei : inbox (env s1) = inbox (env s)) by apply (di_net _ _ _ _ D).
  assert (E1 : endpoint_ok (as_server s1)) by (by eapply endpoint_emptied).
  case_if. { apply wp_ret, Hno; [done..|]. intros Es. by eapply endpoint_emptied. }
  unfold next_sn, set_state, setc. do 2 (apply wp_bind, wp_modify). apply wp_bind, wp_now. intros ts s2 Hts D2 C2.
  apply wp_bind, wp_modify. set (s2' := s2 <| conn ::= _ |>).
  set (c1 := (sr_init_connection RASTA_ROLE_CLIENT (conn s)) <| sn_t := initial_sequence_number (config s) |> <| cs_t := 0 |>
    <| cts_r := ts |> <| t_i := t_max (sending (config s)) |>).
  assert (E2 : conn s2' = c1) by (unfold s2', c1; fields; rewrite C2; fields; by rewrite (up_conn _ _ U)).
  assert (D2' : did s2 s2' []) by apply did_conn. clearbody s2'.
  apply wp_bind, wp_gets, wp_bind, wp_now. intros ts' s3 Hts' D3 C3. rewrite E2 in C3. rewrite E2.
  assert (D13 : did s1 s3 []).
  { eapply did_after; [|eapply did_after; [exact D2|eapply did_after; [exact D2'|exact D3]]].
    eapply did_after; [apply did_conn|apply did_conn]. }
  pose proof (did_frame _ _ _ D13) as F13.
  assert (S1 : link_ok s1) by (by destruct (ok_link _ (bo_sr _ _ (ep_base _ E1)))).
  assert (A1 : forall r, role_ok s1 r).
  { intros r' _ i Hi. apply (di_new _ _ _ _ D). rewrite (upheld_length _ _ U) in Hi. lia. }
  apply wp_bind, wp_gets. rewrite (did_context _ _ _ D13), (up_context _ _ U).
  destruct (createConnectionRequest_built (channel_context s) (remote_id (conn s)) (my_id (conn s))
    (initial_sequence_number (config s)) ts' (send_max (sending (config s)))) as (pk & Epk & Hb).
  apply wp_bind, wp_lift. exists pk. split; [exact Epk|]. apply wp_bind, wp_modify.
  set (s4 := s3 <| conn ::= _ |>). assert (D14 : did s1 s4 []) by (eapply did_then; [exact D13|apply did_conn]).
  pose proof (did_frame _ _ _ D14) as F14. apply wp_bind, wp_mux_send.
  - by eapply link_ok_frame.
  - by eapply role_ok_frame.
  - apply (sendable_frame _ _ _ F14). rewrite <- (up_context _ _ U) in Hb.
    eapply built_sendable; [exact S1|exact Hb| |split; zle|apply connection_data_bytes| |by intros [?|?]].
    + destruct (ok_conn _ (bo_sr _ _ B)), (ok_config _ (bo_sr _ _ B)). split; done.
    + unfold connection_data. by rewrite !zlen_app, zlen_le_enc.
  - intros s5 D5 C5. do 2 (apply wp_bind, wp_modify). apply wp_bind, wp_enable_handshake. intros t s6 D6 C6. apply wp_ret.
    assert (D16 : did s1 s6 [pk]).
    { eapply did_after; [exact D14|]. eapply did_then; [exact D5|]. eapply did_after; [apply did_conn|].
      eapply did_after; [apply did_conn|exact D6]. }
    assert (E6 : conn s6 = requested (config s) ts t (conn s)).
    { rewrite C6. fields. rewrite C5. unfold s4. fields. rewrite C3. unfold c1, requested, sr_init_connection, sr_reset_connection.
      conn_eq. }
    apply (Hyes s1 s6 pk). split; [done|done|by exists ts'|by exists ts, t|].
    assert (R1 : endpoint_ok s1).
    { apply (endpoint_attached s1 E1). intros i Hi. by apply (A1 RASTA_ROLE_CLIENT). }
    pose proof (did_frame _ _ _ D16) as F16. eapply endpoint_lower; [exact R1|exact F16|].
    eapply sr_ok_frame; [apply R1|exact F16|apply (role_ok_frame _ _ _ F16), A1|].
    rewrite E6, (up_config _ _ U), (up_context _ _ U). apply requested_ok; [done|exact (conn_ok_unrole _ _ _ _ (ok_conn _ (bo_sr _ _ B)))].
Qed.

(** ** Sending *)

(** One message is put into the send queue, unless it is full. *)
Definition queued (m : list Z) (c : rasta_connection) (r : Z) (c' : rasta_connection) : Prop :=
  if queue_full (fifo_send c) then r = -1 /\ c' = c
  else r = 0 /\ exists t, c' = c <| fifo_send ::= fun q => mkQueue (q_max q) (q_items q ++ [m]) |> <| send_event ::= armed t |>.

(** A full queue is flushed by one data packet before. *)
Definition made_room (cfg : rasta_config_info) (ctx : rasta_hashing_context_t) (c c1 : rasta_connection)
    (out : list RastaPacket) : Prop :=
  if queue_full (fifo_send c) then flushed cfg ctx c c1 out else out = [] /\ c1 = c.

Lemma queued_ok cfg ctx m c c' : conn_ok cfg ctx c -> msg_fits cfg m -> queued m c 0 c' -> conn_ok cfg ctx c'.
Proof.
  intros O Hm. unfold queued. destruct (queue_full (fifo_send c)) eqn:Ef; [by intros [? _]|]. intros (_ & t & ->).
  assert (Hq : queue_ok (mkQueue (q_max (fifo_send c)) (q_items (fifo_send c) ++ [m]))).
  { pose proof (co_send_queue _ _ _ O) as Hq. apply queue_ok_app; [done|]. unfold queue_full in Ef. zbool. destruct Hq. lia. }
  destruct O. split; fields; try done. apply Forall_app. by split; [|constructor].
Qed.

Lemma wp_queue_message m rest Q s : sr_ok s -> msg_fits (config s) m ->
  (forall s' out c1, did s s' out -> sr_ok s' -> role (conn s') = role (conn s) ->
     made_room (config s) (channel_context s) (conn s) c1 out -> queued m c1 (-1) (conn s') -> Q (-1) s') ->
  (forall s' out c1, did s s' out -> sr_ok s' -> role (conn s') = role (conn s) ->
     made_room (config s) (channel_context s) (conn s) c1 out -> queued m c1 0 (conn s') -> wp (queue_messages rest) Q s') ->
  wp (queue_messages (m :: rest)) Q s.
Proof.
  intros S Hm Hfull Hgo. cbn [queue_messages]. apply wp_bind, wp_gets, wp_bind.
  apply (wp_mono _ (fun _ s1 => exists out, did s s1 out /\ sr_ok s1 /\ role (conn s1) = role (conn s) /\
    made_room (config s) (channel_context s) (conn s) (conn s1) out)).
  { unfold when, made_room. destruct (queue_full (fifo_send (conn s))).
    - apply wp_bind. eapply wp_mono; [by apply data_send_sr|]. intros r s1 (_ & out & D & S1 & Fl).
      apply wp_ret. exists out. split_and!; [done..|by eapply session_role, flushed_session|done].
    - apply wp_ret. exists []. split; [apply did_refl|done]. }
  intros [] s1 (out & D1 & S1 & R1 & M1). apply wp_bind, wp_gets. unfold queue_push.
  pose proof (did_frame _ _ _ D1) as F1.
  assert (U1 : forall r c', queued m (conn s1) r c' -> role c' = role (conn s1)).
  { unfold queued. intros r c'. destruct (queue_full (fifo_send (conn s1))); [by intros [_ ->]|by intros (_ & t & ->)]. }
  destruct (queue_full (fifo_send (conn s1))) eqn:Ef; cbn [negb].
  - apply wp_ret. apply (Hfull s1 out (conn s1)); try done. unfold queued. by rewrite Ef.
  - apply wp_bind, wp_modify, wp_bind, wp_enable_send. intros t s2 D2 C2.
    assert (Hq : queued m (conn s1) 0 (conn s2)).
    { unfold queued. rewrite Ef. split; [done|]. exists t. rewrite C2. fields. by conn_eq. }
    assert (D : did s s2 out) by (eapply did_then; [exact D1|]; eapply did_after; [apply did_conn|exact D2]).
    assert (R2 : role (conn s2) = role (conn s)) by (by rewrite (U1 _ _ Hq)).
    apply (Hgo s2 out (conn s1)); [done| |done|done|done]. eapply did_sr; [exact S|exact D|done|].
    eapply queued_ok; [|exact Hm|exact Hq]. rewrite <- (lf_config _ _ F1), <- (did_context _ _ _ D1). apply S1.
Qed.

Lemma queue_messages_kept msgs : forall s0 s, endpoint_ok s0 -> ok_from s0 s -> Forall (msg_fits (config s0)) msgs ->
  wp (queue_messages msgs) (fun _ => ok_from s0) s.
Proof.
  induction msgs as [|m msgs IH]; intros s0 s E O Hm; [by apply wp_ret|].
  apply Forall_cons in Hm as [Hm Hms]. apply wp_queue_message.
  - apply O.
  - by rewrite (lf_config _ _ (sk_frame _ _ (proj1 O))).
  - intros s' out c1 D S' _ _ _. by eapply ok_from_did.
  - intros s' out c1 D S' _ _ _. apply IH; [done|by eapply ok_from_did|done].
Qed.

Lemma ok_from_kept s s' : endpoint_ok s -> ok_from s s' -> kept s s'.
Proof. intros E [F S]. by apply kept_lower. Qed.

Lemma set_state_kept s0 s st : ok_from s0 s -> wp (set_state st) (fun _ => ok_from s0) s.
Proof. intros O. eapply wp_setc; [exact O|apply set_state_safe|]. by intros. Qed.

Lemma send_kept s msgs : endpoint_ok s -> Forall (msg_fits (config s)) msgs -> wp (sr_send msgs) (fun _ => kept s) s.
Proof.
  intros E Hm. pose proof (ok_from_refl _ (bo_sr _ _ (ep_base _ E))) as O.
  apply (wp_mono _ (fun _ => ok_from s)); [|intros r s'; by apply ok_from_kept].
  unfold sr_send. apply wp_bind, wp_gets. unfold Datatypes.id.
  assert (Hother : wp (_ ← sendDisconnectionRequest RASTA_DISC_REASON_SERVICENOTALLOWED 0;
    _ ← set_state RASTA_CONNECTION_CLOSED; mret (-1)) (fun _ : Z => ok_from s) s).
  { apply wp_bind, wp_discreq; [apply O|apply le_enc_bytes|]. intros ts pk s1 _ D C _.
    assert (O1 : ok_from s s1).
    { eapply ok_from_did; [exact O|exact D|]. eapply (sr_ok_update _ _ _ (fun c => c)); [apply O|exact D|done|apply id_safe]. }
    apply wp_bind. eapply wp_mono; [by apply set_state_kept|]. intros [] s2 O2. by apply wp_ret. }
  destruct (current_state (conn s)); try exact Hother.
  - apply wp_bind. eapply wp_mono; [by apply set_state_kept|]. intros [] s2 O2. by apply wp_ret.
  - apply wp_bind. eapply wp_mono; [by apply set_state_kept|]. intros [] s2 O2. by apply wp_ret.
  - case_if; [by apply wp_ret|]. by apply queue_messages_kept.
Qed.

Lemma disconnect_kept s : endpoint_ok s -> wp sr_disconnect (fun _ => kept s) s.
Proof.
  intros E. pose proof (ok_from_refl _ (bo_sr _ _ (ep_base _ E))) as O.
  unfold sr_disconnect. apply wp_bind. eapply st_close; [exact O|]. intros s1 O1 _.
  apply wp_bind. eapply wp_setc; [exact O1|safe_update|]. intros s2 O2 _ _.
  eapply wp_setc; [exact O2|safe_update|]. intros s3 O3 _ _. by apply ok_from_kept.
Qed.

(** ** Everything that runs the event loop *)

Lemma kept_emptied s s' : upheld s s' -> endpoint_ok s ->
  defer_q (chan s') = deferqueue_clear (defer_q (chan s)) -> inbox (env s') = inbox (env s) -> kept s s'.
Proof.
  intros U E Eq Ei. split; [by eapply endpoint_emptied|by apply upheld_length|by apply upheld_socket_count|apply U..|].
  apply said_quiet, U.
Qed.

Lemma kept_restarted s : endpoint_ok s -> kept s (restarted s).
Proof. intros E. by apply kept_emptied. Qed.

Lemma opens_kept s s1 s' pk : endpoint_ok (as_server s) -> opens s s1 s' pk -> kept s s'.
Proof.
  intros E [D S _ _ E']. pose proof (upheld_dialled _ _ _ _ D) as U. pose proof (did_frame _ _ _ S) as F.
  split.
  - done.
  - by rewrite (lf_length _ _ F), (upheld_length _ _ U).
  - by rewrite (lower_socket_count _ _ F), (upheld_socket_count _ _ U).
  - by rewrite (lf_config _ _ F), (up_config _ _ U).
  - by rewrite (did_context _ _ _ S), (up_context _ _ U).
  - eapply (said_trans _ s1); [apply U|apply U|apply said_quiet, U|].
    apply sk_trace. by eapply sent_spoke, did_sent.
Qed.

Lemma runs_mono {A} (m : M sys A) (Q Q' : A -> sys -> Prop) s : runs m Q s -> (forall a s', Q a s' -> Q' a s') -> runs m Q' s.
Proof. unfold runs. destruct (m s) as [[??]|]; naive_solver. Qed.
Lemma runs_seq {A B} (m : M sys A) (k : A -> M sys B) R Q s :
  runs m R s -> (forall a s', R a s' -> runs (k a) Q s') -> runs (m ≫= k) Q s.
Proof. unfold runs, mbind, M_bind. destruct (m s) as [[a s']|]; naive_solver. Qed.

Lemma setc_kept s f : endpoint_ok s -> safe_update f -> wp (setc f) (fun _ => kept s) s.
Proof.
  intros E Hf. eapply wp_setc; [apply ok_from_refl, E|done|]. intros s' O _ _. by apply ok_from_kept.
Qed.

Lemma loop_kept fuel s0 s : config s0 = app_cfg -> kept s0 s -> runs (event_system_start fuel) (fun _ => kept s0) s.
Proof.
  intros Ec K. eapply runs_mono; [apply event_system_kept; [apply K|by rewrite (kp_config _ _ K)]|]. intros [] s' K'. by eapply kept_trans.
Qed.

Lemma accept_kept fuel s : endpoint_ok s -> config s = app_cfg -> runs (rasta_accept fuel) (fun _ => kept s) s.
Proof.
  intros E Ec. unfold rasta_accept. apply runs_bind, wp_modify. fold (restarted s).
  eapply runs_seq; [apply loop_kept; [done|by apply kept_restarted]|]. intros [] s1 K1.
  apply runs_bind, wp_gets. case_if; [|by apply runs_wp, wp_ret].
  apply runs_bind. eapply wp_mono; [apply setc_kept; [apply K1|safe_update]|]. intros [] s2 K2.
  apply runs_wp, wp_ret. by eapply kept_trans.
Qed.

Lemma outcome_kept s : endpoint_ok s -> wp connection_outcome (fun _ => kept s) s.
Proof.
  intros E. unfold connection_outcome. pose proof (ok_from_refl _ (bo_sr _ _ (ep_base _ E))) as O.
  apply wp_bind. eapply wp_setc; [exact O|safe_update|]. intros s1 O1 _ _.
  apply wp_bind, wp_gets. case_if; [by apply wp_ret, ok_from_kept|].
  apply wp_bind, wp_channel_close; [apply O1|]. intros s2 D2 _ S2. apply wp_ret, ok_from_kept; [done|].
  by eapply ok_from_sent.
Qed.

Lemma connect_kept fuel s : endpoint_ok s -> endpoint_ok (as_server s) -> config s = app_cfg -> runs (rasta_connect fuel) (fun _ => kept s) s.
Proof.
  intros E ES Ec. unfold rasta_connect, sr_connect.
  eapply (runs_seq _ _ (fun r s1 => kept s s1)).
  - apply runs_wp, wp_request_connection; [done| |].
    + intros s' U _ Hok. split; [by apply Hok|by apply upheld_length|by apply upheld_socket_count|apply U..|].
      apply said_quiet, U.
    + intros s1 s' pk Op. by eapply opens_kept.
  - intros r s1 K1. destruct r; [|by apply runs_wp, wp_ret].
    eapply runs_seq; [by apply loop_kept|]. intros [] s2 K2.
    apply runs_wp. eapply wp_mono; [apply outcome_kept, K2|]. intros r s3 K3. by eapply kept_trans.
Qed.

Lemma await_kept fuel rounds : forall s0 s, config s0 = app_cfg -> kept s0 s -> runs (await_message rounds fuel) (fun _ s' => kept s0 s' /\
  (current_state (conn s') = RASTA_CONNECTION_UP -> sr_recv_queue_item_count (conn s') <> 0)) s.
Proof.
  induction rounds as [|rounds IH]; intros s0 s Ec K; cbn [await_message]; apply runs_bind, wp_gets; case_if; zbool.
  - done.
  - apply runs_wp, wp_ret. split; [done|]. intros Hst Hn. rewrite Hst, Hn in Heqb. by rewrite bool_decide_eq_true_2 in Heqb.
  - eapply runs_seq; [by apply loop_kept|]. intros [] s' K'. by apply IH.
  - apply runs_wp, wp_ret. split; [done|]. intros Hst Hn. rewrite Hst, Hn in Heqb. by rewrite bool_decide_eq_true_2 in Heqb.
Qed.

Lemma recv_kept rounds fuel len s : endpoint_ok s -> config s = app_cfg -> runs (rasta_recv rounds fuel len) (fun _ => kept s) s.
Proof.
  intros E Ec. unfold rasta_recv. eapply runs_seq; [by apply await_kept, kept_refl, E|]. intros [] s1 [K1 Hn].
  apply runs_bind, wp_gets. case_if; zbool; [by apply runs_wp, wp_ret|]. apply bool_decide_eq_true in Heqb.
  specialize (Hn Heqb). unfold sr_recv_queue_item_count, queue_size in Hn. unfold queue_pop.
  destruct (q_items (fifo_receive (conn s1))) as [|m q] eqn:Eq; [done|].
  apply runs_wp, wp_bind, wp_modify, wp_ret. eapply kept_trans; [exact K1|]. apply ok_from_kept; [apply K1|].
  set (s2 := s1 <| conn ::= _ |>).
  assert (D : did s1 s2 []) by apply did_conn. eapply ok_from_did; [apply ok_from_refl, K1|exact D|].
  eapply did_sr; [apply K1|exact D|done|]. destruct (ok_conn _ (bo_sr _ _ (ep_base _ (kp_ok _ _ K1)))).
  split; unfold s2; fields; try done. apply (queue_ok_sub (fifo_receive (conn s1)) q); [done|]. rewrite Eq. cbn. lia.
Qed.

(** *** Cancelling *)

(** No timer is enabled, as before a connection. *)
Definition unarmed (c : rasta_connection) : Prop := Forall (fun e => enabled (snd e) = false) (timed_events c).

Lemma unarmed_no_timer c cur : unarmed c -> calc_next_timed_event (timed_events c) cur = (UINT64_MAX, None).
Proof.
  intros I. unfold unarmed in I. pose proof (next_event_spec (timed_events c) cur) as S.
  destruct (calc_next_timed_event (timed_events c) cur) as [w [t|]]; cbn in S.
  - destruct S as [(e & Hin & He & _) _]. rewrite Forall_forall in I. apply I in Hin. cbn in Hin. congruence.
  - by destruct S as [-> _].
Qed.

Lemma nfds_bound l : Forall (fun e => fd e < FD_SETSIZE - 1) l -> get_max_nfds l < FD_SETSIZE.
Proof.
  unfold get_max_nfds. assert (forall n, n < FD_SETSIZE - 1 -> Forall (fun e => fd e < FD_SETSIZE - 1) l ->
    foldl (fun nfds current => if nfds <? fd current then fd current else nfds) n l < FD_SETSIZE - 1) as H'.
  { induction l as [|e l IH]; intros n Hn Hl; [done|]. apply Forall_cons in Hl as [He Hl]. cbn. apply IH; [by case_if|done]. }
  intros Hl. specialize (H' 0 ltac:(done) Hl). lia.
Qed.

Lemma events_like s s' : receive_event <$> transport_channels (chan s') = receive_event <$> transport_channels (chan s) ->
  mux s' = mux s -> omap (source_event s') (fd_events s') = omap (source_event s) (fd_events s).
Proof.
  intros Hc Hm. pose proof (f_equal length Hc) as Hl. rewrite !length_fmap in Hl. unfold fd_events. rewrite Hm, Hl.
  apply list_omap_ext, Forall_Forall2_diag, Forall_forall. intros src _.
  destruct src as [k|k|i|n]; cbn [source_event]; rewrite ?Hm; try done. by rewrite <- !list_lookup_fmap, Hc.
Qed.

(** A user event that is readable and whose callback ends the loop. *)
Lemma dispatch_stops n e callback readable : user_events !! n = Some (e, callback) -> fd_enabled e = true -> readable (fd e) = true ->
  (forall s, endpoint_ok s -> wp callback (fun r s' => r <> 0 /\ kept s s') s) ->
  forall events s, endpoint_ok s -> config s = app_cfg -> Forall (source_ok s) (events ++ [FdUser n]) ->
  wp (dispatch_fds (events ++ [FdUser n]) readable) (fun stop s' => stop = true /\ kept s s') s.
Proof.
  intros Hn He Hr Hc. induction events as [|src events IH]; intros s E Ec F; cbn [app dispatch_fds]; apply wp_bind, wp_gets; unfold Datatypes.id.
  - cbn [source_event]. rewrite Hn. cbn [fmap option_fmap option_map fst]. rewrite He, Hr. apply wp_bind, wp_bind. cbn [fd_callback].
    rewrite Hn. eapply wp_mono; [by apply Hc|]. intros r s1 [R K]. apply wp_ret. apply Z.eqb_neq in R. rewrite R. by apply wp_ret.
  - apply Forall_cons in F as [Fs F]. destruct (source_event_some s src Fs) as [e' He']. rewrite He'. apply wp_bind.
    apply (wp_mono _ (fun _ => kept s)).
    { case_if; [|by apply wp_ret, kept_refl]. apply wp_bind. eapply wp_mono; [by apply fd_callback_kept|]. by intros. }
    intros stop s1 K1. destruct stop; [by apply wp_ret|]. eapply wp_mono; [apply IH; [apply K1|by rewrite (kp_config _ _ K1)|]|].
    + eapply Forall_impl; [exact F|]. intros x. by apply source_ok_kept.
    + intros stop s2 [-> K2]. split; [done|]. exact (kept_trans _ _ _ K1 K2).
Qed.

Lemma syscall_kept c s : endpoint_ok s -> wp (syscall_now c) (fun _ => kept s) s.
Proof. intros E. unfold syscall_now. by apply called_kept. Qed.

Lemma terminator_kept s : endpoint_ok s -> wp terminator_callback (fun _ => kept s) s.
Proof.
  intros E. unfold terminator_callback. apply wp_bind. eapply wp_mono; [by apply syscall_kept|]. intros ? s1 K1.
  apply wp_bind. eapply wp_mono; [apply syscall_kept, K1|]. intros ? s2 K2. apply wp_ret. exact (kept_trans _ _ _ K1 K2).
Qed.

#[export] Instance with_terminator_ok cancellation : ApplicationOk (with_terminator cancellation App) app_cfg.
Proof.
  intros e callback Hin s E Ec. unfold user_events, with_terminator in Hin. apply elem_of_app in Hin as [Hin|Hin].
  - by apply (AppOk e).
  - apply list_elem_of_singleton in Hin as [= -> ->]. by apply terminator_kept.
Qed.
End Service.

Section Cancel.
Context `{TransportOk} {App : Application} {app_cfg : rasta_config_info} {AppOk : ApplicationOk App app_cfg}.

Lemma accept_with_cancel_kept cancellation fuel s : endpoint_ok s -> config s = app_cfg ->
  runs (rasta_accept_with_cancel cancellation fuel) (fun _ => kept s) s.
Proof.
  intros E Ec. unfold rasta_accept_with_cancel. eapply runs_seq; [by apply accept_kept|]. intros r s1 K1.
  apply runs_bind. eapply wp_mono; [apply syscall_kept, K1|]. intros ? s2 K2. apply runs_wp, wp_ret. exact (kept_trans _ _ _ K1 K2).
Qed.

Lemma terminator_stops s : endpoint_ok s -> wp terminator_callback (fun r s' => r <> 0 /\ kept s s') s.
Proof.
  intros E. pose proof (terminator_kept s E) as K. unfold terminator_callback in *. unfold wp, mbind, M_bind in *. cbn in *. by split.
Qed.

(** What [select] must do for the terminator to be called. *)
Record cancelled (cancellation : rasta_cancellation) (s : sys) : Prop := {
  ca_fds : Forall (fun e => fd e < FD_SETSIZE - 1)
    (omap (source_event (App := with_terminator cancellation App) s) (fd_events (App := with_terminator cancellation App) s));
  ca_select : 0 < outcome (env s) (calls (env s)) SysSelect;
  ca_ready : ready (env s) (calls (env s)) (read_end cancellation) = true
}.

Lemma sleep_cancelled cancellation t s : endpoint_ok s -> config s = app_cfg -> cancelled cancellation s ->
  wp (event_system_sleep (App := with_terminator cancellation App) t) (fun r s' => r = -1 /\ kept s s') s.
Proof.
  intros E Ec [F S R]. unfold event_system_sleep. apply wp_bind, wp_gets. unfold Datatypes.id. cbv zeta.
  apply nfds_bound in F. ztest (FD_SETSIZE <=? get_max_nfds (omap (source_event (App := with_terminator cancellation App) s)
    (fd_events (App := with_terminator cancellation App) s))). apply wp_bind, wp_syscall. fold (called s).
  ztest (outcome (env s) (calls (env s)) SysSelect =? -1). set (n := length (user_events (Application := App))).
  assert (Hn : user_events (Application := with_terminator cancellation App) !! n = Some (mkFdEvent (read_end cancellation) 1 true, terminator_callback)).
  { unfold user_events, with_terminator. rewrite lookup_app_r by done. by rewrite Nat.sub_diag. }
  assert (exists pre, fd_events (App := with_terminator cancellation App) s = pre ++ [FdUser n]) as [pre Hf].
  { unfold fd_events. assert (L : length (user_events (Application := with_terminator cancellation App)) = (n + 1)%nat).
    { unfold user_events, with_terminator. by rewrite length_app. }
    rewrite L.
    rewrite seq_app, fmap_app. cbn [seq fmap list_fmap Nat.add]. rewrite !app_assoc. by eexists. }
  pose proof (called_kept s E) as K. apply wp_bind. rewrite Hf.
  eapply wp_mono; [eapply (dispatch_stops (App := with_terminator cancellation App) n); [exact Hn|done| |exact terminator_stops|apply K|done|]|].
  - cbn [fd]. rewrite R. ztests. rewrite andb_true_r. unfold EventLoop.requested. rewrite Hf, existsb_app. apply orb_true_intro. right.
    cbn [existsb source_event]. rewrite Hn. cbn. by rewrite Z.eqb_refl.
  - rewrite <- Hf. eapply Forall_impl; [apply (fd_events_ok (App := with_terminator cancellation App))|]. intros x. by apply source_ok_kept.
  - intros stop s' [-> K']. apply wp_ret. split; [done|]. exact (kept_trans _ _ _ K K').
Qed.

(** What the readings of the clock and the restarted timers do not touch. *)
Record waits_like (s s' : sys) : Prop := {
  wl_kept : kept s s';
  wl_channels : receive_event <$> transport_channels (chan s') = receive_event <$> transport_channels (chan s);
  wl_mux : mux s' = mux s;
  wl_calls : calls (env s') = calls (env s);
  wl_outcome : outcome (env s') = outcome (env s);
  wl_ready : ready (env s') = ready (env s);
  wl_unarmed : unarmed (conn s) -> unarmed (conn s')
}.

Lemma waits_trans s1 s2 s3 : waits_like s1 s2 -> waits_like s2 s3 -> waits_like s1 s3.
Proof. intros [] []. split; [by eapply kept_trans|congruence..|auto]. Qed.

Lemma waits_cancelled cancellation s s' : waits_like s s' -> cancelled cancellation s -> cancelled cancellation s'.
Proof.
  intros [_ Hc Hm E1 E2 E3 _] [F S R]. split; [|by rewrite E1, E2|by rewrite E1, E3]. by rewrite (events_like s s').
Qed.

Lemma waits_clock s : endpoint_ok s -> wp (on_world get_nanotime) (fun _ => waits_like s) s.
Proof.
  intros E. pose proof (clock_kept s E) as K. unfold wp, on_world in *. destruct (get_nanotime (env s)) as [ns w] eqn:G.
  injection G as _ <-. by split.
Qed.

Lemma waits_restart s cur : endpoint_ok s ->
  wp (setc (fun c => foldr (fun t c => set_timer t (fun e => e <| last_call := cur |>) c) c timers)) (fun _ => waits_like s) s.
Proof.
  intros E. assert (K : wp (setc (fun c => foldr (fun t c => set_timer t (fun e => e <| last_call := cur |>) c) c timers)) (fun _ => kept s) s).
  { eapply wp_setc; [apply ok_from_refl, E|unfold timers; cbn [foldr set_timer]; safe_update|]. intros s2 [F2 S2] _ _. by apply kept_lower. }
  unfold wp, setc, modify in *. split; [exact K|done..|]. unfold unarmed, timed_events, timers. cbn. rewrite !Forall_cons. tauto.
Qed.

(** ** The primitives as operations *)

Lemma endpoint_server s : endpoint_ok s -> endpoint_ok (as_server s).
Proof.
  intros [[[L R C O] X I K N] D A]. split; [|exact D|exact A]. split; [|done..].
  split; [by destruct L|done|exact C|]. destruct O. split; done.
Qed.

(** What an application may ask of an endpoint that has been connected or has
    accepted a connection before. *)
Inductive operation :=
| Accept (fuel : nat)
| AcceptWithCancel (cancellation : rasta_cancellation) (fuel : nat)
| Connect (fuel : nat)
| Send (message : list Z)
| Receive (rounds fuel : nat) (len : Z)
| Disconnect.

Definition perform (op : operation) : M sys unit :=
  match op with
  | Accept fuel => _ ← rasta_accept fuel; mret tt
  | AcceptWithCancel cancellation fuel => _ ← rasta_accept_with_cancel cancellation fuel; mret tt
  | Connect fuel => _ ← rasta_connect fuel; mret tt
  | Send message => _ ← rasta_send message; mret tt
  | Receive rounds fuel len => _ ← rasta_recv rounds fuel len; mret tt
  | Disconnect => rasta_disconnect
  end.

(** A message must leave room for the packet around it. *)
Definition allowed (cfg : rasta_config_info) (op : operation) : Prop :=
  match op with Send message => msg_fits cfg message | _ => True end.

Lemma perform_kept op s : endpoint_ok s -> config s = app_cfg -> allowed (config s) op -> runs (perform op) (fun _ => kept s) s.
Proof.
  intros E Ec Ha. destruct op; cbn [perform].
  - eapply runs_seq; [by apply accept_kept|]. intros. by apply runs_wp, wp_ret.
  - eapply runs_seq; [by apply accept_with_cancel_kept|]. intros. by apply runs_wp, wp_ret.
  - eapply runs_seq; [apply connect_kept; [done|by apply endpoint_server|done]|]. intros. by apply runs_wp, wp_ret.
  - apply runs_wp, wp_bind. eapply wp_mono; [apply send_kept; [done|by constructor]|]. intros. by apply wp_ret.
  - eapply runs_seq; [by apply recv_kept|]. intros. by apply runs_wp, wp_ret.
  - apply runs_wp. by apply disconnect_kept.
Qed.

(** ** Properties *)

(** C19. Cancelling an accept: while no timer is enabled, an endpoint that waits
    for a connection and whose pipe has become readable stops in the first round
    of the event loop, whatever the handlers before it do: the accept returns,
    and the endpoint is as good as before. *)
Theorem accept_cancelled cancellation s : endpoint_ok s -> config s = app_cfg -> unarmed (conn s) -> cancelled cancellation s ->
  exists r s', rasta_accept_with_cancel cancellation 1 s = Ok (r, s') /\ endpoint_ok s' /\ config s' = config s.
Proof.
  intros E Ec I C. assert (wp (rasta_accept_with_cancel cancellation 1) (fun _ => kept s) s) as W.
  2:{ apply wp_ok in W as (r & s' & E' & K). exists r, s'. split; [done|]. by destruct K. }
  unfold rasta_accept_with_cancel, rasta_accept. apply wp_bind, wp_bind, wp_modify. fold (restarted s).
  pose proof (kept_restarted s E) as K0. unfold event_system_start. apply wp_bind, wp_bind.
  set (s0 := restarted s) in *. assert (cancelled cancellation s0 /\ unarmed (conn s0)) as [C0 I0] by (split; [by destruct C|done]).
  eapply wp_mono; [apply waits_clock, K0|]. intros cur s1 W1. cbv zeta. apply wp_bind.
  eapply wp_mono; [apply waits_restart, W1|]. intros ? s2 W2. pose proof (waits_trans _ _ _ W1 W2) as W02.
  cbn [event_loop]. apply wp_bind. eapply wp_mono; [apply waits_clock, W2|]. intros cur' s3 W3.
  pose proof (waits_trans _ _ _ W02 W3) as W03. apply wp_bind, wp_gets. rewrite (unarmed_no_timer _ _ (wl_unarmed _ _ W03 I0)).
  rewrite Z.eqb_refl. apply wp_bind. eapply wp_mono; [apply sleep_cancelled; [apply W3| |by eapply waits_cancelled]|].
  { by rewrite (kp_config _ _ (wl_kept _ _ W03)), (kp_config _ _ K0). }
  intros r s4 [-> K4]. cbn [Z.eqb Pos.eqb]. apply wp_ret. pose proof (kept_trans _ _ _ (kept_trans _ _ _ K0 (wl_kept _ _ W03)) K4) as K5.
  apply (wp_mono _ (fun _ => kept s)).
  { apply wp_bind, wp_gets. case_if; [|by apply wp_ret]. apply wp_bind.
    eapply wp_mono; [apply setc_kept; [apply K5|safe_update]|]. intros [] s5 K6. apply wp_ret. exact (kept_trans _ _ _ K5 K6). }
  intros r s5 K6. apply wp_bind. eapply wp_mono; [apply syscall_kept, K6|]. intros ? s6 K7. apply wp_ret. exact (kept_trans _ _ _ K6 K7).
Qed.



(** C18. Sending a message on an open connection: a full send queue is first
    flushed by at most one data packet; then the message is appended to the
    queue and the send timer armed, or -1 is returned and the message is not
    queued because the queue is still full.  No message that was queued before
    is lost. *)
Theorem rasta_send_spec m s : endpoint_ok s -> current_state (conn s) = RASTA_CONNECTION_UP ->
  1 <= max_packet (sending (config s)) -> msg_fits (config s) m ->
  exists r s' out c1, rasta_send m s = Ok (r, s') /\ sent s s' out /\
    made_room (config s) (channel_context s) (conn s) c1 out /\ queued m c1 r (conn s') /\ endpoint_ok s'.
Proof.
  intros E Hst Hmax Hm. assert (L : wp (rasta_send m) (fun r s' => exists out c1, sent s s' out /\
    made_room (config s) (channel_context s) (conn s) c1 out /\ queued m c1 r (conn s') /\ endpoint_ok s') s).
  { unfold rasta_send, sr_send. apply wp_bind, wp_gets. unfold Datatypes.id. rewrite Hst. change (zlen [m]) with 1.
    ztests. apply wp_queue_message; [apply E|done| |].
    - intros s' out c1 D S' _ Hr Hq. exists out, c1. split; [apply D|]. split; [done|]. split; [done|].
      eapply endpoint_lower; [done|by eapply did_frame|done].
    - intros s' out c1 D S' _ Hr Hq. apply wp_ret. exists out, c1. split; [apply D|]. split; [done|]. split; [done|].
      eapply endpoint_lower; [done|by eapply did_frame|done]. }
  apply wp_ok in L as (r & s' & E' & out & c1 & L). by exists r, s', out, c1.
Qed.
End Cancel.

(** With SipHash configured, the key of the safety code has 4 bytes, and
    the first safety code that is computed reads beyond it. *)
Theorem siphash_key_short cfg data : sr_hash_algorithm cfg = RASTA_ALGO_SIPHASH_2_4 ->
  md4_type cfg <> RASTA_CHECKSUM_NONE ->
  exists ctx, init_hashing_context cfg = Ok ctx /\ zlen (key ctx) = 4 /\
    rasta_calculate_hash data ctx hash_buffer = Fail OutOfBounds.
Proof.
  intros Ha Ht. unfold init_hashing_context. rewrite Ha. eexists. split; [done|]. split; [done|].
  unfold rasta_calculate_hash, generateSiphash24. cbn [algorithm key hash_length setf]. 
  destruct (md4_type cfg); [done| |]; cbn; done.
Qed.

(** ** Witnesses *)

(** The memory before the set-up: what the structs hold does not matter. *)
Definition demo_blank : sys :=
  mkSys blank_connection (mkRedChannel 0 0 0 (deferqueue_init 0) (deferqueue_init 0) [] demo_redundancy demo_ctx)
    (mkMux [] [] 0 demo_ctx) demo_config RASTA_ERRORS_NONE RASTA_ERRORS_NONE demo_world.

Lemma demo_config_valid : config_valid demo_config.
Proof.
  split; try done; try (split; zle).
Qed.


Definition demo_fresh : sys := demo_up <| conn := initial_connection demo_config |>.

Lemma demo_fresh_ok : endpoint_ok (as_server demo_fresh).
Proof.
  pose proof demo_config_valid as V.
  assert (C : conn_ok demo_config demo_ctx (conn (as_server demo_fresh))) by (by apply initial_conn_ok).
  destruct demo_up_ok as [[Hh Hm He Hc Hn] _ O _].
  split; [|apply demo_defer_ok|constructor]. split; [|done..|constructor].
  split; [by split|done|exact O|exact C].
Qed.


Lemma demo_up_endpoint : endpoint_ok demo_up.
Proof.
  split; [|apply demo_defer_ok|constructor]. split; [exact demo_up_ok|done..|constructor].
Qed.

Lemma rasta_send_spec_witness : let m := [1; 2; 3] in
  msg_fits (config demo_up) m /\
  exists r s' out c1, rasta_send (H := udp) m demo_up = Ok (r, s') /\ sent demo_up s' out /\
    made_room (config demo_up) (channel_context demo_up) (conn demo_up) c1 out /\ queued m c1 r (conn s') /\ endpoint_ok s'.
Proof.
  intros m. assert (Hm : msg_fits (config demo_up) m).
  { split; [repeat constructor; unfold is_u8; lia|]. vm_compute. discriminate. }
  assert (H1 : 1 <= max_packet (sending (config demo_up))) by (vm_compute; discriminate).
  split; [exact Hm|]. exact (rasta_send_spec (H := udp) m demo_up demo_up_endpoint eq_refl H1 Hm).
Defined.

Lemma siphash_key_short_witness :
  let cfg := mkSending 1800 300 RASTA_CHECKSUM_8B 0 0 0 0 10 20 3 5000 0 RASTA_ALGO_SIPHASH_2_4 in
  exists ctx, init_hashing_context cfg = Ok ctx /\ zlen (key ctx) = 4 /\
    rasta_calculate_hash [1; 2; 3] ctx hash_buffer = Fail OutOfBounds.
Proof.
  intros cfg. assert (Ht : md4_type cfg <> RASTA_CHECKSUM_NONE) by (vm_compute; discriminate).
  exact (siphash_key_short cfg [1; 2; 3] eq_refl Ht).
Defined.

(** A server that waits for a connection, and the pipe that ends the wait. *)
Lemma accept_cancelled_witness : let server := as_server demo_fresh in let c := mkCancellation 10 11 in
  unarmed (conn server) /\ cancelled (App := no_events) c server /\
  exists r s', rasta_accept_with_cancel (H := udp) (App := no_events) c 1 server = Ok (r, s') /\ endpoint_ok s' /\ config s' = config server.
Proof.
  intros server c. assert (I : unarmed (conn server)) by (unfold unarmed; repeat constructor).
  assert (C : cancelled (H := udp) (App := no_events) c server) by (split; [repeat constructor|reflexivity..]).
  split; [exact I|]. split; [exact C|]. exact (accept_cancelled (H := udp) (App := no_events) c server demo_fresh_ok eq_refl I C).
Defined.
