(* ===== verification/Peers.v ===== *)
(** * Two endpoints in session

    What a packet of one endpoint does at the other one, exactly: the handshake
    that opens a connection on both sides, and the transfer of messages while
    both are in step. *)

From stdpp Require Import base numbers list.
From Stdlib Require Import ZArith Lia.
From S2P Require Import Prelude.
From S2P Require Import Fifo.
From S2P Require Import Crc.
From S2P Require Import Hashing.
From S2P Require Import Packet.
From S2P Require Import Factory.
From S2P Require Import DeferQueue.
From S2P Require Import World.
From S2P Require Import Config.
From S2P Require Import State.
From S2P Require Import Sample.
From S2P Require Import Transport.
From S2P Require Import Redundancy.
From S2P Require Import Connection.
From S2P Require Import Retransmission.
From S2P Require Import Handlers.
From S2P Require Import Session.
From S2P Require Import Events.
From S2P Require Import EventLoop.
From S2P Require Import Rasta.
From S2P Require Import Service.

Local Open Scope Z_scope.
Local Open Scope record_scope.

(** ** The packets as they arrive *)

(** What a receiver sees of a packet that was built. *)
Record seen (type : Z) (i : packet_ids) (data : list Z) (p : RastaPacket) : Prop := {
  sn_type : p_type p = type;
  sn_receiver : p_receiver_id p = i_receiver i;
  sn_sender : p_sender_id p = i_sender i;
  sn_sn : p_sequence_number p = i_sn i;
  sn_cs : p_confirmed_sequence_number p = i_cs i;
  sn_ts : p_timestamp p = i_ts i;
  sn_cts : p_confirmed_timestamp p = i_cts i;
  sn_data : p_data p = data;
  sn_good : p_checksum_correct p = 1
}.

Lemma built_seen ctx type i data pk : built ctx type i data pk -> seen type i data (received_packet ctx pk).
Proof. intros []. by split. Qed.

Lemma seen_fields type i data p : seen type i data p -> ids_ok i -> packet_fields p.
Proof. intros [] []. split; congruence. Qed.

(** Parsing what was parsed before changes nothing: the redundancy layer parses
    the packet of a frame, serialises it and parses it again. *)
Lemma received_twice ctx pk : received_packet ctx (received_packet ctx pk) = received_packet ctx pk.
Proof. by destruct pk. Qed.

Section Peers.
Context `{TransportOk}.

(** ** The handshake, packet by packet *)

(** The connection of a server after the heartbeat that confirms it. *)
Definition accepted_in (st : rasta_sr_state) (p : RastaPacket) (t1 t2 : Z) (c : rasta_connection) : rasta_connection :=
  (update_connection_attrs p c)
    <| cs_r := p_confirmed_sequence_number p |> <| current_state := st |>
    <| hb_locked := false |> <| send_heartbeat_event ::= armed t1 |> <| timeout_event ::= armed t2 |> <| is_new := true |>.

Lemma conreq_exact p m Q s : endpoint_ok (as_server s) -> packet_fields p -> is_closed (current_state (conn s)) = true ->
  sr_check_packet (opened (config s) (conn s)) (sending (config s)) p = true ->
  is_u16 m -> p_data p = connection_data m RASTA_VERSION ->
  (forall ts pk s', is_u32 ts ->
     built (channel_context s) RASTA_TYPE_CONNRESP (mkIds (remote_id (conn s)) (my_id (conn s))
       (initial_sequence_number (config s)) (p_sequence_number p) ts (p_confirmed_timestamp p))
       (connection_data (send_max (sending (config s))) RASTA_VERSION) pk ->
     did s s' [pk] -> conn s' = answered (config s) p (mkConnectionData m RASTA_VERSION) (opened (config s) (conn s)) ->
     sr_ok s' -> Q tt s') ->
  wp (handle_conreq p) Q s.
Proof.
  intros E Hp Hst Hck Hm Hd HQ. unfold handle_conreq. apply wp_bind, wp_gets. unfold Datatypes.id. rewrite Hst.
  unfold set_state, setc. do 3 (apply wp_bind, wp_modify). set (s3 := s <| conn ::= _ |> <| conn ::= _ |> <| conn ::= _ |>).
  assert (C3 : conn s3 = opened (config s) (conn s)) by done.
  assert (D3 : did s s3 []) by (eapply did_after; [apply did_conn|]; eapply did_after; apply did_conn).
  assert (S3 : sr_ok s3).
  { assert (E3 : s3 = (as_server s) <| conn ::= fun c => opened (config s) c |>) by (unfold s3, as_server, opened, sr_init_connection; by destruct s as [[]]).
    rewrite E3. eapply sr_ok_update; [apply E|apply did_conn|done|].
    destruct (ok_config _ (bo_sr _ _ (ep_base _ E))). intros cfg ctx c []. unfold opened, sr_init_connection, sr_reset_connection.
    split; [split; fields; done|by right]. }
  clearbody s3. pose proof (did_frame _ _ _ D3) as F3. apply wp_bind, wp_gets. rewrite C3, Hck. cbn [negb].
  apply wp_bind. eapply (wp_factory s3); [by apply ok_from_refl|]. intros s4 [_ S4] D4 C4.
  rewrite (extractRastaConnectionData_ok _ p m RASTA_VERSION Hm) by (done || cbn; lia). cbn [fst].
  change (take 4 RASTA_VERSION ++ [0]) with RASTA_VERSION. cbn [cd_version].
  assert (Hv : version_ok (config s) RASTA_VERSION = true) by done. rewrite Hv.
  pose proof (did_after _ _ _ _ D3 D4) as D34. pose proof (did_frame _ _ _ D34) as F4.
  apply wp_accept_connection; [done|done|]. intros ts pk s5 Hts Hb D5 C5 S5.
  rewrite (lf_config _ _ F4), (did_context _ _ _ D34), C4, C3 in Hb. rewrite (lf_config _ _ F4), C4, C3 in C5.
  apply (HQ ts pk s5); [done|exact Hb|by eapply did_after|done|done].
Qed.

Lemma conresp_exact p m Q s : sr_ok s -> packet_fields p -> current_state (conn s) = RASTA_CONNECTION_START ->
  role (conn s) = RASTA_ROLE_CLIENT -> sr_check_packet (conn s) (sending (config s)) p = true ->
  version_accepted (config s) RASTA_VERSION = true -> is_u16 m -> p_data p = connection_data m RASTA_VERSION ->
  (forall ts t1 t2 pk s', is_u32 ts ->
     built (channel_context s) RASTA_TYPE_HB (mkIds (remote_id (conn s)) (my_id (conn s)) (sn_t (conn s))
       (p_sequence_number p) ts (p_timestamp p)) [] pk ->
     did s s' [pk] -> conn s' = established p (mkConnectionData m RASTA_VERSION) t1 t2 (conn s) -> sr_ok s' -> Q tt s') ->
  wp (handle_conresp p) Q s.
Proof.
  intros S Hp Hst Hr Hck Hv Hm Hd HQ. unfold handle_conresp. apply wp_bind, wp_gets. unfold Datatypes.id.
  rewrite Hck, Hst, Hr. cbn [negb].
  apply wp_bind. eapply (wp_factory s); [by apply ok_from_refl|]. intros s1 [_ S1] D1 C1.
  rewrite (extractRastaConnectionData_ok _ p m RASTA_VERSION Hm) by (done || cbn; lia). cbn [fst].
  change (take 4 RASTA_VERSION ++ [0]) with RASTA_VERSION. cbn [cd_version]. rewrite Hv.
  apply wp_complete_connection; [done|done|]. intros ts t1 t2 pk s2 Hts Hb D2 C2 S2.
  rewrite (did_context _ _ _ D1), C1 in Hb. rewrite C1 in C2.
  apply (HQ ts t1 t2 pk s2); [done|exact Hb|by eapply did_after|done|done].
Qed.

Lemma hb_start_exact st p Q s : sr_ok s -> packet_fields p -> role (conn s) = RASTA_ROLE_SERVER ->
  sr_sn_in_seq (conn s) p = true -> sr_cts_in_seq (conn s) (sending (config s)) p = true ->
  (forall t1 t2 s', did s s' [] -> conn s' = accepted_in st p t1 t2 (conn s) -> sr_ok s' -> Q 1 s') ->
  wp (handle_hb_start_in st p) Q s.
Proof.
  intros S Hp Hr Hsn Hcts HQ. unfold handle_hb_start_in. apply wp_bind, wp_gets. rewrite Hsn. cbn [negb when].
  apply wp_bind, wp_ret, wp_bind, wp_gets. rewrite Hr. cbn [bool_decide].
  apply wp_bind, wp_ret, wp_bind, wp_gets. unfold Datatypes.id. rewrite Hcts.
  unfold set_state, setc. do 4 (apply wp_bind, wp_modify).
  set (s1 := s <| conn ::= _ |> <| conn ::= _ |> <| conn ::= _ |> <| conn ::= _ |>).
  assert (D1 : did s s1 []).
  { eapply did_after; [apply did_conn|]; eapply did_after; [apply did_conn|]. eapply did_after; apply did_conn. }
  apply wp_bind, wp_enable_heartbeat. intros t1 s2 D2 C2. apply wp_bind, wp_enable_timeout. intros t2 s3 D3 C3.
  apply wp_bind, wp_modify, wp_ret. set (s4 := s3 <| conn ::= _ |>).
  assert (D : did s s4 []).
  { eapply did_after; [exact D1|]. eapply did_after; [exact D2|]. eapply did_after; [exact D3|apply did_conn]. }
  assert (C : conn s4 = accepted_in st p t1 t2 (conn s)).
  { unfold s4. fields. rewrite C3. fields. rewrite C2. unfold s1. fields.
    unfold accepted_in, update_connection_attrs. by conn_eq. }
  apply (HQ t1 t2 s4); [done|done|]. eapply did_sr; [done|exact D|by rewrite C|]. rewrite C.
  destruct Hp, (ok_conn _ S). unfold accepted_in, update_connection_attrs. split; fields; try done. apply u32_range.
Qed.

(** ** Endpoints in step *)

(** Each side expects the next packet of the other one, and confirms what it has. *)
Record in_step (x y : sys) : Prop := {
  st_ok : sr_ok x;
  st_up : current_state (conn x) = RASTA_CONNECTION_UP;
  st_remote : remote_id (conn x) = my_id (conn y);
  st_my : my_id (conn x) = remote_id (conn y);
  st_next : sn_r (conn x) = sn_t (conn y);
  st_confirms : cs_t (conn x) = sn_t (conn y) - 1;
  st_window : cs_r (conn x) < sn_t (conn x)
}.

(** A packet of the peer that is in the windows passes the checks of [sr_receive]. *)
Lemma seen_accepted cfg ctx type i data p c : seen type i data p -> conn_ok cfg ctx c -> is_u32 (i_sn i) ->
  is_type p [RASTA_TYPE_RETRDATA; RASTA_TYPE_DATA; RASTA_TYPE_RETRREQ; RASTA_TYPE_RETRRESP; RASTA_TYPE_DISCREQ;
             RASTA_TYPE_HB] = true ->
  i_sender i = remote_id c -> i_receiver i = my_id c ->
  type = RASTA_TYPE_RETRRESP \/ sn_r c <= i_sn i <= sn_r c + send_max (sending cfg) * 10 ->
  cs_r c <= i_cs i < sn_t c ->
  p_type p <> RASTA_TYPE_CONNREQ /\ p_type p <> RASTA_TYPE_CONNRESP /\ rejection (sending cfg) c p = None.
Proof.
  intros P O Hi Ht Hs Hr Hsn Hcs. destruct O.
  assert (Hnot : p_type p <> RASTA_TYPE_CONNREQ /\ p_type p <> RASTA_TYPE_CONNRESP).
  { split; intros E; unfold is_type in Ht; rewrite E in Ht; done. }
  destruct Hnot as [N1 N2]. split; [done|]. split; [done|].
  unfold rejection. rewrite (sn_good _ _ _ _ P). cbn [Z.eqb].
  replace (sr_message_authentic c p) with true.
  2:{ unfold sr_message_authentic. rewrite (sn_sender _ _ _ _ P), (sn_receiver _ _ _ _ P), Hs, Hr, !Z.eqb_refl. done. }
  replace (sr_sn_range_valid c (sending cfg) p) with true.
  2:{ unfold sr_sn_range_valid. case_if; [done|]. destruct Hsn as [Hsn|Hsn].
      - unfold is_type in *. rewrite (sn_type _ _ _ _ P), Hsn in *. done.
      - rewrite (sn_sn _ _ _ _ P), u32_small by (unfold is_u32 in *; lia). by ztests. }
  replace (sr_cs_valid c p) with true.
  2:{ unfold sr_cs_valid. ztests. rewrite (sn_cs _ _ _ _ P). rewrite !u32_small by (unfold is_u32 in *; lia). by ztests. }
  cbn [negb]. by rewrite Ht.
Qed.

(** A packet of the peer that is in sequence passes them, too. *)
Lemma seen_in_sequence cfg ctx type i data p c : seen type i data p -> is_u16 (send_max (sending cfg)) -> conn_ok cfg ctx c ->
  is_type p [RASTA_TYPE_RETRDATA; RASTA_TYPE_DATA; RASTA_TYPE_RETRREQ; RASTA_TYPE_HB] = true ->
  i_sender i = remote_id c -> i_receiver i = my_id c -> i_sn i = sn_r c -> cs_r c <= i_cs i < sn_t c ->
  p_type p <> RASTA_TYPE_CONNREQ /\ p_type p <> RASTA_TYPE_CONNRESP /\
  rejection (sending cfg) c p = None /\ sr_sn_in_seq c p = true.
Proof.
  intros P Hm O Ht Hs Hr Hsn Hcs. destruct (seen_accepted cfg ctx type i data p c) as (N1 & N2 & N3); try done.
  - rewrite Hsn. apply O.
  - unfold is_type in *. cbn [existsb] in *.
    repeat match goal with |- context [p_type p =? ?t] => destruct (p_type p =? t); [done|]; cbn [orb] in * end. done.
  - right. unfold is_u16 in Hm. lia.
  - split; [done|]. split; [done|]. split; [done|]. unfold sr_sn_in_seq. case_if; [done|].
    rewrite (sn_sn _ _ _ _ P), Hsn. apply Z.eqb_refl.
Qed.

Lemma check_opening cfg c p : p_type p = RASTA_TYPE_CONNREQ -> p_checksum_correct p = 1 -> p_sender_id p = remote_id c ->
  p_receiver_id p = my_id c -> p_confirmed_sequence_number p = 0 -> sr_check_packet (opened cfg c) (sending cfg) p = true.
Proof.
  intros Ht Hc Hs Hr Hz.
  unfold sr_check_packet, sr_message_authentic, sr_sn_range_valid, sr_cs_valid, sr_sn_in_seq, sr_cts_in_seq, is_type, opened,
    sr_init_connection, sr_reset_connection. fields. rewrite Ht, Hc, Hs, Hr, Hz, !Z.eqb_refl. done.
Qed.

Lemma check_response cfg c p : p_type p = RASTA_TYPE_CONNRESP -> p_checksum_correct p = 1 -> p_sender_id p = remote_id c ->
  p_receiver_id p = my_id c -> p_confirmed_sequence_number p = u32 (sn_t c - 1) -> sr_check_packet c cfg p = true.
Proof.
  intros Ht Hc Hs Hr Hz.
  unfold sr_check_packet, sr_message_authentic, sr_sn_range_valid, sr_cs_valid, sr_sn_in_seq, sr_cts_in_seq, is_type.
  rewrite Ht, Hc, Hs, Hr, Hz, !Z.eqb_refl. done.
Qed.

Lemma wp_run {A} (m : M sys A) s Q : wp m Q s -> exists a s', m s = Ok (a, s') /\ Q a s'.
Proof. apply wp_ok. Qed.

(** From a specification to the run it speaks of. *)
Lemma wp_reaches {A} (m : M sys A) s (G : Prop) : wp m (fun a s' => m s = Ok (a, s') -> G) s -> G.
Proof. intros W. apply wp_run in W as (a & s' & E & W). exact (W E). Qed.

Lemma receive_conreq p i m Q s : endpoint_ok (as_server s) -> current_state (conn s) = RASTA_CONNECTION_CLOSED ->
  seen RASTA_TYPE_CONNREQ i (connection_data m RASTA_VERSION) p -> ids_ok i -> is_u16 m ->
  i_sender i = remote_id (conn s) -> i_receiver i = my_id (conn s) -> i_cs i = 0 ->
  (forall ts pk s', is_u32 ts ->
     built (channel_context s) RASTA_TYPE_CONNRESP (mkIds (remote_id (conn s)) (my_id (conn s))
       (initial_sequence_number (config s)) (i_sn i) ts (i_cts i))
       (connection_data (send_max (sending (config s))) RASTA_VERSION) pk ->
     did s s' [pk] -> conn s' = answered (config s) p (mkConnectionData m RASTA_VERSION) (opened (config s) (conn s)) ->
     sr_ok s' -> Q 0 s') ->
  wp (sr_receive p) Q s.
Proof.
  intros E Hst P Hi Hm Hs Hr Hc HQ. unfold sr_receive. rewrite (sn_type _ _ _ _ P). cbn [Z.eqb Pos.eqb].
  apply wp_bind. apply (conreq_exact p m); [done|by eapply seen_fields|by rewrite Hst| |done|apply P|].
  - apply check_opening; [apply P|apply P|..].
    + by rewrite (sn_sender _ _ _ _ P).
    + by rewrite (sn_receiver _ _ _ _ P).
    + by rewrite (sn_cs _ _ _ _ P).
  - intros ts pk s' Hts Hb D C S. rewrite (sn_sn _ _ _ _ P), (sn_cts _ _ _ _ P) in Hb. apply wp_ret. by apply (HQ ts pk s').
Qed.

Lemma receive_conresp p i m Q s : sr_ok s -> current_state (conn s) = RASTA_CONNECTION_START ->
  role (conn s) = RASTA_ROLE_CLIENT -> version_accepted (config s) RASTA_VERSION = true ->
  seen RASTA_TYPE_CONNRESP i (connection_data m RASTA_VERSION) p -> ids_ok i -> is_u16 m ->
  i_sender i = remote_id (conn s) -> i_receiver i = my_id (conn s) -> i_cs i = u32 (sn_t (conn s) - 1) ->
  (forall ts t1 t2 pk s', is_u32 ts ->
     built (channel_context s) RASTA_TYPE_HB (mkIds (remote_id (conn s)) (my_id (conn s)) (sn_t (conn s))
       (i_sn i) ts (i_ts i)) [] pk ->
     did s s' [pk] -> conn s' = established p (mkConnectionData m RASTA_VERSION) t1 t2 (conn s) -> sr_ok s' -> Q 1 s') ->
  wp (sr_receive p) Q s.
Proof.
  intros S Hst Hro Hv P Hi Hm Hs Hr Hc HQ. unfold sr_receive. rewrite (sn_type _ _ _ _ P). cbn [Z.eqb Pos.eqb].
  apply wp_bind. apply (conresp_exact p m); [done|by eapply seen_fields|done|done| |done|done|apply P|].
  - apply check_response; [apply P|apply P|..].
    + by rewrite (sn_sender _ _ _ _ P).
    + by rewrite (sn_receiver _ _ _ _ P).
    + by rewrite (sn_cs _ _ _ _ P).
  - intros ts t1 t2 pk s' Hts Hb D C S'. rewrite (sn_sn _ _ _ _ P), (sn_ts _ _ _ _ P) in Hb. apply wp_ret.
    by apply (HQ ts t1 t2 pk s').
Qed.

Lemma receive_first_heartbeat p i Q s : sr_ok s -> current_state (conn s) = RASTA_CONNECTION_START ->
  role (conn s) = RASTA_ROLE_SERVER -> cts_r (conn s) = 0 -> seen RASTA_TYPE_HB i [] p -> ids_ok i ->
  i_sender i = remote_id (conn s) -> i_receiver i = my_id (conn s) -> i_sn i = sn_r (conn s) ->
  cs_r (conn s) <= i_cs i < sn_t (conn s) ->
  (forall t1 t2 s', did s s' [] -> conn s' = accepted_in RASTA_CONNECTION_UP p t1 t2 (conn s) -> sr_ok s' -> Q 1 s') ->
  wp (sr_receive p) Q s.
Proof.
  intros S Hst Hro Hz P Hi Hs Hr Hsn Hcs HQ.
  assert (Ht : p_type p = RASTA_TYPE_HB) by apply P.
  destruct (seen_in_sequence (config s) (channel_context s) _ _ _ p (conn s) P) as (N1 & N2 & Rej & Seq);
    try done; [apply (ok_config _ S)|apply S|by unfold is_type; rewrite Ht|].
  unfold wp. rewrite (dispatch p s N1 N2 Rej). fold (wp (handle_received_packet p) Q s).
  unfold handle_received_packet. rewrite Ht. cbn [Z.eqb Pos.eqb]. unfold handle_hb. apply wp_bind, wp_gets.
  unfold Datatypes.id. rewrite Hst. cbn [bool_decide]. unfold handle_hb_start. apply wp_bind, wp_gets. destruct (mode _).
  apply hb_start_exact; [done|by eapply seen_fields|done|done| |done].
  unfold sr_cts_in_seq. rewrite Hz. case_if; done.
Qed.

(** The connection of a server that answered a request: [n] is the number of its
    next packet, [m] the one it expects. *)
Record waiting (remote my n m : Z) (c : rasta_connection) : Prop := {
  wt_state : current_state c = RASTA_CONNECTION_START;
  wt_role : role c = RASTA_ROLE_SERVER;
  wt_remote : remote_id c = remote;
  wt_my : my_id c = my;
  wt_sn_t : sn_t c = n;
  wt_sn_r : sn_r c = m;
  wt_cs_r : cs_r c = 0;
  wt_cts_r : cts_r c = 0
}.

(** A connection that is up, with its timers. *)
Record talking (remote my n m : Z) (c : rasta_connection) : Prop := {
  tg_state : current_state c = RASTA_CONNECTION_UP;
  tg_remote : remote_id c = remote;
  tg_my : my_id c = my;
  tg_sn_t : sn_t c = n;
  tg_sn_r : sn_r c = m;
  tg_cs_t : cs_t c = m - 1;
  tg_cs_r : cs_r c < n;
  tg_heartbeat : enabled (send_heartbeat_event c) = true;
  tg_timeout : enabled (timeout_event c) = true
}.

Lemma talking_in_step x y i j n m : sr_ok x -> talking i j n m (conn x) -> talking j i m n (conn y) -> in_step x y.
Proof. intros S [] []. split; congruence. Qed.

Lemma u32_next n : is_u32 n -> n + 1 < 2 ^ 32 -> u32 (n + 1) = n + 1.
Proof. intros [] ?. apply u32_small. unfold is_u32. lia. Qed.

Lemma handshake_request p m i Q s : endpoint_ok (as_server s) -> current_state (conn s) = RASTA_CONNECTION_CLOSED ->
  seen RASTA_TYPE_CONNREQ i (connection_data m RASTA_VERSION) p -> ids_ok i -> is_u16 m ->
  i_sender i = remote_id (conn s) -> i_receiver i = my_id (conn s) -> i_cs i = 0 -> i_cts i = 0 ->
  i_sn i + 1 < 2 ^ 32 -> initial_sequence_number (config s) + 1 < 2 ^ 32 ->
  (forall ts pk s', is_u32 ts ->
     built (channel_context s) RASTA_TYPE_CONNRESP
       (mkIds (remote_id (conn s)) (my_id (conn s)) (initial_sequence_number (config s)) (i_sn i) ts 0)
       (connection_data (send_max (sending (config s))) RASTA_VERSION) pk ->
     sent s s' [pk] -> sr_ok s' ->
     waiting (remote_id (conn s)) (my_id (conn s)) (initial_sequence_number (config s) + 1) (i_sn i + 1) (conn s') -> Q 0 s') ->
  wp (sr_receive p) Q s.
Proof.
  intros E Hst P Hi Hm Hs Hr Hc Hz Hn Hb HQ. eapply receive_conreq; try done. intros ts pk s' Hts B D C S. rewrite Hz in B.
  eapply HQ; [done|exact B|apply D|done|]. pose proof (ok_config _ (bo_sr _ _ (ep_base _ E))) as F. rewrite C. destruct P.
  assert (E1 : u32 (p_sequence_number p + 1) = i_sn i + 1) by (rewrite sn_sn0; apply u32_next; [apply Hi|lia]).
  assert (E2 : u32 (initial_sequence_number (config s) + 1) = initial_sequence_number (config s) + 1)
    by (apply u32_next; [apply F|lia]).
  split; try done; cbn -[u32]; congruence.
Qed.

Lemma handshake_response p m i Q s : sr_ok s -> current_state (conn s) = RASTA_CONNECTION_START ->
  role (conn s) = RASTA_ROLE_CLIENT -> version_accepted (config s) RASTA_VERSION = true ->
  seen RASTA_TYPE_CONNRESP i (connection_data m RASTA_VERSION) p -> ids_ok i -> is_u16 m ->
  i_sender i = remote_id (conn s) -> i_receiver i = my_id (conn s) -> i_cs i = u32 (sn_t (conn s) - 1) ->
  i_cs i < sn_t (conn s) -> i_sn i + 1 < 2 ^ 32 -> sn_t (conn s) + 1 < 2 ^ 32 ->
  (forall ts pk s', is_u32 ts ->
     built (channel_context s) RASTA_TYPE_HB
       (mkIds (remote_id (conn s)) (my_id (conn s)) (sn_t (conn s)) (i_sn i) ts (i_ts i)) [] pk ->
     sent s s' [pk] -> sr_ok s' ->
     talking (remote_id (conn s)) (my_id (conn s)) (sn_t (conn s) + 1) (i_sn i + 1) (conn s') -> Q 1 s') ->
  wp (sr_receive p) Q s.
Proof.
  intros S Hst Hro Hv P Hi Hm Hs Hr Hc Hw Hn Hb HQ. eapply receive_conresp; try done. intros ts t1 t2 pk s' Hts B D C S'.
  eapply HQ; [done|exact B|apply D|done|]. pose proof (ok_conn _ S) as O. rewrite C. destruct P.
  assert (E1 : u32 (p_sequence_number p + 1) = i_sn i + 1) by (rewrite sn_sn0; apply u32_next; [apply Hi|lia]).
  assert (E2 : u32 (sn_t (conn s) + 1) = sn_t (conn s) + 1) by (apply u32_next; [apply O|lia]).
  split; try done; cbn -[u32]; lia.
Qed.

Lemma handshake_heartbeat p i remote my n m Q s : sr_ok s -> waiting remote my n m (conn s) ->
  seen RASTA_TYPE_HB i [] p -> ids_ok i -> i_sender i = remote -> i_receiver i = my -> i_sn i = m ->
  0 <= i_cs i < n -> m + 1 < 2 ^ 32 ->
  (forall s', sent s s' [] -> sr_ok s' -> talking remote my n (m + 1) (conn s') -> is_new (conn s') = true -> Q 1 s') ->
  wp (sr_receive p) Q s.
Proof.
  intros S [W1 W2 W3 W4 W5 W6 W7 W8] P Hi Hs Hr Hsn Hcs Hm HQ. eapply (receive_first_heartbeat p i); try done; try congruence.
  intros t1 t2 s' D C S'. eapply HQ; [apply D|done| |by rewrite C]. rewrite C. destruct P.
  assert (E1 : u32 (p_sequence_number p + 1) = m + 1).
  { rewrite sn_sn0, Hsn. apply u32_next; [rewrite <- Hsn; apply Hi|lia]. }
  split; try done; cbn -[u32]; lia.
Qed.

(** C2. The handshake: the request a client sends when it opens a connection,
    the response and the heartbeat that follow it bring both endpoints to state
    UP with the timers running, each expecting exactly the sequence number the
    other one will use next and confirming the last packet it got; each packet
    is answered by exactly one packet, and the heartbeat by none. *)
Theorem handshake a a0 a1 pk1 b : endpoint_ok (as_server a) -> opens a a0 a1 pk1 -> endpoint_ok (as_server b) ->
  current_state (conn b) = RASTA_CONNECTION_CLOSED ->
  remote_id (conn b) = my_id (conn a) -> my_id (conn b) = remote_id (conn a) -> channel_context b = channel_context a ->
  version_accepted (config a) RASTA_VERSION = true ->
  initial_sequence_number (config a) + 2 < 2 ^ 32 -> initial_sequence_number (config b) + 1 < 2 ^ 32 ->
  exists b1 pk2 a2 pk3 b2,
    sr_receive (received_packet (channel_context b) pk1) b = Ok (0, b1) /\ sent b b1 [pk2] /\
    sr_receive (received_packet (channel_context a) pk2) a1 = Ok (1, a2) /\ sent a1 a2 [pk3] /\
    sr_receive (received_packet (channel_context b) pk3) b1 = Ok (1, b2) /\ sent b1 b2 [] /\
    in_step a2 b2 /\ in_step b2 a2 /\ is_new (conn b2) = true /\
    enabled (send_heartbeat_event (conn a2)) = true /\ enabled (send_heartbeat_event (conn b2)) = true /\
    enabled (timeout_event (conn a2)) = true /\ enabled (timeout_event (conn b2)) = true.
Proof.
  intros Ea Op Eb Hb Hid1 Hid2 Hx Hv Han Hbn. pose proof (opens_kept _ _ _ _ Ea Op) as K.
  destruct Op as [_ _ (ts1 & Hts1 & B1) (ts & t0 & Hts & Ca1) Ea1].
  pose proof (bo_sr _ _ (ep_base _ Ea)) as Sa. pose proof (bo_sr _ _ (ep_base _ Eb)) as Sb.
  pose proof (ok_config _ Sa) as Fa. pose proof (ok_config _ Sb) as Fb.
  pose proof (conn_ok_unrole _ _ _ _ (ok_conn _ Sa)) as Oa. pose proof (conn_ok_unrole _ _ _ _ (ok_conn _ Sb)) as Ob.
  assert (Z0 : is_u32 0) by (split; zle).
  set (ia := initial_sequence_number (config a)) in *. set (ib := initial_sequence_number (config b)) in *.
  assert (Hia : is_u32 ia) by apply Fa. assert (Hib : is_u32 ib) by apply Fb.
  assert (Ta : sn_t (conn a1) = ia + 1) by (rewrite Ca1; change (u32 (ia + 1) = ia + 1); apply u32_next; [done|lia]).
  rewrite <- Hx in B1. apply built_seen in B1. apply (wp_reaches (sr_receive (received_packet (channel_context b) pk1)) b).
  eapply handshake_request; try exact B1; try done; [split; try done; apply Oa|apply Fa|cbn; lia|].
  cbn [i_sn]. intros ts2 pk2 b1 Hts2 B2 D1 S1 W1 R1. rewrite Hx in B2. apply built_seen in B2.
  apply (wp_reaches (sr_receive (received_packet (channel_context a) pk2)) a1).
  eapply handshake_response; try exact B2; try done;
    rewrite ?Ta, ?(kp_context _ _ K), ?(kp_config _ _ K); cbn [i_sn i_cs i_ts i_sender i_receiver]; try done; try lia.
  all: try (rewrite Ca1; done).
  { apply (bo_sr _ _ (ep_base _ Ea1)). } { split; try done; apply Ob. } { apply Fb. }
  { rewrite Z.add_simpl_r. by rewrite u32_small. }
  intros ts3 pk3 a2 Hts3 B3 D2 S2 W2 R2. rewrite <- Hx in B3. apply built_seen in B3.
  replace (remote_id (conn a1)) with (my_id (conn b)) in * by (rewrite Ca1; exact Hid2).
  replace (my_id (conn a1)) with (remote_id (conn b)) in * by (rewrite Ca1; exact Hid1).
  apply (wp_reaches (sr_receive (received_packet (channel_context b) pk3)) b1).
  eapply handshake_heartbeat; try exact B3; try exact W1; try done; 
    [split; cbn; try done; try apply Ob; unfold is_u32 in *; lia|unfold is_u32 in Hib; cbn; lia|lia|].
  intros b2 D3 S3 W3 Hnew R3. exists b1, pk2, a2, pk3, b2. replace (ia + 1 + 1) with (ia + 2) in * by lia.
  do 6 (split; [assumption|]). split; [by eapply talking_in_step|]. split; [by eapply talking_in_step|].
  destruct W2, W3. done.
Qed.

(** ** Transfer *)

(** The connection after a data packet was taken. *)
Record took (p : RastaPacket) (msgs : RastaMessageData) (c c' : rasta_connection) : Prop := {
  tk_state : current_state c' = current_state c;
  tk_role : role c' = role c;
  tk_remote : remote_id c' = remote_id c;
  tk_my : my_id c' = my_id c;
  tk_sn_t : sn_t c' = sn_t c;
  tk_sn_r : sn_r c' = u32 (p_sequence_number p + 1);
  tk_cs_t : cs_t c' = p_sequence_number p;
  tk_ts_r : ts_r c' = p_timestamp p;
  tk_cts_r : cts_r c' = p_confirmed_timestamp p;
  tk_cs_r : cs_r c' = p_confirmed_sequence_number p;
  tk_send : fifo_send c' = fifo_send c;
  tk_receive : fifo_receive c' = accept_into (fifo_receive c) msgs
}.

Lemma data_exact p msgs Q s : sr_ok s -> packet_fields p -> extractMessageData p = Ok msgs ->
  sr_sn_in_seq (conn s) p = true -> sr_cts_in_seq (conn s) (sending (config s)) p = true ->
  current_state (conn s) = RASTA_CONNECTION_UP -> queue_full (fifo_send (conn s)) = false ->
  (forall s', did s s' [] -> sr_ok s' -> took p msgs (conn s) (conn s') -> Q 1 s') ->
  wp (handle_data p) Q s.
Proof.
  intros S Hp Hm Hsn Hcts Hst Hfull HQ. unfold handle_data. apply wp_bind, wp_gets. unfold Datatypes.id. rewrite Hsn, Hst, Hcts.
  unfold sr_add_app_messages_to_buffer. apply wp_bind, wp_bind, wp_lift. exists msgs. split; [done|].
  apply wp_buffer; [apply S|]. intros s1 D1 T1.
  assert (S1 : sr_ok s1).
  { assert (Hr : role (conn s1) = role (conn s)) by (rewrite T1; done). eapply did_sr; [exact S|exact D1|exact Hr|].
    eapply timing_ok; [exact T1|]. destruct (ok_conn _ S). split; unfold accept; fields; try done. by apply accept_into_ok. }
  apply wp_bind. eapply (wp_setc s1); [by apply ok_from_refl|by apply attrs_safe|]. intros s2 [_ S2] D2 C2.
  apply wp_bind. eapply (wp_setc s2); [by apply ok_from_refl|by apply confirmed_safe|]. intros s3 [_ S3] D3 C3.
  assert (D : did s s3 []) by (eapply did_after; [exact D1|]; by eapply did_after).
  assert (T3 : took p msgs (conn s) (conn s3)).
  { rewrite C3, C2, T1. unfold update_confirmed_attrs, update_connection_attrs, accept. by split; fields. }
  destruct (co_retr _ _ _ (ok_conn _ S3)) as [pks Hu].
  apply wp_bind, (wp_remove_confirmed pks); [done|done|]. intros s4 out D4 S4 C4. apply wp_ret.
  unfold confirmed in C4. rewrite (tk_send _ _ _ _ T3), Hfull in C4. destruct C4 as [-> C4].
  apply HQ; [by eapply did_after|done|]. rewrite C4. unfold with_unconfirmed. destruct T3. by split; fields.
Qed.

(** The confirmed timestamp of the next packet of [x] is accepted by [y]. *)
Definition timely (x y : sys) : Prop :=
  cts_r (conn y) = 0 \/
  cts_r (conn y) <= ts_r (conn x) /\ u32 (ts_r (conn x) - cts_r (conn y)) < t_max (sending (config y)).

Lemma timely_seen type i data p x y : timely x y -> seen type i data p -> i_cts i = ts_r (conn x) ->
  sr_cts_in_seq (conn y) (sending (config y)) p = true.
Proof.
  intros T P Hi. unfold sr_cts_in_seq. rewrite (sn_cts _ _ _ _ P), Hi. case_if; [|done].
  destruct T as [->|[H1 H2]]; [done|]. case_if; [done|]. by ztests.
Qed.

Definition sent_now (x : sys) : RastaMessageData :=
  take (Z.to_nat (send_backlog_size (conn x) (config x))) (q_items (fifo_send (conn x))).

(** What sending data leaves alone. *)
Record same_but_sn (c c' : rasta_connection) : Prop := {
  sb_state : current_state c' = current_state c;
  sb_remote : remote_id c' = remote_id c;
  sb_my : my_id c' = my_id c;
  sb_sn_r : sn_r c' = sn_r c;
  sb_cs_t : cs_t c' = cs_t c;
  sb_cs_r : cs_r c' = cs_r c
}.

Lemma data_sent_ok x x' : sr_ok x -> data_send_event x = Ok (0, x') -> sr_ok x'.
Proof.
  intros S E. pose proof (data_send_sr x S) as L. unfold wp in L. rewrite E in L. by destruct L as (_ & out & _ & S' & _).
Qed.

(** A data packet in sequence is taken. *)
Lemma receive_data p i msgs Q s : sr_ok s -> current_state (conn s) = RASTA_CONNECTION_UP ->
  queue_full (fifo_send (conn s)) = false -> seen RASTA_TYPE_DATA i (encode msgs) p -> ids_ok i ->
  zlen (encode msgs) <= PAYLOAD_MAX -> i_sender i = remote_id (conn s) -> i_receiver i = my_id (conn s) ->
  i_sn i = sn_r (conn s) -> cs_r (conn s) <= i_cs i < sn_t (conn s) ->
  sr_cts_in_seq (conn s) (sending (config s)) p = true ->
  (forall s', did s s' [] -> sr_ok s' -> took p msgs (conn s) (conn s') -> Q 1 s') ->
  wp (sr_receive p) Q s.
Proof.
  intros S Hst Hfull P Hi Hl Hs Hr Hsn Hcs Hcts HQ. assert (Hty : p_type p = RASTA_TYPE_DATA) by apply P.
  destruct (seen_in_sequence (config s) (channel_context s) _ _ _ p (conn s) P) as (T1 & T2 & Rej & Seq);
    try done; [apply (ok_config _ S)|apply S|by unfold is_type; rewrite Hty|].
  unfold wp. rewrite (dispatch p s T1 T2 Rej). fold (wp (handle_received_packet p) Q s).
  unfold handle_received_packet. rewrite Hty. cbn [Z.eqb Pos.eqb]. apply (data_exact p msgs); try done.
  - by eapply seen_fields.
  - apply extractMessageData_encode; [apply P|unfold PAYLOAD_MAX in Hl; lia].
Qed.

(** Both sides are in step after a data packet was sent and taken. *)
Lemma in_step_sent x x' y y' i data p msgs : in_step x y -> in_step y x -> sr_ok x' -> sr_ok y' ->
  same_but_sn (conn x) (conn x') -> sn_t (conn x') = sn_t (conn x) + 1 -> sn_t (conn x) + 1 < 2 ^ 32 ->
  seen RASTA_TYPE_DATA i data p -> i_sn i = sn_t (conn x) -> i_cs i = cs_t (conn x) ->
  took p msgs (conn y) (conn y') -> in_step x' y' /\ in_step y' x'.
Proof.
  intros [Sx Ux R1 M1 N1 K1 W1] [Sy Uy R2 M2 N2 K2 W2] Sx' Sy' [] Tx Hw [] Hn Hc [].
  assert (Hx : is_u32 (sn_t (conn x))) by apply (ok_conn _ Sx).
  assert (E : u32 (p_sequence_number p + 1) = sn_t (conn x) + 1) by (rewrite sn_sn0, Hn; by apply u32_next).
  split; split; try done; try congruence; lia.
Qed.

(** C3. When both endpoints are in step, what the send timer of one side takes
    from its send queue, as many messages as the packet size and the
    retransmission queue allow, arrives at the other side's receive queue
    unchanged, in order and once, by one packet; the packet is kept for
    retransmission, nothing else is sent, and both endpoints are in step
    again. *)
Theorem data_transfer x y : in_step x y -> in_step y x -> channel_context y = channel_context x ->
  sending_possible (conn x) (config x) = true -> queue_full (fifo_send (conn y)) = false -> timely x y ->
  queue_size (fifo_receive (conn y)) + zlen (sent_now x) <= q_max (fifo_receive (conn y)) ->
  sn_t (conn x) + 1 < 2 ^ 32 ->
  exists x' pk y',
    data_send_event x = Ok (0, x') /\ sent x x' [pk] /\
    sr_receive (received_packet (channel_context y) pk) y = Ok (1, y') /\ sent y y' [] /\
    q_items (fifo_receive (conn y')) = q_items (fifo_receive (conn y)) ++ sent_now x /\
    q_items (fifo_send (conn x)) = sent_now x ++ q_items (fifo_send (conn x')) /\
    q_items (fifo_retransmission (conn x')) = q_items (fifo_retransmission (conn x)) ++ [wire (channel_context x) pk] /\
    in_step x' y' /\ in_step y' x'.
Proof.
  intros I1 I2 Hx Hsp Hfull Ht Hroom Hwrap. destruct (I1) as [Sx Ux R1 M1 N1 K1 W1], (I2) as [Sy Uy R2 M2 N2 K2 W2].
  pose proof (ok_conn _ Sx) as Ox. pose proof (ok_conn _ Sy) as Oy.
  apply (wp_reaches data_send_event x). apply wp_data_send; [done|by rewrite Hsp|].
  intros _ ts t pk x' Hts n B Hret D1 C1 E1. rewrite <- Hx in B. apply built_seen in B.
  assert (Hl : zlen (encode (sent_now x)) <= PAYLOAD_MAX).
  { destruct (send_backlog_bound (conn x) (config x)) as [[Hn0 Hn1] _]; [apply Sx|apply Ox|].
    eapply take_send_fits; [apply Sx|exact Ox|lia]. }
  apply (wp_reaches (sr_receive (received_packet (channel_context y) pk)) y).
  eapply (receive_data _ _ (sent_now x)); try exact B; try done; [by eapply conn_ok_ids|cbn; rewrite K1; lia|by eapply timely_seen|].
  intros y' D2 Sy' T E2. exists x', pk, y'. split; [exact E1|]. split; [apply D1|]. split; [exact E2|]. split; [apply D2|].
  assert (Tx : sn_t (conn x') = sn_t (conn x) + 1).
  { rewrite C1. unfold idle. case_if; change (u32 (sn_t (conn x) + 1) = sn_t (conn x) + 1); by apply u32_next; [apply Ox|]. }
  assert (Ix : same_but_sn (conn x) (conn x')) by (rewrite C1; unfold idle; case_if; by split).
  split.
  { rewrite (tk_receive _ _ _ _ T). unfold accept_into. cbn [q_items]. f_equal. apply take_ge. unfold zlen in Hroom. lia. }
  split; [rewrite C1; unfold idle; case_if; symmetry; apply take_drop|].
  split; [by rewrite C1; unfold idle; case_if|].
  eapply in_step_sent; try exact B; try exact T; try done. exact (data_sent_ok _ _ Sx E1).
Qed.
End Peers.

(** ** Witnesses *)

Lemma wp_true (m : M sys bool) P s :
  (match m s with Ok (r, _) => r | Fail _ => false end = true) -> wp m P s -> exists s', P true s'.
Proof. unfold wp. destruct (m s) as [[[] s']|]; [eauto|done..]. Qed.

Lemma demo_request : exists a0 a1 pk1, opens demo_fresh a0 a1 pk1.
Proof.
  destruct (wp_true (request_connection (H := udp)) (fun r s' => r = true -> exists a0 pk1, opens demo_fresh a0 s' pk1) demo_fresh) as [a1 Q].
  - vm_compute. reflexivity.
  - apply wp_request_connection; [exact demo_fresh_ok|by intros|]. intros a0 a1 pk1 Op _. by exists a0, pk1.
  - destruct (Q eq_refl) as (a0 & pk1 & Op). by exists a0, a1, pk1.
Qed.

(** The server the client of [demo_fresh] connects to. *)
Definition demo_server : sys :=
  demo_fresh <| conn ::= fun c => c <| my_id := 0x61 |> <| remote_id := 0x60 |> |>.

Lemma demo_server_ok : endpoint_ok (as_server demo_server).
Proof.
  set (f := fun c => c <| my_id := 0x61 |> <| remote_id := 0x60 |>).
  assert (E : as_server demo_server = (as_server demo_fresh) <| conn ::= f |>) by reflexivity. rewrite E.
  apply (endpoint_lower (as_server demo_fresh)); [exact demo_fresh_ok|apply lower_frame_conn|].
  eapply (sr_ok_update _ _ [] f); [exact (bo_sr _ _ (ep_base _ demo_fresh_ok))|apply did_conn|done|].
  unfold f. intros ? ? ? []. split; [split; fields; try done; split; zle|by left].
Qed.

Lemma handshake_witness : exists a0 a1 pk1, opens demo_fresh a0 a1 pk1 /\ endpoint_ok (as_server demo_server) /\
  exists b1 pk2 a2 pk3 b2,
    sr_receive (H := udp) (received_packet demo_ctx pk1) demo_server = Ok (0, b1) /\ sent demo_server b1 [pk2] /\
    sr_receive (H := udp) (received_packet demo_ctx pk2) a1 = Ok (1, a2) /\ sent a1 a2 [pk3] /\
    sr_receive (H := udp) (received_packet demo_ctx pk3) b1 = Ok (1, b2) /\ sent b1 b2 [] /\
    in_step a2 b2 /\ in_step b2 a2 /\ is_new (conn b2) = true /\
    enabled (send_heartbeat_event (conn a2)) = true /\ enabled (send_heartbeat_event (conn b2)) = true /\
    enabled (timeout_event (conn a2)) = true /\ enabled (timeout_event (conn b2)) = true.
Proof.
  destruct demo_request as (a0 & a1 & pk1 & Op). exists a0, a1, pk1. split; [exact Op|]. split; [exact demo_server_ok|].
  assert (H1 : initial_sequence_number (config demo_fresh) + 2 < 2 ^ 32) by reflexivity.
  assert (H2 : initial_sequence_number (config demo_server) + 1 < 2 ^ 32) by reflexivity.
  exact (handshake (H := udp) demo_fresh a0 a1 pk1 demo_server demo_fresh_ok Op demo_server_ok
    eq_refl eq_refl eq_refl eq_refl eq_refl H1 H2).
Defined.

(** A client with a message to send and its server. *)
Definition demo_sender : sys := (demo_sys RASTA_ROLE_CLIENT RASTA_CONNECTION_UP 7)
  <| conn ::= fun c => c <| fifo_send := mkQueue 40 [[104; 105]] |> |>.
Definition demo_receiver : sys := (demo_sys RASTA_ROLE_SERVER RASTA_CONNECTION_UP 7)
  <| conn ::= fun c => c <| my_id := 0x61 |> <| remote_id := 0x60 |> <| cts_r := 0 |> |>.

Lemma demo_in_step : in_step demo_sender demo_receiver /\ in_step demo_receiver demo_sender.
Proof.
  assert (S7 : is_u32 7) by (split; zle).
  assert (Sx : sr_ok demo_sender).
  { destruct (demo_sr_ok RASTA_ROLE_CLIENT RASTA_CONNECTION_UP 7 S7) as [[] R C O]. split; [by split|exact R|exact C|].
    destruct O. split; try done. constructor; [|constructor].
    split; [repeat constructor; unfold is_u8; lia|vm_compute; discriminate]. }
  assert (Sy : sr_ok demo_receiver).
  { destruct (demo_sr_ok RASTA_ROLE_SERVER RASTA_CONNECTION_UP 7 S7) as [[] R C O]. split; [by split|exact R|exact C|].
    destruct O. split; try done; split; zle. }
  split; (split; [assumption|reflexivity..]).
Qed.

Lemma data_transfer_witness : in_step demo_sender demo_receiver /\ sent_now demo_sender = [[104; 105]] /\
  exists x' pk y',
    data_send_event (H := udp) demo_sender = Ok (0, x') /\ sent demo_sender x' [pk] /\
    sr_receive (H := udp) (received_packet demo_ctx pk) demo_receiver = Ok (1, y') /\ sent demo_receiver y' [] /\
    q_items (fifo_receive (conn y')) = [] ++ sent_now demo_sender /\
    [[104; 105]] = sent_now demo_sender ++ q_items (fifo_send (conn x')) /\
    q_items (fifo_retransmission (conn x')) = [] ++ [wire demo_ctx pk] /\
    in_step x' y' /\ in_step y' x'.
Proof.
  destruct demo_in_step as [I1 I2]. split; [exact I1|].
  assert (E1 : sent_now demo_sender = [[104; 105]]) by (vm_compute; reflexivity). split; [exact E1|].
  assert (E2 : sending_possible (conn demo_sender) (config demo_sender) = true) by (vm_compute; reflexivity).
  assert (T : timely demo_sender demo_receiver) by (left; reflexivity).
  assert (R : queue_size (fifo_receive (conn demo_receiver)) + zlen (sent_now demo_sender) <= q_max (fifo_receive (conn demo_receiver)))
    by (vm_compute; discriminate).
  assert (W : sn_t (conn demo_sender) + 1 < 2 ^ 32) by reflexivity.
  exact (data_transfer (H := udp) demo_sender demo_receiver I1 I2 eq_refl E2 eq_refl T R W).
Defined.
