(* ===== verification/Recovery.v ===== *)
(** * Retransmission between two endpoints

    What follows when an endpoint receives a data packet that is not the next
    one: it asks for a retransmission, the peer answers with everything that it
    holds as unconfirmed, and the answer brings both endpoints back in step.  What
    the peer holds as unconfirmed depends on how confirmed packets are removed;
    both outcomes, the recovery of the missing messages and their loss, are
    theorems. *)

From stdpp Require Import base numbers list.
From Stdlib Require Import ZArith Lia.
From S2P Require Import Prelude.
From S2P Require Import Fifo.
From S2P Require Import Crc.
From S2P Require Import Hashing.
From S2P Require Import Packet.
From S2P Require Import Factory.
From S2P Require Import DeferQueue.
From S2P Require Import World.
From S2P Require Import Config.
From S2P Require Import State.
From S2P Require Import Sample.
From S2P Require Import Transport.
From S2P Require Import Redundancy.
From S2P Require Import Connection.
From S2P Require Import Retransmission.
From S2P Require Import Handlers.
From S2P Require Import Session.
From S2P Require Import Events.
From S2P Require Import Service.
From S2P Require Import Peers.

Local Open Scope Z_scope.
Local Open Scope record_scope.

(** The messages of a packet. *)
Definition payload (pk : RastaPacket) : RastaMessageData :=
  match extractMessageData pk with Ok msgs => msgs | Fail _ => [] end.

Lemma payload_retr ctx pk : retr_packet ctx pk -> p_data pk = encode (payload pk) /\ zlen (encode (payload pk)) <= PAYLOAD_MAX.
Proof.
  intros (_ & msgs & E & _ & Hl). unfold payload. rewrite (extractMessageData_encode pk msgs); [done|done|].
  unfold PAYLOAD_MAX in Hl. lia.
Qed.

Lemma accept_into_app q a b : queue_ok q -> accept_into (accept_into q a) b = accept_into q (a ++ b).
Proof.
  intros [_ Hq]. unfold accept_into, queue_size in *. cbn [q_max q_items]. f_equal. rewrite <- app_assoc. f_equal.
  rewrite take_app. f_equal. f_equal. rewrite zlen_app. unfold zlen at 2. rewrite length_take. lia.
Qed.

Lemma count_up_fits {A} (l : list A) : forall sn, 0 <= sn -> sn + zlen l < 2 ^ 32 -> count_up sn l = sn + zlen l.
Proof.
  unfold count_up. induction l as [|x l IH]; intros sn Hs Hl; cbn [foldl].
  - change (zlen (@nil A)) with 0. lia.
  - rewrite zlen_cons in *. pose proof (zlen_nonneg l). rewrite u32_small by (unfold is_u32; lia). rewrite IH; lia.
Qed.

Lemma renumbered_zlen ctx c olds : forall sn news, renumbered ctx c sn olds news -> zlen news = zlen olds.
Proof.
  induction olds as [|p olds IH]; intros sn [|q news]; cbn; try done. intros [_ Hr]. rewrite !zlen_cons. f_equal. by eapply IH.
Qed.

Section Recovery.
Context `{TransportOk}.

(** These packets arrive one after the other. *)
Fixpoint feed (ps : list RastaPacket) : M sys unit :=
  match ps with [] => mret tt | p :: ps => _ ← sr_receive p; feed ps end.

(** ** The side that misses a packet *)

Definition asking (c : rasta_connection) : rasta_connection :=
  c <| errors ::= count_sn |> <| sn_t := u32 (sn_t c + 1) |> <| current_state := RASTA_CONNECTION_RETRREQ |>.

Lemma gap_exact p Q s : sr_ok s -> current_state (conn s) = RASTA_CONNECTION_UP -> sr_sn_in_seq (conn s) p = false ->
  (forall ts req s', is_u32 ts -> built (channel_context s) RASTA_TYPE_RETRREQ (ids_at (conn s) ts) [] req ->
     did s s' [req] -> conn s' = asking (conn s) -> sr_ok s' -> Q 0 s') ->
  wp (handle_data p) Q s.
Proof.
  intros S U N HQ. unfold handle_data. apply wp_bind, wp_gets. unfold Datatypes.id. rewrite N, U.
  apply wp_bind. eapply (wp_setc s); [by apply ok_from_refl|by apply count_safe|]. intros s1 [_ S1] D1 C1.
  apply wp_bind, wp_retr_request; [done|]. intros ts req s2 Hts B D2 C2.
  assert (S2 : sr_ok s2) by (eapply (sr_ok_update _ _ _ _ S1 D2 C2), sn_t_safe).
  apply wp_bind. eapply (wp_setc s2); [by apply ok_from_refl|by apply set_state_safe|]. intros s3 [_ S3] D3 C3. apply wp_ret.
  rewrite (did_context _ _ _ D1), C1 in B. apply (HQ ts req s3); [done|exact B| | |done].
  - eapply did_after; [exact D1|]. by eapply did_then.
  - rewrite C3, C2, C1. unfold asking. by fields.
Qed.

Lemma retrresp_exact p Q s : sr_ok s -> packet_fields p -> current_state (conn s) = RASTA_CONNECTION_RETRREQ ->
  (forall s', did s s' [] -> sr_ok s' -> took p [] ((conn s) <| current_state := RASTA_CONNECTION_RETRRUN |>) (conn s') -> Q 0 s') ->
  wp (handle_retrresp p) Q s.
Proof.
  intros S Hp U HQ. unfold handle_retrresp. apply wp_bind, wp_gets. rewrite U.
  apply wp_bind. eapply (wp_setc s); [by apply ok_from_refl|by apply set_state_safe|]. intros s1 [_ S1] D1 C1.
  apply wp_bind. eapply (wp_setc s1); [by apply ok_from_refl|by apply attrs_safe|]. intros s2 [_ S2] D2 C2.
  apply wp_bind. eapply (wp_setc s2); [by apply ok_from_refl|by apply confirmed_safe|]. intros s3 [_ S3] D3 C3. apply wp_ret.
  apply (HQ s3); [|done|].
  - eapply did_after; [exact D1|]. by eapply did_after.
  - rewrite C3, C2, C1. unfold update_confirmed_attrs, update_connection_attrs. split; fields; try done. by rewrite accept_into_nil.
Qed.

Lemma retrdata_exact p msgs Q s : sr_ok s -> packet_fields p -> extractMessageData p = Ok msgs ->
  sr_sn_in_seq (conn s) p = true -> sr_cts_in_seq (conn s) (sending (config s)) p = true ->
  current_state (conn s) = RASTA_CONNECTION_RETRRUN -> cts_r (conn s) = p_confirmed_timestamp p ->
  (forall s', did s s' [] -> sr_ok s' -> took p msgs (conn s) (conn s') -> Q 1 s') ->
  wp (handle_retrdata p) Q s.
Proof.
  intros S Hp Hm Hsn Hcts Hst Hz HQ. unfold handle_retrdata. apply wp_bind, wp_gets. unfold Datatypes.id.
  rewrite Hsn, Hst, Hcts. cbn [negb]. unfold sr_add_app_messages_to_buffer. apply wp_bind, wp_bind, wp_lift. exists msgs.
  split; [done|]. apply wp_buffer; [apply S|]. intros s1 D1 T1.
  assert (S1 : sr_ok s1).
  { assert (Hr : role (conn s1) = role (conn s)) by (rewrite T1; done). eapply did_sr; [exact S|exact D1|exact Hr|].
    eapply timing_ok; [exact T1|]. destruct (ok_conn _ S). split; unfold accept; fields; try done. by apply accept_into_ok. }
  apply wp_bind. eapply (wp_setc s1); [by apply ok_from_refl|by apply attrs_safe|]. intros s2 [_ S2] D2 C2.
  apply wp_bind. eapply (wp_setc s2); [by apply ok_from_refl|by apply cs_r_safe|]. intros s3 [_ S3] D3 C3. apply wp_ret.
  apply HQ; [eapply did_after; [exact D1|]; by eapply did_after|done|].
  rewrite C3, C2, T1. unfold update_connection_attrs, accept. by split; fields.
Qed.

Lemma hb_run_exact p Q s : sr_ok s -> packet_fields p ->
  sr_sn_in_seq (conn s) p = true -> sr_cts_in_seq (conn s) (sending (config s)) p = true ->
  current_state (conn s) = RASTA_CONNECTION_RETRRUN -> queue_full (fifo_send (conn s)) = false ->
  (forall s', did s s' [] -> sr_ok s' -> took p [] ((conn s) <| current_state := RASTA_CONNECTION_UP |>) (conn s') -> Q 0 s') ->
  wp (handle_hb p) Q s.
Proof.
  intros S Hp Hsn Hcts Hst Hfull HQ. unfold handle_hb. apply wp_bind, wp_gets. unfold Datatypes.id.
  rewrite Hst. cbn [bool_decide]. change (bool_decide (RASTA_CONNECTION_RETRRUN = RASTA_CONNECTION_START)) with false. cbv iota.
  rewrite Hsn, Hcts. apply wp_bind, wp_timeout_interval. intros s1 D1 T1. apply wp_bind, wp_diagnostic. intros s2 D2 T2.
  assert (S2 : sr_ok s2).
  { pose proof (timing_trans _ _ _ T1 T2) as T. assert (Hr : role (conn s2) = role (conn s)) by (rewrite T; done).
    eapply did_sr; [exact S|by eapply did_after|exact Hr|]. eapply timing_ok; [exact T|apply S]. }
  apply wp_bind. eapply (wp_setc s2); [by apply ok_from_refl|by apply attrs_safe|]. intros s3 [_ S3] D3 C3.
  apply wp_bind. eapply (wp_setc s3); [by apply ok_from_refl|by apply confirmed_safe|]. intros s4 [_ S4] D4 C4.
  destruct (co_retr _ _ _ (ok_conn _ S4)) as [pks Hu].
  apply wp_bind, (wp_remove_confirmed pks); [done|done|]. intros s5 out D5 S5 C5.
  pose proof (timing_trans _ _ _ T1 T2) as T.
  assert (T4 : took p [] (conn s) (conn s4)).
  { rewrite C4, C3, T. unfold update_confirmed_attrs, update_connection_attrs. split; fields; try done. by rewrite accept_into_nil. }
  unfold confirmed in C5. rewrite (tk_send _ _ _ _ T4), Hfull in C5. destruct C5 as [-> C5].
  apply wp_bind, wp_gets, wp_bind. replace (bool_decide (current_state (conn s5) = RASTA_CONNECTION_RETRRUN)) with true.
  2:{ symmetry. apply bool_decide_eq_true. rewrite C5. change (current_state (conn s4) = RASTA_CONNECTION_RETRRUN).
      by rewrite (tk_state _ _ _ _ T4). }
  eapply (wp_setc s5); [by apply ok_from_refl|by apply set_state_safe|]. intros s6 [_ S6] D6 C6. apply wp_ret.
  apply HQ; [|done|].
  - eapply did_after; [exact D1|]. eapply did_after; [exact D2|]. eapply did_after; [exact D3|]. eapply did_after; [exact D4|].
    by eapply did_after.
  - rewrite C6, C5. unfold with_unconfirmed. destruct T4. by split; fields.
Qed.

(** ** The side that has it *)

(** The connection when the request for a retransmission has been read. *)
Definition asked (p : RastaPacket) (c : rasta_connection) : rasta_connection :=
  (update_connection_attrs p c) <| cs_r := p_confirmed_sequence_number p |>.

Lemma retrreq_exact p pks Q s : sr_ok s -> packet_fields p -> current_state (conn s) = RASTA_CONNECTION_UP ->
  sr_sn_in_seq (conn s) p = true -> queue_full (fifo_send (conn s)) = false ->
  unconfirmed (channel_context s) (conn s) pks ->
  (forall ts1 ts2 t resp news hb s', is_u32 ts1 -> is_u32 ts2 ->
     let c := asked p (conn s) in let sn := u32 (sn_t c + 1) in
     built (channel_context s) RASTA_TYPE_RETRRESP (ids_at c ts1) [] resp ->
     renumbered (channel_context s) c sn (drop_confirmed (p_confirmed_sequence_number p) pks) news ->
     built (channel_context s) RASTA_TYPE_HB (mkIds (remote_id c) (my_id c) (count_up sn news) (cs_t c) ts2 (ts_r c)) [] hb ->
     did s s' (resp :: news ++ [hb]) ->
     conn s' = retransmitted (channel_context s) news t (c <| sn_t := sn |>) -> sr_ok s' -> Q 0 s') ->
  wp (handle_retrreq p) Q s.
Proof.
  intros S Hp U Hsn Hfull [Eu Fu] HQ. unfold handle_retrreq. apply wp_bind, wp_gets. rewrite Hsn, U.
  cbn [bool_decide when]. apply wp_bind, wp_ret.
  apply wp_bind. eapply (wp_setc s); [by apply ok_from_refl|by apply attrs_safe|]. intros s1 [_ S1] D1 C1.
  apply wp_bind. eapply (wp_setc s1); [by apply ok_from_refl|by apply cs_r_safe|]. intros s2 [_ S2] D2 C2.
  assert (C2' : conn s2 = asked p (conn s)) by (rewrite C2, C1; done).
  assert (D02 : did s s2 []) by (by eapply did_after). pose proof (did_context _ _ _ D02) as X2.
  apply wp_bind, (wp_remove_confirmed pks); [done|by rewrite X2, C2'|]. intros s3 out D3 S3 C3.
  unfold confirmed in C3. rewrite C2' in C3. change (fifo_send (asked p (conn s))) with (fifo_send (conn s)) in C3.
  rewrite Hfull, X2 in C3. destruct C3 as [-> C3]. change (cs_r (asked p (conn s))) with (p_confirmed_sequence_number p) in C3.
  set (left := drop_confirmed (p_confirmed_sequence_number p) pks) in *. set (c := asked p (conn s)) in *.
  assert (X3 : channel_context s3 = channel_context s) by (by rewrite (did_context _ _ _ D3)).
  apply wp_bind, wp_retr_response; [done|]. intros ts1 resp s4 Hts1 B4 D4 C4. rewrite X3, C3 in B4.
  assert (S4 : sr_ok s4) by (eapply (sr_ok_update _ _ _ _ S3 D4 C4), sn_t_safe).
  assert (X4 : channel_context s4 = channel_context s) by (by rewrite (did_context _ _ _ D4)).
  rewrite C3 in C4. change (sn_t (with_unconfirmed (channel_context s) left c)) with (sn_t c) in C4.
  set (sn := u32 (sn_t c + 1)) in *.
  assert (U4 : unconfirmed (channel_context s4) (conn s4) left).
  { rewrite X4, C4. split; [done|]. destruct (drop_confirmed_suffix (p_confirmed_sequence_number p) pks) as [pre Hpre].
    fold left in Hpre. rewrite Hpre in Fu. by apply Forall_app in Fu as [_ Fu]. }
  apply wp_bind, (wp_retransmit_data left); [done|done|]. intros t ts2 hb news s5 Hts2 Hn B5 D5 C5 S5.
  rewrite X4 in Hn, B5, C5. rewrite C4 in Hn, B5, C5. apply (renumbered_ext _ c) in Hn; [|done..].
  assert (E5 : conn s5 = retransmitted (channel_context s) news t (c <| sn_t := sn |>)).
  { rewrite C5. unfold retransmitted, with_unconfirmed. by conn_eq. }
  apply wp_bind, wp_gets. assert (Ust : current_state (conn s5) = RASTA_CONNECTION_UP) by (rewrite E5; exact U). rewrite Ust.
  apply wp_bind. eapply (wp_setc s5); [by apply ok_from_refl|by apply set_state_safe|]. intros s6 [_ S6] D6 C6. apply wp_ret.
  apply (HQ ts1 ts2 t resp news hb s6); [done|done|exact B4|exact Hn|exact B5| | |done].
  - eapply did_after; [exact D02|]. eapply did_after; [exact D3|]. apply (did_trans _ s4 _ [resp]); [done|]. by eapply did_then.
  - trans (conn s5); [|exact E5]. rewrite C6, <- Ust. by destruct (conn s5).
Qed.

(** ** Reading the answer *)

Lemma wp_dispatch p Q s : p_type p <> RASTA_TYPE_CONNREQ -> p_type p <> RASTA_TYPE_CONNRESP ->
  rejection (sending (config s)) (conn s) p = None -> wp (handle_received_packet p) Q s -> wp (sr_receive p) Q s.
Proof. intros H1 H2 H3. unfold wp. by rewrite (dispatch p s H1 H2 H3). Qed.

(** The connection after retransmitted packets with these messages, all confirming [cs]. *)
Record fed (msgs : RastaMessageData) (n cs : Z) (c c' : rasta_connection) : Prop := {
  fd_state : current_state c' = current_state c;
  fd_remote : remote_id c' = remote_id c;
  fd_my : my_id c' = my_id c;
  fd_sn_t : sn_t c' = sn_t c;
  fd_cts_r : cts_r c' = cts_r c;
  fd_send : fifo_send c' = fifo_send c;
  fd_sn_r : sn_r c' = sn_r c + n;
  fd_cs_r : cs_r c <= cs_r c' <= cs;
  fd_receive : fifo_receive c' = accept_into (fifo_receive c) msgs
}.

(** What both sides agree on while the answer of the connection [cx] is read. *)
Record listening (cx : rasta_connection) (y : sys) : Prop := {
  li_ok : sr_ok y;
  li_remote : remote_id cx = my_id (conn y);
  li_my : my_id cx = remote_id (conn y);
  li_window : cs_r (conn y) <= cs_t cx < sn_t (conn y);
  li_cts : cts_r (conn y) = ts_r cx;
  li_time : 0 < t_max (sending (config y));
  li_ids : is_u32 (cs_t cx) /\ is_u32 (ts_r cx)
}.

Lemma listening_ids cx y sn ts : listening cx y -> is_u32 sn -> is_u32 ts ->
  ids_ok (mkIds (remote_id cx) (my_id cx) sn (cs_t cx) ts (ts_r cx)).
Proof.
  intros L Hs Ht. pose proof (ok_conn _ (li_ok _ _ L)) as O. destruct (li_ids _ _ L).
  split; cbn; try done; [rewrite (li_remote _ _ L)|rewrite (li_my _ _ L)]; apply O.
Qed.

Lemma listening_cts cx y type sn ts data p : listening cx y ->
  seen type (mkIds (remote_id cx) (my_id cx) sn (cs_t cx) ts (ts_r cx)) data p ->
  sr_cts_in_seq (conn y) (sending (config y)) p = true /\ cts_r (conn y) = p_confirmed_timestamp p.
Proof.
  intros L P. assert (E : cts_r (conn y) = p_confirmed_timestamp p) by (rewrite (sn_cts _ _ _ _ P); apply L).
  split; [|done]. unfold sr_cts_in_seq. rewrite <- E, Z.ltb_irrefl, Z.sub_diag. change (u32 0) with 0.
  pose proof (li_time _ _ L). case_if; [|done]. case_if; [done|]. by ztests.
Qed.

Lemma listening_next cx y y' msgs n : listening cx y -> did y y' [] -> sr_ok y' -> fed msgs n (cs_t cx) (conn y) (conn y') ->
  listening cx y'.
Proof.
  intros L D S F. split; [done|rewrite (fd_my _ _ _ _ _ F); apply L|rewrite (fd_remote _ _ _ _ _ F); apply L| | | |apply L].
  - rewrite (fd_sn_t _ _ _ _ _ F). pose proof (fd_cs_r _ _ _ _ _ F). pose proof (li_window _ _ L). lia.
  - rewrite (fd_cts_r _ _ _ _ _ F). apply L.
  - rewrite (lf_config _ _ (did_frame _ _ _ D)). apply L.
Qed.

(** One packet of the answer that is in sequence reaches its handler. *)
Lemma listening_step cx y type sn ts data p Q : listening cx y -> is_u32 ts ->
  type = RASTA_TYPE_RETRDATA \/ type = RASTA_TYPE_HB -> sn_r (conn y) = sn ->
  seen type (mkIds (remote_id cx) (my_id cx) sn (cs_t cx) ts (ts_r cx)) data p ->
  (packet_fields p -> sr_sn_in_seq (conn y) p = true -> wp (handle_received_packet p) Q y) -> wp (sr_receive p) Q y.
Proof.
  intros L Hts Hty Hsn P HQ. pose proof (ok_conn _ (li_ok _ _ L)) as O.
  destruct (seen_in_sequence (config y) (channel_context y) _ _ _ p (conn y) P) as (T1 & T2 & Rej & Seq).
  - apply (ok_config _ (li_ok _ _ L)).
  - done.
  - unfold is_type. rewrite (sn_type _ _ _ _ P). by destruct Hty as [-> | ->].
  - apply L.
  - apply L.
  - by symmetry.
  - apply L.
  - apply wp_dispatch; [done..|]. apply HQ; [|done]. eapply seen_fields; [exact P|]. eapply listening_ids; [done| |done].
    rewrite <- Hsn. apply O.
Qed.

Lemma feed_retrdata ctx cx olds : forall news sn Q y, renumbered ctx cx sn olds news -> Forall (retr_packet ctx) olds ->
  listening cx y -> current_state (conn y) = RASTA_CONNECTION_RETRRUN -> sn_r (conn y) = sn -> sn + zlen olds < 2 ^ 32 ->
  (forall y', did y y' [] -> sr_ok y' -> fed (concat (payload <$> olds)) (zlen olds) (cs_t cx) (conn y) (conn y') -> Q tt y') ->
  wp (feed (received_packet ctx <$> news)) Q y.
Proof.
  induction olds as [|old olds IH]; intros [|new news] sn Q y Hn Hall L U Hsn Hw HQ; cbn [renumbered] in Hn; try done.
  - apply wp_ret, HQ; [apply did_refl|apply L|]. split; cbn; try done; [change (zlen (@nil RastaPacket)) with 0; lia| |by rewrite accept_into_nil].
    pose proof (li_window _ _ L). lia.
  - destruct Hn as [(ts & Hts & B) Hn]. apply Forall_cons in Hall as [Hr Hall]. rewrite zlen_cons in *. pose proof (zlen_nonneg olds) as Hz.
    pose proof (built_seen _ _ _ _ _ B) as P. cbn [fmap list_fmap feed]. destruct (payload_retr _ _ Hr) as [Ep Hl].
    destruct (listening_cts cx y _ _ _ _ _ L P) as [Hc He]. pose proof (ok_conn _ (li_ok _ _ L)) as O.
    apply wp_bind. eapply (listening_step cx y); [done|exact Hts|by left|exact Hsn|exact P|]. intros Hf Seq.
    unfold handle_received_packet. rewrite (sn_type _ _ _ _ P). cbn [Z.eqb Pos.eqb].
    apply (retrdata_exact _ (payload old)); [apply L|done| |done|done|done|done|].
    { apply extractMessageData_encode; [by rewrite (sn_data _ _ _ _ P)|unfold PAYLOAD_MAX in Hl; lia]. }
    intros y1 D1 S1 T1.
    assert (F1 : fed (payload old) 1 (cs_t cx) (conn y) (conn y1)).
    { split; try apply T1; [by rewrite (tk_cts_r _ _ _ _ T1)| |]; pose proof (li_window _ _ L).
      - rewrite (tk_sn_r _ _ _ _ T1), (sn_sn _ _ _ _ P). cbn [i_sn]. rewrite Hsn. apply u32_small. pose proof (co_sn_r _ _ _ O). unfold is_u32 in *. lia.
      - rewrite (tk_cs_r _ _ _ _ T1), (sn_cs _ _ _ _ P). cbn [i_cs]. lia. }
    assert (Eu : u32 (sn + 1) = sn + 1) by (apply u32_small; pose proof (co_sn_r _ _ _ O); unfold is_u32 in *; lia).
    apply (IH news (u32 (sn + 1))); [done|done|by eapply listening_next|by rewrite (fd_state _ _ _ _ _ F1)| |lia|].
    { rewrite (fd_sn_r _ _ _ _ _ F1), Eu. lia. }
    intros y2 D2 S2 F2. apply HQ; [by eapply did_after|done|]. pose proof (co_receive_queue _ _ _ O) as Oq. cbn [concat fmap list_fmap].
    destruct F1, F2. split; try congruence; [lia|lia|]. rewrite fd_receive1, fd_receive0. by apply accept_into_app.
Qed.

Lemma wp_feed_app l1 l2 Q y : wp (feed l1) (fun _ => wp (feed l2) Q) y -> wp (feed (l1 ++ l2)) Q y.
Proof.
  revert y. induction l1 as [|p l1 IH]; intros y HW; cbn [app feed] in *; [exact HW|].
  apply wp_bind. unfold wp, mbind, M_bind in HW. unfold wp at 1. destruct (sr_receive p y) as [[r s]|]; [by apply IH|done].
Qed.

(** ** The exchange *)

(** [y] waits for a packet of [x] that [x] has sent before. *)
Record missing (x y : sys) : Prop := {
  ms_x : sr_ok x;
  ms_y : sr_ok y;
  ms_up_x : current_state (conn x) = RASTA_CONNECTION_UP;
  ms_up_y : current_state (conn y) = RASTA_CONNECTION_UP;
  ms_remote : remote_id (conn x) = my_id (conn y);
  ms_my : my_id (conn x) = remote_id (conn y);
  ms_context : channel_context y = channel_context x;
  ms_next : sn_r (conn x) = sn_t (conn y);
  ms_window_x : cs_r (conn x) <= cs_t (conn y) < sn_t (conn x);
  ms_window_y : cs_r (conn y) <= sn_t (conn y);
  ms_time : 0 < t_max (sending (config y));
  ms_room_x : queue_full (fifo_send (conn x)) = false;
  ms_room_y : queue_full (fifo_send (conn y)) = false
}.

(** A data packet of [x] that is ahead of what [y] waits for. *)
Definition ahead (x y : sys) (p : RastaPacket) : Prop := exists i data,
  seen RASTA_TYPE_DATA i data p /\ is_u32 (i_sn i) /\ i_sender i = my_id (conn x) /\ i_receiver i = remote_id (conn x) /\
  sn_r (conn y) < i_sn i <= sn_r (conn y) + send_max (sending (config y)) * 10 /\
  cs_r (conn y) <= i_cs i < sn_t (conn y).

Lemma ask x y p Q : missing x y -> ahead x y p ->
  (forall ts req y1, is_u32 ts -> built (channel_context y) RASTA_TYPE_RETRREQ (ids_at (conn y) ts) [] req ->
     did y y1 [req] -> conn y1 = asking (conn y) -> sr_ok y1 -> Q 0 y1) ->
  wp (sr_receive p) Q y.
Proof.
  intros M (i & d & P & Hu & Hs & Hr & Hsn & Hcs) HQ. pose proof (ok_conn _ (ms_y _ _ M)) as O.
  assert (Ht : p_type p = RASTA_TYPE_DATA) by apply P.
  destruct (seen_accepted (config y) (channel_context y) _ _ _ p (conn y) P) as (T1 & T2 & Rej); [done|done| | | | |done|].
  { unfold is_type. by rewrite Ht. } { rewrite Hs. apply M. } { rewrite Hr. apply M. } { right. lia. }
  apply wp_dispatch; [done..|]. unfold handle_received_packet. rewrite Ht. cbn [Z.eqb Pos.eqb].
  apply gap_exact; [apply M|apply M| |done].
  unfold sr_sn_in_seq, is_type. rewrite Ht. cbn [existsb Z.eqb Pos.eqb orb RASTA_TYPE_DATA]. rewrite (sn_sn _ _ _ _ P). by ztests.
Qed.

Lemma reply x y pks ts req Q : missing x y -> unconfirmed (channel_context x) (conn x) pks -> is_u32 ts ->
  built (channel_context x) RASTA_TYPE_RETRREQ (ids_at (conn y) ts) [] req ->
  (forall ts1 ts2 t resp news hb x1, is_u32 ts1 -> is_u32 ts2 ->
     let p := received_packet (channel_context x) req in
     let c := asked p (conn x) in let sn := u32 (sn_t c + 1) in
     built (channel_context x) RASTA_TYPE_RETRRESP (ids_at c ts1) [] resp ->
     renumbered (channel_context x) c sn (drop_confirmed (cs_t (conn y)) pks) news ->
     built (channel_context x) RASTA_TYPE_HB (mkIds (remote_id c) (my_id c) (count_up sn news) (cs_t c) ts2 (ts_r c)) [] hb ->
     did x x1 (resp :: news ++ [hb]) ->
     conn x1 = retransmitted (channel_context x) news t (c <| sn_t := sn |>) -> sr_ok x1 -> Q 0 x1) ->
  wp (sr_receive (received_packet (channel_context x) req)) Q x.
Proof.
  intros M U Hts B HQ. pose proof (built_seen _ _ _ _ _ B) as P. set (p := received_packet (channel_context x) req) in *.
  pose proof (ok_conn _ (ms_x _ _ M)) as O. assert (Ht : p_type p = RASTA_TYPE_RETRREQ) by apply P.
  destruct (seen_in_sequence (config x) (channel_context x) _ _ _ p (conn x) P) as (T1 & T2 & Rej & Seq).
  - apply (ok_config _ (ms_x _ _ M)).
  - done.
  - unfold is_type. by rewrite Ht.
  - symmetry. apply M.
  - symmetry. apply M.
  - symmetry. apply M.
  - apply M.
  - apply wp_dispatch; [done..|]. unfold handle_received_packet. rewrite Ht. cbn [Z.eqb Pos.eqb].
    apply (retrreq_exact p pks); [apply M| |apply M|done|apply M|done|].
    + eapply seen_fields; [exact P|]. eapply conn_ok_ids; [apply (ok_conn _ (ms_y _ _ M))|done].
    + rewrite (sn_cs _ _ _ _ P). exact HQ.
Qed.

(** After the response [y] listens for the packets that follow it. *)
Lemma read_response x y y1 ts req ts1 resp Q : missing x y -> is_u32 ts -> is_u32 ts1 ->
  sn_t (conn x) + 1 < 2 ^ 32 -> sn_t (conn y) + 1 < 2 ^ 32 ->
  let ctx := channel_context y in let c := asked (received_packet ctx req) (conn x) in
  built ctx RASTA_TYPE_RETRREQ (ids_at (conn y) ts) [] req ->
  built ctx RASTA_TYPE_RETRRESP (ids_at c ts1) [] resp ->
  conn y1 = asking (conn y) -> sr_ok y1 -> did y y1 [req] ->
  (forall yr, did y1 yr [] -> listening c yr -> sn_r (conn yr) = sn_t (conn x) + 1 ->
     took (received_packet ctx resp) [] ((asking (conn y)) <| current_state := RASTA_CONNECTION_RETRRUN |>) (conn yr) ->
     sn_t (conn yr) = sn_t (conn y) + 1 -> Q 0 yr) ->
  wp (sr_receive (received_packet ctx resp)) Q y1.
Proof.
  intros M Hts Hts1 Hw Hwy ctx c B Bp C1 S1 D1 HQ.
  pose proof (ok_conn _ (ms_x _ _ M)) as Ox. pose proof (ok_conn _ (ms_y _ _ M)) as Oy. pose proof (ok_conn _ S1) as O1.
  pose proof (built_seen _ _ _ _ _ B) as Pq. pose proof (built_seen _ _ _ _ _ Bp) as Pp.
  pose proof (did_context _ _ _ D1) as X1. pose proof (lf_config _ _ (did_frame _ _ _ D1)) as G1.
  pose proof (co_sn_t _ _ _ Ox) as Tx. pose proof (co_sn_t _ _ _ Oy) as Ty. unfold is_u32 in Tx, Ty.
  assert (Ecs : cs_t c = sn_t (conn y)) by exact (sn_sn _ _ _ _ Pq). assert (Ets : ts_r c = ts) by exact (sn_ts _ _ _ _ Pq).
  assert (E1 : sn_t (conn y1) = sn_t (conn y) + 1).
  { rewrite C1. change (u32 (sn_t (conn y) + 1) = sn_t (conn y) + 1). apply u32_small. unfold is_u32. lia. }
  assert (W1 : cs_r (conn y1) = cs_r (conn y)) by (by rewrite C1). pose proof (ms_window_y _ _ M) as Wy.
  assert (Hty : p_type (received_packet ctx resp) = RASTA_TYPE_RETRRESP) by apply Pp.
  destruct (seen_accepted (config y1) (channel_context y1) _ _ _ (received_packet ctx resp) (conn y1) Pp) as (T1 & T2 & Rej).
  { done. } { exact (co_sn_t _ _ _ Ox). } { unfold is_type. by rewrite Hty. }
  { rewrite C1. exact (ms_my _ _ M). } { rewrite C1. exact (ms_remote _ _ M). } { by left. }
  { change (i_cs (ids_at c ts1)) with (cs_t c). lia. }
  apply wp_dispatch; [done..|]. unfold handle_received_packet. rewrite Hty. cbn [Z.eqb Pos.eqb].
  apply retrresp_exact; [done| |by rewrite C1|].
  { eapply seen_fields; [exact Pp|]. eapply conn_ok_ids; [|done].
    assert (Hf : packet_fields (received_packet ctx req)) by (eapply seen_fields; [exact Pq|by eapply conn_ok_ids]).
    exact (proj1 (cs_r_safe _ Hf _ _ _ (proj1 (attrs_safe _ Hf _ _ _ Ox)))). }
  intros yr Dr Sr Tr. rewrite C1 in Tr. apply HQ; [done| | |done|].
  - split; [done| | | | | |].
    + rewrite (tk_my _ _ _ _ Tr). exact (ms_remote _ _ M).
    + rewrite (tk_remote _ _ _ _ Tr). exact (ms_my _ _ M).
    + rewrite (tk_cs_r _ _ _ _ Tr), (tk_sn_t _ _ _ _ Tr), (sn_cs _ _ _ _ Pp), <- C1.
      change (cs_t c <= cs_t c < sn_t (conn y1)). lia.
    + rewrite (tk_cts_r _ _ _ _ Tr). exact (sn_cts _ _ _ _ Pp).
    + rewrite (lf_config _ _ (did_frame _ _ _ Dr)), G1. apply M.
    + rewrite Ecs, Ets. split; [apply Oy|done].
  - rewrite (tk_sn_r _ _ _ _ Tr), (sn_sn _ _ _ _ Pp). apply u32_small. change (is_u32 (sn_t (conn x) + 1)). unfold is_u32. lia.
  - rewrite (tk_sn_t _ _ _ _ Tr). rewrite <- E1, C1. done.
Qed.

(** What [y] is after the whole answer. *)
Record caught_up (x y : sys) (lost : list RastaPacket) (y2 : sys) : Prop := {
  cu_ok : sr_ok y2;
  cu_state : current_state (conn y2) = RASTA_CONNECTION_UP;
  cu_remote : remote_id (conn y2) = remote_id (conn y);
  cu_my : my_id (conn y2) = my_id (conn y);
  cu_sn_t : sn_t (conn y2) = sn_t (conn y) + 1;
  cu_sn_r : sn_r (conn y2) = sn_t (conn x) + zlen lost + 2;
  cu_cs_t : cs_t (conn y2) = sn_t (conn x) + zlen lost + 1;
  cu_cs_r : cs_r (conn y2) = sn_t (conn y);
  cu_receive : fifo_receive (conn y2) = accept_into (fifo_receive (conn y)) (concat (payload <$> lost))
}.

Lemma read_answer x y y1 ts req ts1 ts2 resp news hb lost Q : missing x y -> is_u32 ts -> is_u32 ts1 -> is_u32 ts2 ->
  sn_t (conn x) + zlen lost + 3 < 2 ^ 32 -> sn_t (conn y) + 1 < 2 ^ 32 -> Forall (retr_packet (channel_context y)) lost ->
  let ctx := channel_context y in let c := asked (received_packet ctx req) (conn x) in let sn := u32 (sn_t c + 1) in
  built ctx RASTA_TYPE_RETRREQ (ids_at (conn y) ts) [] req ->
  built ctx RASTA_TYPE_RETRRESP (ids_at c ts1) [] resp ->
  renumbered ctx c sn lost news ->
  built ctx RASTA_TYPE_HB (mkIds (remote_id c) (my_id c) (count_up sn news) (cs_t c) ts2 (ts_r c)) [] hb ->
  conn y1 = asking (conn y) -> sr_ok y1 -> did y y1 [req] ->
  (forall y2, did y1 y2 [] -> caught_up x y lost y2 -> Q tt y2) ->
  wp (feed (received_packet ctx <$> resp :: news ++ [hb])) Q y1.
Proof.
  intros M Hts Hts1 Hts2 Hw Hwy Hl ctx c sn B Bp Hn Bh C1 S1 D1 HQ.
  pose proof (zlen_nonneg lost) as Hz. pose proof (co_sn_t _ _ _ (ok_conn _ (ms_x _ _ M))) as Tx. unfold is_u32 in Tx.
  assert (Esn : sn = sn_t (conn x) + 1) by (unfold sn; change (sn_t c) with (sn_t (conn x)); apply u32_small; unfold is_u32; lia).
  assert (Ecs : cs_t c = sn_t (conn y)) by exact (sn_sn _ _ _ _ (built_seen _ _ _ _ _ B)).
  cbn [fmap list_fmap feed]. apply wp_bind, (read_response x y y1 ts req ts1 resp); [done|done|done|lia|done|done|done|done|done|done|].
  intros yr Dr L Er Tr Et. pose proof (renumbered_zlen _ _ _ _ _ Hn) as Ez.
  rewrite fmap_app. apply wp_feed_app. apply (feed_retrdata _ c lost news sn); [done|done|done| |lia|lia|].
  { by rewrite (tk_state _ _ _ _ Tr). }
  intros yd Dd Sd Fd. pose proof (listening_next _ _ _ _ _ L Dd Sd Fd) as Ld.
  assert (Ec : count_up sn news = sn_t (conn x) + 1 + zlen lost) by (rewrite count_up_fits; lia).
  cbn [fmap list_fmap feed]. apply wp_bind. pose proof (built_seen _ _ _ _ _ Bh) as Ph.
  destruct (listening_cts c yd _ _ _ _ _ Ld Ph) as [Hc _].
  eapply (listening_step c yd); [done|exact Hts2|by right| |exact Ph|].
  { rewrite (fd_sn_r _ _ _ _ _ Fd). lia. }
  intros Hf Seq. unfold handle_received_packet. rewrite (sn_type _ _ _ _ Ph). cbn [Z.eqb Pos.eqb].
  apply hb_run_exact; [done|done|done|done|by rewrite (fd_state _ _ _ _ _ Fd), (tk_state _ _ _ _ Tr)| |].
  { rewrite (fd_send _ _ _ _ _ Fd), (tk_send _ _ _ _ Tr). exact (ms_room_y _ _ M). }
  intros y2 D2 S2 T3. apply wp_ret. apply HQ; [eapply did_after; [exact Dr|]; by eapply did_after|].
  split; [done|by rewrite (tk_state _ _ _ _ T3)| | | | | | |].
  - etrans; [exact (tk_remote _ _ _ _ T3)|]. exact (eq_trans (fd_remote _ _ _ _ _ Fd) (tk_remote _ _ _ _ Tr)).
  - etrans; [exact (tk_my _ _ _ _ T3)|]. exact (eq_trans (fd_my _ _ _ _ _ Fd) (tk_my _ _ _ _ Tr)).
  - etrans; [exact (tk_sn_t _ _ _ _ T3)|]. etrans; [exact (fd_sn_t _ _ _ _ _ Fd)|exact Et].
  - rewrite (tk_sn_r _ _ _ _ T3), (sn_sn _ _ _ _ Ph). cbn [i_sn]. rewrite Ec, u32_small by (unfold is_u32; lia). lia.
  - rewrite (tk_cs_t _ _ _ _ T3), (sn_sn _ _ _ _ Ph). cbn [i_sn]. lia.
  - rewrite (tk_cs_r _ _ _ _ T3), (sn_cs _ _ _ _ Ph). exact Ecs.
  - rewrite (tk_receive _ _ _ _ T3), accept_into_nil. etrans; [exact (fd_receive _ _ _ _ _ Fd)|].
    by rewrite (tk_receive _ _ _ _ Tr), accept_into_nil.
Qed.

(** The packet [p] makes [y] ask; [x] answers with a response, the packets [lost]
    under new numbers, and a heartbeat; [y] reads the answer. *)
Definition exchanged (x y : sys) (p : RastaPacket) (lost : list RastaPacket) (x1 y2 : sys) : Prop :=
  let ctx := channel_context x in
  exists y1 req resp news hb,
    sr_receive p y = Ok (0, y1) /\ sent y y1 [req] /\ p_type req = RASTA_TYPE_RETRREQ /\
    sr_receive (received_packet ctx req) x = Ok (0, x1) /\ sent x x1 (resp :: news ++ [hb]) /\
    feed (received_packet ctx <$> resp :: news ++ [hb]) y1 = Ok (tt, y2) /\ sent y1 y2 [] /\
    Forall (fun pk => p_type pk = RASTA_TYPE_RETRDATA) news /\ payload <$> news = payload <$> lost /\
    q_items (fifo_retransmission (conn x1)) = wire ctx <$> news.

Lemma renumbered_payload ctx c olds : forall sn news, renumbered ctx c sn olds news ->
  Forall (fun pk => p_type pk = RASTA_TYPE_RETRDATA) news /\ payload <$> news = payload <$> olds.
Proof.
  induction olds as [|old olds IH]; intros sn [|new news]; cbn [renumbered]; try done.
  intros [(ts & _ & B) Hn]. destruct (IH _ _ Hn) as [I1 I2]. split.
  - constructor; [apply B|done].
  - cbn [fmap list_fmap]. f_equal; [|exact I2]. unfold payload, extractMessageData. by rewrite (built_data _ _ _ _ _ B).
Qed.

(** What [x] is after its answer. *)
Record gave (x y : sys) (lost : list RastaPacket) (x1 : sys) : Prop := {
  gv_ok : sr_ok x1;
  gv_state : current_state (conn x1) = RASTA_CONNECTION_UP;
  gv_remote : remote_id (conn x1) = remote_id (conn x);
  gv_my : my_id (conn x1) = my_id (conn x);
  gv_sn_t : sn_t (conn x1) = sn_t (conn x) + zlen lost + 2;
  gv_sn_r : sn_r (conn x1) = sn_t (conn y) + 1;
  gv_cs_t : cs_t (conn x1) = sn_t (conn y);
  gv_cs_r : cs_r (conn x1) = cs_t (conn y)
}.

Lemma retransmitted_sn ctx c news t : 0 <= sn_t c -> sn_t c + zlen news + 3 < 2 ^ 32 ->
  u32 (count_up (u32 (sn_t c + 1)) news + 1) = sn_t (retransmitted ctx news t (c <| sn_t := u32 (sn_t c + 1) |>)) /\
  u32 (count_up (u32 (sn_t c + 1)) news + 1) = sn_t c + zlen news + 2.
Proof.
  intros Hs Hn. pose proof (zlen_nonneg news). split; [done|]. rewrite (u32_small (sn_t c + 1)) by (unfold is_u32; lia).
  rewrite count_up_fits by lia. rewrite u32_small by (unfold is_u32; lia). lia.
Qed.

Lemma reply_gave x y ts req lost news t x1 : missing x y -> sn_t (conn x) + zlen lost + 3 < 2 ^ 32 -> sn_t (conn y) + 1 < 2 ^ 32 ->
  let ctx := channel_context x in let c := asked (received_packet ctx req) (conn x) in
  built ctx RASTA_TYPE_RETRREQ (ids_at (conn y) ts) [] req -> zlen news = zlen lost ->
  conn x1 = retransmitted ctx news t (c <| sn_t := u32 (sn_t c + 1) |>) -> sr_ok x1 -> gave x y lost x1.
Proof.
  intros M Hw Hwy ctx c B En C S. pose proof (built_seen _ _ _ _ _ B) as P.
  pose proof (co_sn_t _ _ _ (ok_conn _ (ms_x _ _ M))) as Tx. pose proof (co_sn_t _ _ _ (ok_conn _ (ms_y _ _ M))) as Ty. unfold is_u32 in Tx, Ty.
  destruct (retransmitted_sn ctx c news t) as [E1 E2]; [change (0 <= sn_t (conn x)); lia|change (sn_t (conn x) + zlen news + 3 < 2 ^ 32); lia|].
  split; [done|rewrite C; exact (ms_up_x _ _ M)|by rewrite C|by rewrite C| | | |].
  - rewrite C, <- E1, E2, En. done.
  - rewrite C. change (u32 (p_sequence_number (received_packet ctx req) + 1) = sn_t (conn y) + 1). rewrite (sn_sn _ _ _ _ P).
    apply u32_small. change (is_u32 (sn_t (conn y) + 1)). unfold is_u32. lia.
  - rewrite C. exact (sn_sn _ _ _ _ P).
  - rewrite C. exact (sn_cs _ _ _ _ P).
Qed.

Lemma gave_in_step x y lost x1 y2 : missing x y -> gave x y lost x1 -> caught_up x y lost y2 -> in_step x1 y2 /\ in_step y2 x1.
Proof.
  intros M [] []. pose proof (ms_window_x _ _ M). pose proof (zlen_nonneg lost). destruct M. split; split; try done; try congruence; lia.
Qed.

Lemma exchange x y p pks : missing x y -> ahead x y p -> unconfirmed (channel_context x) (conn x) pks ->
  sn_t (conn x) + zlen pks + 3 < 2 ^ 32 -> sn_t (conn y) + 1 < 2 ^ 32 ->
  let lost := drop_confirmed (cs_t (conn y)) pks in
  exists x1 y2, exchanged x y p lost x1 y2 /\ gave x y lost x1 /\ caught_up x y lost y2.
Proof.
  intros M A U Hw Hwy lost. pose proof (ms_context _ _ M) as Hx. pose proof (zlen_nonneg lost) as Hz.
  assert (Hl : zlen lost <= zlen pks /\ Forall (retr_packet (channel_context x)) lost).
  { destruct (drop_confirmed_suffix (cs_t (conn y)) pks) as [pre E]. fold lost in E. destruct U as [_ U]. rewrite E in U |- *.
    rewrite zlen_app. pose proof (zlen_nonneg pre). apply Forall_app in U as [_ U]. split; [lia|done]. }
  destruct Hl as [Hl Fl].
  assert (W1 : wp (sr_receive p) (fun r y1 => r = 0 /\ exists ts req, is_u32 ts /\
    built (channel_context y) RASTA_TYPE_RETRREQ (ids_at (conn y) ts) [] req /\ did y y1 [req] /\
    conn y1 = asking (conn y) /\ sr_ok y1) y).
  { apply (ask x y); [done..|]. intros ts req y1 Hts B D C S. split; [done|]. by exists ts, req. }
  apply wp_run in W1 as (? & y1 & R1 & -> & ts & req & Hts & B & D1 & C1 & S1). pose proof B as Bx. rewrite Hx in Bx.
  destruct (wp_run _ _ _ (reply x y pks ts req (fun r x1 => r = 0 /\ exists ts1 ts2 t resp news hb, is_u32 ts1 /\ is_u32 ts2 /\
      let c := asked (received_packet (channel_context x) req) (conn x) in let sn := u32 (sn_t c + 1) in
      built (channel_context x) RASTA_TYPE_RETRRESP (ids_at c ts1) [] resp /\ renumbered (channel_context x) c sn lost news /\
      built (channel_context x) RASTA_TYPE_HB (mkIds (remote_id c) (my_id c) (count_up sn news) (cs_t c) ts2 (ts_r c)) [] hb /\
      did x x1 (resp :: news ++ [hb]) /\ conn x1 = retransmitted (channel_context x) news t (c <| sn_t := sn |>) /\ sr_ok x1)
    M U Hts Bx ltac:(intros ts1 ts2 t resp news hb x1; intros; split; [done|]; by exists ts1, ts2, t, resp, news, hb)))
    as (? & x1 & R2 & -> & ts1 & ts2 & t & resp & news & hb & Hts1 & Hts2 & B1 & B2 & B3 & D2 & C2 & S2).
  assert (W3 : wp (feed (received_packet (channel_context x) <$> resp :: news ++ [hb]))
    (fun _ y2 => did y1 y2 [] /\ caught_up x y lost y2) y1).
  { rewrite <- Hx in *. apply (read_answer x y y1 ts req ts1 ts2 resp news hb lost); try done. lia. }
  apply wp_run in W3 as ([] & y2 & R3 & D3 & K). destruct (renumbered_payload _ _ _ _ _ B2) as [N1 N2].
  exists x1, y2. split; [|split; [|exact K]].
  - exists y1, req, resp, news, hb. split_and!; [done|apply D1|apply B|done|apply D2|done|apply D3|done|done|by rewrite C2].
  - eapply (reply_gave x y ts req lost news t); [done|lia|done|done|by eapply renumbered_zlen|done|done].
Qed.

(** C4. Recovery: the endpoint [y] receives a data packet that is ahead of the
    one it waits for, while the last packet it confirms is still in the
    retransmission queue of its peer [x], followed by the packets [lost].  Then
    one exchange of a request, a response, the retransmitted packets and a
    heartbeat brings the messages of all of them to the receive queue of [y],
    in order and once, and both endpoints are in step again. *)
Theorem retransmission_recovers x y p old last lost : missing x y -> ahead x y p ->
  unconfirmed (channel_context x) (conn x) (old ++ last :: lost) ->
  p_sequence_number last = cs_t (conn y) -> Forall (fun pk => p_sequence_number pk <> cs_t (conn y)) old ->
  sn_t (conn x) + zlen (old ++ last :: lost) + 3 < 2 ^ 32 -> sn_t (conn y) + 1 < 2 ^ 32 ->
  queue_size (fifo_receive (conn y)) + zlen (concat (payload <$> lost)) <= q_max (fifo_receive (conn y)) ->
  exists x1 y2, exchanged x y p lost x1 y2 /\
    q_items (fifo_receive (conn y2)) = q_items (fifo_receive (conn y)) ++ concat (payload <$> lost) /\
    in_step x1 y2 /\ in_step y2 x1.
Proof.
  intros M A U Hlast Hold Hw Hwy Hroom. destruct (exchange x y p _ M A U Hw Hwy) as (x1 & y2 & E & G & K).
  assert (El : drop_confirmed (cs_t (conn y)) (old ++ last :: lost) = lost).
  { clear -Hlast Hold. induction Hold as [|pk old Hpk _ IH]; cbn [app drop_confirmed]; [by ztests|]. ztests. exact IH. }
  rewrite El in E, G, K. exists x1, y2. split; [done|]. split; [|by eapply gave_in_step].
  rewrite (cu_receive _ _ _ _ K). unfold accept_into. cbn [q_items]. f_equal. apply take_ge. unfold zlen in Hroom. lia.
Qed.

(** C5. Loss: when no packet in the retransmission queue of [x] carries the
    number that [y] confirms, as when that packet was a heartbeat or was
    confirmed before, removing the confirmed packets empties the queue although
    [y] confirmed none of them.  The same exchange then retransmits nothing: both
    endpoints are in step again, and the missing messages never arrive. *)
Theorem retransmission_loses x y p pks : missing x y -> ahead x y p -> unconfirmed (channel_context x) (conn x) pks ->
  Forall (fun pk => cs_t (conn y) < p_sequence_number pk) pks ->
  sn_t (conn x) + zlen pks + 3 < 2 ^ 32 -> sn_t (conn y) + 1 < 2 ^ 32 ->
  exists x1 y2, exchanged x y p [] x1 y2 /\ fifo_receive (conn y2) = fifo_receive (conn y) /\
    q_items (fifo_retransmission (conn x1)) = [] /\ in_step x1 y2 /\ in_step y2 x1.
Proof.
  intros M A U Hnone Hw Hwy. destruct (exchange x y p _ M A U Hw Hwy) as (x1 & y2 & E & G & K).
  assert (El : drop_confirmed (cs_t (conn y)) pks = []).
  { clear -Hnone. induction Hnone as [|pk pks Hpk _ IH]; cbn [drop_confirmed]; [done|]. ztests. exact IH. }
  rewrite El in E, G, K. exists x1, y2. split; [done|]. split; [|split; [|by eapply gave_in_step]].
  - by rewrite (cu_receive _ _ _ _ K), accept_into_nil.
  - destruct E as (? & ? & ? & news & ? & E). destruct_and! E. by match goal with H : payload <$> news = _ |- _ => destruct news end.
Qed.
End Recovery.

(** ** Witnesses *)

(** An endpoint that has sent the packets 6 to 8 and holds [pks] as unconfirmed;
    its peer has packet 6 and is about to get packet 8. *)
Definition demo_holder (pks : list RastaPacket) : sys := (demo_sys RASTA_ROLE_SERVER RASTA_CONNECTION_UP 7)
  <| conn ::= fun c => c <| my_id := 0x61 |> <| remote_id := 0x60 |> <| sn_t := 9 |> <| cs_r := 5 |>
                         <| fifo_retransmission := mkQueue 20 (wire demo_ctx <$> pks) |> |>.
Definition demo_waiting : sys := demo_sys RASTA_ROLE_CLIENT RASTA_CONNECTION_UP 7.
Definition demo_gap : RastaPacket := received_packet demo_ctx (demo_inner 8).

Lemma demo_inner_retr sn : is_u32 sn -> retr_packet demo_ctx (demo_inner sn).
Proof.
  intros Hs. split; [by apply demo_inner_wf|]. exists [[255]]. split; [reflexivity|]. split; [|vm_compute; discriminate].
  repeat constructor; unfold is_u8; lia.
Qed.

Lemma demo_missing pks : (length pks <= 20)%nat -> Forall (retr_packet demo_ctx) pks ->
  missing (demo_holder pks) demo_waiting /\ unconfirmed demo_ctx (conn (demo_holder pks)) pks.
Proof.
  intros Hl Hr. assert (S7 : is_u32 7) by (split; zle).
  assert (U : unconfirmed demo_ctx (conn (demo_holder pks)) pks) by (by split).
  assert (Sx : sr_ok (demo_holder pks)).
  { destruct (demo_sr_ok RASTA_ROLE_SERVER RASTA_CONNECTION_UP 7 S7) as [[] R C O]. split; [by split|exact R|exact C|].
    destruct O. split; try done; try (split; zle).
    - split; [split; zle|]. change (zlen (wire demo_ctx <$> pks) <= 20). unfold zlen. rewrite length_fmap. lia.
    - by exists pks. }
  split; [|done]. split; try reflexivity; [exact Sx|by apply demo_sr_ok|..]; vm_compute; repeat split; discriminate.
Qed.

Lemma demo_ahead pks : ahead (demo_holder pks) demo_waiting demo_gap.
Proof.
  exists (mkIds 0x60 0x61 8 6 1000 960), [1; 0; 255].
  split; [by split|]. split; [split; zle|]. split; [reflexivity|]. split; [reflexivity|].
  split; (vm_compute; split; discriminate || reflexivity).
Qed.

Lemma retransmission_recovers_witness : let x := demo_holder [demo_inner 6; demo_inner 7; demo_inner 8] in
  missing x demo_waiting /\ exists x1 y2, exchanged (H := udp) x demo_waiting demo_gap [demo_inner 7; demo_inner 8] x1 y2 /\
    q_items (fifo_receive (conn y2)) = [] ++ concat (payload <$> [demo_inner 7; demo_inner 8]) /\
    in_step x1 y2 /\ in_step y2 x1.
Proof.
  intros x. assert (F : Forall (retr_packet demo_ctx) [demo_inner 6; demo_inner 7; demo_inner 8]).
  { repeat (apply Forall_cons; split; [apply demo_inner_retr; split; zle|]). apply Forall_nil. exact I. }
  destruct (demo_missing [demo_inner 6; demo_inner 7; demo_inner 8] ltac:(cbn; lia) F) as [M U]. split; [exact M|].
  assert (H1 : Forall (fun pk => p_sequence_number pk <> cs_t (conn demo_waiting)) []) by (apply Forall_nil; exact I).
  assert (H2 : sn_t (conn x) + zlen ([] ++ [demo_inner 6; demo_inner 7; demo_inner 8]) + 3 < 2 ^ 32) by reflexivity.
  assert (H3 : sn_t (conn demo_waiting) + 1 < 2 ^ 32) by reflexivity.
  assert (H4 : queue_size (fifo_receive (conn demo_waiting)) + zlen (concat (payload <$> [demo_inner 7; demo_inner 8])) <=
    q_max (fifo_receive (conn demo_waiting))) by (vm_compute; discriminate).
  exact (retransmission_recovers (H := udp) x demo_waiting demo_gap [] (demo_inner 6) [demo_inner 7; demo_inner 8]
    M (demo_ahead _) U eq_refl H1 H2 H3 H4).
Defined.

Lemma retransmission_loses_witness : let x := demo_holder [demo_inner 7; demo_inner 8] in
  missing x demo_waiting /\ exists x1 y2, exchanged (H := udp) x demo_waiting demo_gap [] x1 y2 /\
    fifo_receive (conn y2) = fifo_receive (conn demo_waiting) /\
    q_items (fifo_retransmission (conn x1)) = [] /\ in_step x1 y2 /\ in_step y2 x1.
Proof.
  intros x. assert (F : Forall (retr_packet demo_ctx) [demo_inner 7; demo_inner 8]).
  { repeat (apply Forall_cons; split; [apply demo_inner_retr; split; zle|]). apply Forall_nil. exact I. }
  destruct (demo_missing [demo_inner 7; demo_inner 8] ltac:(cbn; lia) F) as [M U]. split; [exact M|].
  assert (H1 : Forall (fun pk => cs_t (conn demo_waiting) < p_sequence_number pk) [demo_inner 7; demo_inner 8]).
  { repeat (apply Forall_cons; split; [reflexivity|]). apply Forall_nil. exact I. }
  assert (H2 : sn_t (conn x) + zlen [demo_inner 7; demo_inner 8] + 3 < 2 ^ 32) by reflexivity.
  assert (H3 : sn_t (conn demo_waiting) + 1 < 2 ^ 32) by reflexivity.
  exact (retransmission_loses (H := udp) x demo_waiting demo_gap _ M (demo_ahead _) U H1 H2 H3).
Defined.
