(* ===== verification/Network.v ===== *)
(** * Two endpoints and the network between them

    A network that loses, repeats, reorders and delays what two endpoints send,
    and may join datagrams as a stream does.  [network_ok] is its invariant:
    both endpoints satisfy theirs, and all that was ever sent are frames the
    other endpoint can take. *)

From stdpp Require Import base numbers list relations.
From Stdlib Require Import ZArith Lia.
From S2P Require Import Prelude.
From S2P Require Import Fifo.
From S2P Require Import Crc.
From S2P Require Import Hashing.
From S2P Require Import Packet.
From S2P Require Import Factory.
From S2P Require Import DeferQueue.
From S2P Require Import World.
From S2P Require Import Config.
From S2P Require Import State.
From S2P Require Import Sample.
From S2P Require Import Transport.
From S2P Require Import Redundancy.
From S2P Require Import Connection.
From S2P Require Import Retransmission.
From S2P Require Import Handlers.
From S2P Require Import Session.
From S2P Require Import Events.
From S2P Require Import EventLoop.
From S2P Require Import Rasta.
From S2P Require Import Service.

Local Open Scope Z_scope.
Local Open Scope record_scope.

Record network := mkNetwork { near : sys; far : sys }.

(** The same pair seen from the other side. *)
Definition mirror (n : network) : network := mkNetwork (far n) (near n).

(** Data arrives, as the payload of the next receive call. *)
Definition arrive (sender : list Z * Z) (data : list Z) (s : sys) : sys :=
  s <| env ::= fun w => w <| inbox ::= fun l => l ++ [(sender, data)] |> |>.

(** Both sides use the same safety code and the same check code. *)
Record compatible (a b : sys) : Prop := {
  same_context : channel_context a = channel_context b;
  same_crc : crc_type (redundancy (config a)) = crc_type (redundancy (config b))
}.

Section Network.
Context `{TransportOk}.

(** A step of the near side: the application does something, or datagrams the
    far side has sent at any time arrive, from whatever address.  The network
    drops what does not fit the receive buffer. *)
Inductive near_step : network -> network -> Prop :=
| step_perform (App : Application) op n s' : ApplicationOk App (config (near n)) -> allowed (config (near n)) op -> perform op (near n) = Ok (tt, s') ->
    near_step n (mkNetwork s' (far n))
| step_arrive sender ds n : Forall (fun d => d ∈ trace (env (far n))) ds ->
    zlen (concat (out_data <$> ds)) <= MAX_DEFER_QUEUE_MSG_SIZE ->
    near_step n (mkNetwork (arrive sender (concat (out_data <$> ds)) (near n)) (far n)).

Inductive net_step : network -> network -> Prop :=
| step_near n n' : near_step n n' -> net_step n n'
| step_far n n' : near_step (mirror n) n' -> net_step n (mirror n').

(** Everything that was sent is a frame of a packet. *)
Definition well_spoken (s : sys) : Prop := Forall (fun d => spoken s (out_data d)) (trace (env s)).

Record network_ok (n : network) : Prop := {
  no_near : endpoint_ok (near n);
  no_far : endpoint_ok (far n);
  no_compatible : compatible (near n) (far n);
  no_near_spoken : well_spoken (near n);
  no_far_spoken : well_spoken (far n)
}.

Lemma mirror_ok n : network_ok n -> network_ok (mirror n).
Proof. intros [A B [E1 E2] W1 W2]. by split. Qed.

Lemma spoken_compatible a b bs : compatible a b -> spoken b bs -> spoken a bs.
Proof. intros [E1 E2]. unfold spoken, sendable. by rewrite E1, E2. Qed.

Lemma said_spoken s s' : kept s s' -> well_spoken s -> well_spoken s'.
Proof.
  intros K W. destruct (kp_said _ _ K) as (l & R & Hl). unfold well_spoken. rewrite R. apply Forall_app.
  split; (eapply Forall_impl; [eassumption|]); cbn; intros d; unfold spoken, sendable;
    by rewrite (kp_config _ _ K), (kp_context _ _ K).
Qed.

Lemma frames_tame a b ds : endpoint_ok a -> compatible a b -> well_spoken b -> Forall (fun d => d ∈ trace (env b)) ds ->
  zlen (concat (out_data <$> ds)) <= MAX_DEFER_QUEUE_MSG_SIZE -> tame a (concat (out_data <$> ds)).
Proof.
  intros E C W Hd Hl. split; [done|]. eexists. split; [done|]. apply Forall_fmap. eapply Forall_impl; [exact Hd|].
  cbn. intros d Hin. unfold well_spoken in W. rewrite Forall_forall in W. apply spoken_good; [apply E|].
  eapply spoken_compatible; [done|]. by apply W.
Qed.

Lemma arrive_ok sender data s : endpoint_ok s -> tame s data -> endpoint_ok (arrive sender data s).
Proof.
  intros E T. eapply endpoint_upheld; [|exact E|done|].
  - by split.
  - unfold arrive. fields. apply Forall_app. split; [apply E|by constructor].
Qed.

Lemma near_step_ok n n' : near_step n n' -> network_ok n -> network_ok n'.
Proof.
  intros St [A B [E1 E2] W1 W2]. destruct St as [App op n s' AppOk Ha Hp|sender ds n Hd Hl]; cbn in *.
  - pose proof (perform_kept op _ A eq_refl Ha) as K. unfold runs in K. rewrite Hp in K.
    split; cbn; [apply K|done| |by eapply said_spoken|done].
    split; [by rewrite (kp_context _ _ K)|by rewrite (kp_config _ _ K)].
  - split; cbn; [|done|by split|exact W1|done]. apply arrive_ok; [done|]. by eapply frames_tame.
Qed.

Lemma net_step_ok n n' : net_step n n' -> network_ok n -> network_ok n'.
Proof.
  intros [m m' St|m m' St] N; [by eapply near_step_ok|]. apply mirror_ok. by eapply near_step_ok, mirror_ok.
Qed.

Lemma network_invariant n n' : rtc net_step n n' -> network_ok n -> network_ok n'.
Proof. induction 1; [done|]. intros N. apply IHrtc. by eapply net_step_ok. Qed.

End Network.

(** ** Witness *)

(** The server the client [demo_up] talks to; it has sent one data packet. *)
Definition demo_peer : sys := demo_up
  <| conn ::= fun c => c <| role := RASTA_ROLE_SERVER |> <| my_id := 0x61 |> <| remote_id := 0x60 |> |>
  <| env ::= fun w => w <| trace := [mkDatagram 3 (Some (demo_address, 8888)) demo_frame] |> |>.

Definition demo_network : network := mkNetwork demo_up demo_peer.

Lemma demo_peer_endpoint : endpoint_ok demo_peer.
Proof.
  set (f := fun c => c <| role := RASTA_ROLE_SERVER |> <| my_id := 0x61 |> <| remote_id := 0x60 |>).
  pose (s1 := demo_up <| conn ::= f |>).
  assert (S1 : sr_ok s1).
  { apply (sr_ok_update demo_up s1 [] f demo_up_ok); [apply did_conn|done|]. unfold f.
    intros ? ? ? []. split; [split; fields; try done; split; zle|by right]. }
  assert (E1 : endpoint_ok s1) by (apply (endpoint_lower demo_up); [exact demo_up_endpoint|apply lower_frame_conn|exact S1]).
  destruct E1 as [[S X I K N] D A]. split; [|exact D|exact A]. split; [|done..]. destruct S as [[] R C O]. by split.
Qed.

Lemma demo_network_ok : network_ok demo_network.
Proof.
  split; [exact demo_up_endpoint|exact demo_peer_endpoint|done|constructor|].
  constructor; [|constructor]. exact demo_spoken.
Qed.

(** The packet of the server arrives twice; then the client sends. *)
Definition demo_arrived : network :=
  mkNetwork (arrive (demo_address, 8888) (demo_frame ++ demo_frame) demo_up) demo_peer.

Lemma demo_arrival : rtc (net_step (H := udp)) demo_network demo_arrived.
Proof.
  apply rtc_once, step_near. set (d := mkDatagram 3 (Some (demo_address, 8888)) demo_frame).
  assert (E : concat (out_data <$> [d; d]) = demo_frame ++ demo_frame) by (cbn [fmap list_fmap concat]; by rewrite app_nil_r).
  unfold demo_arrived. rewrite <- E. apply step_arrive.
  - repeat constructor.
  - rewrite E. vm_compute. discriminate.
Qed.

