(* ===== verification/Dictionary.v ===== *)
(** * The dictionary of the configuration (src/examples/common/c/dictionary.c)

    Keys with their values, in an array that grows.  A C string is the list of
    its characters, without the terminating NUL; the struct that holds a string
    may also hold no string yet ([None]).  An array that was freed keeps its
    place in the dictionary, as it does in the code; reading or freeing it again
    is a fault. *)

From stdpp Require Import base numbers list strings gmap.
From Stdlib Require Import ZArith Lia.
From S2P Require Import Prelude.

Local Open Scope Z_scope.
Local Open Scope record_scope.

(** ** Characters *)

Definition code (a : Ascii.ascii) : Z := Z.of_N (Ascii.N_of_ascii a).
Definition str (s : string) : list Z := code <$> String.list_ascii_of_string s.

(** The classes of <ctype.h> in the C locale. *)
Definition isdigit (c : Z) : bool := (48 <=? c) && (c <=? 57).
Definition isupper (c : Z) : bool := (65 <=? c) && (c <=? 90).
Definition islower (c : Z) : bool := (97 <=? c) && (c <=? 122).
Definition isalpha (c : Z) : bool := isupper c || islower c.
Definition toupper (c : Z) : Z := if islower c then c - 32 else c.
Definition tolower (c : Z) : Z := if isupper c then c + 32 else c.

(* common/c/dictionary.c uppercase *)
Definition uppercase (string : list Z) : list Z := (fun c => if isalpha c then toupper c else c) <$> string.

(** ** Data *)

Definition MAX_DICTIONARY_STRING_LENGTH_BYTES : Z := 4096.
Definition KEY_LENGTH : Z := 256.

(** [None]: nothing that ends with NUL was written into the struct yet. *)
(* headers/dictionary.h DictionaryString *)
Definition DictionaryString : Type := option (list Z).

(** What [strcmp], [strcpy] and the like read. *)
Definition c_string (s : DictionaryString) : res (list Z) :=
  match s with Some s => Ok s | None => Fail Uninitialised end.

(** [live]: the memory of the strings has not been freed. *)
(* headers/dictionary.h DictionaryArray *)
Record DictionaryArray := mkArray { strings : list DictionaryString; live : bool }.
#[export] Instance eta_array : Eta DictionaryArray := fun a => mkArray (strings a) (live a).

(** The type of an entry and its value; [unumber] is the same number, unsigned. *)
(* headers/dictionary.h DictionaryValue *)
Inductive DictionaryValue :=
| DICTIONARY_STRING (string : DictionaryString)
| DICTIONARY_ARRAY (array : DictionaryArray)
| DICTIONARY_NUMBER (number : Z)
| DICTIONARY_ERROR.

(* headers/dictionary.h DictionaryEntry *)
Record DictionaryEntry := mkEntry { key : list Z; value : DictionaryValue }.
#[export] Instance eta_entry : Eta DictionaryEntry := fun e => mkEntry (key e) (value e).

(** [size] is the length of [data]; [actual_size] what was allocated. *)
(* headers/dictionary.h Dictionary *)
Record Dictionary := mkDictionary { actual_size : Z; data : list DictionaryEntry }.
#[export] Instance eta_dictionary : Eta Dictionary := fun d => mkDictionary (actual_size d) (data d).
Definition size (d : Dictionary) : Z := zlen (data d).

(** ** Arrays *)

(* common/c/dictionary.c allocate_DictionaryArray *)
Definition allocate_DictionaryArray (n : nat) : DictionaryArray := mkArray (replicate n None) true.
(* common/c/dictionary.c reallocate_DictionaryArray *)
Definition reallocate_DictionaryArray (array : DictionaryArray) (new_size : nat) : DictionaryArray :=
  array <| strings ::= fun l => take new_size l ++ replicate (new_size - length l) None |>.
(* common/c/dictionary.c free_DictionaryArray *)
Definition free_DictionaryArray (array : DictionaryArray) : res DictionaryArray :=
  if zlen (strings array) =? 0 then Ok array
  else if live array then Ok (mkArray [] false) else Fail NullDeref.

(** ** Operations *)

(** [strcpy] into a buffer of 256 bytes. *)
Definition copy_key (k : list Z) : res (list Z) := _ ← ensure (zlen k <? KEY_LENGTH) OutOfBounds; mret k.

(* common/c/dictionary.c dictionary_create *)
Definition dictionary_create (initial_size : Z) : Dictionary :=
  mkDictionary (if initial_size <? 2 then 2 else initial_size) [].

(* common/c/dictionary.c dictionary_change_size *)
Definition dictionary_change_size (n : Z) (d : Dictionary) : Dictionary := d <| actual_size := n |>.

Definition lookup_key (nkey : list Z) (d : Dictionary) : option DictionaryEntry :=
  snd <$> list_find (fun e => nkey = key e) (data d).

(* common/c/dictionary.c dictionary_isin *)
Definition dictionary_isin (d : Dictionary) (k : list Z) : res bool :=
  nkey ← copy_key k;
  mret (match lookup_key (uppercase nkey) d with Some _ => true | None => false end).

(* common/c/dictionary.c dictionary_add *)
Definition dictionary_add (d : Dictionary) (entry : DictionaryEntry) : res (bool * Dictionary) :=
  found ← dictionary_isin d (key entry);
  if found : bool then mret (false, d)
  else
    let entry := entry <| key ::= uppercase |> in
    let d := if actual_size d <=? size d then dictionary_change_size (u32 (actual_size d * 2)) d else d in
    _ ← ensure (size d <? actual_size d) OutOfBounds;
    mret (true, d <| data ::= fun l => l ++ [entry] |>).

(* common/c/dictionary.c dictionary_addNumber *)
Definition dictionary_addNumber (d : Dictionary) (k : list Z) (number : Z) : res (bool * Dictionary) :=
  k ← copy_key k; dictionary_add d (mkEntry k (DICTIONARY_NUMBER number)).
(* common/c/dictionary.c dictionary_addString *)
Definition dictionary_addString (d : Dictionary) (k : list Z) (string : DictionaryString) : res (bool * Dictionary) :=
  k ← copy_key k; dictionary_add d (mkEntry k (DICTIONARY_STRING string)).
(* common/c/dictionary.c dictionary_addArray *)
Definition dictionary_addArray (d : Dictionary) (k : list Z) (array : DictionaryArray) : res (bool * Dictionary) :=
  k ← copy_key k; dictionary_add d (mkEntry k (DICTIONARY_ARRAY array)).

(** [strncpy] of 255 characters leaves a longer key without NUL. *)
(* common/c/dictionary.c dictionary_get *)
Definition dictionary_get (d : Dictionary) (k : list Z) : res DictionaryValue :=
  _ ← ensure (zlen k <? 255) Uninitialised;
  mret (match lookup_key (uppercase k) d with Some e => value e | None => DICTIONARY_ERROR end).

(* common/c/dictionary.c:84-88 dictionary_free *)
Fixpoint free_arrays (l : list DictionaryEntry) : res unit :=
  match l with
  | [] => mret tt
  | e :: l => _ ← match value e with DICTIONARY_ARRAY a => _ ← free_DictionaryArray a; mret tt | _ => mret tt end; free_arrays l
  end.
(* common/c/dictionary.c dictionary_free *)
Definition dictionary_free (d : Dictionary) : res Dictionary :=
  _ ← free_arrays (data d);
  mret (if negb (actual_size d =? 0) then mkDictionary 0 [] else d).

(** ** Invariant *)

(** Keys are in upper case, fit their buffer, and occur once. *)
Record dict_ok (d : Dictionary) : Prop := {
  di_keys : NoDup (key <$> data d);
  di_upper : Forall (fun e => uppercase (key e) = key e /\ zlen (key e) < KEY_LENGTH) (data d);
  di_room : size d <= actual_size d;
  di_size : 2 <= actual_size d < 2 ^ 31
}.

Lemma uppercase_idem s : uppercase (uppercase s) = uppercase s.
Proof.
  unfold uppercase. rewrite <- list_fmap_compose. apply list_fmap_ext. intros _ c _. cbn.
  unfold isalpha, toupper, isupper, islower.
  destruct (65 <=? c) eqn:A, (c <=? 90) eqn:B, (97 <=? c) eqn:C, (c <=? 122) eqn:D; zbool; cbn; ztests; done || (cbn; lia).
Qed.

Lemma zlen_uppercase s : zlen (uppercase s) = zlen s.
Proof. unfold zlen, uppercase. by rewrite length_fmap. Qed.

Lemma dictionary_create_ok n : n < 2 ^ 31 -> dict_ok (dictionary_create n).
Proof.
  intros Hn. unfold dictionary_create. split; cbn [data actual_size fmap list_fmap]; [apply NoDup_nil_2|apply Forall_nil_2|..];
    unfold size, zlen; cbn [data length]; destruct (Z.ltb_spec n 2); lia.
Qed.

Lemma lookup_key_none k d : lookup_key k d = None <-> k ∉ key <$> data d.
Proof.
  unfold lookup_key. rewrite fmap_None, list_find_None, Forall_forall. split.
  - intros Hf Hk. apply list_elem_of_fmap in Hk as (e & -> & He). by apply (Hf e He).
  - intros Hk e He ->. apply Hk, list_elem_of_fmap. by exists e.
Qed.

(** ** The dictionary as a map *)

Definition dict_map (d : Dictionary) : gmap (list Z) DictionaryValue :=
  list_to_map ((fun e => (key e, value e)) <$> data d).

Lemma keys_map d : ((fun e => (key e, value e)) <$> data d).*1 = key <$> data d.
Proof. rewrite <- list_fmap_compose. by apply list_fmap_ext. Qed.

Lemma lookup_key_map d k : NoDup (key <$> data d) -> value <$> lookup_key k d = dict_map d !! k.
Proof.
  intros Hd. destruct (lookup_key k d) as [e|] eqn:E.
  - unfold lookup_key in E. apply fmap_Some in E as ([i e'] & E & ->). apply list_find_Some in E as (Hi & -> & _).
    symmetry. cbn. apply elem_of_list_to_map; [by rewrite keys_map|]. apply list_elem_of_fmap. exists e'. split; [done|].
    by apply list_elem_of_lookup_2 in Hi.
  - symmetry. apply not_elem_of_list_to_map. rewrite keys_map. by apply lookup_key_none.
Qed.

Lemma copy_key_ok k : zlen k < KEY_LENGTH -> copy_key k = Ok k.
Proof. intros H. unfold copy_key. by ztests. Qed.

Lemma dictionary_isin_ok d k : zlen k < KEY_LENGTH ->
  dictionary_isin d k = Ok (bool_decide (uppercase k ∈ key <$> data d)).
Proof.
  intros Hk. unfold dictionary_isin. rewrite copy_key_ok by done. mcbn. f_equal.
  destruct (lookup_key (uppercase k) d) eqn:E.
  - symmetry. apply bool_decide_eq_true. destruct (decide (uppercase k ∈ key <$> data d)) as [|N]; [done|].
    apply lookup_key_none in N. congruence.
  - symmetry. apply bool_decide_eq_false. by apply lookup_key_none.
Qed.

(** What adding an entry does, on the array. *)
Lemma dictionary_add_ok d k v : dict_ok d -> zlen k < KEY_LENGTH -> 2 * size d < 2 ^ 30 ->
  exists d', dict_ok d' /\
    if bool_decide (uppercase k ∈ key <$> data d) then dictionary_add d (mkEntry k v) = Ok (false, d) /\ d' = d
    else dictionary_add d (mkEntry k v) = Ok (true, d') /\ data d' = data d ++ [mkEntry (uppercase k) v].
Proof.
  intros D Hk Hn. unfold dictionary_add. cbn [key]. rewrite dictionary_isin_ok by done. mcbn.
  case_bool_decide as Hin; [by exists d|]. destruct D as [D1 D2 D3 [D4 D5]].
  set (d1 := if actual_size d <=? size d then _ else d).
  assert (H1 : data d1 = data d /\ size d < actual_size d1 /\ 2 <= actual_size d1 < 2 ^ 31).
  { unfold d1, dictionary_change_size. case_if; zbool; [|done]. fields. split; [done|].
    rewrite u32_small by (unfold is_u32; lia). lia. }
  destruct H1 as (E1 & H1 & H2). unfold size at 1. rewrite E1. fold (size d). ztests. mcbn.
  eexists. split; [|split; [done|]]; [|fields; by rewrite E1].
  split; unfold size in *; fields; rewrite ?E1.
  - rewrite fmap_app. apply NoDup_app. split; [done|]. split; [|apply NoDup_singleton]. cbn. intros x Hx Hx'.
    by apply list_elem_of_singleton in Hx' as ->.
  - apply Forall_app. split; [done|]. constructor; [|constructor]. cbn. by rewrite uppercase_idem, zlen_uppercase.
  - rewrite zlen_app. change (zlen [_]) with 1. lia.
  - lia.
Qed.

(** C25. The dictionary is a map from keys in upper case to values: adding an
    entry keeps its invariant and inserts the value unless the key is present,
    in which case nothing changes; a lookup finds what the map holds, whatever
    the case of the letters. *)
Theorem dictionary_refines_map d k v : dict_ok d -> zlen k < KEY_LENGTH - 1 -> 2 * size d < 2 ^ 30 ->
  dictionary_get d k = Ok (default DICTIONARY_ERROR (dict_map d !! uppercase k)) /\
  exists d', dict_ok d' /\
    dictionary_add d (mkEntry k v) = Ok (bool_decide (dict_map d !! uppercase k = None), d') /\
    dict_map d' = match dict_map d !! uppercase k with None => <[uppercase k := v]> (dict_map d) | Some _ => dict_map d end.
Proof.
  intros D Hk Hn. unfold KEY_LENGTH in Hk. pose proof (di_keys _ D) as Hd. rewrite <- !(lookup_key_map d) by done. split.
  { unfold dictionary_get. ztests. mcbn. by destruct (lookup_key (uppercase k) d). }
  destruct (dictionary_add_ok d k v D) as (d' & D' & H); [unfold KEY_LENGTH; lia|done|]. exists d'. split; [done|].
  case_bool_decide as Hin.
  - destruct H as [-> ->]. destruct (lookup_key (uppercase k) d) eqn:E; [done|]. by apply lookup_key_none in E.
  - destruct H as [-> E]. apply lookup_key_none in Hin. rewrite Hin. split; [done|].
    unfold dict_map. rewrite E, fmap_app, list_to_map_app. cbn. symmetry. rewrite insert_empty. apply insert_union_singleton_r.
    apply lookup_key_none in Hin. apply not_elem_of_list_to_map. by rewrite keys_map.
Qed.

Lemma dictionary_refines_map_witness :
  let d := mkDictionary 2 [mkEntry (str "A") (DICTIONARY_NUMBER 1); mkEntry (str "B") (DICTIONARY_NUMBER 2)] in
  dictionary_get d (str "b") = Ok (DICTIONARY_NUMBER 2) /\
  dictionary_get d (str "c") = Ok (default DICTIONARY_ERROR (dict_map d !! uppercase (str "c"))) /\
  exists d', dict_ok d' /\
    dictionary_add d (mkEntry (str "c") (DICTIONARY_NUMBER 3)) = Ok (bool_decide (dict_map d !! uppercase (str "c") = None), d') /\
    dict_map d' = match dict_map d !! uppercase (str "c") with
                  | None => <[uppercase (str "c") := DICTIONARY_NUMBER 3]> (dict_map d) | Some _ => dict_map d end.
Proof.
  intros d. split; [vm_compute; reflexivity|]. apply (dictionary_refines_map d (str "c") (DICTIONARY_NUMBER 3)); [|vm_compute; reflexivity..].
  split; [apply (bool_decide_unpack _); vm_compute; exact I| |vm_compute; congruence|vm_compute; split; congruence].
  repeat constructor.
Defined.
