(* ===== verification/ConfigParser.v ===== *)
(** * The configuration file (src/examples/common/c/configfile.c)

    The parser of the example programs: a file is read line by line, and every
    line of the form [KEY = value] adds an entry to the dictionary.  The parser is
    a state machine over one line; its loops have the length of the line as fuel,
    which the theorems show to be enough.  The log is output only and left out. *)

From stdpp Require Import base numbers list strings.
From Stdlib Require Import ZArith Lia.
From S2P Require Import Prelude.
From S2P Require Import Dictionary.

Local Open Scope Z_scope.
Local Open Scope record_scope.

(* config.h CONFIG_BUFFER_LENGTH *)
Definition CONFIG_BUFFER_LENGTH : Z := 10000.

(** [buf] is the string in the buffer, without NUL; [cfg->dictionary] is [dictionary]. *)
(* common/c/configfile.c LineParser *)
Record LineParser := mkParser { buf : list Z; pos : Z; current : Z; dictionary : Dictionary }.
#[export] Instance eta_parser : Eta LineParser := fun p => mkParser (buf p) (pos p) (current p) (dictionary p).

#[local] Abbreviation PM := (M LineParser).

(** A character of the buffer; the string ends with NUL. *)
Definition char_at (b : list Z) (i : Z) : Z := nth (Z.to_nat i) b 0.

(* common/c/configfile.c parser_init *)
Definition parser_init (line : list Z) (d : Dictionary) : res LineParser :=
  _ ← ensure (zlen line <? CONFIG_BUFFER_LENGTH) OutOfBounds;
  mret (mkParser line 0 (char_at line 0) d).

(* common/c/configfile.c parser_next *)
Definition parser_next : PM bool :=
  _ ← modify (fun p => p <| pos ::= fun i => i + 1 |>);
  p ← gets Datatypes.id;
  if (CONFIG_BUFFER_LENGTH <=? pos p) || (zlen (buf p) <=? pos p) || (char_at (buf p) (pos p) =? 10) then
    _ ← modify (fun p => p <| pos := CONFIG_BUFFER_LENGTH |>);
    mret false
  else
    _ ← modify (fun p => p <| current := char_at (buf p) (pos p) |>);
    mret true.

Definition fuel_of (p : LineParser) : nat := S (length (buf p)).

Definition is_blank (c : Z) : bool := (c =? 32) || (c =? 9).

(* common/c/configfile.c:68-73 parser_skipBlank *)
Fixpoint skip_loop (fuel : nat) : PM unit :=
  c ← gets current;
  if is_blank c then
    match fuel with
    | O => fail OutOfFuel
    | S fuel => ok ← parser_next; if ok : bool then skip_loop fuel else mret tt
    end
  else mret tt.
(* common/c/configfile.c parser_skipBlank *)
Definition parser_skipBlank : PM unit := n ← gets fuel_of; skip_loop n.

(** The loops of identifiers and numbers: characters are collected in a buffer of
    [limit] of them until one is not accepted or the line ends; [None] when
    there are more. *)
(* common/c/configfile.c:84-97 parser_parseIdentifier *)
Fixpoint collect (accept : Z -> bool) (conv : Z -> Z) (limit : Z) (fuel : nat) (i : Z) : PM (option (list Z)) :=
  c ← gets current;
  if accept c then
    if limit <=? i then mret None
    else
      match fuel with
      | O => fail OutOfFuel
      | S fuel =>
          ok ← parser_next;
          if ok : bool then rest ← collect accept conv limit fuel (i + 1); mret (cons (conv c) <$> rest)
          else mret (Some [conv c])
      end
  else mret (Some []).

Definition is_identifier (c : Z) : bool := isdigit c || isalpha c || (c =? 95).

(** An identifier that is too long is left without NUL. *)
(* common/c/configfile.c parser_parseIdentifier *)
Definition parser_parseIdentifier : PM DictionaryString :=
  _ ← parser_skipBlank;
  n ← gets fuel_of;
  collect is_identifier toupper (MAX_DICTIONARY_STRING_LENGTH_BYTES - 1) n 0.

(** The value of digits in a base, as [strtol] of glibc returns it: saturated. *)
Definition digit_value (c : Z) : Z := if isdigit c then c - 48 else c - 87.
Definition digits_value (base : Z) (digits : list Z) : Z := foldl (fun v c => v * base + digit_value c) 0 digits.
Definition strtol (base : Z) (digits : list Z) : Z := Z.min (digits_value base digits) (2 ^ 63 - 1).
Definition atoi (digits : list Z) : Z := s32 (strtol 10 digits).

(** The NUL after the collected characters is written without a check. *)
Definition NUM_BUF : Z := 100.
Definition terminated (digits : list Z) : PM (list Z) := _ ← lift (ensure (zlen digits <? NUM_BUF) OutOfBounds); mret digits.

(* common/c/configfile.c parser_parseNumber *)
Definition parser_parseNumber : PM (option Z) :=
  c ← gets current;
  neg ← (if c =? 45 then _ ← parser_next; mret (-1) else mret 1);
  c ← gets current;
  if negb (isdigit c) then mret None
  else
    n ← gets fuel_of;
    digits ← collect isdigit (fun c => c) NUM_BUF n 0;
    match digits with
    | None => mret None
    | Some digits => num_buf ← terminated digits; mret (Some (s32 (neg * atoi num_buf)))
    end.

(* common/c/configfile.c:148-160 parser_parseString *)
Fixpoint string_loop (fuel : nat) (i : Z) : PM (option (list Z)) :=
  c ← gets current;
  if c =? 34 then mret (Some [])
  else if MAX_DICTIONARY_STRING_LENGTH_BYTES - 1 <=? i then mret None
  else
    match fuel with
    | O => fail OutOfFuel
    | S fuel =>
        ok ← parser_next;
        if ok : bool then rest ← string_loop fuel (i + 1); mret (cons c <$> rest) else mret None
    end.
(* common/c/configfile.c parser_parseString *)
Definition parser_parseString : PM (option (list Z)) :=
  c ← gets current;
  _ ← when (c =? 34) (_ ← parser_next; mret tt);
  n ← gets fuel_of;
  string_loop n 0.

Definition is_hex (c : Z) : bool := let c := tolower c in isdigit c || ((97 <=? c) && (c <=? 102)).

(* common/c/configfile.c parser_parseHex *)
Definition parser_parseHex : PM (option Z) :=
  c ← gets current;
  _ ← when (c =? 35) (_ ← parser_next; mret tt);
  n ← gets fuel_of;
  digits ← collect is_hex tolower NUM_BUF n 0;
  match digits with
  | None => mret None
  | Some digits => num_buf ← terminated digits; mret (Some (s32 (strtol 16 num_buf)))
  end.

(** The array grows when it is too small for element [i]. *)
Definition set_element (array : DictionaryArray) (i : nat) (string : list Z) : DictionaryArray :=
  let array := if (length (strings array) <=? i)%nat then reallocate_DictionaryArray array (S i) else array in
  array <| strings ::= <[i := Some string]> |>.

(* common/c/configfile.c:215-250 parser_parseArray *)
Fixpoint array_loop (fuel : nat) (i : nat) (array : DictionaryArray) : PM (bool * DictionaryArray) :=
  c ← gets current;
  if c =? 125 then mret (true, array)
  else
    match fuel with
    | O => fail OutOfFuel
    | S fuel =>
        _ ← parser_skipBlank;
        c ← gets current;
        if isdigit c then mret (true, array)
        else if negb (c =? 34) then mret (false, array)
        else
          string ← parser_parseString;
          match string with
          | None => mret (false, array)
          | Some string =>
              let array := set_element array i string in
              c ← gets current;
              _ ← when (c =? 34) (_ ← parser_next; mret tt);
              _ ← parser_skipBlank;
              c ← gets current;
              if (c =? 59) || (c =? 44) then _ ← parser_next; array_loop fuel (S i) array
              else mret (c =? 125, array)
          end
    end.
(* common/c/configfile.c parser_parseArray *)
Definition parser_parseArray (array : DictionaryArray) : PM (bool * DictionaryArray) :=
  c ← gets current;
  _ ← when (c =? 123) (_ ← parser_next; mret tt);
  n ← gets fuel_of;
  array_loop (S n) 0 array.

(** The dictionary is updated in place; whether the key was new is ignored. *)
Definition add_entry (f : Dictionary -> res (bool * Dictionary)) : PM unit :=
  d ← gets dictionary;
  r ← lift (f d);
  modify (fun p => p <| dictionary := snd r |>).

(* common/c/configfile.c parser_parseValue *)
Definition parser_parseValue (k : DictionaryString) : PM unit :=
  _ ← parser_skipBlank;
  c ← gets current;
  if (c =? 45) || isdigit c then
    number ← parser_parseNumber;
    match number with
    | Some number => add_entry (fun d => k ← c_string k; dictionary_addNumber d k number)
    | None => mret tt
    end
  else if c =? 34 then
    string ← parser_parseString;
    match string with
    | Some string => add_entry (fun d => k ← c_string k; dictionary_addString d k (Some string))
    | None => mret tt
    end
  else if c =? 123 then
    r ← parser_parseArray (allocate_DictionaryArray 1);
    let '(ok, array) := r in
    if ok : bool then add_entry (fun d => k ← c_string k; dictionary_addArray d k array)
    else _ ← lift (free_DictionaryArray array); mret tt
  else if c =? 35 then
    hex ← parser_parseHex;
    match hex with
    | Some hex => add_entry (fun d => k ← c_string k; dictionary_addNumber d k hex)
    | None => mret tt
    end
  else
    identifier ← parser_parseIdentifier;
    add_entry (fun d => k ← c_string k; dictionary_addString d k identifier).

(** One round of the loop of [config_load]. *)
(* common/c/configfile.c:811-858 config_load *)
Definition parse_line : PM unit :=
  _ ← parser_skipBlank;
  p ← gets Datatypes.id;
  if current p =? 59 then mret tt
  else if zlen (buf p) <=? pos p + 1 then mret tt
  else if negb (is_identifier (current p)) then mret tt
  else
    k ← parser_parseIdentifier;
    _ ← parser_skipBlank;
    c ← gets current;
    if negb (c =? 61) then mret tt
    else
      _ ← parser_next;
      _ ← parser_skipBlank;
      parser_parseValue k.

(** ** Files *)

(** [fgets] returns a line with its newline, but not more than fits the buffer;
    the string ends at the first NUL. *)
Fixpoint fgets (room : nat) (f : list Z) : list Z * list Z :=
  match room, f with
  | S room, c :: f => if c =? 10 then ([c], f) else let '(line, f) := fgets room f in (c :: line, f)
  | _, _ => ([], f)
  end.
Fixpoint until_nul (s : list Z) : list Z :=
  match s with [] => [] | c :: s => if c =? 0 then [] else c :: until_nul s end.

(** The lines of a file; every line has a character, so that its length is fuel enough. *)
Fixpoint file_lines (fuel : nat) (f : list Z) : list (list Z) :=
  match f, fuel with
  | [], _ | _, O => []
  | _, S fuel => let '(line, f) := fgets (Z.to_nat (CONFIG_BUFFER_LENGTH - 1)) f in line :: file_lines fuel f
  end.

(* common/c/configfile.c:808-859 config_load *)
Fixpoint load_lines (lines : list (list Z)) (d : Dictionary) : res Dictionary :=
  match lines with
  | [] => mret d
  | line :: lines =>
      p ← parser_init (until_nul line) d;
      '(_, p) ← parse_line p;
      load_lines lines (dictionary p)
  end.

(** The dictionary of a file. *)
Definition load_file (f : list Z) : res Dictionary := load_lines (file_lines (length f) f) (dictionary_create 2).

(** ** Every line ends *)

(** The characters that are left, the current one included. *)
Definition left_of (p : LineParser) : Z := zlen (buf p) - pos p.

(** The parser only moves forward, and leaves the line and the dictionary alone. *)
Record moved (p p' : LineParser) : Prop := {
  mv_buf : buf p' = buf p;
  mv_dict : dictionary p' = dictionary p;
  mv_pos : pos p <= pos p' <= CONFIG_BUFFER_LENGTH
}.

(** A parser in a line that fits its buffer. *)
Record parsing (p : LineParser) : Prop := {
  pa_fits : zlen (buf p) < CONFIG_BUFFER_LENGTH;
  pa_pos : 0 <= pos p <= CONFIG_BUFFER_LENGTH
}.

Lemma moved_refl p : parsing p -> moved p p.
Proof. intros []. split; try done. lia. Qed.
Lemma moved_trans p1 p2 p3 : moved p1 p2 -> moved p2 p3 -> moved p1 p3.
Proof. intros [] []. split; [congruence..|lia]. Qed.
Lemma moved_parsing p p' : parsing p -> moved p p' -> parsing p'.
Proof. intros [] []. split; [congruence|lia]. Qed.
Lemma moved_left p p' : moved p p' -> left_of p' <= left_of p.
Proof. intros []. unfold left_of. rewrite mv_buf0. lia. Qed.
Lemma moved_fuel p p' : moved p p' -> fuel_of p' = fuel_of p.
Proof. intros []. unfold fuel_of. congruence. Qed.

Lemma fuel_enough p : parsing p -> Z.max 1 (left_of p) <= Z.of_nat (fuel_of p).
Proof. intros []. unfold left_of, fuel_of, zlen. lia. Qed.

Lemma wp_next Q p : parsing p ->
  (forall p', moved p p' -> pos p' = pos p + 1 -> 1 <= left_of p' -> current p' = char_at (buf p) (pos p + 1) ->
     current p' <> 10 -> Q true p') ->
  (forall p', moved p p' -> pos p' = CONFIG_BUFFER_LENGTH -> current p' = current p ->
     zlen (buf p) <= pos p + 1 \/ char_at (buf p) (pos p + 1) = 10 -> Q false p') ->
  wp parser_next Q p.
Proof.
  intros [F P] HT HF. unfold parser_next. apply wp_bind, wp_modify, wp_bind, wp_gets. unfold Datatypes.id. fields.
  destruct (_ || _ || _) eqn:E.
  - apply wp_bind, wp_modify, wp_ret, HF; fields; [split; fields; done || lia|done|done|].
    apply orb_prop in E as [E|E]; [apply orb_prop in E as [E|E]|]; zbool; lia.
  - zbool. apply wp_bind, wp_modify, wp_ret, HT; fields; [split; fields; done || lia|done|unfold left_of; fields; lia|done|done].
Qed.

Lemma wp_next_moved Q p : parsing p -> (forall r p', moved p p' -> (r = true -> left_of p' < left_of p /\ 1 <= left_of p') -> Q r p') ->
  wp parser_next Q p.
Proof.
  intros P HQ. apply wp_next; [done| |].
  - intros p' M E L _ _. apply HQ; [done|]. intros _. split; [|done]. unfold left_of. rewrite (mv_buf _ _ M), E. lia.
  - intros p' M _ _ _. by apply HQ.
Qed.

(** A test that skips one character. *)
Lemma wp_when_next b Q p : parsing p -> (forall p', moved p p' -> Q tt p') -> wp (when b (_ ← parser_next; mret tt)) Q p.
Proof.
  intros P HQ. unfold when. destruct b; [|by apply wp_ret, HQ, moved_refl].
  apply wp_bind, wp_next_moved; [done|]. intros r p' M _. by apply wp_ret, HQ.
Qed.

Lemma wp_skip_loop fuel : forall Q p, parsing p -> Z.max 1 (left_of p) <= Z.of_nat fuel ->
  (forall p', moved p p' -> (is_blank (current p) = false -> p' = p) -> Q tt p') -> wp (skip_loop fuel) Q p.
Proof.
  induction fuel as [|fuel IH]; intros Q p P Hf HQ; [lia|]. cbn [skip_loop]. apply wp_bind, wp_gets.
  destruct (is_blank (current p)) eqn:E; [|by apply wp_ret, HQ; [apply moved_refl|]].
  apply wp_bind, wp_next_moved; [done|]. intros r p' M HL. destruct r; [|by apply wp_ret, HQ].
  destruct (HL eq_refl). apply IH; [by eapply moved_parsing|lia|]. intros p2 M2 _. apply HQ; [by eapply moved_trans|done].
Qed.

Lemma wp_skip Q p : parsing p -> (forall p', moved p p' -> (is_blank (current p) = false -> p' = p) -> Q tt p') ->
  wp parser_skipBlank Q p.
Proof. intros P HQ. apply wp_bind, wp_gets, wp_skip_loop; [done|by apply fuel_enough|done]. Qed.

Lemma wp_collect accept conv limit fuel : forall i Q p, parsing p -> Z.max 1 (left_of p) <= Z.of_nat fuel ->
  (forall r p', moved p p' -> (i + Z.max 1 (left_of p) <= limit -> exists l, r = Some l) ->
     (forall l, r = Some l -> zlen l <= Z.max 1 (left_of p)) -> Q r p') ->
  wp (collect accept conv limit fuel i) Q p.
Proof.
  induction fuel as [|fuel IH]; intros i Q p P Hf HQ; [lia|]. cbn [collect]. apply wp_bind, wp_gets.
  destruct (accept (current p)).
  2:{ apply wp_ret, HQ; [by apply moved_refl|by eexists|]. intros l [= <-]. change (zlen (@nil Z)) with 0. lia. }
  destruct (Z.leb_spec limit i).
  { apply wp_ret, HQ; [by apply moved_refl|lia|done]. }
  apply wp_bind, wp_next_moved; [done|]. intros r p' M HL. destruct r.
  - destruct (HL eq_refl). apply wp_bind, IH; [by eapply moved_parsing|lia|]. intros r p2 M2 HA HB. apply wp_ret, HQ; [by eapply moved_trans| |].
    + intros Hl. destruct HA as [l ->]; [lia|]. by eexists.
    + intros l Hl. destruct r as [l'|]; [|done]. injection Hl as <-. rewrite zlen_cons. specialize (HB l' eq_refl). lia.
  - apply wp_ret, HQ; [done|by eexists|]. intros l [= <-]. change (zlen [_]) with 1. lia.
Qed.

Lemma wp_string_loop fuel : forall i Q p, parsing p -> Z.max 1 (left_of p) <= Z.of_nat fuel ->
  (forall r p', moved p p' -> Q r p') -> wp (string_loop fuel i) Q p.
Proof.
  induction fuel as [|fuel IH]; intros i Q p P Hf HQ; [lia|]. cbn [string_loop]. apply wp_bind, wp_gets.
  case_if; [by apply wp_ret, HQ, moved_refl|]. case_if; [by apply wp_ret, HQ, moved_refl|].
  apply wp_bind, wp_next_moved; [done|]. intros r p' M HL. destruct r; [|by apply wp_ret, HQ].
  destruct (HL eq_refl). apply wp_bind, IH; [by eapply moved_parsing|lia|]. intros r p2 M2. apply wp_ret, HQ. by eapply moved_trans.
Qed.

Lemma wp_string Q p : parsing p -> (forall r p', moved p p' -> Q r p') -> wp parser_parseString Q p.
Proof.
  intros P HQ. apply wp_bind, wp_gets, wp_bind, wp_when_next; [done|]. intros p1 M1. pose proof (moved_parsing _ _ P M1) as P1.
  apply wp_bind, wp_gets, wp_string_loop; [done|by apply fuel_enough|]. intros r p2 M2. apply HQ. by eapply moved_trans.
Qed.

Lemma wp_identifier Q p : parsing p -> (forall r p', moved p p' -> (zlen (buf p) < NUM_BUF -> exists l, r = Some l /\ zlen l < NUM_BUF) -> Q r p') ->
  wp parser_parseIdentifier Q p.
Proof.
  intros P HQ. apply wp_bind, wp_skip; [done|]. intros p1 M1 _. pose proof (moved_parsing _ _ P M1) as P1. apply wp_bind, wp_gets, wp_collect;
    [done|by apply fuel_enough|]. intros r p2 M2 HA HB. apply HQ; [by eapply moved_trans|]. intros Hs.
  assert (left_of p1 <= zlen (buf p)) by (unfold left_of; rewrite (mv_buf _ _ M1); destruct P1; lia). unfold NUM_BUF in *.
  destruct HA as [l ->]; [unfold MAX_DICTIONARY_STRING_LENGTH_BYTES; lia|]. exists l. specialize (HB l eq_refl). split; [done|]. lia.
Qed.

Lemma wp_digits accept conv Q p : parsing p -> zlen (buf p) < NUM_BUF -> (forall l p', moved p p' -> zlen l < NUM_BUF -> Q (Some l) p') ->
  wp (collect accept conv NUM_BUF (fuel_of p) 0) Q p.
Proof.
  intros P Hs HQ. apply wp_collect; [done|by apply fuel_enough|]. intros r p' M HA HB.
  assert (left_of p <= zlen (buf p)) by (unfold left_of; destruct P; lia). unfold NUM_BUF in *.
  destruct HA as [l ->]; [lia|]. specialize (HB l eq_refl). apply HQ; [done|lia].
Qed.

Lemma wp_terminated digits Q p : zlen digits < NUM_BUF -> Q digits p -> wp (terminated digits) Q p.
Proof. intros Hl HQ. unfold terminated. apply wp_bind, wp_lift. exists tt. split; [by ztests|]. by apply wp_ret. Qed.

Lemma wp_number Q p : parsing p -> zlen (buf p) < NUM_BUF -> (forall r p', moved p p' -> Q r p') -> wp parser_parseNumber Q p.
Proof.
  intros P Hs HQ. unfold parser_parseNumber. apply wp_bind, wp_gets, wp_bind.
  assert (W : forall Q', (forall v p', moved p p' -> Q' v p') ->
    wp (if current p =? 45 then _ ← parser_next; mret (-1) else mret 1) Q' p).
  { intros Q' H'. case_if; [|by apply wp_ret, H', moved_refl]. apply wp_bind, wp_next_moved; [done|]. intros r p' M _. by apply wp_ret, H'. }
  apply W. intros v p1 M1. pose proof (moved_parsing _ _ P M1) as P1. apply wp_bind, wp_gets. case_if; [by apply wp_ret, HQ|].
  apply wp_bind, wp_gets, wp_bind, wp_digits; [done|by rewrite (mv_buf _ _ M1)|]. intros l p2 M2 Hl.
  apply wp_bind, wp_terminated; [done|]. apply wp_ret, HQ. by eapply moved_trans.
Qed.

Lemma wp_hex Q p : parsing p -> zlen (buf p) < NUM_BUF -> (forall r p', moved p p' -> Q r p') -> wp parser_parseHex Q p.
Proof.
  intros P Hs HQ. unfold parser_parseHex. apply wp_bind, wp_gets, wp_bind, wp_when_next; [done|]. intros p1 M1.
  pose proof (moved_parsing _ _ P M1) as P1.
  apply wp_bind, wp_gets, wp_bind, wp_digits; [done|by rewrite (mv_buf _ _ M1)|]. intros l p2 M2 Hl.
  apply wp_bind, wp_terminated; [done|]. apply wp_ret, HQ. by eapply moved_trans.
Qed.

(** The separator that ends a line is read twice, but starts no further element. *)
Lemma wp_array_loop fuel : forall i array Q p, parsing p -> live array = true ->
  Z.max 0 (left_of p) + 2 <= Z.of_nat fuel \/ (1 <= Z.of_nat fuel /\ (current p = 59 \/ current p = 44)) ->
  (forall ok array' p', moved p p' -> live array' = true -> Q (ok, array') p') -> wp (array_loop fuel i array) Q p.
Proof.
  induction fuel as [|fuel IH]; intros i array Q p P Hl Hf HQ; [lia|]. cbn [array_loop]. apply wp_bind, wp_gets.
  case_if; [by apply wp_ret, HQ; [apply moved_refl|]|]. apply wp_bind, wp_skip; [done|]. intros p1 M1 B1.
  pose proof (moved_parsing _ _ P M1) as P1. apply wp_bind, wp_gets. case_if; [by apply wp_ret, HQ|].
  destruct (Z.eqb_spec (current p1) 34) as [E34|E34]; cbn [negb]; [|by apply wp_ret, HQ].
  destruct Hf as [Hf|[_ Hf]].
  2:{ rewrite B1 in E34 by (unfold is_blank; by ztests). lia. }
  apply wp_bind, wp_string; [done|]. intros str p2 M2. pose proof (moved_parsing _ _ P1 M2) as P2. pose proof (moved_trans _ _ _ M1 M2) as M12.
  destruct str as [str|]; [|by apply wp_ret, HQ].
  assert (Hl' : live (set_element array i str) = true) by (unfold set_element; case_if; exact Hl).
  apply wp_bind, wp_gets, wp_bind, wp_when_next; [done|]. intros p3 M3. pose proof (moved_trans _ _ _ M12 M3) as M13.
  pose proof (moved_parsing _ _ P2 M3) as P3.
  apply wp_bind, wp_skip; [done|]. intros p4 M4 _. pose proof (moved_trans _ _ _ M13 M4) as M14. pose proof (moved_parsing _ _ P3 M4) as P4.
  apply wp_bind, wp_gets. destruct ((current p4 =? 59) || (current p4 =? 44)) eqn:E; [|by apply wp_ret, HQ].
  pose proof (moved_left _ _ M14) as L4.
  apply wp_bind, wp_next; [done| |].
  - intros p5 M5 E5 L5 _ _. pose proof (moved_trans _ _ _ M14 M5) as M15. apply IH; [by eapply moved_parsing|done| |].
    + left. assert (left_of p5 = left_of p4 - 1) by (unfold left_of; rewrite (mv_buf _ _ M5), E5; lia). lia.
    + intros ok a p6 M6 La. apply HQ; [by eapply moved_trans|done].
  - intros p5 M5 _ C5 _. pose proof (moved_trans _ _ _ M14 M5) as M15. apply IH; [by eapply moved_parsing|done| |].
    + right. split; [lia|]. rewrite C5. apply orb_prop in E as [E|E]; zbool; auto.
    + intros ok a p6 M6 La. apply HQ; [by eapply moved_trans|done].
Qed.

Lemma wp_array Q p array : parsing p -> live array = true -> (forall ok array' p', moved p p' -> live array' = true -> Q (ok, array') p') ->
  wp (parser_parseArray array) Q p.
Proof.
  intros P Hl HQ. unfold parser_parseArray. apply wp_bind, wp_gets, wp_bind, wp_when_next; [done|]. intros p1 M1.
  pose proof (moved_parsing _ _ P M1) as P1. apply wp_bind, wp_gets, wp_array_loop; [done|done| |].
  - left. destruct P1. unfold left_of, fuel_of, zlen. lia.
  - intros ok a p2 M2 La. apply HQ; [by eapply moved_trans|done].
Qed.

(** What a line may do to the dictionary: at most one entry is added. *)
Definition grown (d d' : Dictionary) : Prop := dict_ok d' /\ size d <= size d' <= size d + 1.

Lemma wp_add_entry v k Q p : dict_ok (dictionary p) -> 2 * size (dictionary p) < 2 ^ 30 -> zlen k < NUM_BUF ->
  (forall p', grown (dictionary p) (dictionary p') -> Q tt p') ->
  wp (add_entry (fun d => k ← c_string (Some k); k ← copy_key k; dictionary_add d (mkEntry k v))) Q p.
Proof.
  intros D Hn Hk HQ. unfold add_entry. apply wp_bind, wp_gets, wp_bind, wp_lift. unfold NUM_BUF in Hk.
  assert (Hk' : zlen k < KEY_LENGTH) by (unfold KEY_LENGTH; lia).
  destruct (dictionary_add_ok _ k v D Hk' Hn) as (d' & D' & H'). cbn [c_string]. mcbn. rewrite copy_key_ok by done. mcbn.
  case_bool_decide.
  - destruct H' as [-> ->]. eexists. split; [done|]. apply wp_modify, HQ. split; fields; [done|cbn; lia].
  - destruct H' as [-> E]. eexists. split; [done|]. apply wp_modify, HQ. split; fields; [done|]. cbn [snd].
    unfold size. rewrite E, zlen_app. change (zlen [_]) with 1. lia.
Qed.

Lemma wp_value k Q p : parsing p -> zlen (buf p) < NUM_BUF -> dict_ok (dictionary p) -> 2 * size (dictionary p) < 2 ^ 30 -> zlen k < NUM_BUF ->
  (forall p', grown (dictionary p) (dictionary p') -> Q tt p') -> wp (parser_parseValue (Some k)) Q p.
Proof.
  intros P Hs D Hn Hk HQ. unfold parser_parseValue. apply wp_bind, wp_skip; [done|]. intros p1 M1 _.
  pose proof (moved_parsing _ _ P M1) as P1. assert (Hs1 : zlen (buf p1) < NUM_BUF) by (by rewrite (mv_buf _ _ M1)).
  assert (HA : forall v p2, moved p1 p2 -> wp (add_entry (fun d => k ← c_string (Some k); k ← copy_key k; dictionary_add d (mkEntry k v))) Q p2).
  { intros v p2 M2. assert (E : dictionary p2 = dictionary p) by (by rewrite (mv_dict _ _ M2), (mv_dict _ _ M1)).
    apply wp_add_entry; rewrite ?E; try done. }
  assert (HN : forall p2, moved p1 p2 -> wp (mret tt) Q p2).
  { intros p2 M2. apply wp_ret, HQ. rewrite (mv_dict _ _ M2), (mv_dict _ _ M1). split; [done|lia]. }
  apply wp_bind, wp_gets. case_if.
  { apply wp_bind, wp_number; [done|done|]. intros [v|] p2 M2; [by apply HA|by apply HN]. }
  case_if. { apply wp_bind, wp_string; [done|]. intros [v|] p2 M2; [by apply HA|by apply HN]. }
  case_if.
  { apply wp_bind, wp_array; [done|done|]. intros [] a p2 M2 La; [by apply HA|].
    apply wp_bind, wp_lift. exists (if zlen (strings a) =? 0 then a else mkArray [] false). unfold free_DictionaryArray. rewrite La.
    split; [by case_if|by apply HN]. }
  case_if. { apply wp_bind, wp_hex; [done|done|]. intros [v|] p2 M2; [by apply HA|by apply HN]. }
  apply wp_bind, wp_identifier; [done|]. intros v p2 M2 _. by apply HA.
Qed.

Lemma wp_line Q p : parsing p -> zlen (buf p) < NUM_BUF -> dict_ok (dictionary p) -> 2 * size (dictionary p) < 2 ^ 30 ->
  (forall p', grown (dictionary p) (dictionary p') -> Q tt p') -> wp parse_line Q p.
Proof.
  intros P Hs D Hn HQ. unfold parse_line. apply wp_bind, wp_skip; [done|]. intros p1 M1 _. pose proof (moved_parsing _ _ P M1) as P1.
  assert (HN : forall p2, moved p p2 -> wp (mret tt) Q p2).
  { intros p2 M2. apply wp_ret, HQ. rewrite (mv_dict _ _ M2). split; [done|lia]. }
  apply wp_bind, wp_gets. unfold Datatypes.id. case_if; [by apply HN|]. case_if; [by apply HN|]. case_if; [by apply HN|].
  apply wp_bind, wp_identifier; [done|]. intros k p2 M2 Hk. destruct Hk as (k' & -> & Hk); [by rewrite (mv_buf _ _ M1)|].
  pose proof (moved_trans _ _ _ M1 M2) as M12. pose proof (moved_parsing _ _ P1 M2) as P2.
  apply wp_bind, wp_skip; [done|]. intros p3 M3 _. pose proof (moved_trans _ _ _ M12 M3) as M13. pose proof (moved_parsing _ _ P2 M3) as P3.
  apply wp_bind, wp_gets. case_if; [by apply HN|]. apply wp_bind, wp_next_moved; [done|]. intros r p4 M4 _.
  pose proof (moved_trans _ _ _ M13 M4) as M14. pose proof (moved_parsing _ _ P3 M4) as P4.
  apply wp_bind, wp_skip; [done|]. intros p5 M5 _. pose proof (moved_trans _ _ _ M14 M5) as M15. pose proof (moved_parsing _ _ P4 M5) as P5.
  apply wp_value; rewrite ?(mv_buf _ _ M15), ?(mv_dict _ _ M15); done.
Qed.

(** *** Files *)

Lemma fgets_app room : forall f, let '(line, rest) := fgets room f in f = line ++ rest /\ (length line <= room)%nat /\
  (f <> [] -> (0 < room)%nat -> line <> []).
Proof.
  induction room as [|room IH]; intros [|c f]; cbn [fgets]; try done; [split_and!; [done|cbn; lia|lia]|split_and!; [done|cbn; lia|done]|].
  case_if; [split_and!; [done|cbn; lia|done]|]. specialize (IH f). destruct (fgets room f) as [line rest].
  destruct IH as (-> & H & _). split_and!; [done|cbn; lia|done].
Qed.

(** No character of the file is lost. *)
Lemma file_lines_concat fuel : forall f, (length f <= fuel)%nat -> concat (file_lines fuel f) = f.
Proof.
  induction fuel as [|fuel IH]; intros [|c f] Hf; cbn [file_lines]; try done; [cbn in Hf; lia|].
  pose proof (fgets_app (Z.to_nat (CONFIG_BUFFER_LENGTH - 1)) (c :: f)) as H. destruct (fgets _ _) as [line rest].
  destruct H as (E & _ & Hne). specialize (Hne ltac:(done) ltac:(unfold CONFIG_BUFFER_LENGTH; lia)).
  cbn [concat]. rewrite IH; [done|]. apply (f_equal length) in E. rewrite length_app in E. cbn in E, Hf. destruct line; [done|]. cbn in E. lia.
Qed.

Lemma file_lines_count fuel : forall f, (length f <= fuel)%nat -> (length (file_lines fuel f) <= length f)%nat.
Proof.
  induction fuel as [|fuel IH]; intros [|c f] Hf; cbn [file_lines]; try (cbn; lia).
  pose proof (fgets_app (Z.to_nat (CONFIG_BUFFER_LENGTH - 1)) (c :: f)) as H. destruct (fgets _ _) as [line rest].
  destruct H as (E & _ & Hne). specialize (Hne ltac:(done) ltac:(unfold CONFIG_BUFFER_LENGTH; lia)).
  apply (f_equal length) in E. rewrite length_app in E. destruct line; [done|]. cbn [length] in *. specialize (IH rest ltac:(lia)). lia.
Qed.

Lemma until_nul_length l : zlen (until_nul l) <= zlen l.
Proof. induction l as [|c l IH]; cbn [until_nul]; [done|]. rewrite zlen_cons. case_if; rewrite ?zlen_cons; [change (zlen (@nil Z)) with 0; pose proof (zlen_nonneg l)|]; lia. Qed.

Lemma parser_init_ok line d : zlen line < CONFIG_BUFFER_LENGTH -> parser_init line d = Ok (mkParser line 0 (char_at line 0) d) /\
  parsing (mkParser line 0 (char_at line 0) d).
Proof. intros H. unfold parser_init. ztests. split; [done|]. split; cbn; [done|unfold CONFIG_BUFFER_LENGTH; lia]. Qed.

Lemma load_lines_total lines : forall d, dict_ok d -> Forall (fun l => zlen l < NUM_BUF) lines -> 2 * (size d + zlen lines) < 2 ^ 30 ->
  exists d', load_lines lines d = Ok d' /\ dict_ok d' /\ size d' <= size d + zlen lines.
Proof.
  induction lines as [|line lines IH]; intros d D Hl Hn; cbn [load_lines]; [exists d; split_and!; [done|done|change (zlen (@nil (list Z))) with 0; lia]|].
  apply Forall_cons in Hl as [Hl Hls]. rewrite zlen_cons in *. pose proof (zlen_nonneg lines). pose proof (until_nul_length line).
  destruct (parser_init_ok (until_nul line) d) as [-> P]; [unfold NUM_BUF, CONFIG_BUFFER_LENGTH in *; lia|]. mcbn.
  assert (W : wp parse_line (fun _ p' => grown d (dictionary p')) (mkParser (until_nul line) 0 (char_at (until_nul line) 0) d)).
  { apply wp_line; cbn [buf dictionary]; [done|lia|done|lia|done]. }
  apply wp_ok in W as ([] & p' & E & D' & Hs). rewrite E. destruct (IH (dictionary p') D' Hls) as (d' & E' & H' & Hs'); [lia|].
  exists d'. split; [done|]. split; [done|lia].
Qed.

(** C24. Reading a configuration ends without a fault, whatever the file
    contains, as long as its lines have fewer than 100 characters: no loop of the parser
    runs on, no buffer overflows, and the dictionary that results has unique
    keys in upper case. *)
Theorem load_file_total f : zlen f < 2 ^ 28 -> Forall (fun l => zlen l < NUM_BUF) (file_lines (length f) f) ->
  exists d, load_file f = Ok d /\ dict_ok d.
Proof.
  intros Hf Hl. unfold load_file. pose proof (file_lines_count (length f) f (Nat.le_refl _)) as Hc.
  destruct (load_lines_total (file_lines (length f) f) (dictionary_create 2)) as (d & E & D & _); [by apply dictionary_create_ok|done| |by exists d].
  change (size (dictionary_create 2)) with 0. unfold zlen in *. lia.
Qed.

(** A file of broken lines is read to its end. *)
Definition broken_file : list Z :=
  str "A = {" ++ [10] ++ str "B : 1" ++ [10] ++ str "= 5" ++ [10] ++ str "C = -" ++ [10] ++ str "c = #fg" ++ [10; 10] ++ str "D = x".

Lemma load_file_total_witness : load_file broken_file =
    Ok (mkDictionary 2 [mkEntry (str "C") (DICTIONARY_NUMBER 15); mkEntry (str "D") (DICTIONARY_STRING (Some (str "X")))]) /\
  exists d, load_file broken_file = Ok d /\ dict_ok d.
Proof.
  split; [vm_compute; reflexivity|]. apply (load_file_total broken_file); [vm_compute; reflexivity|].
  vm_compute. repeat constructor.
Defined.

(** ** What a line means *)

(** The parser stands before the text [s]. *)
Definition at_text (p : LineParser) (s : list Z) : Prop :=
  parsing p /\ exists pre, buf p = pre ++ s /\ pos p = zlen pre /\ s <> [] /\ current p = hd 0 s.

Lemma at_text_start line d : zlen line < CONFIG_BUFFER_LENGTH -> line <> [] -> at_text (mkParser line 0 (char_at line 0) d) line.
Proof. intros Hl Hne. split; [by apply parser_init_ok|]. exists []. split_and!; try done. by destruct line. Qed.

Lemma char_at_app pre c s : char_at (pre ++ c :: s) (zlen pre) = c.
Proof. unfold char_at, zlen. rewrite Nat2Z.id. by rewrite app_nth2, Nat.sub_diag by lia. Qed.

(** The next character, if the line has one. *)
Lemma wp_next_text c d s Q p : at_text p (c :: d :: s) -> d <> 10 ->
  (forall p', at_text p' (d :: s) -> dictionary p' = dictionary p -> Q true p') -> wp parser_next Q p.
Proof.
  intros (P & pre & B & O & _ & C) Hd HQ.
  assert (E : char_at (buf p) (pos p + 1) = d).
  { rewrite B, O. replace (zlen pre + 1) with (zlen (pre ++ [c])) by (by rewrite zlen_app). change (c :: d :: s) with ([c] ++ d :: s).
    rewrite app_assoc. apply char_at_app. }
  apply wp_next; [done| |].
  - intros p' M Ep _ Ec _. apply HQ; [|apply M]. split; [by eapply moved_parsing|]. exists (pre ++ [c]). rewrite (mv_buf _ _ M), B, Ep, O.
    rewrite <- app_assoc, zlen_app. by rewrite Ec, E.
  - intros p' _ _ _ [Hn|Hn]; [|congruence]. rewrite B, O, zlen_app, !zlen_cons in Hn. pose proof (zlen_nonneg s). lia.
Qed.

Lemma wp_next_end c s Q p : at_text p (c :: s) -> s = [] \/ hd 0 s = 10 ->
  (forall p', moved p p' -> current p' = c -> Q false p') -> wp parser_next Q p.
Proof.
  intros (P & pre & B & O & _ & C) Hs HQ. apply wp_next; [done| |].
  - intros p' M Ep Hl Ec Hne. exfalso. unfold left_of in Hl. rewrite (mv_buf _ _ M), B, Ep, O, zlen_app in Hl.
    destruct s as [|d s]; [change (zlen [c]) with 1 in Hl; lia|]. destruct Hs as [Hs|Hs]; [done|]. cbn in Hs. subst d.
    apply Hne. rewrite Ec, B, O. replace (zlen pre + 1) with (zlen (pre ++ [c])) by (by rewrite zlen_app).
    change (c :: 10 :: s) with ([c] ++ 10 :: s). rewrite app_assoc. apply char_at_app.
  - intros p' M _ Ec _. apply HQ; [done|]. by rewrite Ec.
Qed.

Lemma skip_none s Q p : at_text p s -> is_blank (hd 0 s) = false -> Q tt p -> wp parser_skipBlank Q p.
Proof.
  intros (P & pre & B & O & _ & C) Hb HQ. apply wp_skip; [done|]. intros p' _ E. rewrite E; [done|]. by rewrite C.
Qed.

(** One blank before a character that is none. *)
Lemma skip_one c s Q p : at_text p (32 :: c :: s) -> is_blank c = false -> c <> 10 ->
  (forall p', at_text p' (c :: s) -> dictionary p' = dictionary p -> Q tt p') -> wp parser_skipBlank Q p.
Proof.
  intros A Hb Hc HQ. pose proof A as (P & pre & B & O & _ & C). unfold parser_skipBlank. apply wp_bind, wp_gets. unfold fuel_of.
  cbn [skip_loop]. apply wp_bind, wp_gets. rewrite C. cbn [hd]. change (is_blank 32) with true. cbv iota.
  apply wp_bind. eapply wp_next_text; [done|done|]. intros p' A' D. pose proof A' as (P' & pre' & B' & O' & _ & C').
  destruct (length (buf p)) as [|n] eqn:En; [rewrite B in En; rewrite length_app in En; cbn in En; lia|].
  cbn [skip_loop]. apply wp_bind, wp_gets. rewrite C'. cbn [hd]. rewrite Hb. by apply wp_ret, HQ.
Qed.

(** A word of accepted characters, before a character that is not accepted. *)
Lemma collect_word accept conv limit w : forall fuel i c s Q p, at_text p (w ++ c :: s) -> Forall (fun c => accept c = true /\ c <> 10) w ->
  accept c = false -> c <> 10 -> (length w <= fuel)%nat -> i + zlen w <= limit ->
  (forall p', at_text p' (c :: s) -> dictionary p' = dictionary p -> Q (Some (conv <$> w)) p') ->
  wp (collect accept conv limit fuel i) Q p.
Proof.
  induction w as [|x w IH]; intros fuel i c s Q p A Hw Hc Hn Hf Hi HQ.
  - destruct fuel; cbn [collect]; apply wp_bind, wp_gets; pose proof A as (_ & _ & _ & _ & _ & C); cbn [app hd] in C; rewrite C, Hc;
      by apply wp_ret, HQ.
  - apply Forall_cons in Hw as [[Hx _] Hw]. rewrite zlen_cons in Hi. pose proof (zlen_nonneg w). destruct fuel as [|fuel]; [cbn in Hf; lia|].
    cbn [collect]. apply wp_bind, wp_gets. pose proof A as (_ & _ & _ & _ & _ & C). cbn [app hd] in C. rewrite C, Hx. ztests.
    assert (HN : forall Q', (forall p', at_text p' (w ++ c :: s) -> dictionary p' = dictionary p -> Q' true p') -> wp parser_next Q' p).
    { intros Q' H'. destruct w as [|y w]; cbn [app] in A; (eapply wp_next_text; [exact A| |exact H']); [done|]. by apply Forall_cons in Hw as [[_ ?] _]. }
    apply wp_bind, HN. intros p1 A1 D1. cbn [length] in Hf. apply wp_bind. eapply (IH fuel); [exact A1|done|done|done|lia|lia|].
    intros p2 A2 D2. apply wp_ret. rewrite <- D1 in HQ. cbn [fmap option_fmap option_map list_fmap] in *. apply HQ; [done|congruence].
Qed.

(** A word at the end of the line. *)
Lemma collect_end accept conv limit w : forall fuel i Q p, at_text p (w ++ [10]) -> w <> [] -> Forall (fun c => accept c = true /\ c <> 10) w ->
  (length w <= fuel)%nat -> i + zlen w <= limit ->
  (forall p', dictionary p' = dictionary p -> Q (Some (conv <$> w)) p') -> wp (collect accept conv limit fuel i) Q p.
Proof.
  induction w as [|x w IH]; intros fuel i Q p A Hne Hw Hf Hi HQ; [done|].
  apply Forall_cons in Hw as [[Hx _] Hw]. rewrite zlen_cons in Hi. pose proof (zlen_nonneg w). destruct fuel as [|fuel]; [cbn in Hf; lia|].
  cbn [collect]. apply wp_bind, wp_gets. pose proof A as (_ & _ & _ & _ & _ & C). cbn [app hd] in C. rewrite C, Hx. ztests. apply wp_bind.
  destruct w as [|y w]; cbn [app] in A.
  - eapply wp_next_end; [exact A|by right|]. intros p1 M1 _. apply wp_ret. apply HQ, M1.
  - pose proof Hw as Hy. apply Forall_cons in Hy as [[_ Hy] _]. eapply wp_next_text; [exact A|done|]. intros p1 A1 D1.
    cbn [length] in Hf. apply wp_bind. eapply (IH fuel); [exact A1|done|done|cbn; lia|lia|]. intros p2 D2. apply wp_ret, HQ. congruence.
Qed.

(** A string, before its closing quote. *)
Lemma string_text w : forall fuel i s Q p, at_text p (w ++ 34 :: s) -> Forall (fun c => c <> 34 /\ c <> 10) w ->
  (length w <= fuel)%nat -> i + zlen w < MAX_DICTIONARY_STRING_LENGTH_BYTES ->
  (forall p', at_text p' (34 :: s) -> dictionary p' = dictionary p -> Q (Some w) p') -> wp (string_loop fuel i) Q p.
Proof.
  induction w as [|x w IH]; intros fuel i s Q p A Hw Hf Hi HQ; pose proof A as (_ & _ & _ & _ & _ & C); cbn [app hd] in C.
  - destruct fuel; cbn [string_loop]; apply wp_bind, wp_gets; rewrite C; cbn [Z.eqb Pos.eqb]; by apply wp_ret, HQ.
  - apply Forall_cons in Hw as [[Hx _] Hw]. rewrite zlen_cons in Hi. pose proof (zlen_nonneg w). destruct fuel as [|fuel]; [cbn in Hf; lia|].
    cbn [string_loop]. apply wp_bind, wp_gets. rewrite C. ztests.
    assert (HN : forall Q', (forall p', at_text p' (w ++ 34 :: s) -> dictionary p' = dictionary p -> Q' true p') -> wp parser_next Q' p).
    { intros Q' H'. destruct w as [|y w]; cbn [app] in A; (eapply wp_next_text; [exact A| |exact H']); [done|]. by apply Forall_cons in Hw as [[_ ?] _]. }
    apply wp_bind, HN. intros p1 A1 D1. cbn [length] in Hf. apply wp_bind. eapply (IH fuel); [exact A1|done|lia|lia|].
    intros p2 A2 D2. apply wp_ret, HQ; [done|congruence].
Qed.

(** ** Printing *)

Fixpoint decimal (fuel : nat) (n : Z) : list Z :=
  if n <? 10 then [48 + n] else match fuel with O => [] | S fuel => decimal fuel (n / 10) ++ [48 + n mod 10] end.

Lemma digits_value_app base a b : digits_value base (a ++ [b]) = digits_value base a * base + digit_value b.
Proof. unfold digits_value. by rewrite foldl_app. Qed.

Lemma isdigit_range n : 0 <= n < 10 -> isdigit (48 + n) = true /\ digit_value (48 + n) = n.
Proof. intros H. unfold digit_value, isdigit. ztests. cbn. split; [done|lia]. Qed.

Lemma decimal_ok fuel : forall n, 0 <= n < 10 ^ (1 + Z.of_nat fuel) ->
  digits_value 10 (decimal fuel n) = n /\ Forall (fun c => isdigit c = true) (decimal fuel n) /\ decimal fuel n <> [] /\
  zlen (decimal fuel n) <= 1 + Z.of_nat fuel.
Proof.
  induction fuel as [|fuel IH]; intros n Hn; cbn [decimal].
  - change (10 ^ (1 + Z.of_nat 0)) with 10 in Hn. ztests. destruct (isdigit_range n Hn) as [H1 H2].
    split_and!; [unfold digits_value; cbn [foldl]; lia|by repeat constructor|done|done].
  - destruct (Z.ltb_spec n 10) as [H|H].
    + destruct (isdigit_range n) as [H1 H2]; [lia|]. split_and!; [unfold digits_value; cbn [foldl]; lia|by repeat constructor|done|].
      change (zlen [48 + n]) with 1. lia.
    + destruct (IH (n / 10)) as (I1 & I2 & I3 & I4).
      { split; [by apply Z.div_pos; lia|]. apply Z.div_lt_upper_bound; [lia|].
        replace (1 + Z.of_nat (S fuel)) with (Z.succ (1 + Z.of_nat fuel)) in Hn by lia. rewrite Z.pow_succ_r in Hn by lia. lia. }
      destruct (isdigit_range (n mod 10)) as [H1 H2]; [by apply Z.mod_pos_bound; lia|].
      split_and!.
      * rewrite digits_value_app, I1, H2. pose proof (Z.div_mod n 10). lia.
      * apply Forall_app. by split; [|constructor].
      * by destruct (decimal fuel (n / 10)).
      * rewrite zlen_app. change (zlen [_]) with 1. lia.
Qed.

Definition print_number (n : Z) : list Z := if n <? 0 then 45 :: decimal 9 (- n) else decimal 9 n.
Definition quoted (s : list Z) : list Z := 34 :: s ++ [34].
Fixpoint print_elements (l : list (list Z)) : list Z :=
  match l with [] => [] | [w] => quoted w | w :: l => quoted w ++ 59 :: 32 :: print_elements l end.

Definition plain (s : list Z) : Prop :=
  Forall (fun c => c <> 34 /\ c <> 10 /\ c <> 0) s /\ zlen s < MAX_DICTIONARY_STRING_LENGTH_BYTES.

(** The values a file can write down: numbers of 32 bits, strings without quotes
    and line ends, and arrays of such strings. *)
Inductive written : DictionaryValue -> list Z -> Prop :=
| written_number n : - 2 ^ 31 <= n < 2 ^ 31 -> written (DICTIONARY_NUMBER n) (print_number n)
| written_string s : plain s -> written (DICTIONARY_STRING (Some s)) (quoted s)
| written_array w l : Forall plain (w :: l) ->
    written (DICTIONARY_ARRAY (mkArray (Some <$> w :: l) true)) (123 :: print_elements (w :: l) ++ [125]).

Record key_ok (k : list Z) : Prop := {
  ky_chars : Forall (fun c => is_identifier c = true /\ toupper c = c) k;
  ky_some : k <> [];
  ky_short : zlen k < KEY_LENGTH
}.

Definition print_line (k text : list Z) : list Z := k ++ [32; 61; 32] ++ text ++ [10].

(** *** Numbers *)

Lemma digit_facts c : isdigit c = true -> c <> 10 /\ c <> 45 /\ c <> 0 /\ is_blank c = false.
Proof. unfold isdigit, is_blank. intros H. zbool. ztests. split_and!; done || lia. Qed.

Lemma s32_in_range n : - 2 ^ 31 <= n < 2 ^ 31 -> s32 n = n.
Proof. mlia. Qed.

Lemma atoi_neg n : 0 < n <= 2 ^ 31 -> s32 (-1 * s32 n) = - n.
Proof. mlia. Qed.

Lemma fuel_text p s : at_text p s -> (length s < fuel_of p)%nat.
Proof. intros (_ & pre & B & _). unfold fuel_of. rewrite B, length_app. lia. Qed.

Lemma number_text n Q p : - 2 ^ 31 <= n < 2 ^ 31 -> at_text p (print_number n ++ [10]) ->
  (forall p', dictionary p' = dictionary p -> Q (Some n) p') -> wp parser_parseNumber Q p.
Proof.
  intros Hn A HQ. unfold parser_parseNumber. apply wp_bind, wp_gets, wp_bind.
  assert (W : forall m p1, 0 <= m <= 2 ^ 31 -> at_text p1 (decimal 9 m ++ [10]) -> dictionary p1 = dictionary p ->
    forall neg, s32 (neg * s32 m) = n ->
    wp (c ← gets current; if negb (isdigit c) then mret None
        else n ← gets fuel_of; digits ← collect isdigit (fun c => c) NUM_BUF n 0;
        match digits with None => mret None | Some digits => num_buf ← terminated digits; mret (Some (s32 (neg * atoi num_buf))) end) Q p1).
  { intros m p1 Hm A1 D1 neg Hv. destruct (decimal_ok 9 m) as (V & F & Ne & L); [change (10 ^ _) with 10000000000; lia|].
    apply wp_bind, wp_gets. pose proof A1 as (_ & _ & _ & _ & _ & C). destruct (decimal 9 m) as [|x w] eqn:Ed; [done|]. cbn [app hd] in C.
    rewrite C. pose proof F as Fx. apply Forall_cons in Fx as [-> _]. cbn [negb]. apply wp_bind, wp_gets.
    pose proof (fuel_text _ _ A1) as Hfu. rewrite length_app in Hfu.
    apply wp_bind. eapply collect_end; [exact A1|done| |lia|unfold NUM_BUF; lia|].
    { eapply Forall_impl; [exact F|]. intros c Hc. split; [done|]. by apply digit_facts. }
    intros p2 D2. rewrite list_fmap_id. apply wp_bind, wp_terminated; [unfold NUM_BUF; lia|]. apply wp_ret.
    unfold atoi, strtol. rewrite V, Z.min_l by lia. rewrite Hv. apply HQ. congruence. }
  unfold print_number in A. destruct (Z.ltb_spec n 0) as [H|H].
  - pose proof A as (_ & _ & _ & _ & _ & C). cbn [app hd] in C. rewrite C. cbn [Z.eqb Pos.eqb]. cbn [app] in A.
    destruct (decimal_ok 9 (- n)) as (_ & F & Ne & _); [change (10 ^ _) with 10000000000; lia|].
    destruct (decimal 9 (- n)) as [|x w] eqn:Ed; [done|]. apply Forall_cons in F as [Hx _]. apply digit_facts in Hx as (Hx & _).
    apply wp_bind. eapply wp_next_text; [exact A|done|]. intros p1 A1 D1. apply wp_ret, (W (- n)); [lia|by rewrite Ed|done|].
    rewrite atoi_neg; lia.
  - assert (Hc : current p =? 45 = false).
    { pose proof A as (_ & _ & _ & _ & _ & C). destruct (decimal_ok 9 n) as (_ & F & Ne & _); [change (10 ^ _) with 10000000000; lia|].
      destruct (decimal 9 n) as [|x w]; [done|]. apply Forall_cons in F as [Hx _]. apply digit_facts in Hx as (_ & Hx & _). cbn in C. rewrite C. by apply Z.eqb_neq. }
    rewrite Hc. apply wp_ret, (W n); [lia|done|done|]. rewrite Z.mul_1_l, !s32_in_range; [done|lia..|].
    rewrite s32_in_range; lia.
Qed.

(** *** Strings and arrays *)

Lemma quoted_text w s Q p : at_text p (quoted w ++ s) -> plain w ->
  (forall p', at_text p' (34 :: s) -> dictionary p' = dictionary p -> Q (Some w) p') -> wp parser_parseString Q p.
Proof.
  intros A [F L] HQ. unfold quoted in A. cbn [app] in A. rewrite <- app_assoc in A. cbn [app] in A.
  unfold parser_parseString. apply wp_bind, wp_gets, wp_bind. pose proof A as (_ & _ & _ & _ & _ & C). cbn [hd] in C. rewrite C.
  cbn [Z.eqb Pos.eqb when].
  assert (HN : forall Q', (forall p', at_text p' (w ++ 34 :: s) -> dictionary p' = dictionary p -> Q' true p') -> wp parser_next Q' p).
  { intros Q' H'. destruct w as [|y w]; cbn [app] in A; (eapply wp_next_text; [exact A| |exact H']); [done|]. by apply Forall_cons in F as [(_ & ? & _) _]. }
  apply wp_bind, HN. intros p1 A1 D1. apply wp_ret, wp_bind, wp_gets. pose proof (fuel_text _ _ A1) as Hfu. rewrite length_app in Hfu.
  eapply string_text; [exact A1|eapply Forall_impl; [exact F|]; cbn; intros ? (? & ? & ?); done|lia|lia|]. intros p2 A2 D2. apply HQ; [done|congruence].
Qed.

(** The elements that were read, and the element the array was allocated with. *)
Definition array_of (read : list (list Z)) : DictionaryArray :=
  mkArray (match read with [] => [None] | _ => Some <$> read end) true.

Lemma set_element_last l w : set_element (mkArray l true) (length l) w = mkArray (l ++ [Some w]) true.
Proof.
  unfold set_element. cbn [strings]. rewrite Nat.leb_refl. unfold reallocate_DictionaryArray, setf; cbn. f_equal.
  rewrite take_ge by lia. replace (S (length l) - length l)%nat with 1%nat by lia.
  rewrite insert_app_r_alt by done. by rewrite Nat.sub_diag.
Qed.

Lemma set_element_next read w : set_element (array_of read) (length read) w = array_of (read ++ [w]).
Proof.
  unfold array_of. destruct read as [|x read]; [done|]. cbn [app]. rewrite <- (length_fmap Some (x :: read)), set_element_last.
  f_equal. change (x :: read ++ [w]) with ((x :: read) ++ [w]). by rewrite fmap_app.
Qed.

Lemma elements_text l : forall fuel read b s Q p, at_text p (b ++ print_elements l ++ 125 :: s) -> b = [] \/ b = [32] -> l <> [] ->
  Forall plain l -> (length l <= fuel)%nat ->
  (forall p', dictionary p' = dictionary p -> Q (true, array_of (read ++ l)) p') ->
  wp (array_loop fuel (length read) (array_of read)) Q p.
Proof.
  induction l as [|w l IH]; intros fuel read b s Q p A Hb Hne Hl Hf HQ; [done|]. apply Forall_cons in Hl as [Hw Hl].
  destruct fuel as [|fuel]; [cbn in Hf; lia|]. cbn [length] in Hf. cbn [array_loop]. apply wp_bind, wp_gets.
  set (tail := match l with [] => 125 :: s | _ => 59 :: 32 :: print_elements l ++ 125 :: s end).
  assert (Et : print_elements (w :: l) ++ 125 :: s = quoted w ++ tail).
  { cbn [print_elements]. destruct l; [done|]. rewrite <- app_assoc. done. }
  rewrite Et in A. assert (Hc : current p =? 125 = false).
  { destruct A as (_ & _ & _ & _ & _ & C). rewrite C. by destruct Hb as [-> | ->]. }
  rewrite Hc. clear Hc.
  assert (HS : forall Q', (forall p', at_text p' (quoted w ++ tail) -> dictionary p' = dictionary p -> Q' tt p') -> wp parser_skipBlank Q' p).
  { intros Q' H'. destruct Hb as [-> | ->]; cbn [app] in A.
    - eapply skip_none; [exact A|done|by apply H'].
    - eapply skip_one; [exact A|done|done|exact H']. }
  apply wp_bind, HS. intros p1 A1 D1. apply wp_bind, wp_gets. pose proof A1 as (_ & _ & _ & _ & _ & C). rewrite C. cbn [quoted app hd].
  cbn [Z.eqb Pos.eqb negb]. change (isdigit 34) with false. cbv iota.
  apply wp_bind. eapply quoted_text; [exact A1|done|]. intros p2 A2 D2. rewrite set_element_next.
  apply wp_bind, wp_gets. pose proof A2 as (_ & _ & _ & _ & _ & C2). rewrite C2. cbn [hd Z.eqb Pos.eqb when].
  assert (Ht : exists x t, tail = x :: t /\ x <> 10 /\ is_blank x = false) by (unfold tail; destruct l; by eexists _, _).
  destruct Ht as (x & t & Ht & Hx & Hxb). rewrite Ht in A2.
  apply wp_bind, wp_bind. eapply wp_next_text; [exact A2|done|]. intros p3 A3 D3. apply wp_ret.
  apply wp_bind. eapply skip_none; [exact A3|done|]. apply wp_bind, wp_gets. pose proof A3 as (_ & _ & _ & _ & _ & C3). rewrite C3. cbn [hd].
  assert (D : dictionary p3 = dictionary p) by congruence. unfold tail in Ht. destruct l as [|w' l]; injection Ht as <- <-.
  - cbn [Z.eqb Pos.eqb orb]. apply wp_ret, HQ. done.
  - cbn [Z.eqb Pos.eqb orb]. apply wp_bind. eapply wp_next_text; [exact A3|done|]. intros p4 A4 D4.
    replace (S (length read)) with (length (read ++ [w])) by (rewrite length_app; cbn; lia).
    eapply (IH fuel (read ++ [w]) [32]); [exact A4|by right|done|done|lia|]. intros p5 D5. rewrite <- app_assoc. apply HQ. congruence.
Qed.

(** *** Values, lines and files *)

Lemma add_entry_exact k v b d' Q p : zlen k < KEY_LENGTH -> dictionary_add (dictionary p) (mkEntry k v) = Ok (b, d') ->
  (forall p', dictionary p' = d' -> Q tt p') ->
  wp (add_entry (fun d => k ← c_string (Some k); k ← copy_key k; dictionary_add d (mkEntry k v))) Q p.
Proof.
  intros Hk E HQ. unfold add_entry. apply wp_bind, wp_gets, wp_bind, wp_lift. exists (b, d'). cbn [c_string]. mcbn.
  rewrite copy_key_ok by done. mcbn. split; [done|]. apply wp_modify, HQ. by fields.
Qed.

Lemma value_text k v text b d' Q p : written v text -> at_text p (32 :: text ++ [10]) -> zlen k < KEY_LENGTH ->
  dictionary_add (dictionary p) (mkEntry k v) = Ok (b, d') -> (forall p', dictionary p' = d' -> Q tt p') ->
  wp (_ ← parser_skipBlank; parser_parseValue (Some k)) Q p.
Proof.
  intros W A Hk E HQ.
  assert (Hadd : forall p1 Q', dictionary p1 = dictionary p -> (forall p', dictionary p' = d' -> Q' tt p') ->
    wp (add_entry (fun d => k ← c_string (Some k); k ← copy_key k; dictionary_add d (mkEntry k v))) Q' p1).
  { intros p1 Q' D1 H'. eapply add_entry_exact; [done|by rewrite D1|done]. }
  assert (Hc : exists c t, text = c :: t /\ is_blank c = false /\ c <> 10).
  { destruct W as [n Hn|s Hs|w l Hl].
    - unfold print_number. destruct (Z.ltb_spec n 0); [by eexists _, _|].
      destruct (decimal_ok 9 n) as (_ & F & Ne & _); [change (10 ^ _) with 10000000000; lia|].
      destruct (decimal 9 n) as [|x w]; [done|]. apply Forall_cons in F as [Hx _]. apply digit_facts in Hx as (? & ? & ? & ?). by eexists _, _.
    - by eexists _, _.
    - by eexists _, _. }
  destruct Hc as (c & t & Ht & Hb & Hn). rewrite Ht in A. cbn [app] in A. apply wp_bind. eapply skip_one; [exact A|done|done|].
  intros p1 A1 D1. unfold parser_parseValue. apply wp_bind. eapply skip_none; [exact A1|done|]. apply wp_bind, wp_gets.
  pose proof A1 as (_ & _ & _ & _ & _ & C). rewrite C. cbn [hd]. change (c :: t ++ [10]) with ((c :: t) ++ [10]) in A1. rewrite <- Ht in A1.
  destruct W as [n Hr|s Hs|w l Hl].
  - assert (Hi : (c =? 45) || isdigit c = true).
    { unfold print_number in Ht. destruct (Z.ltb_spec n 0); [by injection Ht as <- _|].
      destruct (decimal_ok 9 n) as (_ & F & Ne & _); [change (10 ^ _) with 10000000000; lia|]. rewrite Ht in F.
      apply Forall_cons in F as [-> _]. apply orb_true_r. }
    rewrite Hi. apply wp_bind. eapply number_text; [done|exact A1|]. intros p2 D2. apply Hadd; [congruence|done].
  - injection Ht as <- <-. cbn [Z.eqb Pos.eqb orb]. change (isdigit 34) with false. cbv iota.
    apply wp_bind. eapply quoted_text; [exact A1|done|]. intros p2 A2 D2. apply Hadd; [congruence|done].
  - injection Ht as <- <-. cbn [Z.eqb Pos.eqb orb]. change (isdigit 123) with false. cbv iota. apply wp_bind.
    unfold parser_parseArray. apply wp_bind, wp_gets. rewrite C. cbn [hd Z.eqb Pos.eqb when].
    assert (Hq : exists u, print_elements (w :: l) = 34 :: u) by (cbn [print_elements]; destruct l; by eexists).
    destruct Hq as [u Hq]. rewrite <- app_comm_cons, <- app_assoc, Hq in A1. cbn [app] in A1.
    apply wp_bind, wp_bind. eapply wp_next_text; [exact A1|done|]. intros p2 A2 D2. apply wp_ret, wp_bind, wp_gets.
    rewrite app_comm_cons, <- Hq in A2. pose proof (fuel_text _ _ A2) as Hfu.
    change (allocate_DictionaryArray 1) with (array_of []).
    eapply (elements_text (w :: l) _ [] [] [10]); [exact A2|by left|done|done| |].
    { rewrite length_app in Hfu. assert (Hle : forall l : list (list Z), (length l <= length (print_elements l))%nat).
      { clear. induction l as [|x l IH]; cbn [print_elements]; [done|]. destruct l; cbn [length quoted]; [rewrite ?length_app; cbn; lia|].
        rewrite length_app. cbn [length] in *. lia. }
      specialize (Hle (w :: l)). lia. }
    intros p3 D3. cbn [app]. apply Hadd; [congruence|done].
Qed.

Lemma identifier_facts c : is_identifier c = true -> is_blank c = false /\ c <> 10 /\ c <> 0 /\ c <> 59 /\ c <> 61.
Proof.
  unfold is_identifier, isdigit, isalpha, isupper, islower, is_blank. intros Hc.
  assert (H : 48 <= c) by (repeat (apply orb_prop in Hc as [Hc|Hc]); zbool; lia).
  assert (c <> 59 /\ c <> 61) by (repeat (apply orb_prop in Hc as [Hc|Hc]); zbool; lia). split_and!; lia.
Qed.

Lemma line_text k v text b d' Q p : key_ok k -> written v text -> at_text p (print_line k text) ->
  dictionary_add (dictionary p) (mkEntry k v) = Ok (b, d') -> (forall p', dictionary p' = d' -> Q tt p') -> wp parse_line Q p.
Proof.
  intros [Hk Hne Hl] W A E HQ. unfold parse_line.
  assert (exists c k', k = c :: k') as (c & k' & Ek) by (destruct k; [done|by eexists _, _]).
  assert (Hcc : is_identifier c = true) by (rewrite Ek in Hk; by apply Forall_cons in Hk as [[]]).
  pose proof (identifier_facts c Hcc) as (Hb & Hn & _ & H59 & _).
  assert (Hh : hd 0 (print_line k text) = c) by (by rewrite Ek).
  apply wp_bind. eapply skip_none; [exact A|by rewrite Hh|]. apply wp_bind, wp_gets. unfold Datatypes.id.
  pose proof A as (P & pre & B & O & _ & C). rewrite C, Hh. ztest (c =? 59).
  assert (Hlen : zlen (buf p) <=? pos p + 1 = false).
  { rewrite B, O, zlen_app. unfold print_line. rewrite zlen_app, Ek, zlen_cons. pose proof (zlen_nonneg k').
    apply Z.leb_gt. cbn [app]. rewrite !zlen_cons. pose proof (zlen_nonneg (text ++ [10])). lia. }
  rewrite Hlen, Hcc. cbn [negb]. apply wp_bind. unfold parser_parseIdentifier. apply wp_bind. eapply skip_none; [exact A|by rewrite Hh|].
  apply wp_bind, wp_gets. pose proof (fuel_text _ _ A) as Hfu. unfold print_line in A, Hfu. rewrite length_app in Hfu.
  change (k ++ [32; 61; 32] ++ text ++ [10]) with (k ++ 32 :: (61 :: 32 :: text ++ [10])) in A.
  eapply collect_word; [exact A| |done|done|lia|unfold KEY_LENGTH, MAX_DICTIONARY_STRING_LENGTH_BYTES in *; lia|].
  { eapply Forall_impl; [exact Hk|]. intros x [Hx _]. split; [done|]. by apply identifier_facts. }
  intros p1 A1 D1. assert (Eup : toupper <$> k = k).
  { clear -Hk. induction Hk as [|x l [_ Hx] _ IH]; [done|]. by rewrite fmap_cons, Hx, IH. }
  rewrite Eup. apply wp_bind. eapply skip_one; [exact A1|done|done|]. intros p2 A2 D2. apply wp_bind, wp_gets.
  pose proof A2 as (_ & _ & _ & _ & _ & C2). rewrite C2. cbn [hd Z.eqb Pos.eqb negb].
  apply wp_bind. eapply wp_next_text; [exact A2|done|]. intros p3 A3 D3.
  assert (D : dictionary p3 = dictionary p) by congruence.
  eapply value_text; [exact W|exact A3|done|by rewrite D|done].
Qed.

Lemma written_chars v text : written v text -> Forall (fun c => c <> 10 /\ c <> 0) text.
Proof.
  assert (Hq : forall s, plain s -> Forall (fun c => c <> 10 /\ c <> 0) (quoted s)).
  { intros s [Hs _]. unfold quoted. constructor; [done|]. apply Forall_app. split; [|by repeat constructor].
    eapply Forall_impl; [exact Hs|]. cbn. tauto. }
  assert (Hd : forall n, 0 <= n < 10 ^ 10 -> Forall (fun c => c <> 10 /\ c <> 0) (decimal 9 n)).
  { intros n Hn. destruct (decimal_ok 9 n) as (_ & F & _); [done|]. eapply Forall_impl; [exact F|].
    intros c Hc. apply digit_facts in Hc. tauto. }
  intros [n Hn|s Hs|w l Hl].
  - unfold print_number. destruct (Z.ltb_spec n 0); [constructor; [done|]|]; apply Hd; lia.
  - by apply Hq.
  - constructor; [done|]. apply Forall_app. split; [|by repeat constructor].
    induction Hl as [|x l' Hx Hl' IH]; [constructor|]. cbn [print_elements]. destruct l'; [by apply Hq|].
    apply Forall_app. split; [by apply Hq|]. by repeat constructor.
Qed.

Lemma fgets_line body rest room : Forall (fun c => c <> 10 /\ c <> 0) body -> (length body < room)%nat ->
  fgets room (body ++ 10 :: rest) = (body ++ [10], rest).
Proof.
  intros Hb. revert room. induction Hb as [|c body [Hc _] _ IH]; intros [|room] Hr; cbn [length] in Hr; try lia; cbn [app fgets]; [done|].
  ztests. rewrite IH by lia. done.
Qed.

Lemma until_nul_none s : Forall (fun c => c <> 0) s -> until_nul s = s.
Proof. induction 1 as [|c s Hc _ IH]; cbn [until_nul]; [done|]. ztests. by rewrite IH. Qed.

(** An entry as a line of a file. *)
Record printed (e : DictionaryEntry) (line : list Z) : Prop := {
  pr_text : exists text, written (value e) text /\ line = print_line (key e) text;
  pr_key : key_ok (key e);
  pr_fits : zlen line < CONFIG_BUFFER_LENGTH
}.

Lemma printed_body e line : printed e line -> exists body, line = body ++ [10] /\ Forall (fun c => c <> 10 /\ c <> 0) body.
Proof.
  intros [(text & W & ->) [Hk _ _] _]. exists (key e ++ [32; 61; 32] ++ text). unfold print_line. split; [by rewrite <- !app_assoc|].
  apply Forall_app. split; [eapply Forall_impl; [exact Hk|]; intros c [Hc _]; apply identifier_facts in Hc; tauto|].
  apply Forall_app. split; [by repeat constructor|by eapply written_chars].
Qed.

Lemma file_lines_printed es lines : Forall2 printed es lines -> forall fuel, (length (concat lines) <= fuel)%nat ->
  file_lines fuel (concat lines) = lines.
Proof.
  induction 1 as [|e line es lines He _ IH]; intros fuel Hf; [by destruct fuel|]. cbn [concat] in *.
  destruct (printed_body _ _ He) as (body & Eb & Hb). pose proof (pr_fits _ _ He) as Hfit. rewrite Eb in *.
  rewrite !length_app in Hf. cbn [length] in Hf. destruct fuel as [|fuel]; [lia|]. rewrite zlen_app in Hfit. change (zlen [10]) with 1 in Hfit.
  rewrite <- app_assoc. cbn [app]. assert (G : fgets (Z.to_nat (CONFIG_BUFFER_LENGTH - 1)) (body ++ 10 :: concat lines) = (body ++ [10], concat lines)).
  { apply fgets_line; [done|]. unfold zlen in Hfit. lia. }
  destruct (body ++ 10 :: concat lines) as [|c f] eqn:Ef; [by destruct body|]. cbn [file_lines]. rewrite G. rewrite IH by lia. done.
Qed.

Lemma load_lines_printed es lines : Forall2 printed es lines -> forall d, dict_ok d -> NoDup (key <$> data d ++ es) ->
  2 * (size d + zlen es) < 2 ^ 30 -> exists d', load_lines lines d = Ok d' /\ dict_ok d' /\ data d' = data d ++ es.
Proof.
  induction 1 as [|e line es lines He _ IH]; intros d D Hd Hn; cbn [load_lines].
  { exists d. split_and!; [done|done|by rewrite app_nil_r]. }
  rewrite zlen_cons in Hn. pose proof (zlen_nonneg es). destruct (printed_body _ _ He) as (body & Eb & Hb).
  rewrite (until_nul_none line) by (rewrite Eb; apply Forall_app; split; [eapply Forall_impl; [exact Hb|]; cbn; tauto|by repeat constructor]).
  destruct (parser_init_ok line d (pr_fits _ _ He)) as [-> _]. mcbn.
  pose proof (pr_key _ _ He) as K. assert (Hu : uppercase (key e) = key e).
  { destruct K as [Hk _ _]. unfold uppercase. clear -Hk. induction Hk as [|x k [_ Hx] _ IHk]; [done|].
    rewrite fmap_cons, IHk, Hx. by case_if. }
  destruct (dictionary_add_ok d (key e) (value e) D (ky_short _ K)) as (d1 & D1 & H1); [lia|].
  rewrite Hu in H1. rewrite bool_decide_false in H1.
  2:{ rewrite fmap_app in Hd. apply NoDup_app in Hd as (_ & Hd & _). intros Hin. apply (Hd _ Hin). cbn. by left. }
  destruct H1 as [E1 E2]. destruct (pr_text _ _ He) as (text & W & El).
  assert (W1 : wp parse_line (fun _ p' => dictionary p' = d1) (mkParser line 0 (char_at line 0) d)).
  { eapply (line_text (key e) (value e)); [done|exact W| |exact E1|done]. rewrite <- El. apply at_text_start; [apply He|by rewrite Eb; destruct body]. }
  apply wp_ok in W1 as ([] & p' & E & Ep). rewrite E. mcbn. rewrite Ep. assert (E2' : data d1 = data d ++ [e]) by (rewrite E2; by destruct e).
  destruct (IH d1 D1) as (d' & R & D' & Ed').
  - by rewrite E2', <- app_assoc.
  - unfold size in *. rewrite E2', zlen_app. change (zlen [e]) with 1. lia.
  - exists d'. split; [exact R|]. split; [done|]. by rewrite Ed', E2', <- app_assoc.
Qed.

(** *** Printing a dictionary *)

Definition plain_chars (s : list Z) : bool :=
  forallb (fun c => negb (c =? 34) && negb (c =? 10) && negb (c =? 0)) s && (zlen s <? MAX_DICTIONARY_STRING_LENGTH_BYTES).

Definition print_value (v : DictionaryValue) : option (list Z) :=
  match v with
  | DICTIONARY_NUMBER n => if (- 2 ^ 31 <=? n) && (n <? 2 ^ 31) then Some (print_number n) else None
  | DICTIONARY_STRING (Some s) => if plain_chars s then Some (quoted s) else None
  | DICTIONARY_ARRAY (mkArray l true) =>
      l ← mapM Datatypes.id l;
      if negb (bool_decide (l = [])) && forallb plain_chars l then Some (123 :: print_elements l ++ [125]) else None
  | _ => None
  end.

Definition key_chars (k : list Z) : bool :=
  forallb (fun c => is_identifier c && (toupper c =? c)) k && negb (bool_decide (k = [])) && (zlen k <? KEY_LENGTH).

(** The line of an entry, unless the value cannot be written down. *)
Definition print_entry (e : DictionaryEntry) : option (list Z) :=
  text ← print_value (value e);
  let line := print_line (key e) text in
  if key_chars (key e) && (zlen line <? CONFIG_BUFFER_LENGTH) then Some line else None.
Definition print_file (es : list DictionaryEntry) : option (list Z) := @concat Z <$> mapM print_entry es.

Lemma plain_chars_ok s : plain_chars s = true -> plain s.
Proof.
  intros H. apply andb_prop in H as [H1 H2]. zbool. split; [|done]. rewrite forallb_forall in H1.
  apply Forall_forall. intros c Hc. apply list_elem_of_In in Hc. specialize (H1 c Hc). zbool. done.
Qed.

Lemma print_value_written v text : print_value v = Some text -> written v text.
Proof.
  destruct v as [[s|]|[l []]|n|]; cbn [print_value]; intros H; try done.
  - destruct (plain_chars s) eqn:P; [|done]. injection H as <-. by constructor; apply plain_chars_ok.
  - apply bind_Some in H as (l' & Hl & H). destruct (negb _ && _) eqn:P; [|done]. injection H as <-.
    apply andb_prop in P as [P1 P2]. apply negb_true_iff, bool_decide_eq_false in P1. destruct l' as [|w l']; [done|].
    replace l with (Some <$> w :: l').
    2:{ apply mapM_Some in Hl. clear -Hl. induction Hl as [|x y xs ys Hx _ IH]; [done|]. cbn in *. by rewrite Hx, <- IH. }
    constructor. apply Forall_forall. intros x Hx. rewrite forallb_forall in P2. by apply plain_chars_ok, P2, list_elem_of_In.
  - destruct (_ && _) eqn:P; [|done]. injection H as <-. zbool. by constructor.
Qed.

Lemma print_entry_printed e line : print_entry e = Some line -> printed e line.
Proof.
  unfold print_entry. intros H. apply bind_Some in H as (text & Hv & H). destruct (key_chars _ && _) eqn:P; [|done].
  injection H as <-. apply andb_prop in P as [P1 P2]. apply andb_prop in P1 as [P1 P3]. apply andb_prop in P1 as [P1 P4]. zbool.
  split; [exists text; split; [by apply print_value_written|done]| |done].
  split; [|by apply bool_decide_eq_false in P4|done]. apply Forall_forall. intros c Hc. rewrite forallb_forall in P1.
  apply list_elem_of_In, P1 in Hc. zbool. done.
Qed.

Lemma print_file_printed es f : print_file es = Some f -> exists lines, f = concat lines /\ Forall2 printed es lines.
Proof.
  unfold print_file. intros H. apply fmap_Some in H as (lines & H & ->). exists lines. split; [done|]. apply mapM_Some in H.
  eapply Forall2_impl; [exact H|]. intros e line He. by apply print_entry_printed.
Qed.

(** C23. Reading back: a file of lines [KEY = value], written from entries with
    different keys, yields exactly these entries, in the order of the lines;
    numbers of 32 bits in decimal, strings in quotes and arrays of strings in
    braces all survive. *)
Theorem load_file_roundtrip es f : print_file es = Some f -> NoDup (key <$> es) -> zlen es < 2 ^ 28 ->
  exists d, load_file f = Ok d /\ dict_ok d /\ data d = es.
Proof.
  intros He Hd Hn. apply print_file_printed in He as (lines & -> & He). unfold load_file. rewrite (file_lines_printed es) by done.
  apply (load_lines_printed es lines He (dictionary_create 2)); [by apply dictionary_create_ok|done|].
  change (size (dictionary_create 2)) with 0. lia.
Qed.

(** Three entries and their file. *)
Definition demo_entries : list DictionaryEntry :=
  [mkEntry (str "RASTA_T_MAX") (DICTIONARY_NUMBER (-1800));
   mkEntry (str "LOGGER_FILE") (DICTIONARY_STRING (Some (str "rasta; log")));
   mkEntry (str "RASTA_ACCEPTED_VERSIONS") (DICTIONARY_ARRAY (mkArray [Some (str "0303"); Some (str "0301")] true))].
Definition demo_file : list Z := default [] (print_file demo_entries).

Lemma load_file_roundtrip_witness : zlen demo_file = 90 /\ exists d, load_file demo_file = Ok d /\ dict_ok d /\ data d = demo_entries.
Proof.
  split; [vm_compute; reflexivity|].
  exact (load_file_roundtrip demo_entries demo_file ltac:(vm_compute; reflexivity) ltac:(apply (bool_decide_unpack _); vm_compute; exact I)
           ltac:(vm_compute; reflexivity)).
Defined.
