(* ===== verification/Logging.v ===== *)
(** * Logging (src/c/logging.c)

    What is written to the console and to log files, as a list of outputs.  The
    text of a message is what [vsprintf] made of the format and its arguments;
    the local time as [strftime] prints it and the file system are arguments. *)

From stdpp Require Import base numbers list strings.
From Stdlib Require Import ZArith Lia.
From S2P Require Import Prelude.
From S2P Require Import Dictionary.
From S2P Require Import ConfigParser.

Local Open Scope Z_scope.
Local Open Scope record_scope.

(** The enumerations have no negative constant: they are unsigned. *)
Definition LOG_LEVEL_DEBUG : Z := 3.
Definition LOG_LEVEL_INFO : Z := 2.
Definition LOG_LEVEL_ERROR : Z := 1.
Definition LOG_LEVEL_NONE : Z := 0.
Definition LOGGER_TYPE_CONSOLE : Z := 0.
Definition LOGGER_TYPE_FILE : Z := 1.
Definition LOGGER_TYPE_BOTH : Z := 2.
(* logging.h LOGGER_MAX_MSG_SIZE *)
Definition LOGGER_MAX_MSG_SIZE : Z := 4096.

(** The pointer to the path is not owned: [Dangling] when what it points to is gone. *)
Inductive path_pointer := NoPath | Path (path : list Z) | Dangling.

(* logging.h logger_t *)
Record logger_t := mkLogger { max_log_level : Z; type : Z; log_file : path_pointer }.
#[export] Instance eta_logger : Eta logger_t := fun l => mkLogger (max_log_level l) (type l) (log_file l).

Inductive output := Console (text : list Z) | File (path text : list Z).

(** What a message needs of its environment. *)
Record log_env := mkLogEnv { local_time : list Z; epoch_ms : Z; can_open : list Z -> bool }.

#[local] Abbreviation LM := (M (list output)).

(* logging.c logger_init *)
Definition logger_init (max_log_level type : Z) : logger_t := mkLogger max_log_level type NoPath.
(* logging.c logger_set_log_file *)
Definition logger_set_log_file (path : list Z) (logger : logger_t) : logger_t := logger <| log_file := Path path |>.

(* logging.c log_to_console *)
Definition log_to_console (message : list Z) : LM unit := modify (fun out => out ++ [Console message]).

(** The errors are reported, but the function goes on. *)
(* logging.c log_to_file *)
Definition log_to_file (e : log_env) (message : list Z) (file : path_pointer) : LM unit :=
  match file with
  | Path path => if can_open e path then modify (fun out => out ++ [File path message]) else fail NullDeref
  | NoPath | Dangling => fail NullDeref
  end.

(* logging.c do_log_message *)
Definition do_log_message (e : log_env) (logger : logger_t) (msg : list Z) : LM unit :=
  if type logger =? LOGGER_TYPE_CONSOLE then log_to_console msg
  else if type logger =? LOGGER_TYPE_FILE then log_to_file e msg (log_file logger)
  else if type logger =? LOGGER_TYPE_BOTH then _ ← log_to_console msg; log_to_file e msg (log_file logger)
  else mret tt.

(** [sprintf] into an object of [n] bytes, the NUL included. *)
Definition sprintf (n : Z) (text : list Z) : res (list Z) := _ ← ensure (zlen text <? n) OutOfBounds; mret text.

(* logging.c:83-97 get_log_message_string *)
Definition level_str (level : Z) : res (list Z) :=
  if level =? LOG_LEVEL_DEBUG then mret (str "DEBUG")
  else if level =? LOG_LEVEL_ERROR then mret (str "ERROR")
  else if level =? LOG_LEVEL_INFO then mret (str "INFO ")
  else Fail Uninitialised.

(** [LOG_FORMAT] *)
Definition bracketed (s : list Z) : list Z := 91 :: s ++ [93].
(* logging.h LOG_FORMAT *)
Definition log_format (timestamp level location msg : list Z) : list Z :=
  bracketed timestamp ++ bracketed level ++ bracketed location ++ 32 :: msg ++ [10].

(* logging.c get_log_message_string *)
Definition get_log_message_string (e : log_env) (max_log_level level : Z) (location msg_str : list Z) : res (option (list Z)) :=
  if max_log_level <? level then mret None
  else
    level_str ← level_str level;
    timestamp ← sprintf 30 (local_time e);
    timestamp2 ← sprintf 60 (timestamp ++ str " (Epoch time: " ++ decimal 19 (epoch_ms e) ++ str ")");
    msg ← sprintf LOGGER_MAX_MSG_SIZE (log_format timestamp2 level_str location msg_str);
    mret (Some msg).

(** [logger = NULL] is [None]; [text] is what the format and its arguments make. *)
(* logging.c logger_log *)
Definition logger_log (e : log_env) (logger : option logger_t) (level : Z) (location text : list Z) : LM unit :=
  match logger with
  | None => mret tt
  | Some logger =>
      if max_log_level logger =? LOG_LEVEL_NONE then mret tt
      else
        message ← lift (sprintf (LOGGER_MAX_MSG_SIZE / 2) text);
        msg ← lift (get_log_message_string e (max_log_level logger) level location message);
        match msg with None => mret tt | Some msg => do_log_message e logger msg end
  end.

(* logging.c logger_log_if *)
Definition logger_log_if (e : log_env) (logger : option logger_t) (cond : bool) (level : Z) (location text : list Z) : LM unit :=
  if cond then logger_log e logger level location text else mret tt.

(** *** The dump of a memory range *)

Definition hex_digit (n : Z) : Z := if n <? 10 then 48 + n else 87 + n.
(** [%02x] and [%04zx]; the latter grows with the number. *)
Definition hex2 (n : Z) : list Z := [hex_digit (n / 16); hex_digit (n mod 16)].
Fixpoint hex (fuel : nat) (n : Z) : list Z :=
  if n <? 16 then [hex_digit n] else match fuel with O => [] | S fuel => hex fuel (n / 16) ++ [hex_digit (n mod 16)] end.
Definition hex4 (n : Z) : list Z := let h := hex 15 n in replicate (4 - length h) 48 ++ h.

Definition isprint (c : Z) : bool := (32 <=? c) && (c <=? 126).

Fixpoint do_log_messages (e : log_env) (logger : logger_t) (msgs : list (list Z)) : LM unit :=
  match msgs with [] => mret tt | msg :: msgs => _ ← do_log_message e logger msg; do_log_messages e logger msgs end.

(** One line: its number, the bytes in hexadecimal, and the characters. *)
(* logging.c:173-192 logger_hexdump *)
Definition hexdump_line (start : Z) (bytes : list Z) : list (list Z) :=
  [str "0x" ++ hex4 start ++ str "    "] ++ (hex2 <$> bytes) ++ [str "    "] ++
  ((fun c => [if isprint c then c else 46]) <$> bytes) ++ [[10]].
(* logging.c:172-193 logger_hexdump *)
Fixpoint hexdump_lines (fuel : nat) (start : Z) (data : list Z) : list (list Z) :=
  match data, fuel with
  | [], _ | _, O => []
  | _, S fuel => hexdump_line start (take 16 data) ++ hexdump_lines fuel (start + 16) (drop 16 data)
  end.

(** [vsnprintf] cuts the header off at 2047 characters; with a newline it no
    longer fits the buffer of [logger_log]. *)
(* logging.c logger_hexdump *)
Definition logger_hexdump (e : log_env) (logger : option logger_t) (level : Z) (data header : list Z) : LM unit :=
  let message := take (Z.to_nat (LOGGER_MAX_MSG_SIZE / 2 - 1)) header in
  match logger with
  | None => mret tt
  | Some l =>
      if max_log_level l =? LOG_LEVEL_NONE then mret tt
      else
        _ ← logger_log e logger level [] (message ++ [10]);
        if level <=? max_log_level l then do_log_messages e l (hexdump_lines (length data) 0 data) else mret tt
  end.

(** ** What is logged *)

(** The logger can write where its type tells it to. *)
Definition sink_ok (e : log_env) (l : logger_t) : Prop :=
  type l = LOGGER_TYPE_FILE \/ type l = LOGGER_TYPE_BOTH -> exists path, log_file l = Path path /\ can_open e path = true.

(** The clock prints a date of less than 25 characters (17 in the C locale). *)
Definition clock_ok (e : log_env) : Prop := zlen (local_time e) < 25 /\ 0 <= epoch_ms e < 2 ^ 64.

Definition outputs (l : logger_t) (msg : list Z) : list output :=
  let console := if (type l =? LOGGER_TYPE_CONSOLE) || (type l =? LOGGER_TYPE_BOTH) then [Console msg] else [] in
  let file := match log_file l with
              | Path path => if (type l =? LOGGER_TYPE_FILE) || (type l =? LOGGER_TYPE_BOTH) then [File path msg] else []
              | _ => [] end in
  console ++ file.

Definition level_name (level : Z) : list Z :=
  if level =? LOG_LEVEL_DEBUG then str "DEBUG" else if level =? LOG_LEVEL_ERROR then str "ERROR" else str "INFO ".
Definition log_line (e : log_env) (level : Z) (location text : list Z) : list Z :=
  log_format (local_time e ++ str " (Epoch time: " ++ decimal 19 (epoch_ms e) ++ str ")") (level_name level) location text.

Lemma do_log_message_ok e l msg out : sink_ok e l -> do_log_message e l msg out = Ok (tt, out ++ outputs l msg).
Proof.
  unfold sink_ok, do_log_message, outputs. intros S.
  destruct (type l =? LOGGER_TYPE_CONSOLE) eqn:E0; zbool; [rewrite E0; cbn; destruct (log_file l); by rewrite ?app_nil_r|].
  destruct (type l =? LOGGER_TYPE_FILE) eqn:E1; zbool.
  { destruct S as (path & P & C); [by left|]. unfold log_to_file. rewrite P, E1, C. done. }
  destruct (type l =? LOGGER_TYPE_BOTH) eqn:E2; zbool.
  { destruct S as (path & P & C); [by right|]. unfold log_to_file. rewrite P, C. unfold mbind, M_bind. cbn. unfold modify.
    by rewrite <- app_assoc. }
  by destruct (log_file l); rewrite ?app_nil_r.
Qed.

Lemma sprintf_ok n text : zlen text < n -> sprintf n text = Ok text.
Proof. intros H. unfold sprintf. by ztests. Qed.

Lemma message_string e max level location text : clock_ok e -> 0 < level <= LOG_LEVEL_DEBUG ->
  zlen location + zlen text < LOGGER_MAX_MSG_SIZE - 80 ->
  get_log_message_string e max level location text = Ok (if max <? level then None else Some (log_line e level location text)).
Proof.
  intros [C1 C2] Hl Hz. unfold get_log_message_string, LOGGER_MAX_MSG_SIZE, LOG_LEVEL_DEBUG in *. case_if; [done|].
  assert (level_str level = Ok (level_name level) /\ zlen (level_name level) = 5) as [-> H5].
  { unfold level_str, level_name, LOG_LEVEL_DEBUG, LOG_LEVEL_ERROR, LOG_LEVEL_INFO. repeat case_if; zbool; done || lia. }
  mcbn. rewrite sprintf_ok by lia. mcbn. destruct (decimal_ok 19 (epoch_ms e)) as (_ & _ & _ & D); [change (10 ^ _) with (10 ^ 20); lia|].
  set (d := decimal 19 (epoch_ms e)) in *. assert (zlen (local_time e ++ str " (Epoch time: " ++ d ++ str ")") < 60) as Ht.
  { rewrite !zlen_app. change (zlen (str " (Epoch time: ")) with 14. change (zlen (str ")")) with 1. lia. }
  rewrite sprintf_ok by done. mcbn. rewrite sprintf_ok; [done|]. unfold log_format, bracketed. revert Ht. generalize (local_time e ++ str " (Epoch time: " ++ d ++ str ")"). intros t Ht.
  rewrite !zlen_app, !zlen_cons, !zlen_app, !zlen_cons. change (zlen [_]) with 1. change (zlen (@nil Z)) with 0. lia.
Qed.

(** A message is written to the sinks of the logger's type if the maximum level
    of the logger allows it, and dropped otherwise; none of the buffers
    overflows. *)
Theorem logger_log_spec e l level location text out : clock_ok e -> sink_ok e l -> 0 < level <= LOG_LEVEL_DEBUG ->
  0 <= max_log_level l -> zlen text < LOGGER_MAX_MSG_SIZE / 2 -> zlen location < 1900 ->
  logger_log e (Some l) level location text out =
  Ok (tt, out ++ if level <=? max_log_level l then outputs l (log_line e level location text) else []).
Proof.
  intros C S Hl Hm Ht Hloc. unfold logger_log, LOG_LEVEL_NONE. change (LOGGER_MAX_MSG_SIZE / 2) with 2048 in *.
  destruct (max_log_level l =? 0) eqn:E; zbool; [ztests; by rewrite app_nil_r|].
  rewrite sprintf_ok by done. unfold mbind, M_bind, lift. rewrite message_string by (done || (unfold LOGGER_MAX_MSG_SIZE; lia)).
  destruct (Z.ltb_spec (max_log_level l) level); ztests; [by rewrite app_nil_r|]. by apply do_log_message_ok.
Qed.

Definition demo_log_env : log_env := mkLogEnv (str "11/19/25|12:00:00") 1763553600000 (fun _ => true).

Lemma logger_log_spec_witness :
  let l := logger_set_log_file (str "rasta.log") (logger_init LOG_LEVEL_INFO LOGGER_TYPE_FILE) in
  logger_log demo_log_env (Some l) LOG_LEVEL_ERROR (str "RaSTA") (str "closed") [] =
    Ok (tt, [File (str "rasta.log") (log_line demo_log_env LOG_LEVEL_ERROR (str "RaSTA") (str "closed"))]) /\
  logger_log demo_log_env (Some l) LOG_LEVEL_DEBUG (str "RaSTA") (str "closed") [] = Ok (tt, []).
Proof.
  intros l. assert (C : clock_ok demo_log_env) by (split; vm_compute; split_and?; done || congruence).
  assert (S : sink_ok demo_log_env l) by (intros _; by exists (str "rasta.log")). split.
  - exact (logger_log_spec demo_log_env l LOG_LEVEL_ERROR (str "RaSTA") (str "closed") [] C S ltac:(split; done) ltac:(done) ltac:(done) ltac:(done)).
  - exact (logger_log_spec demo_log_env l LOG_LEVEL_DEBUG (str "RaSTA") (str "closed") [] C S ltac:(split; done) ltac:(done) ltac:(done) ltac:(done)).
Defined.

(** A logger of type BOTH without a log file faults on its first message. *)
Lemma both_without_file e level location text out : clock_ok e -> 0 < level <= LOG_LEVEL_DEBUG -> zlen text < 2048 -> zlen location < 1900 ->
  logger_log e (Some (logger_init LOG_LEVEL_DEBUG LOGGER_TYPE_BOTH)) level location text out = Fail NullDeref.
Proof.
  intros C Hl Ht Hloc. unfold logger_log. cbn [logger_init max_log_level]. change (LOGGER_MAX_MSG_SIZE / 2) with 2048.
  unfold LOG_LEVEL_DEBUG, LOG_LEVEL_NONE in *. cbn [Z.eqb].
  rewrite sprintf_ok by done. unfold mbind at 1 2, M_bind, lift. rewrite message_string by (done || (unfold LOGGER_MAX_MSG_SIZE; lia)).
  ztests. done.
Qed.

(** The header of a dump that is cut off does not fit the buffer it is copied to. *)
Lemma hexdump_header_overflow e l level data header out : max_log_level l <> LOG_LEVEL_NONE -> 2047 <= zlen header ->
  logger_hexdump e (Some l) level data header out = Fail OutOfBounds.
Proof.
  intros Hm Hh. unfold logger_hexdump, logger_log. apply Z.eqb_neq in Hm. rewrite Hm.
  set (t := take _ _ ++ [10]). assert (zlen t = 2048) as Ht.
  { unfold t. rewrite zlen_app. change (zlen [10]) with 1. unfold zlen in *. rewrite length_take. change (Z.to_nat _) with 2047%nat. lia. }
  unfold sprintf. rewrite Ht. done.
Qed.
