(* ===== verification/ConfigFile.v ===== *)
(** * The configuration of the examples (src/examples/common/c/configfile.c, second half)

    What the dictionary of a configuration file becomes: addresses, the values
    with their defaults, the initial sequence number and the logger.  Memory that
    the code reads before it is written, the clock, the process and [rand] are
    arguments.  The messages [config_load] logs itself go to the console and are
    left out; those of [load_configfile], whose logger may fail, are not. *)

From stdpp Require Import base numbers list strings gmap.
From Stdlib Require Import ZArith Lia.
From S2P Require Import Prelude.
From S2P Require Import Crc.
From S2P Require Import Hashing.
From S2P Require Import Config.
From S2P Require Import Dictionary.
From S2P Require Import ConfigParser.
From S2P Require Import Logging.

Local Open Scope Z_scope.
Local Open Scope record_scope.

(** ** Addresses *)

(** The loop over the IP: whether it is well-formed so far, where its colon is (0
    without one), and the 16 bytes of [result.ip].  A colon that comes too early
    is skipped. *)
(* common/c/configfile.c:311-338 extractIPData *)
Fixpoint ip_loop (data : list Z) (i points numbers : Z) (ip : list Z) : res (bool * Z * list Z) :=
  match data with
  | [] => mret (true, 0, ip)
  | c :: data =>
      if isdigit c then
        if 3 <? numbers + 1 then mret (false, 0, ip)
        else ip ← write_at ip i [c]; ip_loop data (i + 1) points (numbers + 1) ip
      else if c =? 46 then
        if 3 <? points + 1 then mret (false, 0, ip)
        else ip ← write_at ip i [c]; ip_loop data (i + 1) (points + 1) 0 ip
      else if c =? 58 then
        if (points =? 3) && (0 <? numbers) then ip ← write_at ip i [0]; mret (true, i, ip)
        else ip_loop data (i + 1) points numbers ip
      else mret (false, 0, ip)
  end.

(** The digits of the port go to a buffer of 10 characters. *)
(* common/c/configfile.c:340-353 extractIPData *)
Fixpoint port_loop (data : list Z) (port : list Z) : res (option (list Z)) :=
  match data with
  | [] => _ ← ensure (zlen port <? 10) OutOfBounds; mret (Some port)
  | c :: data =>
      if isdigit c then _ ← ensure (zlen port <? 10) OutOfBounds; port_loop data (port ++ [c])
      else mret None
  end.

(** [stack] is the 16 bytes that [result.ip] holds at first.  The string in [ip] ends at its
    first NUL, which [result] may lack: it is then all 16 bytes. *)
(* common/c/configfile.c extractIPData *)
Definition extractIPData (stack : list Z) (data : list Z) : res rasta_ip_data :=
  '(ok, pos, ip) ← ip_loop data 0 0 0 (take 16 (stack ++ zeros 16));
  if ok : bool then
    port ← port_loop (drop (Z.to_nat (pos + 1)) data) [];
    mret (mkIpData (until_nul ip) (match port with Some port => atoi port | None => 0 end))
  else mret (mkIpData (until_nul ip) 0).

(** ** Values *)

(* headers/configfile.h RastaConfig *)
Record RastaConfig := mkRastaConfig { entries : Dictionary; values : rasta_config_info }.
#[export] Instance eta_rasta_config : Eta RastaConfig := fun c => mkRastaConfig (entries c) (values c).

(** What [memset] leaves: no connections, no versions, NULL for the paths. *)
Definition zero_redundancy : rasta_config_redundancy :=
  mkRedundancy [] (mkCrc 0 0 0 0 0 0 0 0 0 0 (replicate 256 0)) 0 0 0.
Definition zero_values : rasta_config_info :=
  mkConfig 0 [] (mkSending 0 0 RASTA_CHECKSUM_NONE 0 0 0 0 0 0 0 0 0 RASTA_ALGO_MD4) (mkReceive 0 0) (mkRetransmission 0)
    zero_redundancy zero_redundancy (mkGeneral 0 0 0) (mkTls None None None [] None) (mkKex KEY_EXCHANGE_MODE_NONE [] 0).

(* common/c/configfile.c config_get *)
Definition config_get (cfg : RastaConfig) (k : string) : res DictionaryValue := dictionary_get (entries cfg) (str k).

(** The pattern of most entries: a number that is not negative, or the default. *)
Definition number_or (cfg : RastaConfig) (k : string) (std : Z) (conv : Z -> Z) : res Z :=
  entr ← config_get cfg k;
  mret (match entr with DICTIONARY_NUMBER number => if number <? 0 then std else conv number | _ => std end).
(** Negative numbers are accepted where a hash is initialised and in identifiers. *)
Definition any_number_or (cfg : RastaConfig) (k : string) (std : Z) : res Z :=
  entr ← config_get cfg k;
  mret (match entr with DICTIONARY_NUMBER number => u32 number | _ => std end).
(** [strcmp] with one constant after the other.  The only strings without an end
    are identifiers of more than 4094 characters; reading one is a fault here. *)
Definition one_of {A} (options : list (string * A)) (other : A) (s : list Z) : A :=
  match list_find (fun o => s = str (fst o)) options with Some (_, o) => snd o | None => other end.

(* common/c/configfile.c:389-413 config_setstd *)
Definition setstd_md4_type (cfg : RastaConfig) : res rasta_checksum_type :=
  entr ← config_get cfg "RASTA_MD4_TYPE";
  entr ← match entr with DICTIONARY_ERROR => config_get cfg "RASTA_SR_CHECKSUM_LEN" | _ => mret entr end;
  match entr with
  | DICTIONARY_STRING s =>
      s ← c_string s;
      mret (one_of [("NONE", RASTA_CHECKSUM_NONE); ("HALF", RASTA_CHECKSUM_8B); ("FULL", RASTA_CHECKSUM_16B)]%string
              RASTA_CHECKSUM_8B s)
  | _ => mret RASTA_CHECKSUM_8B
  end.

(** A name that is unknown leaves the value as it was. *)
(* common/c/configfile.c:421-435 config_setstd *)
Definition setstd_hash_algorithm (cfg : RastaConfig) (old : rasta_hash_algorithm) : res rasta_hash_algorithm :=
  entr ← config_get cfg "RASTA_SR_CHECKSUM_ALGO";
  match entr with
  | DICTIONARY_STRING s =>
      s ← c_string s;
      mret (one_of [("MD4", RASTA_ALGO_MD4); ("BLAKE2B", RASTA_ALGO_BLAKE2B); ("SIPHASH-2-4", RASTA_ALGO_SIPHASH_2_4)]%string
              old s)
  | _ => mret RASTA_ALGO_MD4
  end.

(* common/c/configfile.c:365-513 config_setstd *)
Definition setstd_sending (cfg : RastaConfig) : res rasta_config_sending :=
  let old := sending (values cfg) in
  t_max ← number_or cfg "RASTA_T_MAX" 1800 u32;
  t_h ← number_or cfg "RASTA_T_H" 300 u32;
  md4_type ← setstd_md4_type cfg;
  sr_hash_key ← any_number_or cfg "RASTA_SR_CHECKSUM_KEY" (sr_hash_key old);
  sr_hash_algorithm ← setstd_hash_algorithm cfg (sr_hash_algorithm old);
  md4_a ← any_number_or cfg "RASTA_MD4_A" 0x67452301;
  md4_b ← any_number_or cfg "RASTA_MD4_B" 0xefcdab89;
  md4_c ← any_number_or cfg "RASTA_MD4_C" 0x98badcfe;
  md4_d ← any_number_or cfg "RASTA_MD4_D" 0x10325476;
  send_max ← number_or cfg "RASTA_SEND_MAX" 20 u16;
  mwa ← number_or cfg "RASTA_MWA" 10 u16;
  max_packet ← number_or cfg "RASTA_MAX_PACKET" 3 u32;
  diag_window ← number_or cfg "RASTA_DIAG_WINDOW" 5000 u32;
  mret (mkSending t_max t_h md4_type md4_a md4_b md4_c md4_d mwa send_max max_packet diag_window sr_hash_key sr_hash_algorithm).

(* common/c/configfile.c:515-538 config_setstd *)
Definition setstd_receive (cfg : RastaConfig) : res rasta_config_receive :=
  max_recvqueue_size ← number_or cfg "RASTA_RECVQUEUE_SIZE" 20 u32;
  max_recv_msg_size ← number_or cfg "RASTA_RECV_MSG_SIZE" 500 u32;
  mret (mkReceive max_recvqueue_size max_recv_msg_size).

(* common/c/configfile.c:540-551 config_setstd *)
Definition setstd_retransmission (cfg : RastaConfig) : res rasta_config_retransmission :=
  size ← number_or cfg "RASTA_RETRANSMISSION_QUEUE_SIZE" 100 u32;
  mret (mkRetransmission size).

(** What the code reads without having written it: [stack] is the [ip] of the [i]-th
    local [result], [heap] the [i]-th element [malloc] returns. *)
Record memory := mkMemory { stack : nat -> list Z; heap : nat -> rasta_ip_data }.

(** The loop stops at the first string that is no address; the elements from
    there on stay as [malloc] returned them, and are counted. *)
(* common/c/configfile.c:569-578 config_setstd *)
Fixpoint connections_loop (m : memory) (i : nat) (l : list DictionaryString) (connections : list rasta_ip_data) :
    res (bool * list rasta_ip_data) :=
  match l with
  | [] => mret (true, connections)
  | s :: l =>
      s ← c_string s;
      ip ← extractIPData (stack m i) s;
      if port ip =? 0 then mret (false, connections) else connections_loop m (S i) l (<[i := ip]> connections)
  end.

(** [free(entr.value.array.data)]: the entry in the dictionary keeps its pointer and its count. *)
Definition free_strings (k : list Z) (d : Dictionary) : Dictionary :=
  d <| data ::= fmap (fun e => if decide (key e = k) then
      match value e with DICTIONARY_ARRAY a => e <| value := DICTIONARY_ARRAY (a <| live := false |>) |> | _ => e end
    else e) |>.

(* common/c/configfile.c:560-579 config_setstd *)
Definition setstd_connections (m : memory) (k : string) (cfg : RastaConfig) : res (list rasta_ip_data * RastaConfig) :=
  entr ← config_get cfg k;
  match entr with
  | DICTIONARY_ARRAY array =>
      if zlen (strings array) =? 0 then mret ([], cfg)
      else
        _ ← ensure (live array) NullDeref;
        '(ok, connections) ← connections_loop m 0 (strings array) (heap m <$> seq 0 (length (strings array)));
        mret (connections, if ok : bool then cfg else cfg <| entries ::= free_strings (str k) |>)
  | _ => mret ([], cfg)
  end.

(* common/c/configfile.c:601-622 config_setstd *)
Definition setstd_crc_type (cfg : RastaConfig) : res crc_options :=
  entr ← config_get cfg "RASTA_CRC_TYPE";
  match entr with
  | DICTIONARY_STRING s =>
      s ← c_string s;
      mret (one_of [("TYPE_A", crc_init_opt_a); ("TYPE_B", crc_init_opt_b); ("TYPE_C", crc_init_opt_c);
                    ("TYPE_D", crc_init_opt_d); ("TYPE_E", crc_init_opt_e)]%string crc_init_opt_a s)
  | _ => mret crc_init_opt_a
  end.

(** The identifiers are [unsigned long], read from an unsigned number of 32 bits. *)
(* common/c/configfile.c:655-686 config_setstd *)
Definition setstd_general (cfg : RastaConfig) : res rasta_config_general :=
  rasta_network ← number_or cfg "RASTA_NETWORK" 0 u64;
  rasta_id ← any_number_or cfg "RASTA_ID" 0;
  rasta_id_remote ← any_number_or cfg "RASTA_REMOTE_ID" 0;
  mret (mkGeneral rasta_network rasta_id rasta_id_remote).

(** A copy of at most 4095 characters. *)
(* common/c/configfile.c:690-696 config_setstd *)
Definition setstd_path (cfg : RastaConfig) (k : string) : res (option (list Z)) :=
  entr ← config_get cfg k;
  match entr with
  | DICTIONARY_STRING s => s ← c_string s; mret (Some (take (Z.to_nat (MAX_DICTIONARY_STRING_LENGTH_BYTES - 1)) s))
  | _ => mret None
  end.

(* common/c/configfile.c:688-712 config_setstd *)
Definition setstd_tls (cfg : RastaConfig) : res rasta_config_tls :=
  let old := tls (values cfg) in
  ca_cert_path ← setstd_path cfg "RASTA_CA_PATH";
  cert_path ← setstd_path cfg "RASTA_CERT_PATH";
  key_path ← setstd_path cfg "RASTA_KEY_PATH";
  mret (mkTls ca_cert_path cert_path key_path (tls_hostname old) (peer_tls_cert_path old)).

(** The build without TLS and OPAQUE. *)
(* common/c/configfile.c config_setstd *)
Definition config_setstd (local remote : memory) (cfg : RastaConfig) : res RastaConfig :=
  let old := values cfg in
  sending ← setstd_sending cfg;
  receive ← setstd_receive cfg;
  retransmission ← setstd_retransmission cfg;
  '(local_connections, cfg) ← setstd_connections local "RASTA_REDUNDANCY_CONNECTIONS" cfg;
  '(remote_connections, cfg) ← setstd_connections remote "RASTA_REMOTE_REDUNDANCY_CONNECTIONS" cfg;
  crc_type ← setstd_crc_type cfg;
  t_seq ← number_or cfg "RASTA_T_SEQ" 100 u16;
  n_diagnose ← number_or cfg "RASTA_N_DIAGNOSE" 200 u16;
  n_deferqueue_size ← number_or cfg "RASTA_N_DEFERQUEUE_SIZE" 4 u16;
  general ← setstd_general cfg;
  tls ← setstd_tls cfg;
  mret (mkRastaConfig (entries cfg)
    (mkConfig (initial_sequence_number old) (accepted_versions old) sending receive retransmission
       (mkRedundancy local_connections crc_type t_seq n_diagnose n_deferqueue_size)
       (let r := redundancy_remote old in
        mkRedundancy remote_connections (Config.crc_type r) (Config.t_seq r) (Config.n_diagnose r) (Config.n_deferqueue_size r))
       general tls (mkKex KEY_EXCHANGE_MODE_NONE (psk (kex old)) (rekeying_interval_ms (kex old))))).

(** ** Loading *)

(** [None]: the file cannot be opened.  The result is the one of the C function,
    which its caller ignores, with the configuration. *)
(* common/c/configfile.c config_load *)
Definition config_load (local remote : memory) (filename : list Z) (f : option (list Z)) : res (Z * RastaConfig) :=
  _ ← ensure (zlen filename <? 512) OutOfBounds;
  match f with
  | None => mret (1, mkRastaConfig (mkDictionary 0 []) zero_values)
  | Some f =>
      dictionary ← load_file f;
      cfg ← config_setstd local remote (mkRastaConfig dictionary zero_values);
      mret (0, cfg)
  end.

(** What [config_free] hands to [free], besides the arrays of the dictionary. *)
Inductive block := ConnectionsData | CaCertPath | CertPath | KeyPath | PeerCertPath.
Definition owned {A} (b : block) (p : option A) : list block := match p with Some _ => [b] | None => [] end.

(* common/c/configfile.c config_free *)
Definition config_free (cfg : RastaConfig) : res (list block * RastaConfig) :=
  d ← dictionary_free (entries cfg);
  let t := tls (values cfg) in
  mret ((if 0 <? zlen (connections (redundancy (values cfg))) then [ConnectionsData] else []) ++
        owned CaCertPath (ca_cert_path t) ++ owned CertPath (cert_path t) ++ owned KeyPath (key_path t) ++
        owned PeerCertPath (peer_tls_cert_path t), cfg <| entries := d |>).

(* common/c/configfile.c mix *)
Definition mix (a b c : Z) : Z :=
  let sub x y := u64 (x - y) in
  let shl x n := u64 (Z.shiftl x n) in
  let step '(a, b, c) '(r1, l, r2) :=
    let a := Z.lxor (sub (sub a b) c) (Z.shiftr c r1) in
    let b := Z.lxor (sub (sub b c) a) (shl a l) in
    let c := Z.lxor (sub (sub c a) b) (Z.shiftr b r2) in
    (a, b, c) in
  snd (foldl step (a, b, c) [(13, 8, 13); (12, 16, 5); (3, 10, 15)]).

(** [clock()], [time()] and [getpid()]; [rand seed i] is the [i]-th number [rand] returns after [srand(seed)]. *)
Record process := mkProcess { proc_clock : Z; proc_time : Z; proc_pid : Z; rand : Z -> nat -> Z }.

(* common/c/configfile.c long_random *)
Definition long_random (p : process) : Z :=
  let seed := u32 (mix (proc_clock p) (proc_time p) (proc_pid p)) in
  foldl (fun r i => u32 (r * 2 + rand p seed i mod 2)) 0 (seq 0 32).

(* common/c/configfile.c get_initial_seq_num *)
Definition get_initial_seq_num (p : process) (cfg : RastaConfig) : res Z :=
  init_seq ← config_get cfg "RASTA_INITIAL_SEQ";
  mret (match init_seq with DICTIONARY_NUMBER number => if 0 <=? number then u32 number else long_random p | _ => long_random p end).

(** What loading a configuration reads of its environment; [version_junk i] is what
    follows the NUL of the [i]-th version in memory. *)
Record load_env := mkLoadEnv {
  local_memory : memory; remote_memory : memory; version_junk : nat -> list Z;
  logging : log_env; proc : process
}.

(** The first four bytes and a NUL. *)
Definition version_bytes (junk s : list Z) : list Z := take 4 (s ++ 0 :: junk) ++ [0].

(* common/c/configfile.c:970-974 load_configfile *)
Fixpoint versions_loop (e : load_env) (logger : logger_t) (i : nat) (l : list DictionaryString) : M (list output) (list (list Z)) :=
  match l with
  | [] => mret []
  | s :: l =>
      s ← lift (c_string s);
      _ ← logger_log (logging e) (Some logger) LOG_LEVEL_DEBUG (str "RaSTA HANDLE_INIT") (str "Loaded accepted version: " ++ s);
      versions ← versions_loop e logger (S i) l;
      mret (version_bytes (version_junk e i) s :: versions)
  end.

(** The logger.  The path of its file is a pointer into a local variable. *)
(* common/c/configfile.c:942-962 load_configfile *)
Definition load_logger (cfg : RastaConfig) : res logger_t :=
  logger_ty ← config_get cfg "LOGGER_TYPE";
  logger_maxlvl ← config_get cfg "LOGGER_MAX_LEVEL";
  logger_file ← config_get cfg "LOGGER_FILE";
  match logger_ty, logger_maxlvl with
  | DICTIONARY_NUMBER ty, DICTIONARY_NUMBER maxlvl =>
      let logger := logger_init (u32 maxlvl) (u32 ty) in
      if type logger =? LOGGER_TYPE_FILE then
        match logger_file with
        | DICTIONARY_STRING (Some path) => mret (logger_set_log_file path logger)
        | DICTIONARY_STRING None => mret (logger <| log_file := Dangling |>)
        | _ => Fail AbortCalled
        end
      else mret logger
  | _, _ => Fail AbortCalled
  end.

(** At the return the local variables are gone. *)
Definition returned (logger : logger_t) : logger_t :=
  logger <| log_file ::= fun p => match p with Path _ => Dangling | p => p end |>.

Definition with_versions (versions : list (list Z)) (initial : Z) (c : rasta_config_info) : rasta_config_info :=
  mkConfig initial versions (sending c) (receive c) (retransmission c) (redundancy c) (redundancy_remote c) (general c) (tls c) (kex c).

(* common/c/configfile.c load_configfile *)
Definition load_configfile (e : load_env) (filename : list Z) (f : option (list Z)) :
    M (list output) (rasta_config_info * logger_t) :=
  r ← lift (config_load (local_memory e) (remote_memory e) filename f);
  let config := snd r in
  let c := values config in
  logger ← lift (load_logger config);
  config_accepted_version ← lift (config_get config "RASTA_ACCEPTED_VERSIONS");
  versions ← match config_accepted_version with
    | DICTIONARY_ARRAY array => _ ← lift (ensure (live array) NullDeref); versions_loop e logger 0 (strings array)
    | _ => mret (accepted_versions c)
    end;
  initial ← lift (get_initial_seq_num (proc e) config);
  _ ← lift (dictionary_free (entries config));
  mret (with_versions versions initial c, returned logger).

(** ** Addresses are read back *)

Record address := mkAddress { octets : list Z; number : Z }.

Record address_ok (a : address) : Prop := {
  ao_four : length (octets a) = 4%nat;
  ao_octets : Forall is_u8 (octets a);
  ao_port : 0 < number a < 65536
}.

(** Four numbers with points between them. *)
Fixpoint print_octets (l : list Z) : list Z :=
  match l with
  | [] => []
  | [n] => decimal 2 n
  | n :: l => decimal 2 n ++ 46 :: print_octets l
  end.
Definition print_address (a : address) : list Z := print_octets (octets a) ++ 58 :: decimal 4 (number a).
Definition ip_data (a : address) : rasta_ip_data := mkIpData (print_octets (octets a)) (number a).

(** [pre] over the first characters of [raw]. *)
Definition over (pre raw : list Z) : list Z := pre ++ drop (length pre) raw.

Lemma write_over pre raw c : zlen pre < zlen raw -> write_at (over pre raw) (zlen pre) [c] = Ok (over (pre ++ [c]) raw).
Proof.
  intros H. unfold write_at, over, zlen in *. rewrite length_app, length_drop. cbn [length ensure].
  ztests. cbn [andb ensure]. mcbn. f_equal. rewrite !length_app, Nat2Z.id, take_app_length. cbn [length].
  rewrite drop_app_ge, drop_drop by lia. rewrite <- app_assoc. cbn [app]. do 3 f_equal. lia.
Qed.

Definition is_digits (w : list Z) : Prop := Forall (fun c => isdigit c = true) w.

Lemma ip_digits raw w : is_digits w -> forall pre points numbers rest, numbers + zlen w <= 3 -> zlen (pre ++ w) <= zlen raw ->
  ip_loop (w ++ rest) (zlen pre) points numbers (over pre raw) =
  ip_loop rest (zlen (pre ++ w)) points (numbers + zlen w) (over (pre ++ w) raw).
Proof.
  induction 1 as [|c w Hc _ IH]; intros pre points numbers rest Hn Hr; [by rewrite app_nil_r, Z.add_0_r|].
  rewrite zlen_cons in Hn. rewrite zlen_app, zlen_cons in Hr. pose proof (zlen_nonneg w). cbn [app ip_loop]. rewrite Hc. ztests.
  rewrite write_over by lia. mcbn. replace (zlen pre + 1) with (zlen (pre ++ [c])) by (rewrite zlen_app; done).
  rewrite IH by (rewrite ?zlen_app, ?zlen_cons, ?zlen_nil; lia). rewrite <- app_assoc. cbn [app]. rewrite zlen_cons.
  by replace (numbers + 1 + zlen w) with (numbers + (1 + zlen w)) by lia.
Qed.

Lemma ip_point raw pre points numbers rest : points < 3 -> zlen pre < zlen raw ->
  ip_loop (46 :: rest) (zlen pre) points numbers (over pre raw) =
  ip_loop rest (zlen (pre ++ [46])) (points + 1) 0 (over (pre ++ [46]) raw).
Proof.
  intros Hp Hr. cbn [ip_loop]. change (isdigit 46) with false. cbn [Z.eqb Pos.eqb]. ztests. rewrite write_over by done. mcbn.
  by rewrite zlen_app.
Qed.

Lemma ip_colon raw pre numbers rest : 0 < numbers -> zlen pre < zlen raw ->
  ip_loop (58 :: rest) (zlen pre) 3 numbers (over pre raw) = Ok (true, zlen pre, over (pre ++ [0]) raw).
Proof.
  intros Hp Hr. cbn [ip_loop]. change (isdigit 58) with false. cbn [Z.eqb Pos.eqb]. ztests. cbn [andb]. by rewrite write_over.
Qed.

Lemma octet_digits n : is_u8 n -> is_digits (decimal 2 n) /\ 1 <= zlen (decimal 2 n) <= 3.
Proof.
  intros H. destruct (decimal_ok 2 n) as (_ & D & Ne & L); [unfold is_u8 in H; change (10 ^ _) with 1000; lia|].
  split; [done|]. split; [|done]. destruct (decimal 2 n); [done|]. rewrite zlen_cons. pose proof (zlen_nonneg l). lia.
Qed.

(** The octets that are left, after [pre] with its points. *)
Lemma ip_octets raw l : Forall is_u8 l -> l <> [] -> forall pre points rest, points + zlen l = 4 ->
  zlen pre + 4 * zlen l <= zlen raw ->
  ip_loop (print_octets l ++ 58 :: rest) (zlen pre) points 0 (over pre raw) =
  Ok (true, zlen (pre ++ print_octets l), over (pre ++ print_octets l ++ [0]) raw).
Proof.
  induction 1 as [|n l Hn Hl IH]; intros Ne pre points rest Hp Hr; [done|]. rewrite zlen_cons in Hp, Hr.
  destruct (octet_digits n Hn) as [D L]. destruct l as [|n' l].
  - change (zlen []) with 0 in *. assert (points = 3) as -> by lia. cbn [print_octets].
    rewrite ip_digits by (rewrite ?zlen_app; done || lia). rewrite ip_colon by (rewrite ?zlen_app; lia). by rewrite <- app_assoc.
  - set (l' := n' :: l) in *. change (print_octets (n :: l')) with (decimal 2 n ++ 46 :: print_octets l').
    assert (1 <= zlen l') by (unfold l'; rewrite zlen_cons; pose proof (zlen_nonneg l); lia).
    rewrite <- app_assoc. rewrite ip_digits by (rewrite ?zlen_app; done || lia). cbn [app].
    rewrite ip_point by (rewrite ?zlen_app; lia). rewrite IH by (rewrite ?zlen_app; try change (zlen [46]) with 1; done || lia).
    by rewrite <- !app_assoc.
Qed.

Lemma port_digits w : is_digits w -> forall acc, zlen (acc ++ w) < 10 -> port_loop w acc = Ok (Some (acc ++ w)).
Proof.
  induction 1 as [|c w Hc _ IH]; intros acc Ha; cbn [port_loop]; rewrite zlen_app in Ha.
  - rewrite app_nil_r. change (zlen []) with 0 in Ha. by ztests.
  - rewrite zlen_cons in Ha. pose proof (zlen_nonneg w). rewrite Hc. ztests. mcbn.
    rewrite IH by (rewrite !zlen_app; change (zlen [c]) with 1; lia). by rewrite <- app_assoc.
Qed.

Lemma until_nul_app s t : Forall (fun c => c <> 0) s -> until_nul (s ++ 0 :: t) = s.
Proof. induction 1 as [|c s Hc _ IH]; cbn; [done|]. ztests. by rewrite IH. Qed.

Lemma print_octets_chars l : Forall is_u8 l -> Forall (fun c => isdigit c = true \/ c = 46) (print_octets l).
Proof.
  induction 1 as [|n l Hn _ IH]; [constructor|]. destruct (octet_digits n Hn) as [D _].
  assert (Forall (fun c => isdigit c = true \/ c = 46) (decimal 2 n)) by (eapply Forall_impl; [exact D|]; by left).
  cbn [print_octets]. destruct l; [done|]. apply Forall_app. split; [done|]. constructor; [by right|done].
Qed.

(** An address that was printed is read back, whatever the stack held. *)
Lemma extractIPData_printed stack a : address_ok a -> extractIPData stack (print_address a) = Ok (ip_data a).
Proof.
  intros [H4 H8 Hp]. unfold extractIPData, print_address. set (raw := take 16 _).
  assert (zlen raw = 16) as Hr by (unfold raw, zlen, zeros; rewrite length_take, length_app, length_replicate; lia).
  assert (octets a <> []) as Ne by (by destruct (octets a)).
  pose proof (ip_octets raw (octets a) H8 Ne [] 0 (decimal 4 (number a))) as I.
  change (over [] raw) with raw in I. change (zlen (@nil Z)) with 0 in I. cbn [app] in I.
  rewrite I by (unfold zlen in *; lia). clear I. mcbn.
  replace (drop _ _) with (decimal 4 (number a)).
  2:{ unfold zlen. replace (Z.to_nat _) with (S (length (print_octets (octets a)))) by lia.
      change (58 :: ?t) with ([58] ++ t). rewrite app_assoc, drop_app_length'; [done|]. rewrite length_app. cbn. lia. }
  destruct (decimal_ok 4 (number a)) as (V & D & _ & L); [change (10 ^ _) with 100000; lia|].
  rewrite port_digits by (done || (cbn [app]; lia)). mcbn. cbn [app]. unfold ip_data. f_equal. f_equal.
  - unfold over. rewrite <- app_assoc. cbn [app]. apply until_nul_app. eapply Forall_impl; [by apply print_octets_chars|].
    cbn. intros c [Hc| ->]; [|done]. by apply digit_facts in Hc as (_ & _ & ? & _).
  - unfold atoi, strtol. rewrite V. mlia.
Qed.

(** ** The configuration of a dictionary *)

(** Every string of the dictionary has an end, and no array was freed. *)
Definition sound_value (v : DictionaryValue) : Prop :=
  match v with
  | DICTIONARY_STRING s => is_Some s
  | DICTIONARY_ARRAY a => live a = true /\ Forall is_Some (strings a)
  | _ => True
  end.
Definition sound (d : Dictionary) : Prop := Forall (fun e => sound_value (value e)) (data d).

(** The keys of the configuration are short and in upper case. *)
Definition config_key (k : string) : bool := (zlen (str k) <? 255) && bool_decide (uppercase (str k) = str k).

Lemma config_get_lookup cfg k : config_key k = true ->
  config_get cfg k = Ok (match lookup_key (str k) (entries cfg) with Some e => value e | None => DICTIONARY_ERROR end).
Proof.
  intros K. apply andb_prop in K as [K1 K2]. apply bool_decide_eq_true in K2. unfold config_get, dictionary_get. rewrite K1, K2. done.
Qed.

Lemma config_get_wp cfg k (Q : DictionaryValue -> Prop) : config_key k = true -> sound (entries cfg) ->
  (forall v, sound_value v -> config_get cfg k = Ok v -> Q v) -> rwp (config_get cfg k) Q.
Proof.
  intros K S HQ. pose proof (config_get_lookup cfg k K) as E. rewrite E. apply HQ; [|done].
  destruct (lookup_key _ _) as [e|] eqn:L; [|done]. unfold lookup_key in L. apply fmap_Some in L as ([i e'] & L & ->).
  apply list_find_Some in L as (L & _). unfold sound in S. rewrite Forall_lookup in S. by eapply S.
Qed.

(** What holds of a key that is there. *)
Lemma config_get_in cfg k v : config_key k = true -> NoDup (key <$> data (entries cfg)) ->
  mkEntry (str k) v ∈ data (entries cfg) -> config_get cfg k = Ok v.
Proof.
  intros K N Hin. rewrite config_get_lookup by done. f_equal.
  assert (value <$> lookup_key (str k) (entries cfg) = Some v) as E.
  { rewrite lookup_key_map by done. apply elem_of_list_to_map; [by rewrite keys_map|]. apply list_elem_of_fmap. by exists (mkEntry (str k) v). }
  destruct (lookup_key _ _) as [e|]; [|done]. cbn in E. congruence.
Qed.

Lemma config_get_from cfg k v : config_get cfg k = Ok v -> v <> DICTIONARY_ERROR -> config_key k = true ->
  mkEntry (str k) v ∈ data (entries cfg).
Proof.
  intros E Hv K. rewrite config_get_lookup in E by done. injection E as E. destruct (lookup_key _ _) as [e|] eqn:L; [|congruence].
  unfold lookup_key in L. apply fmap_Some in L as ([i e'] & L & ->). apply list_find_Some in L as (L & Hk & _). cbn in E. subst v.
  apply list_elem_of_lookup_2 in L. rewrite Hk. by destruct e'.
Qed.

Lemma number_or_wp cfg k std conv (Q : Z -> Prop) : config_key k = true -> sound (entries cfg) ->
  Q std -> (forall n, Q (conv n)) -> rwp (number_or cfg k std conv) Q.
Proof.
  intros K S H1 H2. unfold number_or. apply rwp_bind, config_get_wp; [done..|]. intros v _ _. cbn.
  destruct v; try done. by destruct (_ <? 0).
Qed.
Lemma number_or_u16 cfg k std : config_key k = true -> sound (entries cfg) -> is_u16 std -> rwp (number_or cfg k std u16) is_u16.
Proof. intros. apply number_or_wp; [done..|]. intros. apply u16_range. Qed.
Lemma number_or_u32 cfg k std : config_key k = true -> sound (entries cfg) -> is_u32 std -> rwp (number_or cfg k std u32) is_u32.
Proof. intros. apply number_or_wp; [done..|]. intros. apply u32_range. Qed.
Lemma any_number_or_wp cfg k std : config_key k = true -> sound (entries cfg) -> rwp (any_number_or cfg k std) (fun _ => True).
Proof.
  intros K S. unfold any_number_or. by apply rwp_bind, config_get_wp.
Qed.

(** A string that is there is compared with the names. *)
Lemma one_of_wp {A} cfg k (R : res A) (options : list (string * A)) other (Q : A -> Prop) : config_key k = true -> sound (entries cfg) ->
  rwp R Q -> (forall s, config_get cfg k = Ok (DICTIONARY_STRING (Some s)) -> Q (one_of options other s)) ->
  rwp (entr ← config_get cfg k;
       match entr with DICTIONARY_STRING s => s ← c_string s; mret (one_of options other s) | _ => R end) Q.
Proof.
  intros K S H1 H2. apply rwp_bind, config_get_wp; [done..|]. intros v V E. destruct v as [s| | |]; try done.
  destruct V as [s' ->]. by apply H2.
Qed.

Lemma one_of_cases {A} (options : list (string * A)) other s (P : A -> Prop) :
  (forall n a, (n, a) ∈ options -> s = str n -> P a) -> P other -> P (one_of options other s).
Proof.
  intros H1 H2. unfold one_of. destruct (list_find _ _) as [[i [n a]]|] eqn:E; [|done].
  apply list_find_Some in E as (E & Hs & _). cbn. eapply H1; [by eapply list_elem_of_lookup_2|done].
Qed.

Lemma setstd_sending_wp cfg (Q : rasta_config_sending -> Prop) : sound (entries cfg) ->
  sr_hash_algorithm (sending (values cfg)) <> RASTA_ALGO_SIPHASH_2_4 ->
  config_get cfg "RASTA_SR_CHECKSUM_ALGO" <> Ok (DICTIONARY_STRING (Some (str "SIPHASH-2-4"))) ->
  (forall s, is_u16 (send_max s) -> is_u32 (max_packet s) -> sr_hash_algorithm s <> RASTA_ALGO_SIPHASH_2_4 -> Q s) ->
  rwp (setstd_sending cfg) Q.
Proof.
  intros S Ho Ha HQ. unfold setstd_sending.
  eapply rwp_seq; [by apply number_or_u32|]. intros t_max _.
  eapply rwp_seq; [by apply number_or_u32|]. intros t_h _.
  eapply (rwp_seq _ _ (fun _ => True)).
  { unfold setstd_md4_type. apply rwp_bind, config_get_wp; [done..|]. intros v V _. apply rwp_bind.
    assert (rwp (match v with DICTIONARY_ERROR => config_get cfg "RASTA_SR_CHECKSUM_LEN" | _ => mret v end) sound_value) as W.
    { destruct v; try done. by apply config_get_wp. }
    eapply rwp_mono; [exact W|]. intros v' V'. destruct v' as [s| | |]; try done. by destruct V' as [s' ->]. }
  intros md4_type _. eapply rwp_seq; [by apply any_number_or_wp|]. intros sr_hash_key _.
  eapply (rwp_seq _ _ (fun a => a <> RASTA_ALGO_SIPHASH_2_4)).
  { apply one_of_wp; [done..|]. intros s E. apply one_of_cases; [|done]. intros n a Hin ->.
    rewrite !elem_of_cons in Hin. destruct Hin as [[= -> ->]|[[= -> ->]|[[= -> ->]|[]%not_elem_of_nil]]]; done. }
  intros algorithm A. do 4 (eapply rwp_seq; [by apply any_number_or_wp|]; intros ? _).
  eapply rwp_seq; [by apply number_or_u16|]. intros send_max Hs.
  eapply rwp_seq; [by apply number_or_u16|]. intros mwa _.
  eapply rwp_seq; [by apply number_or_u32|]. intros max_packet Hm.
  eapply rwp_seq; [by apply number_or_u32|]. intros diag_window _. cbn. by apply HQ.
Qed.

Lemma setstd_receive_wp cfg : sound (entries cfg) -> rwp (setstd_receive cfg) (fun r => is_u32 (max_recvqueue_size r)).
Proof.
  intros S. unfold setstd_receive. eapply rwp_seq; [by apply number_or_u32|]. intros n Hn.
  eapply rwp_seq; [by apply number_or_u32|]. done.
Qed.

Lemma setstd_retransmission_wp cfg : sound (entries cfg) ->
  rwp (setstd_retransmission cfg) (fun r => is_u32 (max_retransmission_queue_size r)).
Proof. intros S. unfold setstd_retransmission. eapply rwp_seq; [by apply number_or_u32|]. done. Qed.

Lemma setstd_crc_type_wp cfg : sound (entries cfg) -> rwp (setstd_crc_type cfg) (fun o => 0 <= width o <= 32).
Proof.
  intros S. apply one_of_wp; [done..|]. intros s _. apply one_of_cases; [|done]. intros n a Hin _.
  rewrite !elem_of_cons in Hin. destruct_or! Hin; try (injection Hin as -> ->; cbn; lia). by apply not_elem_of_nil in Hin.
Qed.

Lemma setstd_general_wp cfg : sound (entries cfg) -> rwp (setstd_general cfg) (fun _ => True).
Proof.
  intros S. unfold setstd_general. eapply rwp_seq; [by apply (number_or_wp _ _ _ _ (fun _ => True))|]. intros ? _.
  do 2 (eapply rwp_seq; [by apply any_number_or_wp|]; intros ? _). done.
Qed.

Lemma setstd_path_wp cfg k : config_key k = true -> sound (entries cfg) -> rwp (setstd_path cfg k) (fun _ => True).
Proof.
  intros K S. unfold setstd_path. apply rwp_bind, config_get_wp; [done..|]. intros v V _. destruct v as [s| | |]; try done.
  by destruct V as [s' ->].
Qed.

Lemma setstd_tls_wp cfg : sound (entries cfg) -> rwp (setstd_tls cfg) (fun _ => True).
Proof. intros S. unfold setstd_tls. do 3 (eapply rwp_seq; [by apply setstd_path_wp|]; intros ? _). done. Qed.

(** The array of strings that addresses are written as. *)
Definition addresses (l : list address) : DictionaryValue := DICTIONARY_ARRAY (mkArray (Some <$> (print_address <$> l)) true).

Lemma connections_loop_printed m l : Forall address_ok l -> forall pre post, length post = length l ->
  connections_loop m (length pre) (Some <$> (print_address <$> l)) (pre ++ post) = Ok (true, pre ++ (ip_data <$> l)).
Proof.
  induction 1 as [|a l Ha _ IH]; intros pre post Hp; cbn [fmap list_fmap connections_loop].
  { by destruct post. }
  destruct post as [|x post]; [done|]. cbn [c_string]. mcbn. rewrite extractIPData_printed by done. mcbn. cbn [ip_data port].
  pose proof (ao_port _ Ha). ztests. rewrite <- (Nat.add_0_r (length pre)), insert_app_r. cbn [insert list_insert]. rewrite Nat.add_0_r.
  change (ip_data a :: post) with ([ip_data a] ++ post). rewrite app_assoc. replace (S (length pre)) with (length (pre ++ [ip_data a]))
    by (rewrite length_app; cbn; lia). rewrite IH by (cbn in Hp; lia). by rewrite <- app_assoc.
Qed.

Lemma setstd_connections_printed m k cfg l : Forall address_ok l -> config_get cfg k = Ok (addresses l) ->
  setstd_connections m k cfg = Ok (ip_data <$> l, cfg).
Proof.
  intros Hl E. unfold setstd_connections. rewrite E. mcbn. unfold addresses. cbn [strings live].
  destruct (zlen _ =? 0) eqn:Z0.
  { zbool. destruct l; [done|]. unfold zlen in Z0. cbn in Z0. lia. }
  cbn [ensure]. mcbn. pose proof (connections_loop_printed m l Hl []) as C. cbn [length app] in C. rewrite C; [done|].
  by rewrite !length_fmap, length_seq.
Qed.

(** What the rest of the program relies on. *)
Record values_ok (locals remotes : list address) (v : rasta_config_info) : Prop := {
  vo_send_max : is_u16 (send_max (sending v));
  vo_max_packet : is_u32 (max_packet (sending v));
  vo_hash : sr_hash_algorithm (sending v) <> RASTA_ALGO_SIPHASH_2_4;
  vo_receive : is_u32 (max_recvqueue_size (receive v));
  vo_retr : is_u32 (max_retransmission_queue_size (retransmission v));
  vo_crc : 0 <= width (crc_type (redundancy v)) <= 32;
  vo_defer : is_u16 (n_deferqueue_size (redundancy v));
  vo_local : connections (redundancy v) = ip_data <$> locals;
  vo_remote : connections (redundancy_remote v) = ip_data <$> remotes
}.

Lemma config_setstd_wp local remote d locals remotes : let cfg := mkRastaConfig d zero_values in
  sound d -> Forall address_ok locals -> Forall address_ok remotes ->
  config_get cfg "RASTA_SR_CHECKSUM_ALGO" <> Ok (DICTIONARY_STRING (Some (str "SIPHASH-2-4"))) ->
  config_get cfg "RASTA_REDUNDANCY_CONNECTIONS" = Ok (addresses locals) ->
  config_get cfg "RASTA_REMOTE_REDUNDANCY_CONNECTIONS" = Ok (addresses remotes) ->
  exists v, config_setstd local remote cfg = Ok (mkRastaConfig d v) /\ values_ok locals remotes v.
Proof.
  intros cfg S Hl Hr Ha El Er.
  assert (rwp (config_setstd local remote cfg) (fun c => entries c = d /\ values_ok locals remotes (values c))) as W.
  2:{ apply rwp_ok in W as ([d' v] & E & Ed & V). cbn in Ed, V. subst d'. by exists v. }
  unfold config_setstd. apply rwp_bind, setstd_sending_wp; [done..|]. intros s S1 S2 S3.
  eapply rwp_seq; [by apply setstd_receive_wp|]. intros r R. eapply rwp_seq; [by apply setstd_retransmission_wp|]. intros rt RT.
  rewrite (setstd_connections_printed local _ cfg locals) by done. cbn [mbind res_bind].
  rewrite (setstd_connections_printed remote _ cfg remotes) by done. cbn [mbind res_bind].
  eapply rwp_seq; [by apply setstd_crc_type_wp|]. intros o O.
  do 2 (eapply rwp_seq; [by apply number_or_u16|]; intros ? _). eapply rwp_seq; [by apply number_or_u16|]. intros n Hn.
  eapply rwp_seq; [by apply setstd_general_wp|]. intros g _. eapply rwp_seq; [by apply setstd_tls_wp|]. intros t _.
  cbn. split; [done|]. by split.
Qed.

(** ** Loading a file *)

Lemma written_sound v text : written v text -> sound_value v.
Proof.
  intros [n Hn|s Hs|w l Hl]; [done|by eexists|]. split; [done|]. apply Forall_fmap, Forall_forall. by eexists.
Qed.

Lemma printed_sound d es lines : Forall2 printed es lines -> data d = es -> sound d.
Proof.
  intros F E. unfold sound. rewrite E. clear E. induction F as [|e line es lines [(text & W & _) _ _] _ IH]; constructor; [|done].
  by eapply written_sound.
Qed.

Lemma free_arrays_sound es : Forall (fun e => sound_value (value e)) es -> free_arrays es = Ok tt.
Proof.
  induction 1 as [|e es He _ IH]; [done|]. cbn [free_arrays]. destruct (value e) as [|a| |]; try done. destruct He as [L _].
  unfold free_DictionaryArray. rewrite L. case_if; mcbn; done.
Qed.

Lemma dictionary_free_sound d : sound d -> exists d', dictionary_free d = Ok d'.
Proof. intros S. unfold dictionary_free. rewrite (free_arrays_sound (data d)) by done. by eexists. Qed.

Definition version_ok (v : list Z) : Prop := length v = 4%nat /\ plain v.

Lemma versions_loop_ok e logger l : clock_ok (logging e) -> type logger = LOGGER_TYPE_CONSOLE -> 0 <= max_log_level logger ->
  Forall version_ok l -> forall i out, exists outs,
  versions_loop e logger i (Some <$> l) out = Ok ((fun v => v ++ [0]) <$> l, out ++ outs).
Proof.
  intros C T M F. induction F as [|v l [Hv _] _ IH]; intros i out; cbn [fmap list_fmap versions_loop].
  { exists []. by rewrite app_nil_r. }
  unfold lift at 1, mbind at 1, M_bind at 1. cbn [c_string]. unfold mbind at 1, M_bind at 1.
  rewrite logger_log_spec; [|done| | | | |].
  - set (o := if _ <=? _ then _ else _). destruct (IH (S i) (out ++ o)) as (outs & E). unfold mbind, M_bind. rewrite E.
    exists (o ++ outs). rewrite <- app_assoc. unfold version_bytes. rewrite take_app_le, take_ge by lia. done.
  - intros [H|H]; rewrite T in H; done.
  - done.
  - done.
  - rewrite zlen_app. change (zlen (str _)) with 25. unfold zlen. rewrite Hv. done.
  - done.
Qed.

(** The entries that a usable file has. *)
Record configured (es : list DictionaryEntry) (locals remotes : list address) (versions : list (list Z)) : Prop := {
  cd_local : mkEntry (str "RASTA_REDUNDANCY_CONNECTIONS") (addresses locals) ∈ es;
  cd_remote : mkEntry (str "RASTA_REMOTE_REDUNDANCY_CONNECTIONS") (addresses remotes) ∈ es;
  cd_addresses : Forall address_ok (locals ++ remotes);
  cd_versions : mkEntry (str "RASTA_ACCEPTED_VERSIONS") (DICTIONARY_ARRAY (mkArray (Some <$> versions) true)) ∈ es;
  cd_version : Forall version_ok versions;
  cd_hash : mkEntry (str "RASTA_SR_CHECKSUM_ALGO") (DICTIONARY_STRING (Some (str "SIPHASH-2-4"))) ∉ es;
  cd_logger : mkEntry (str "LOGGER_TYPE") (DICTIONARY_NUMBER LOGGER_TYPE_CONSOLE) ∈ es;
  cd_level : exists n, mkEntry (str "LOGGER_MAX_LEVEL") (DICTIONARY_NUMBER n) ∈ es
}.

Lemma long_random_range p : is_u32 (long_random p).
Proof.
  unfold long_random. set (seed := u32 (mix _ _ _)). generalize (seq 0 32). intros l.
  assert (forall r, is_u32 r -> is_u32 (foldl (fun r i => u32 (r * 2 + rand p seed i mod 2)) r l)) as H; [|by apply H].
  induction l as [|i l IH]; intros r Hr; cbn; [done|]. apply IH, u32_range.
Qed.

Lemma load_configfile_ok e filename es lines locals remotes versions out :
  Forall2 printed es lines -> NoDup (key <$> es) -> zlen es < 2 ^ 28 -> zlen filename < 512 -> clock_ok (logging e) ->
  configured es locals remotes versions ->
  exists v logger outs, load_configfile e filename (Some (concat lines)) out = Ok ((v, logger), out ++ outs) /\
    values_ok locals remotes v /\ is_u32 (initial_sequence_number v) /\
    accepted_versions v = (fun v => v ++ [0]) <$> versions /\ type logger = LOGGER_TYPE_CONSOLE.
Proof.
  intros F N Z0 Hf C [Cl Cr Ca Cv CV Ch Ct [lvl Cm]]. destruct (load_lines_printed es lines F (dictionary_create 2)) as (d & E & _ & Ed);
    [by apply dictionary_create_ok|done|change (size (dictionary_create 2)) with 0; lia|]. cbn [dictionary_create data app] in Ed.
  set (cfg := mkRastaConfig d zero_values). assert (sound d) as S by (by eapply printed_sound).
  assert (forall v k x, config_key k = true -> mkEntry (str k) x ∈ es -> config_get (mkRastaConfig d v) k = Ok x) as G.
  { intros v k x K Hin. apply config_get_in; [done| |]; cbn [entries]; by rewrite Ed. }
  apply Forall_app in Ca as [Cal Car].
  destruct (config_setstd_wp (local_memory e) (remote_memory e) d locals remotes S Cal Car) as (v & Ev & V).
  { intros E'. apply config_get_from in E'; [|done..]. cbn [entries] in E'. by rewrite Ed in E'. }
  { by apply G. } { by apply G. }
  destruct (dictionary_free_sound d S) as (d' & Df).
  set (c := mkRastaConfig d v) in *.
  pose proof (G v : forall k x, config_key k = true -> mkEntry (str k) x ∈ es -> config_get c k = Ok x) as Gc. assert (exists n, is_u32 n /\ get_initial_seq_num (proc e) c = Ok n) as (n & Hn & En).
  { unfold get_initial_seq_num. pose proof (config_get_wp c "RASTA_INITIAL_SEQ" (fun _ => True) eq_refl S ltac:(done)) as W.
    apply rwp_ok in W as (x & -> & _). mcbn. eexists. split; [|done]. destruct x; try apply long_random_range. case_if; [apply u32_range|apply long_random_range]. }
  set (logger := logger_init (u32 lvl) LOGGER_TYPE_CONSOLE).
  assert (load_logger c = Ok logger) as El.
  { unfold load_logger. rewrite (Gc "LOGGER_TYPE"%string _ eq_refl Ct), (Gc "LOGGER_MAX_LEVEL"%string _ eq_refl Cm). mcbn.
    pose proof (config_get_wp c "LOGGER_FILE" (fun _ => True) eq_refl S ltac:(done)) as W. apply rwp_ok in W as (x & -> & _). done. }
  destruct (versions_loop_ok e logger versions C eq_refl) with (i := 0%nat) (out := out) as (outs & Eo); [apply u32_range|done|].
  exists (with_versions ((fun v => v ++ [0]) <$> versions) n v), (returned logger), outs. split; [|split; [by destruct V|done]].
  assert (config_load (local_memory e) (remote_memory e) filename (Some (concat lines)) = Ok (0, c)) as L.
  { unfold config_load, load_file. rewrite (file_lines_printed es), E by done. ztests. cbn [ensure]. mcbn. by rewrite Ev. }
  unfold load_configfile. rewrite (run_ok _ _ _ _ _ (run_lift _ out _ L)). cbn [snd].
  rewrite (run_ok _ _ _ _ _ (run_lift _ _ _ El)), (run_ok _ _ _ _ _ (run_lift _ _ _ (Gc "RASTA_ACCEPTED_VERSIONS"%string _ eq_refl Cv))).
  cbn [live strings ensure]. erewrite run_ok; [|exact Eo].
  rewrite (run_ok _ _ _ _ _ (run_lift _ _ _ En)). by rewrite (run_ok _ _ _ _ _ (run_lift _ _ _ Df)).
Qed.

(** ** An invalid address *)

(** If [m] returns, the result satisfies [Q]. *)
Definition if_ok {A} (m : res A) (Q : A -> Prop) : Prop := forall a, m = Ok a -> Q a.

Lemma if_ok_seq {A B} (m : res A) (k : A -> res B) R Q : if_ok m R -> (forall a, R a -> if_ok (k a) Q) -> if_ok (m ≫= k) Q.
Proof. intros H1 H2 b E. apply bind_ok in E as (a & Ea & Eb). by eapply H2; [apply H1|]. Qed.
Lemma if_ok_any {A B} (m : res A) (k : A -> res B) Q : (forall a, if_ok (k a) Q) -> if_ok (m ≫= k) Q.
Proof. intros H. by apply (if_ok_seq _ _ (fun _ => True)). Qed.

(** The dictionary holds an array that was freed behind its back. *)
Definition dead (d : Dictionary) : Prop :=
  exists e a, e ∈ data d /\ value e = DICTIONARY_ARRAY a /\ live a = false /\ strings a <> [].

Lemma dead_not_freed d d' : dead d -> dictionary_free d <> Ok d'.
Proof.
  intros (e & a & He & Hv & Ha & Hs) E. apply bind_ok in E as (u & E & _). destruct d as [n l]. cbn [data] in *. clear n d'.
  induction l as [|e' l IH]; [by apply not_elem_of_nil in He|]. cbn [free_arrays] in E. apply bind_ok in E as (u' & E1 & E2).
  apply elem_of_cons in He as [<-|He]; [|by apply IH]. rewrite Hv in E1. unfold free_DictionaryArray in E1. rewrite Ha in E1.
  destruct (zlen (strings a) =? 0) eqn:Z0; [|done]. zbool. destruct (strings a); [done|]. unfold zlen in Z0. cbn in Z0. lia.
Qed.

Lemma free_strings_dead k d : dead d -> dead (free_strings k d).
Proof.
  intros (e & a & He & Hv & Ha & Hs). unfold dead, free_strings. fields. destruct (decide (key e = k)) as [Hk|Hk].
  - exists (e <| value := DICTIONARY_ARRAY (a <| live := false |>) |>), (a <| live := false |>). split; [|done].
    apply list_elem_of_fmap. exists e. by rewrite decide_True, Hv.
  - exists e, a. split; [|done]. apply list_elem_of_fmap. exists e. by rewrite decide_False.
Qed.

Lemma free_strings_kills k a d : mkEntry k (DICTIONARY_ARRAY a) ∈ data d -> strings a <> [] -> dead (free_strings k d).
Proof.
  intros He Hs. exists (mkEntry k (DICTIONARY_ARRAY (a <| live := false |>))), (a <| live := false |>). split; [|done].
  unfold free_strings. fields. apply list_elem_of_fmap. eexists. split; [|exact He]. by rewrite decide_True.
Qed.

(** A string that is no address, whatever the stack holds. *)
Definition not_an_address (s : list Z) : Prop := forall stack a, extractIPData stack s = Ok a -> port a = 0.

Lemma connections_loop_bad m s : not_an_address s -> forall l, Some s ∈ l -> forall i connections,
  if_ok (connections_loop m i l connections) (fun r => fst r = false).
Proof.
  intros Hs. induction l as [|x l IH]; intros Hin i cs; [by apply not_elem_of_nil in Hin|]. cbn [connections_loop].
  intros r E. apply bind_ok in E as (c & Ec & E). apply bind_ok in E as (ip & Ei & E). apply elem_of_cons in Hin as [<-|Hin].
  - injection Ec as <-. rewrite (Hs _ _ Ei) in E. by injection E as <-.
  - destruct (port ip =? 0); [by injection E as <-|]. by eapply IH.
Qed.

Lemma setstd_connections_dead m k cfg : dead (entries cfg) -> if_ok (setstd_connections m k cfg) (fun r => dead (entries (snd r))).
Proof.
  intros D. unfold setstd_connections. apply if_ok_any. intros v. destruct v as [s|a|n|]; try (by intros r [= <-]).
  case_if; [by intros r [= <-]|]. apply if_ok_any. intros _. apply if_ok_any. intros [ok l]. intros r [= <-]. cbn.
  destruct ok; [done|]. by apply free_strings_dead.
Qed.

Lemma setstd_connections_bad m k cfg a s : config_key k = true -> config_get cfg k = Ok (DICTIONARY_ARRAY a) ->
  Some s ∈ strings a -> not_an_address s -> if_ok (setstd_connections m k cfg) (fun r => dead (entries (snd r))).
Proof.
  intros K E Hin Hs. unfold setstd_connections. rewrite E. cbn [mbind res_bind]. destruct (strings a) as [|x l] eqn:Ea; [by apply not_elem_of_nil in Hin|].
  rewrite zlen_cons. pose proof (zlen_nonneg l). ztest (1 + zlen l =? 0). apply if_ok_any. intros _.
  eapply if_ok_seq; [by eapply connections_loop_bad|]. intros [ok cs] Hok. cbn in Hok. subst ok. intros r [= <-]. cbn [snd].
  apply (free_strings_kills _ a); [|by rewrite Ea]. by apply config_get_from.
Qed.

Lemma run_inv {S A B} (m : M S A) (k : A -> M S B) s r : (m ≫= k) s = Ok r -> exists a s', m s = Ok (a, s') /\ k a s' = Ok r.
Proof. unfold mbind, M_bind. destruct (m s) as [[a s']|]; [eauto|done]. Qed.
Lemma lift_inv {S A} (m : res A) (s s' : S) a : lift m s = Ok (a, s') -> m = Ok a /\ s' = s.
Proof. unfold lift. destruct m; [by intros [= -> ->]|done]. Qed.

(** Freeing one array leaves the other entries as they were. *)
Lemma free_strings_get k k' d : uppercase k' <> k -> dictionary_get (free_strings k d) k' = dictionary_get d k'.
Proof.
  intros Hk. unfold dictionary_get. destruct (ensure _ _); [|done]. mcbn. f_equal. unfold lookup_key, free_strings. fields.
  rewrite list_find_fmap. set (g := fun e => if decide (key e = k) then _ else e).
  assert (forall e, key (g e) = key e) as Hg by (intros e; unfold g; case_decide; [by destruct (value e)|done]).
  rewrite (list_find_ext _ (fun e => uppercase k' = key e)) by (intros e; cbn; by rewrite Hg).
  destruct (list_find _ (data d)) as [[i e]|] eqn:E; [|done]. apply list_find_Some in E as (_ & He & _). cbn. unfold g.
  by rewrite decide_False by congruence.
Qed.

Lemma setstd_connections_frame m k k' cfg : config_key k' = true -> str k' <> str k ->
  if_ok (setstd_connections m k cfg) (fun r => config_get (snd r) k' = config_get cfg k').
Proof.
  intros K Hk. apply andb_prop in K as [_ K]. apply bool_decide_eq_true in K. unfold setstd_connections. apply if_ok_any. intros v.
  destruct v as [s|a|n|]; try (by intros r [= <-]). case_if; [by intros r [= <-]|]. apply if_ok_any. intros _.
  apply if_ok_any. intros [ok l] r [= <-]. destruct ok; [done|]. unfold config_get. cbn [snd]. fields. apply free_strings_get. congruence.
Qed.

(** A redundancy address that is invalid, such as the documented form "*:port",
    is not reported to the caller: the strings are freed, but the dictionary
    keeps their pointer and frees them once more at the end of loading, so that
    no such file is ever loaded without undefined behaviour. *)
Theorem load_configfile_bad_address e filename f d k a s out : load_file f = Ok d ->
  k = "RASTA_REDUNDANCY_CONNECTIONS"%string \/ k = "RASTA_REMOTE_REDUNDANCY_CONNECTIONS"%string ->
  dictionary_get d (str k) = Ok (DICTIONARY_ARRAY a) -> Some s ∈ strings a -> not_an_address s ->
  is_ok (load_configfile e filename (Some f) out) = false.
Proof.
  intros Ef Hk Ea Hin Hs. destruct (load_configfile _ _ _ _) as [[[v logger] out']|] eqn:E; [exfalso|done].
  assert (if_ok (config_setstd (local_memory e) (remote_memory e) (mkRastaConfig d zero_values)) (fun c => dead (entries c))) as W.
  { unfold config_setstd. do 3 (apply if_ok_any; intros ?).
    apply (if_ok_seq _ _ (fun r => dead (entries (snd r)) \/ k = "RASTA_REMOTE_REDUNDANCY_CONNECTIONS"%string /\ config_get (snd r) k = Ok (DICTIONARY_ARRAY a))).
    { destruct Hk as [-> | ->].
      - intros r Er. left. revert r Er. by eapply setstd_connections_bad.
      - intros r Er. right. split; [done|]. rewrite <- Ea. revert r Er. by apply setstd_connections_frame. }
    intros [cs c] D. cbn [snd] in D. apply (if_ok_seq _ _ (fun r => dead (entries (snd r)))).
    { destruct D as [D|[-> G]]; [by apply setstd_connections_dead|by eapply setstd_connections_bad]. }
    intros [cs' c'] D'. cbn [snd] in D'. do 6 (apply if_ok_any; intros ?). by intros r [= <-]. }
  unfold load_configfile in E.
  apply run_inv in E as ([n cfg] & ? & E1 & E). apply lift_inv in E1 as [E1 _]. unfold config_load in E1.
  apply bind_ok in E1 as (_ & _ & E1). rewrite Ef in E1. cbn [mbind res_bind] in E1. apply bind_ok in E1 as (cfg' & E1 & E2).
  injection E2 as _ <-. apply W in E1. cbn [snd] in E. do 4 (apply run_inv in E as (? & ? & _ & E)).
  apply run_inv in E as (d' & ? & E2 & _). apply lift_inv in E2 as [E2 _]. by eapply dead_not_freed.
Qed.

Definition wildcard_file : list Z :=
  default [] (print_file [mkEntry (str "RASTA_REDUNDANCY_CONNECTIONS") (DICTIONARY_ARRAY (mkArray [Some (str "*:8888")] true));
                          mkEntry (str "LOGGER_TYPE") (DICTIONARY_NUMBER 0); mkEntry (str "LOGGER_MAX_LEVEL") (DICTIONARY_NUMBER 3)]).
Definition wildcard_dictionary : Dictionary := match load_file wildcard_file with Ok d => d | Fail _ => mkDictionary 0 [] end.

Lemma wildcard_no_address : not_an_address (str "*:8888").
Proof. intros stack a. cbn. by intros [= <-]. Qed.

Definition demo_memory : memory := mkMemory (fun _ => []) (fun _ => mkIpData [] 0).
Definition demo_load_env : load_env :=
  mkLoadEnv demo_memory demo_memory (fun _ => []) demo_log_env (mkProcess 1 2 3 (fun s i => s + Z.of_nat i)).

Lemma load_configfile_bad_address_witness : zlen wildcard_file = 79 /\
  is_ok (load_configfile demo_load_env (str "rasta.cfg") (Some wildcard_file) []) = false.
Proof.
  split; [vm_compute; reflexivity|].
  apply (load_configfile_bad_address demo_load_env (str "rasta.cfg") wildcard_file wildcard_dictionary "RASTA_REDUNDANCY_CONNECTIONS"
           (mkArray [Some (str "*:8888")] true) (str "*:8888")); [vm_compute; reflexivity|by left|vm_compute; reflexivity|by left|].
  exact wildcard_no_address.
Defined.

(** A logger that was told to write to a file faults on its first message after
    loading: its path pointed into a local variable. *)
Lemma returned_logger_faults e l level location text out : clock_ok e -> type l = LOGGER_TYPE_FILE ->
  0 < level <= LOG_LEVEL_DEBUG -> level <= max_log_level l -> zlen text < 2048 -> zlen location < 1900 ->
  logger_log e (Some (returned l)) level location text out = Fail NullDeref.
Proof.
  intros C T Hl Hm Ht Hloc. unfold logger_log. change (max_log_level (returned l)) with (max_log_level l).
  unfold LOG_LEVEL_NONE. ztest (max_log_level l =? 0). rewrite sprintf_ok by done. unfold mbind at 1 2, M_bind, lift.
  rewrite message_string by (done || (unfold LOGGER_MAX_MSG_SIZE; lia)). ztests. unfold do_log_message.
  change (type (returned l)) with (type l). rewrite T. cbn. by destruct (log_file l).
Qed.
