(* ===== verification/Startup.v ===== *)
(** * From the configuration file to an endpoint

    The configuration that a well-formed file yields is one the library can be
    set up with: the parser, the defaults and the initialisation of rasta_init.c
    put together. *)

From stdpp Require Import base numbers list strings.
From Stdlib Require Import ZArith Lia.
From S2P Require Import Prelude.
From S2P Require Import Crc.
From S2P Require Import Hashing.
From S2P Require Import Packet.
From S2P Require Import World.
From S2P Require Import Config.
From S2P Require Import State.
From S2P Require Import Sample.
From S2P Require Import Transport.
From S2P Require Import Redundancy.
From S2P Require Import Connection.
From S2P Require Import Retransmission.
From S2P Require Import Events.
From S2P Require Import Rasta.
From S2P Require Import Service.
From S2P Require Import Dictionary.
From S2P Require Import ConfigParser.
From S2P Require Import Logging.
From S2P Require Import ConfigFile.

Local Open Scope Z_scope.
Local Open Scope record_scope.

Lemma values_valid locals remotes v : values_ok locals remotes v -> length locals = length remotes ->
  is_u32 (initial_sequence_number v) -> config_valid v.
Proof.
  intros [] Hl Hi. split; [by split|done|done| |unfold is_u16, is_u32 in *; lia|done..].
  by rewrite vo_local, vo_remote, !length_fmap.
Qed.

Section Startup.
Context `{TransportOk}.

(** C20. From the file to the endpoint: a file that was written from entries with
    different keys, among them two lists of as many valid addresses, four-letter
    versions and a console logger, and not asking for SipHash, is loaded without
    a fault; its addresses and versions are the ones of the entries, and
    the library can be set up with the result: every numeric value fits its
    field, and the set-up ends in a fresh endpoint without a connection. *)
Theorem load_configfile_starts e filename es f locals remotes versions out :
  print_file es = Some f -> NoDup (key <$> es) -> zlen es < 2 ^ 28 -> zlen filename < 512 -> clock_ok (logging e) ->
  configured es locals remotes versions -> length locals = length remotes ->
  exists v logger outs, load_configfile e filename (Some f) out = Ok ((v, logger), out ++ outs) /\
    connections (redundancy v) = ip_data <$> locals /\ connections (redundancy_remote v) = ip_data <$> remotes /\
    accepted_versions v = (fun s => s ++ [0]) <$> versions /\ config_valid v /\
    forall s, config s = v -> net_good (env s) -> rastamodule_lasterror s = RASTA_ERRORS_NONE -> inbox (env s) = [] ->
      exists s', rasta_lib_init_configuration s = Ok (tt, s') /\ fresh s' /\ config s' = v /\ conn s' = initial_connection v.
Proof.
  intros Hf N Z0 Hn C Cd Hl. apply print_file_printed in Hf as (lines & -> & F).
  destruct (load_configfile_ok e filename es lines locals remotes versions out) as (v & logger & outs & E & V & Hi & Hv & _); [done..|].
  exists v, logger, outs. destruct V as [] eqn:HV. split_and!; [done..|by eapply values_valid|].
  intros s Es Hg He Hin. assert (config_valid (config s)) as Vs by (rewrite Es; by eapply values_valid).
  pose proof (init_lands s Vs Hg He Hin) as L. apply wp_ok in L as ([] & s' & El & Lf & Lc & Ln & _). exists s'.
  rewrite Es in Lc, Ln. done.
Qed.

End Startup.

(** ** A file *)

Definition demo_locals : list address := [mkAddress [127; 0; 0; 1] 8888; mkAddress [192; 168; 178; 2] 65535].
Definition demo_remotes : list address := [mkAddress [127; 0; 0; 1] 9999; mkAddress [10; 0; 0; 255] 1].
Definition demo_settings : list DictionaryEntry :=
  [mkEntry (str "RASTA_T_MAX") (DICTIONARY_NUMBER 10000);
   mkEntry (str "RASTA_INITIAL_SEQ") (DICTIONARY_NUMBER (-1));
   mkEntry (str "RASTA_CRC_TYPE") (DICTIONARY_STRING (Some (str "TYPE_B")));
   mkEntry (str "RASTA_REDUNDANCY_CONNECTIONS") (addresses demo_locals);
   mkEntry (str "RASTA_REMOTE_REDUNDANCY_CONNECTIONS") (addresses demo_remotes);
   mkEntry (str "LOGGER_TYPE") (DICTIONARY_NUMBER 0);
   mkEntry (str "LOGGER_MAX_LEVEL") (DICTIONARY_NUMBER 3);
   mkEntry (str "RASTA_ACCEPTED_VERSIONS") (DICTIONARY_ARRAY (mkArray [Some (str "0303")] true))].
Definition demo_settings_file : list Z := default [] (print_file demo_settings).

Ltac find_entry := repeat first [apply list_elem_of_here | apply list_elem_of_further].

Lemma demo_configured : configured demo_settings demo_locals demo_remotes [str "0303"].
Proof.
  split; try find_entry.
  - repeat constructor; cbn; unfold is_u8; try lia.
  - constructor; [|constructor]. split; [done|]. by apply plain_chars_ok.
  - unfold demo_settings. rewrite !elem_of_cons. intros Hin. destruct_or! Hin; try done. by apply not_elem_of_nil in Hin.
  - exists 3. find_entry.
Qed.

Lemma load_configfile_starts_witness :
  is_ok (load_configfile demo_load_env (str "rasta.cfg") (Some demo_settings_file) []) = true /\
  exists v logger outs, load_configfile demo_load_env (str "rasta.cfg") (Some demo_settings_file) [] = Ok ((v, logger), [] ++ outs) /\
    connections (redundancy v) = ip_data <$> demo_locals /\ connections (redundancy_remote v) = ip_data <$> demo_remotes /\
    accepted_versions v = (fun s => s ++ [0]) <$> [str "0303"] /\ config_valid v /\
    forall s, config s = v -> net_good (env s) -> rastamodule_lasterror s = RASTA_ERRORS_NONE -> inbox (env s) = [] ->
      exists s', rasta_lib_init_configuration (H := udp) s = Ok (tt, s') /\ fresh s' /\ config s' = v /\ conn s' = initial_connection v.
Proof.
  split; [vm_compute; reflexivity|].
  apply (load_configfile_starts (H := udp) demo_load_env (str "rasta.cfg") demo_settings demo_settings_file); try (vm_compute; reflexivity).
  - apply (bool_decide_unpack _). vm_compute. exact I.
  - split; vm_compute; [done|]. split; congruence.
  - exact demo_configured.
Defined.
