(* ===== verification/KeyExchange.v ===== *)
(** * The key exchange (src/c/experimental/key_exchange.c, the OPAQUE half of src/c/rastafactory.c)

    The build with ENABLE_OPAQUE: both ends derive a session key from a pre-shared
    key with libopaque.  That library is a parameter: [Opaque] has its functions,
    which get a number that stands for the randomness of the call, and [OpaqueOk]
    and [OpaqueBinds] are what its documentation promises.  The state of the
    endpoint is extended by the state of the exchange; the log is left out. *)

From stdpp Require Import base numbers list.
From Stdlib Require Import ZArith Lia.
From S2P Require Import Prelude.
From S2P Require Import Hashing.
From S2P Require Import Packet.
From S2P Require Import Factory.
From S2P Require Import World.
From S2P Require Import Config.
From S2P Require Import State.
From S2P Require Import Transport.

Local Open Scope Z_scope.
Local Open Scope record_scope.

(** ** libopaque *)

Record Opaque_Ids := mkOpaqueIds { idU : list Z; idS : list Z }.

Class Opaque := {
  OPAQUE_USER_RECORD_LEN : Z;
  OPAQUE_USER_SESSION_PUBLIC_LEN : Z;
  OPAQUE_USER_SESSION_SECRET_LEN : Z;
  OPAQUE_SERVER_SESSION_LEN : Z;
  OPAQUE_SHARED_SECRETBYTES : Z;
  crypto_auth_hmacsha512_BYTES : Z;
  (* the record *)
  opaque_Register : nat -> list Z -> Opaque_Ids -> Z * list Z;
  (* the secret and the public part of a request *)
  opaque_CreateCredentialRequest : nat -> list Z -> Z * (list Z * list Z);
  (* from request, record, identities and context: response, session key, authentication of the user *)
  opaque_CreateCredentialResponse : nat -> list Z -> list Z -> Opaque_Ids -> list Z -> Z * (list Z * list Z * list Z);
  (* from response, secret, context and identities: session key, authentication of the user *)
  opaque_RecoverCredentials : list Z -> list Z -> list Z -> Opaque_Ids -> Z * (list Z * list Z);
  opaque_UserAuth : list Z -> list Z -> Z
}.

(** What a run of the protocol consists of: a record registered for [pwS] and
    [ids], a request made from [pwU], and the response to it in context [ctx]. *)
Definition answers `{Opaque} (rec : list Z) (r2 r3 : nat) (pwU : list Z) (ids : Opaque_Ids) (ctx : list Z) :=
  opaque_CreateCredentialResponse r3 (opaque_CreateCredentialRequest r2 pwU).2.2 rec ids ctx.

Definition registered `{Opaque} (pw : list Z) (ids : Opaque_Ids) (rec : list Z) : Prop :=
  exists r, rec = (opaque_Register r pw ids).2.

(** Passwords as [strlen] sees them in a buffer of [KEX_PSK_MAX] characters. *)
(* rasta/config.h:27-27 KEX_PSK_MAX *)
Definition KEX_PSK_MAX : Z := 128.
Definition password_ok (pw : list Z) : Prop := zlen pw < KEX_PSK_MAX /\ Forall (fun c => 0 < c < 256) pw.

(** The functions succeed, their results have the documented lengths, and a user
    who knows the password recovers the key of the server, who accepts the user. *)
Class OpaqueOk `{Opaque} : Prop := {
  opaque_sizes : 0 <= OPAQUE_USER_SESSION_PUBLIC_LEN <= 512 /\ 0 <= OPAQUE_SERVER_SESSION_LEN <= 512 /\
    0 <= crypto_auth_hmacsha512_BYTES <= 512 /\ 0 < OPAQUE_SHARED_SECRETBYTES;
  opaque_register : forall r pw ids, (opaque_Register r pw ids).1 = 0 /\
    zlen (opaque_Register r pw ids).2 = OPAQUE_USER_RECORD_LEN;
  opaque_request : forall r pw, let m := opaque_CreateCredentialRequest r pw in
    m.1 = 0 /\ zlen m.2.1 = OPAQUE_USER_SESSION_SECRET_LEN + zlen pw /\
    zlen m.2.2 = OPAQUE_USER_SESSION_PUBLIC_LEN /\ bytes_ok m.2.2;
  opaque_response : forall r pub rec ids ctx, let m := opaque_CreateCredentialResponse r pub rec ids ctx in
    m.1 = 0 /\ zlen m.2.1.1 = OPAQUE_SERVER_SESSION_LEN /\ bytes_ok m.2.1.1 /\
    zlen m.2.1.2 = OPAQUE_SHARED_SECRETBYTES /\ zlen m.2.2 = crypto_auth_hmacsha512_BYTES;
  opaque_recover : forall resp sec ctx ids, let m := opaque_RecoverCredentials resp sec ctx ids in
    zlen m.2.1 = OPAQUE_SHARED_SECRETBYTES /\ zlen m.2.2 = crypto_auth_hmacsha512_BYTES /\ bytes_ok m.2.2;
  opaque_agrees : forall rec r2 r3 pw ids ctx, password_ok pw -> registered pw ids rec ->
    let m := answers rec r2 r3 pw ids ctx in
    let n := opaque_RecoverCredentials m.2.1.1 (opaque_CreateCredentialRequest r2 pw).2.1 ctx ids in
    n.1 = 0 /\ n.2.1 = m.2.1.2 /\ opaque_UserAuth m.2.2 n.2.2 = 0
}.

(** A user who has another password, other identities or another context fails;
    identities and context are numbers of four bytes here. *)
Definition word_bytes (l : list Z) : Prop := zlen l = 4 /\ bytes_ok l.
Definition ids_words (i : Opaque_Ids) : Prop := word_bytes (idU i) /\ word_bytes (idS i).

Class OpaqueBinds `{Opaque} : Prop :=
  opaque_binds : forall rec r2 r3 pwS pwU ids ids' ctx ctx', password_ok pwS -> password_ok pwU ->
    ids_words ids -> ids_words ids' -> word_bytes ctx -> word_bytes ctx' -> registered pwS ids rec ->
    let m := answers rec r2 r3 pwU ids ctx in
    (opaque_RecoverCredentials m.2.1.1 (opaque_CreateCredentialRequest r2 pwU).2.1 ctx' ids').1 = 0 ->
    pwU = pwS /\ ids' = ids /\ ctx' = ctx.

(** ** The state *)

Inductive KEX_MODE := KEX_NONE | KEX_OPAQUE.

(** [struct RastaConfigKex] with OPAQUE: the mode has a second value, and the
    server may have a record in place of the password. *)
(* rasta/config.h:29-47 RastaConfigKex *)
Record KexConfig := mkKexConfig {
  kex_mode : KEX_MODE;
  kex_psk : list Z;
  kex_rekeying_interval_ms : Z;
  has_psk_record : bool;
  psk_record : list Z
}.

(* experimental/key_exchange.h key_exchange_state *)
Record key_exchange_state := mkKexState {
  user_record : list Z;
  client_secret : option (list Z);
  client_public : list Z;
  certificate_response : list Z;
  session_key : list Z;
  user_auth_server : list Z;
  password_length : Z;
  last_key_exchanged_millis : Z
}.
#[export] Instance eta_kex_state : Eta key_exchange_state := fun k =>
  mkKexState (user_record k) (client_secret k) (client_public k) (certificate_response k) (session_key k)
    (user_auth_server k) (password_length k) (last_key_exchanged_millis k).

(** The endpoint of this build.  [draws] counts the calls that used randomness;
    [freed] has what the blocks held that were freed. *)
Record kex_sys := mkKexSys {
  base : sys;
  kex_state : key_exchange_state;
  kex_config : KexConfig;
  rekeying_event : timed_event;
  draws : nat;
  freed : list (list Z)
}.
#[export] Instance eta_kex_sys : Eta kex_sys := fun s =>
  mkKexSys (base s) (kex_state s) (kex_config s) (rekeying_event s) (draws s) (freed s).

Definition on_base {A} (m : M sys A) : M kex_sys A := fun s =>
  match m (base s) with Ok (a, b) => Ok (a, s <| base := b |>) | Fail e => Fail e end.
Definition setk (f : key_exchange_state -> key_exchange_state) : M kex_sys unit :=
  modify (fun s => s <| kex_state ::= f |>).
Definition draw : M kex_sys nat :=
  n ← gets draws; _ ← modify (fun s => s <| draws ::= S |>); mret n.

(** [htobe32], as the bytes of the number in memory. *)
Definition htobe32 (v : Z) : list Z := rev (le_enc 4 v).

Lemma htobe32_word v : word_bytes (htobe32 v).
Proof.
  split; [unfold zlen, htobe32; by rewrite length_rev, length_le_enc|]. apply Forall_rev, le_enc_bytes.
Qed.
Lemma htobe32_inj v w : is_u32 v -> is_u32 w -> htobe32 v = htobe32 w -> v = w.
Proof.
  intros Hv Hw E. rewrite <- (le_dec_enc_u32 v), <- (le_dec_enc_u32 w) by done.
  f_equal. rewrite <- (rev_involutive (le_enc 4 v)), <- (rev_involutive (le_enc 4 w)). f_equal. exact E.
Qed.

Section KeyExchange.
Context `{Opaque}.

(** ** The operations of key_exchange.c *)

(* experimental/key_exchange.c rasta_ids_to_opaque_ids *)
Definition rasta_ids_to_opaque_ids (my_id remote_id : list Z) : Opaque_Ids := mkOpaqueIds remote_id my_id.

(* experimental/key_exchange.c:15-24 key_exchange_prepare_from_psk *)
Definition key_exchange_prepare_from_psk (psk : list Z) (my_id remote_id : Z) : M kex_sys Z :=
  r ← draw;
  let '(ret, rec) := opaque_Register r psk (rasta_ids_to_opaque_ids (htobe32 my_id) (htobe32 remote_id)) in
  _ ← setk (fun k => k <| user_record := rec |>);
  mret ret.

(** A secret that was there before is overwritten: the block leaks. *)
(* experimental/key_exchange.c:26-52 key_exchange_prepare_credential_request *)
Definition key_exchange_prepare_credential_request (psk : list Z) : M kex_sys Z :=
  ret ← on_base (syscall_now SysMlock);
  if negb (ret =? 0) then mret ret
  else
    _ ← setk (fun k => k <| password_length := zlen psk |>);
    r ← draw;
    let '(ret, (sec, pub)) := opaque_CreateCredentialRequest r psk in
    _ ← setk (fun k => k <| client_secret := Some sec |> <| client_public := pub |>);
    mret ret.

(* experimental/key_exchange.c:54-73 kex_prepare_credential_response *)
Definition kex_prepare_credential_response (received_client_public : list Z) (my_id remote_id : Z)
    (initial_sequence_number : Z) : M kex_sys Z :=
  let ids := rasta_ids_to_opaque_ids (htobe32 my_id) (htobe32 remote_id) in
  if negb (zlen received_client_public =? OPAQUE_USER_SESSION_PUBLIC_LEN) then mret (-1)
  else
    k ← gets kex_state;
    r ← draw;
    let '(ret, (resp, sk, auth)) := opaque_CreateCredentialResponse r received_client_public (user_record k) ids
                                      (htobe32 initial_sequence_number) in
    _ ← setk (fun k => k <| certificate_response := resp |> <| session_key := sk |> <| user_auth_server := auth |>);
    mret ret.

(** [memset] clears as many bytes as the password has, before the block is freed. *)
Definition wiped (n : Z) (sec : list Z) : list Z := zeros n ++ drop (Z.to_nat n) sec.

(** The failure of [munlock] is logged only. *)
(* experimental/key_exchange.c:75-112 kex_recover_credential *)
Definition kex_recover_credential (received_server_response : list Z) (my_id remote_id : Z)
    (initial_sequence_number : Z) : M kex_sys Z :=
  let ids := rasta_ids_to_opaque_ids (htobe32 remote_id) (htobe32 my_id) in
  if negb (zlen received_server_response =? OPAQUE_SERVER_SESSION_LEN) then mret (-1)
  else
    k ← gets kex_state;
    match client_secret k with
    | None => fail NullDeref
    | Some sec =>
        let '(ret, (sk, auth)) := opaque_RecoverCredentials received_server_response sec
                                    (htobe32 initial_sequence_number) ids in
        _ ← setk (fun k => k <| session_key := sk |> <| user_auth_server := auth |>);
        _ ← on_base (syscall_now SysMunlock);
        _ ← modify (fun s => s <| freed ::= fun l => l ++ [wiped (password_length k) sec] |>);
        _ ← setk (fun k => k <| client_secret := None |>);
        mret ret
    end.

(* experimental/key_exchange.c:114-121 kex_authenticate_user *)
Definition kex_authenticate_user (k : key_exchange_state) (received_user_auth : list Z) : Z :=
  if negb (zlen received_user_auth =? crypto_auth_hmacsha512_BYTES) then 1
  else opaque_UserAuth (user_auth_server k) received_user_auth.

(** ** The packets of the exchange (rastafactory.c) *)

(* util/rastamodule.h:64-77 RASTA_TYPE_KEX_REQUEST *)
Definition RASTA_TYPE_KEX_REQUEST : Z := 6250.
Definition RASTA_TYPE_KEX_RESPONSE : Z := 6251.
Definition RASTA_TYPE_KEX_AUTHENTICATION : Z := 6252.

(** A packet with this payload. *)
Definition packet_with (type : Z) (i : packet_ids) (length : Z) (bytes : list Z) (ctx : rasta_hashing_context_t) :
    res RastaPacket :=
  let p := initializePacket type i length ctx in
  d ← write_at (p_data p) 0 bytes; mret (p <| p_data := d |>).

(* rastafactory.c createKexRequest *)
Definition createKexRequest (i : packet_ids) (ctx : rasta_hashing_context_t) (psk : list Z) : M kex_sys RastaPacket :=
  ret ← key_exchange_prepare_credential_request psk;
  if negb (ret =? 0) then fail AbortCalled
  else
    k ← gets kex_state;
    lift (packet_with RASTA_TYPE_KEX_REQUEST i OPAQUE_USER_SESSION_PUBLIC_LEN (client_public k) ctx).

(* rastafactory.c createKexResponse *)
Definition createKexResponse (i : packet_ids) (ctx : rasta_hashing_context_t) (cfg : KexConfig)
    (received_client_kex_request : list Z) (initial_sequence_number : Z) : M kex_sys RastaPacket :=
  ret ← (if has_psk_record cfg then _ ← setk (fun k => k <| user_record := psk_record cfg |>); mret 0
         else key_exchange_prepare_from_psk (kex_psk cfg) (i_sender i) (i_receiver i));
  if negb (ret =? 0) then fail AbortCalled
  else if negb (zlen received_client_kex_request =? OPAQUE_USER_SESSION_PUBLIC_LEN) then fail AbortCalled
  else
    ret ← kex_prepare_credential_response received_client_kex_request (i_sender i) (i_receiver i) initial_sequence_number;
    if negb (ret =? 0) then fail AbortCalled
    else
      k ← gets kex_state;
      lift (packet_with RASTA_TYPE_KEX_RESPONSE i OPAQUE_SERVER_SESSION_LEN (certificate_response k) ctx).

(* rastafactory.c:222-230 createKexAuthentication *)
Definition opaque_createKexAuthentication (i : packet_ids) (ctx : rasta_hashing_context_t)
    (user_authentication : list Z) : res RastaPacket :=
  packet_with RASTA_TYPE_KEX_AUTHENTICATION i (zlen user_authentication) user_authentication ctx.

End KeyExchange.
