(* ===== verification/KexHandlers.v ===== *)
(** * The handlers of the key exchange (src/c/experimental/handlers.c)

    The three packets of the exchange, the timer that repeats it, and the parts of
    the safety layer that differ in the build with ENABLE_OPAQUE: the heartbeat and
    the response that open a connection, the check for an exchange that was skipped,
    and the dispatch of [sr_receive]. *)

From stdpp Require Import base numbers list.
From Stdlib Require Import ZArith Lia.
From S2P Require Import Prelude.
From S2P Require Import Hashing.
From S2P Require Import Packet.
From S2P Require Import Factory.
From S2P Require Import World.
From S2P Require Import Config.
From S2P Require Import State.
From S2P Require Import Transport.
From S2P Require Import Redundancy.
From S2P Require Import Connection.
From S2P Require Import Retransmission.
From S2P Require Import Handlers.
From S2P Require Import Rasta.
From S2P Require Import KeyExchange.

Local Open Scope Z_scope.
Local Open Scope record_scope.

(** The key that both hashing contexts start with is replaced in one of them. *)
Definition rekeyed (k : list Z) (s : sys) : sys :=
  s <| mux ::= fun m => m <| sr_hashing_context ::= fun h => h <| key := k |> |> |>.

Definition get_ms : M kex_sys Z := on_base (on_world get_current_time_ms).
Definition get_conn : M kex_sys rasta_connection := gets (fun s => conn (base s)).

(** The sequence numbers and times that every accepted packet of the exchange
    brings along. *)
(* experimental/handlers.c:216-220 handle_kex_auth *)
Definition take_attrs (p : RastaPacket) (c : rasta_connection) : rasta_connection :=
  c <| sn_r := u32 (p_sequence_number p + 1) |> <| cs_t := p_sequence_number p |>
    <| cs_r := p_confirmed_sequence_number p |> <| ts_r := p_timestamp p |> <| cts_r := p_confirmed_timestamp p |>.

(* experimental/handlers.c:58-63 handle_kex_request *)
Definition take_attrs_sent (p : RastaPacket) (c : rasta_connection) : rasta_connection :=
  take_attrs p (c <| sn_t := u32 (sn_t c + 1) |>).

(* experimental/handlers.c:74-74 handle_kex_request *)
Definition set_session_key : M kex_sys unit :=
  k ← gets kex_state;
  h ← gets (fun s => mux_context (base s));
  h ← lift (rasta_set_hash_key_variable h (session_key k) (zlen (session_key k)));
  on_base (modify (fun s => s <| mux ::= fun m => m <| sr_hashing_context := h |> |>)).

Section KexHandlers.
Context `{Transport} `{Opaque}.

(** The parameters of a packet that answers [p]. *)
Definition reply_ids (c : rasta_connection) (p : RastaPacket) (ts : Z) : packet_ids :=
  mkIds (remote_id c) (my_id c) (sn_t c) (p_sequence_number p) ts (p_timestamp p).

Definition close (reason : rasta_disconnect_reason) : M kex_sys unit := on_base (sr_close_connection reason 0).
Definition close_unexpected : M kex_sys Z := _ ← close RASTA_DISC_REASON_UNEXPECTEDTYPE; mret 0.
Definition close_untimely : M kex_sys Z :=
  _ ← on_base (count_error count_cs); _ ← close RASTA_DISC_REASON_PROTOCOLERROR; mret 0.

(* experimental/handlers.c:34-74 handle_kex_request *)
Definition answer_kex_request (receivedPacket : RastaPacket) : M kex_sys Z :=
  now ← get_ms;
  _ ← setk (fun k => k <| last_key_exchanged_millis := now |>);
  c ← get_conn;
  ctx ← gets (fun s => mux_context (base s));
  cfg ← gets kex_config;
  ts ← on_base cur_timestamp_now;
  response ← createKexResponse (reply_ids c receivedPacket ts) ctx cfg (p_data receivedPacket) (sn_i c);
  _ ← on_base (redundancy_mux_send response (role c));
  _ ← on_base (setc (take_attrs_sent receivedPacket));
  _ ← on_base sr_remove_confirmed_messages;
  _ ← on_base (set_state RASTA_CONNECTION_KEX_AUTH);
  _ ← set_session_key;
  mret 0.

(* experimental/handlers.c handle_kex_request *)
Definition handle_kex_request (receivedPacket : RastaPacket) : M kex_sys Z :=
  c ← get_conn;
  cfg ← gets kex_config;
  sending_cfg ← gets (fun s => sending (config (base s)));
  if sr_sn_in_seq c receivedPacket then
    if negb (bool_decide (current_state c = RASTA_CONNECTION_KEX_REQ)) &&
       ((kex_rekeying_interval_ms cfg =? 0) || negb (bool_decide (current_state c = RASTA_CONNECTION_UP)))
    then close_unexpected
    else if sr_cts_in_seq c sending_cfg receivedPacket then
      match kex_mode cfg with
      | KEX_NONE => close_unexpected
      | KEX_OPAQUE => answer_kex_request receivedPacket
      end
    else close_untimely
  else close_unexpected.

(* experimental/handlers.c:121-161 handle_kex_response *)
Definition answer_kex_response (receivedPacket : RastaPacket) : M kex_sys Z :=
  c ← get_conn;
  ret ← kex_recover_credential (p_data receivedPacket) (my_id c) (remote_id c) (sn_i c);
  if negb (ret =? 0) then _ ← close RASTA_DISC_REASON_UNEXPECTEDTYPE; mret 1
  else
    ctx ← gets (fun s => mux_context (base s));
    ts ← on_base cur_timestamp_now;
    k ← gets kex_state;
    response ← lift (opaque_createKexAuthentication (reply_ids c receivedPacket ts) ctx (user_auth_server k));
    _ ← on_base (redundancy_mux_send response (role c));
    _ ← on_base (setc (take_attrs_sent receivedPacket));
    _ ← on_base sr_remove_confirmed_messages;
    _ ← on_base (set_state RASTA_CONNECTION_UP);
    _ ← set_session_key;
    mret 1.

(* experimental/handlers.c handle_kex_response *)
Definition handle_kex_response (receivedPacket : RastaPacket) : M kex_sys Z :=
  c ← get_conn;
  cfg ← gets kex_config;
  sending_cfg ← gets (fun s => sending (config (base s)));
  if sr_sn_in_seq c receivedPacket then
    if negb (bool_decide (current_state c = RASTA_CONNECTION_KEX_RESP)) then close_unexpected
    else if sr_cts_in_seq c sending_cfg receivedPacket then
      match kex_mode cfg with
      | KEX_NONE => close_unexpected
      | KEX_OPAQUE => answer_kex_response receivedPacket
      end
    else close_untimely
  else close_unexpected.

(* experimental/handlers.c:203-232 handle_kex_auth *)
Definition accept_kex_auth (receivedPacket : RastaPacket) : M kex_sys Z :=
  k ← gets kex_state;
  if negb (kex_authenticate_user k (p_data receivedPacket) =? 0)
  then _ ← close RASTA_DISC_REASON_UNEXPECTEDTYPE; mret 1
  else
    _ ← on_base (setc (take_attrs receivedPacket));
    _ ← on_base sr_remove_confirmed_messages;
    _ ← on_base (set_state RASTA_CONNECTION_UP);
    mret 1.

(* experimental/handlers.c handle_kex_auth *)
Definition handle_kex_auth (receivedPacket : RastaPacket) : M kex_sys Z :=
  c ← get_conn;
  cfg ← gets kex_config;
  sending_cfg ← gets (fun s => sending (config (base s)));
  if sr_sn_in_seq c receivedPacket then
    if negb (bool_decide (current_state c = RASTA_CONNECTION_KEX_AUTH)) then close_unexpected
    else if sr_cts_in_seq c sending_cfg receivedPacket then
      match kex_mode cfg with
      | KEX_NONE => close_unexpected
      | KEX_OPAQUE => accept_kex_auth receivedPacket
      end
    else close_untimely
  else close_unexpected.

(** ** Starting an exchange *)

(** Half of the interval, to leave time for the exchange. *)
(* rasta_init.c init_send_key_exchange_event *)
Definition init_send_key_exchange_event (cfg : KexConfig) (e : timed_event) : timed_event :=
  e <| interval := u64 (kex_rekeying_interval_ms cfg * NS_PER_MS) / 2 |>.

Definition on_rekeying_event (f : timed_event -> world -> timed_event * world) : M kex_sys unit :=
  e ← gets rekeying_event;
  e ← on_base (on_world (f e));
  modify (fun s => s <| rekeying_event := e |>).

(* experimental/handlers.c send_KexRequest *)
Definition send_KexRequest : M kex_sys unit :=
  c ← get_conn;
  ctx ← gets (fun s => mux_context (base s));
  cfg ← gets kex_config;
  ts ← on_base cur_timestamp_now;
  hb ← createKexRequest (ids_at c ts) ctx (kex_psk cfg);
  k ← gets kex_state;
  _ ← when ((last_key_exchanged_millis k =? 0) && negb (kex_rekeying_interval_ms cfg =? 0))
    (_ ← modify (fun s => s <| rekeying_event ::= init_send_key_exchange_event cfg |>);
     on_rekeying_event enable_timed_event);
  _ ← on_base (redundancy_mux_send hb (role c));
  _ ← on_base next_sn;
  now ← get_ms;
  _ ← setk (fun k => k <| last_key_exchanged_millis := now |>);
  on_base (set_state RASTA_CONNECTION_KEX_RESP).

(** The timer does not look at the state of the connection. *)
(* transport/events.c:279-293 send_timed_key_exchange *)
Definition kex_send_timed_key_exchange : M kex_sys Z :=
  _ ← send_KexRequest; _ ← on_rekeying_event reschedule_event; mret 0.

(* rasta_init.c:56-61 init_connection_events *)
Definition kex_init_connection_events : M kex_sys unit :=
  c ← get_conn;
  cfg ← gets kex_config;
  when (bool_decide (role c = RASTA_ROLE_CLIENT) && negb (kex_rekeying_interval_ms cfg =? 0))
    (modify (fun s => s <| rekeying_event ::= init_send_key_exchange_event cfg |>)).

(** ** The safety layer of this build *)

(* experimental/key_exchange.h:18-18 REKEYING_ALLOWED_DELAY_MS *)
Definition REKEYING_ALLOWED_DELAY_MS : Z := 500.

(* safety_retransmission.c:534-554 sr_rekeying_skipped *)
Definition kex_sr_rekeying_skipped : M kex_sys bool :=
  c ← get_conn;
  cfg ← gets kex_config;
  k ← gets kex_state;
  if bool_decide (current_state c = RASTA_CONNECTION_KEX_REQ) then mret false
  else if negb (bool_decide (role c = RASTA_ROLE_SERVER)) then mret false
  else if (kex_rekeying_interval_ms cfg =? 0) || (last_key_exchanged_millis k =? 0) then mret false
  else
    current_time ← get_ms;
    mret (u64 (REKEYING_ALLOWED_DELAY_MS + kex_rekeying_interval_ms cfg) <? u64 (current_time - last_key_exchanged_millis k)).

(* retransmission/handlers.c:296-302 handle_hb *)
Definition kex_state_after_hb (m : KEX_MODE) : rasta_sr_state :=
  match m with KEX_NONE => RASTA_CONNECTION_UP | KEX_OPAQUE => RASTA_CONNECTION_KEX_REQ end.

(* retransmission/handlers.c handle_hb *)
Definition kex_handle_hb (receivedPacket : RastaPacket) : M kex_sys Z :=
  c ← get_conn;
  cfg ← gets kex_config;
  if bool_decide (current_state c = RASTA_CONNECTION_START)
  then on_base (handle_hb_start_in (kex_state_after_hb (kex_mode cfg)) receivedPacket)
  else on_base (handle_hb receivedPacket).

(* retransmission/handlers.c handle_received_packet *)
Definition kex_handle_received_packet (receivedPacket : RastaPacket) : M kex_sys Z :=
  let type := p_type receivedPacket in
  if type =? RASTA_TYPE_KEX_REQUEST then handle_kex_request receivedPacket
  else if type =? RASTA_TYPE_KEX_RESPONSE then handle_kex_response receivedPacket
  else if type =? RASTA_TYPE_KEX_AUTHENTICATION then handle_kex_auth receivedPacket
  else if type =? RASTA_TYPE_HB then kex_handle_hb receivedPacket
  else on_base (handle_received_packet receivedPacket).

(* safety_retransmission.c sr_init_connection *)
Definition forget_exchange : M kex_sys unit := setk (fun k => k <| last_key_exchanged_millis := 0 |>).

(* retransmission/handlers.c handle_conreq *)
Definition kex_handle_conreq (receivedPacket : RastaPacket) : M kex_sys unit :=
  c ← get_conn;
  _ ← when (is_closed (current_state c)) forget_exchange;
  on_base (handle_conreq receivedPacket).

(* retransmission/handlers.c:479-512 handle_conresp *)
Definition kex_complete_connection (receivedPacket : RastaPacket) (connectionData : RastaConnectionData) : M kex_sys unit :=
  _ ← on_base (confirm_connection receivedPacket);
  cfg ← gets kex_config;
  _ ← match kex_mode cfg with KEX_OPAQUE => send_KexRequest | KEX_NONE => mret tt end;
  on_base (start_session connectionData).

(* retransmission/handlers.c handle_conresp *)
Definition kex_handle_conresp (receivedPacket : RastaPacket) : M kex_sys unit :=
  s ← gets base;
  let c := conn s in
  if negb (sr_check_packet c (sending (config s)) receivedPacket) then close RASTA_DISC_REASON_PROTOCOLERROR
  else
    match current_state c, role c with
    | RASTA_CONNECTION_START, RASTA_ROLE_CLIENT =>
        connectionData ← on_base (with_factory_error (fun err => extractRastaConnectionData err receivedPacket));
        if version_accepted (config s) (cd_version connectionData)
        then kex_complete_connection receivedPacket connectionData
        else close RASTA_DISC_REASON_INCOMPATIBLEVERSION
    | RASTA_CONNECTION_START, RASTA_ROLE_SERVER => close RASTA_DISC_REASON_UNEXPECTEDTYPE
    | RASTA_CONNECTION_RETRREQ, _ | RASTA_CONNECTION_RETRRUN, _ | RASTA_CONNECTION_UP, _ =>
        close RASTA_DISC_REASON_UNEXPECTEDTYPE
    | _, _ => mret tt
    end.

(* safety_retransmission.c sr_receive *)
Definition kex_sr_receive (receivedPacket : RastaPacket) : M kex_sys Z :=
  if p_type receivedPacket =? RASTA_TYPE_CONNREQ then _ ← kex_handle_conreq receivedPacket; mret 0
  else if p_type receivedPacket =? RASTA_TYPE_CONNRESP then _ ← kex_handle_conresp receivedPacket; mret 1
  else if p_checksum_correct receivedPacket =? 0 then _ ← on_base (count_error count_safety); mret 0
  else
    s ← gets base;
    let c := conn s in
    let cfg := sending (config s) in
    if negb (sr_message_authentic c receivedPacket) then _ ← on_base (count_error count_address); mret 0
    else if negb (sr_sn_range_valid c cfg receivedPacket) then _ ← on_base (count_error count_sn); mret 0
    else if negb (sr_cs_valid c receivedPacket) then _ ← on_base (count_error count_cs); mret 0
    else
      skipped ← kex_sr_rekeying_skipped;
      if skipped : bool then _ ← close RASTA_DISC_REASON_TIMEOUT; mret 0
      else kex_handle_received_packet receivedPacket.

(* safety_retransmission.c sr_disconnect *)
Definition kex_sr_disconnect : M kex_sys unit :=
  _ ← on_base sr_disconnect;
  cfg ← gets kex_config;
  when (negb (kex_rekeying_interval_ms cfg =? 0)) (modify (fun s => s <| rekeying_event ::= disable_timed_event |>)).

End KexHandlers.
