(* ===== verification/KeyBlind.v ===== *)
(** * What does not depend on the session key

    The key exchange replaces the key of the multiplexer's hashing context; frames
    are built, and packets checked, with the context of the redundancy channel.  A
    computation is [Blind] if the key of the multiplexer makes no difference to its
    result, to what it sends and to the rest of the state: it commutes with
    [rekeyed].  The instances below go through everything that sends. *)

From stdpp Require Import base numbers list.
From Stdlib Require Import ZArith Lia.
From S2P Require Import Prelude.
From S2P Require Import Fifo.
From S2P Require Import Hashing.
From S2P Require Import Packet.
From S2P Require Import Factory.
From S2P Require Import World.
From S2P Require Import Config.
From S2P Require Import State.
From S2P Require Import Transport.
From S2P Require Import Redundancy.
From S2P Require Import Connection.
From S2P Require Import Retransmission.
From S2P Require Import KeyExchange.
From S2P Require Import KexHandlers.

Local Open Scope Z_scope.
Local Open Scope record_scope.

(** The instances are found by the name of the computation. *)
#[local] Hint Constants Opaque : typeclass_instances.

Definition veiled {A} (K : list Z) (r : res (A * sys)) : res (A * sys) :=
  match r with Ok (a, s) => Ok (a, rekeyed K s) | Fail e => Fail e end.

Class Blind {A} (m : M sys A) : Prop := blind : forall K s, m (rekeyed K s) = veiled K (m s).

(** A run of a blind computation with another key. *)
Lemma wp_blind {A} (m : M sys A) `{!Blind m} K Q s :
  wp m (fun a s' => Q a (rekeyed K s')) s -> wp m Q (rekeyed K s).
Proof. unfold wp. rewrite blind. by destruct (m s) as [[]|]. Qed.

Lemma rekeyed_twice K K' s : rekeyed K (rekeyed K' s) = rekeyed K s.
Proof. done. Qed.

#[export] Instance blind_ret {A} (a : A) : Blind (mret a).
Proof. done. Qed.
#[export] Instance blind_fail {A} e : Blind (A := A) (fail e).
Proof. done. Qed.
#[export] Instance blind_lift {A} (m : res A) : Blind (lift m).
Proof. intros K s. by destruct m. Qed.
#[export] Instance blind_bind {A B} (m : M sys A) (k : A -> M sys B) :
  Blind m -> (forall a, Blind (k a)) -> Blind (m ≫= k).
Proof. intros Hm Hk K s. unfold mbind, M_bind. rewrite Hm. destruct (m s) as [[a s']|]; [apply Hk|done]. Qed.
#[export] Instance blind_when b m : Blind m -> Blind (when b m).
Proof. intros Hm. by destruct b. Qed.
#[export] Instance blind_for_up n i (body : nat -> M sys unit) : (forall i, Blind (body i)) -> Blind (for_up n i body).
Proof. intros Hb. revert i. induction n as [|n IH]; intros i; cbn [for_up]; apply _. Qed.
#[export] Instance blind_world {A} (f : world -> A * world) : Blind (on_world f).
Proof. intros K s. unfold on_world. change (env (rekeyed K s)) with (env s). by destruct (f (env s)). Qed.
#[export] Instance blind_module_error {A} (f : rasta_error_type -> res (A * rasta_error_type)) : Blind (with_module_error f).
Proof.
  intros K s. unfold with_module_error. change (rastamodule_lasterror (rekeyed K s)) with (rastamodule_lasterror s).
  by destruct (f _) as [[]|].
Qed.

(** What is read must not be the key, what is written must leave it alone. *)
Lemma blind_gets {A} (f : sys -> A) : (forall K s, f (rekeyed K s) = f s) -> Blind (gets f).
Proof. intros Hf K s. unfold gets. cbn. by rewrite Hf. Qed.
Lemma blind_modify (f : sys -> sys) : (forall K s, f (rekeyed K s) = rekeyed K (f s)) -> Blind (modify f).
Proof. intros Hf K s. unfold modify. cbn. by rewrite Hf. Qed.
Lemma blind_gets_bind {A B} (f : sys -> A) (k : A -> M sys B) :
  (forall K s, k (f (rekeyed K s)) = k (f s)) -> (forall s, Blind (k (f s))) -> Blind (gets f ≫= k).
Proof.
  intros Hf Hk K s. change (k (f (rekeyed K s)) (rekeyed K s) = veiled K (k (f s) s)). rewrite Hf. apply Hk.
Qed.

(** The packets an endpoint builds depend on the hashing context by the length of
    the safety code alone. *)
Lemma initializePacket_key type i n h k : initializePacket type i n (h <| key := k |>) = initializePacket type i n h.
Proof. reflexivity. Qed.
Lemma disconnection_key i d h k : createDisconnectionRequest i d (h <| key := k |>) = createDisconnectionRequest i d h.
Proof. unfold createDisconnectionRequest. by rewrite initializePacket_key. Qed.

Lemma blind_context {B} (k : rasta_hashing_context_t -> M sys B) :
  (forall h K, k (h <| key := K |>) = k h) -> (forall h, Blind (k h)) -> Blind (gets mux_context ≫= k).
Proof.
  intros Hk Hb K s. change (k (mux_context (rekeyed K s)) (rekeyed K s) = veiled K (k (mux_context s) s)).
  change (mux_context (rekeyed K s)) with ((mux_context s) <| key := K |>). rewrite Hk. apply Hb.
Qed.

(** [blind]: goes through the definition of a computation. *)
Ltac blind_step :=
  lazymatch goal with
  | |- Blind (gets mux_context ≫= _) =>
      apply blind_context;
      [intros ? ?; unfold createHeartbeat, createRetransmissionRequest, createRetransmissionResponse;
       first [rewrite initializePacket_key|rewrite disconnection_key]; reflexivity|intros ?]
  | |- Blind (gets _ ≫= _) =>
      first [apply blind_bind; [apply blind_gets; reflexivity|intros ?]
            |apply blind_gets_bind; [reflexivity|intros ?; unfold Datatypes.id; cbv beta zeta]]
  | |- Blind (gets _) => apply blind_gets; reflexivity
  | |- Blind (getc _ ≫= _) => unfold getc
  | |- Blind (getc _) => unfold getc
  | |- Blind (modify _) => apply blind_modify; reflexivity
  | |- Blind (setc _) => apply blind_modify; reflexivity
  | |- Blind (setch _) => apply blind_modify; reflexivity
  | |- Blind (_ ≫= _) => apply blind_bind; [|intros ?]
  | |- Blind (when _ _) => apply blind_when
  | |- Blind (for_up _ _ _) => apply blind_for_up; intros ?
  | |- Blind (with_module_error _) => apply blind_module_error
  | |- Blind (on_world _) => apply blind_world
  | |- Blind (lift _) => apply blind_lift
  | |- Blind (mret _) => apply blind_ret
  | |- Blind (fail _) => apply blind_fail
  | |- Blind (if ?b then _ else _) => destruct b
  | |- Blind (match ?x with _ => _ end) => destruct x
  | |- Blind (let _ := _ in _) => cbv zeta
  | |- Blind _ => apply _
  end.
Ltac blind := repeat blind_step.

#[export] Instance blind_syscall c : Blind (syscall_now c).
Proof. unfold syscall_now. blind. Qed.
#[export] Instance blind_emit d : Blind (emit d).
Proof. unfold emit. blind. Qed.
#[export] Instance blind_timestamp : Blind cur_timestamp_now.
Proof. unfold cur_timestamp_now. blind. Qed.
#[export] Instance blind_channel_at i : Blind (channel_at i).
Proof. unfold channel_at. blind. Qed.
#[export] Instance blind_socket_at i : Blind (socket_at i).
Proof. unfold socket_at. blind. Qed.
#[export] Instance blind_set_channel i f : Blind (set_channel i f).
Proof. unfold set_channel. blind. Qed.
#[export] Instance blind_set_socket i f : Blind (set_socket i f).
Proof. unfold set_socket. blind. Qed.

(** ** The transports *)

Class TransportBlind `{Transport} : Prop := {
  blind_send_callback :: forall data i, Blind (send_callback data i);
  blind_redial :: forall i, Blind (transport_redial i);
  blind_close_channel :: forall i, Blind (transport_close_channel i)
}.

#[export] Instance blind_bsd_close fd : Blind (bsd_close fd).
Proof. unfold bsd_close. blind. Qed.
#[export] Instance blind_create_socket : Blind bsd_create_socket.
Proof. unfold bsd_create_socket. blind. Qed.

#[export] Instance udp_blind : @TransportBlind udp.
Proof.
  split; intros; cbn [udp send_callback transport_redial transport_close_channel].
  - unfold udp_send_callback, udp_send, bsd_send, host_port_to_sockaddr, bsd_send_sockaddr. blind.
  - unfold udp_transport_redial. blind.
  - unfold udp_transport_close_channel. blind.
Qed.

#[export] Instance blind_tcp_connect i : Blind (tcp_connect i).
Proof. unfold tcp_connect. blind. Qed.
#[export] Instance blind_tcp_transport_connect k i : Blind (tcp_transport_connect k i).
Proof. unfold tcp_transport_connect. blind. Qed.
#[export] Instance blind_tcp_bind i ip port : Blind (tcp_transport_bind i ip port).
Proof. unfold tcp_transport_bind, bsd_bind_device. blind. Qed.

#[export] Instance tcp_blind : @TransportBlind tcp.
Proof.
  split; intros; cbn [tcp send_callback transport_redial transport_close_channel].
  - unfold tcp_send_callback, tcp_send. blind.
  - unfold tcp_transport_redial. blind.
  - unfold tcp_transport_close_channel, tcp_close. blind.
Qed.

(** ** The layers above *)

#[export] Instance blind_on_event {A} (f : world -> A * world) set : Blind (on_event f set).
Proof. unfold on_event. blind. Qed.
#[export] Instance blind_reschedule_heartbeat : Blind reschedule_heartbeat.
Proof. unfold reschedule_heartbeat. blind. Qed.
#[export] Instance blind_next_sn : Blind next_sn.
Proof. unfold next_sn. blind. Qed.

Section Blindness.
Context `{TransportBlind}.

#[export] Instance blind_send_on data r i : Blind (send_on data r i).
Proof. unfold send_on. blind. Qed.
#[export] Instance blind_mux_send p r : Blind (redundancy_mux_send p r).
Proof. unfold redundancy_mux_send. blind. Qed.
#[export] Instance blind_channel_close : Blind redundancy_channel_close.
Proof. unfold redundancy_channel_close, close_channel. blind. Qed.

#[export] Instance blind_heartbeat b : Blind (sendHeartbeat b).
Proof. unfold sendHeartbeat. blind. Qed.
#[export] Instance blind_disconnection reason details : Blind (sendDisconnectionRequest reason details).
Proof. unfold sendDisconnectionRequest. blind. Qed.
#[export] Instance blind_retr_request : Blind sendRetransmissionRequest.
Proof. unfold sendRetransmissionRequest. blind. Qed.
#[export] Instance blind_retr_response : Blind sendRetransmissionResponse.
Proof. unfold sendRetransmissionResponse. blind. Qed.
#[export] Instance blind_close reason details : Blind (sr_close_connection reason details).
Proof. unfold sr_close_connection. blind. Qed.

(** Parsing with the context of the channel. *)
#[export] Instance blind_parse bytes : Blind (parse_packet bytes channel_context).
Proof. unfold parse_packet. blind. Qed.
#[export] Instance blind_serialise p : Blind (serialise_packet p channel_context).
Proof. unfold serialise_packet. blind. Qed.

#[export] Instance blind_remove_confirmed n : Blind (remove_confirmed_loop n).
Proof. induction n as [|n IH]; cbn [remove_confirmed_loop]; blind. Qed.
#[export] Instance blind_deliver message (U : UpperLayer) : (forall p, Blind (upper_receive p)) ->
  Blind (deliver_message_to_upper_layer message).
Proof. intros HU. unfold deliver_message_to_upper_layer. blind. Qed.
#[export] Instance blind_deliver_loop (U : UpperLayer) : (forall p, Blind (upper_receive p)) ->
  forall n r, Blind (deliver_loop n r).
Proof. intros HU n. induction n as [|n IH]; intros r; cbn [deliver_loop]; blind. Qed.
#[export] Instance blind_deliver_queue (U : UpperLayer) : (forall p, Blind (upper_receive p)) -> Blind red_f_deliverDeferQueue.
Proof. intros HU. unfold red_f_deliverDeferQueue. blind. Qed.

End Blindness.
