(* ===== verification/SessionKey.v ===== *)
(** * The session key

    The exchange between two endpoints: a request of the client, the response of
    the server and the authentication that follows leave both with the same session
    key and in step.  It needs the same initial sequence number on both sides, as
    both use their own as the context of the exchange.  What the key is used for is
    the subject of the last theorem. *)

From stdpp Require Import base numbers list.
From Stdlib Require Import ZArith Lia.
From S2P Require Import Prelude.
From S2P Require Import Fifo.
From S2P Require Import Crc.
From S2P Require Import Hashing.
From S2P Require Import Packet.
From S2P Require Import Factory.
From S2P Require Import World.
From S2P Require Import Config.
From S2P Require Import State.
From S2P Require Import Sample.
From S2P Require Import Transport.
From S2P Require Import Redundancy.
From S2P Require Import Connection.
From S2P Require Import Retransmission.
From S2P Require Import Handlers.
From S2P Require Import Session.
From S2P Require Import Events.
From S2P Require Import Peers.
From S2P Require Import KeyExchange.
From S2P Require Import KexHandlers.
From S2P Require Import KeyBlind.

Local Open Scope Z_scope.
Local Open Scope record_scope.

#[local] Hint Constants Opaque : typeclass_instances.

(** ** Runs of an endpoint whose base has some session key *)

(** [shade K s k cfg e n f]: the endpoint [s], were it not for the key [K]. *)
Abbreviation shade K s k cfg e n f := (mkKexSys (rekeyed K s) k cfg e n f).

Section Runs.
Context `{TransportOk} `{!TransportBlind} `{!Opaque} `{!OpaqueOk}.
Implicit Types (K : list Z) (s : sys) (k : key_exchange_state).

Lemma wp_on_base {A} (m : M sys A) `{!Blind m} K s k cfg e n f Q :
  wp m (fun a s' => Q a (shade K s' k cfg e n f)) s -> wp (on_base m) Q (shade K s k cfg e n f).
Proof. unfold wp, on_base. cbn. rewrite blind. by destruct (m s) as [[]|]. Qed.

Lemma wp_draw K s k cfg e n f (Q : nat -> kex_sys -> Prop) :
  Q n (shade K s k cfg e (Datatypes.S n) f) -> wp draw Q (shade K s k cfg e n f).
Proof. done. Qed.
Lemma wp_setk g K s k cfg e n f (Q : unit -> kex_sys -> Prop) :
  Q tt (shade K s (g k) cfg e n f) -> wp (setk g) Q (shade K s k cfg e n f).
Proof. done. Qed.

(** With room in the send queue nothing is sent, and the key does not matter. *)
Lemma wp_remove_shade K s k cfg e n f Q pks : sr_ok s -> unconfirmed (channel_context s) (conn s) pks ->
  queue_full (fifo_send (conn s)) = false ->
  (forall s', did s s' [] -> sr_ok s' ->
     conn s' = with_unconfirmed (channel_context s) (drop_confirmed (cs_r (conn s)) pks) (conn s) ->
     Q tt (shade K s' k cfg e n f)) ->
  wp (on_base sr_remove_confirmed_messages) Q (shade K s k cfg e n f).
Proof.
  intros S U Hfull HQ. unfold wp, on_base. cbn [base].
  set (fuel := Datatypes.S (length (q_items (fifo_retransmission (conn s))))).
  assert (L : wp (remove_confirmed_loop fuel) (fun _ s' => did s s' [] /\
    conn s' = with_unconfirmed (channel_context s) (drop_confirmed (cs_r (conn s)) pks) (conn s)) s).
  { apply (wp_remove_loop _ pks); [apply S|done|destruct U as [E _]; unfold fuel; rewrite E, length_fmap; lia|done]. }
  apply wp_ok in L as ([] & s' & E & D & C).
  assert (S' : sr_ok s').
  { eapply did_sr; [exact S|exact D|by rewrite C|]. rewrite C. apply drop_confirmed_ok; [apply S|done]. }
  assert (ER : sr_remove_confirmed_messages (rekeyed K s) = Ok (tt, rekeyed K s')).
  { unfold sr_remove_confirmed_messages. erewrite run_ok by done.
    change (length (q_items (fifo_retransmission (conn (rekeyed K s))))) with (length (q_items (fifo_retransmission (conn s)))).
    fold fuel. erewrite run_ok; [|rewrite blind, E; done]. erewrite run_ok by done.
    change (fifo_send (conn (rekeyed K s'))) with (fifo_send (conn s')). rewrite C. cbn. by rewrite Hfull. }
  rewrite ER. by apply HQ.
Qed.

(** The packets with a payload of fixed length. *)
Lemma packet_with_ok type i len bytes h K : zlen bytes = len -> 0 <= len <= 512 ->
  exists p, packet_with type i len bytes (h <| key := K |>) = Ok p /\ built h type i bytes p.
Proof.
  intros Hl Hb. pose proof (checksum_len_range h). unfold packet_with. rewrite initializePacket_key.
  assert (B : built h type i (zeros len) (initializePacket type i len h)) by (apply initializePacket_built; lia).
  exists ((initializePacket type i len h) <| p_data := bytes |>). split.
  - cbv zeta. rewrite (built_data _ _ _ _ _ B). rewrite write_at_all by (by rewrite zlen_zeros by lia). done.
  - eapply built_with_data; [exact B|]. by rewrite Hl, zlen_zeros by lia.
Qed.

(** A packet of the exchange as [redundancy_mux_send] takes it. *)
Lemma wp_send_shade K s k cfg e n f Q type i data pk r : link_ok s -> role_ok s r ->
  built (channel_context s) type i data pk -> ids_ok i -> is_u16 type -> bytes_ok data -> zlen data <= 512 ->
  type <> RASTA_TYPE_DATA -> type <> RASTA_TYPE_RETRDATA ->
  (forall s', did s s' [pk] -> conn s' = conn s -> Q tt (shade K s' k cfg e n f)) ->
  wp (on_base (redundancy_mux_send pk r)) Q (shade K s k cfg e n f).
Proof.
  intros L R B Hi Ht Hd Hl N1 N2 HQ. apply wp_on_base; [apply _|]. apply wp_mux_send; [done|done| |done].
  eapply built_sendable; [done|exact B|done|done|done|unfold PAYLOAD_MAX; lia|by intros [?|?]].
Qed.

Lemma wp_mlock K s k cfg e n f Q : (forall i, outcome (env s) i SysMlock = 0) ->
  (forall s', did s s' [] -> conn s' = conn s -> Q 0 (shade K s' k cfg e n f)) ->
  wp (on_base (syscall_now SysMlock)) Q (shade K s k cfg e n f).
Proof.
  intros Hm HQ. apply wp_on_base; [apply _|]. apply wp_syscall. rewrite Hm.
  apply HQ; [|done]. split; [|done]. apply sent_nil; [|done..]. apply net_lower; [apply net_frame_call|done].
Qed.

Lemma wp_get_ms K s k cfg e n f Q :
  (forall now s', did s s' [] -> conn s' = conn s -> Q now (shade K s' k cfg e n f)) ->
  wp get_ms Q (shade K s k cfg e n f).
Proof.
  intros HQ. unfold get_ms. apply wp_on_base; [apply _|]. unfold wp, on_world, get_current_time_ms, read_clock.
  apply HQ; [apply did_tick|done].
Qed.

(** ** The three steps *)

(** The connection after a packet of the exchange was taken and answered by
    [answers] packets. *)
Record exchanged (p : RastaPacket) (st : rasta_sr_state) (answers : Z) (c c' : rasta_connection) : Prop := {
  ex_state : current_state c' = st;
  ex_role : role c' = role c;
  ex_remote : remote_id c' = remote_id c;
  ex_my : my_id c' = my_id c;
  ex_sn_i : sn_i c' = sn_i c;
  ex_sn_t : sn_t c' = u32 (sn_t c + answers);
  ex_sn_r : sn_r c' = u32 (p_sequence_number p + 1);
  ex_cs_t : cs_t c' = p_sequence_number p;
  ex_cs_r : cs_r c' = p_confirmed_sequence_number p;
  ex_ts_r : ts_r c' = p_timestamp p;
  ex_send : fifo_send c' = fifo_send c
}.

Lemma attrs_sent_safe p : packet_fields p -> safe_update (take_attrs_sent p).
Proof. intros []. unfold take_attrs_sent, take_attrs. safe_update. Qed.
Lemma take_attrs_safe p : packet_fields p -> safe_update (take_attrs p).
Proof. intros []. unfold take_attrs. safe_update. Qed.

(** Attributes, confirmation and new state, at the end of each step. *)
Lemma wp_settle K s k cfg e n f Q g p st answers (m : M kex_sys Z) : sr_ok s -> safe_update g ->
  exchanged p (current_state (conn s)) answers (conn s) (g (conn s)) -> queue_full (fifo_send (conn s)) = false ->
  (forall s', did s s' [] -> sr_ok s' -> exchanged p st answers (conn s) (conn s') -> wp m Q (shade K s' k cfg e n f)) ->
  wp (_ ← on_base (setc g); _ ← on_base sr_remove_confirmed_messages; _ ← on_base (set_state st); m) Q
    (shade K s k cfg e n f).
Proof.
  intros S Hg He Hfull HQ. apply wp_bind, wp_on_base; [apply blind_modify; reflexivity|]. apply wp_modify.
  set (s1 := s <| conn ::= g |>). assert (D1 : did s s1 []) by apply did_conn.
  assert (S1 : sr_ok s1) by (by eapply sr_ok_update). pose proof He as X.
  destruct (co_retr _ _ _ (ok_conn _ S1)) as [pks U].
  apply wp_bind, (wp_remove_shade K s1 _ _ _ _ _ _ pks S1 U).
  { unfold s1. fields. by rewrite (ex_send _ _ _ _ _ X). }
  intros s2 D2 S2 C2. apply wp_bind, wp_on_base; [apply blind_modify; reflexivity|]. apply wp_modify.
  set (s3 := s2 <| conn ::= _ |>). apply HQ.
  - eapply did_after; [exact D1|]. eapply did_after; [exact D2|]. apply did_conn.
  - eapply sr_ok_update; [exact S2|apply did_conn|reflexivity|apply set_state_safe].
  - unfold s3. fields. rewrite C2. unfold s1, with_unconfirmed. destruct X. by split; fields.
Qed.

(** The length of a session key. *)
Definition is_key (K : list Z) : Prop := zlen K = OPAQUE_SHARED_SECRETBYTES.

Lemma wp_set_key K s k cfg e n f Q : is_key (session_key k) -> Q tt (shade (session_key k) s k cfg e n f) ->
  wp set_session_key Q (shade K s k cfg e n f).
Proof.
  intros Hk HQ. unfold set_session_key. apply wp_bind, wp_gets, wp_bind, wp_gets, wp_bind, wp_lift.
  cbn [kex_state base]. eexists. split; [|exact HQ]. unfold rasta_set_hash_key_variable. by rewrite read_all.
Qed.

Lemma mux_shade K s : link_ok s -> mux_context (rekeyed K s) = (channel_context s) <| key := K |>.
Proof. intros L. rewrite <- (lk_mux _ L). done. Qed.

(** The request of the client. *)
Definition requesting (psk : list Z) (n : nat) (k : key_exchange_state) : key_exchange_state :=
  let m := opaque_CreateCredentialRequest n psk in
  k <| password_length := zlen psk |> <| client_secret := Some m.2.1 |> <| client_public := m.2.2 |>.

Lemma wp_createKexRequest K s k cfg e n f Q i h psk : (forall j, outcome (env s) j SysMlock = 0) ->
  (forall pk s', built h RASTA_TYPE_KEX_REQUEST i (opaque_CreateCredentialRequest n psk).2.2 pk ->
     did s s' [] -> conn s' = conn s -> Q pk (shade K s' (requesting psk n k) cfg e (Datatypes.S n) f)) ->
  wp (createKexRequest i (h <| key := K |>) psk) Q (shade K s k cfg e n f).
Proof.
  intros Hm HQ. destruct opaque_sizes as (P & _). destruct (opaque_request n psk) as (R0 & R1 & R2 & R3).
  unfold createKexRequest, key_exchange_prepare_credential_request.
  apply wp_bind, wp_bind, wp_mlock; [done|]. intros s1 D1 C1. cbn [Z.eqb negb].
  apply wp_bind, wp_setk, wp_bind, wp_draw. revert R0 R2 HQ. unfold requesting.
  destruct (opaque_CreateCredentialRequest n psk) as [ret [sec pub]]. cbn [fst snd]. intros -> R2 HQ.
  apply wp_bind, wp_setk, wp_ret. cbn [Z.eqb negb]. apply wp_bind, wp_gets, wp_lift.
  destruct (packet_with_ok RASTA_TYPE_KEX_REQUEST i OPAQUE_USER_SESSION_PUBLIC_LEN pub h K R2 P) as (pk & E & B).
  exists pk. split; [exact E|]. by apply HQ.
Qed.

Lemma wp_start_rekeying K s k cfg e n f (Q : unit -> kex_sys -> Prop) :
  (forall e' s', did s s' [] -> conn s' = conn s -> Q tt (shade K s' k cfg e' n f)) ->
  wp (when ((last_key_exchanged_millis k =? 0) && negb (kex_rekeying_interval_ms cfg =? 0))
    (_ ← modify (fun x => x <| rekeying_event ::= init_send_key_exchange_event cfg |>);
     on_rekeying_event enable_timed_event)) Q (shade K s k cfg e n f).
Proof.
  intros HQ. unfold when. case_if; [|by apply wp_ret, HQ; [apply did_refl|]].
  apply wp_bind, wp_modify. unfold on_rekeying_event. apply wp_bind, wp_gets, wp_bind.
  apply wp_on_base; [apply _|]. unfold wp, on_world, enable_timed_event, reschedule_event, get_nanotime, read_clock.
  apply HQ; [apply did_tick|done].
Qed.

Definition asked_kex (c : rasta_connection) : rasta_connection :=
  c <| sn_t := u32 (sn_t c + 1) |> <| current_state := RASTA_CONNECTION_KEX_RESP |>.

Lemma wp_send_KexRequest K s k cfg e n f Q : sr_ok s -> (forall i, outcome (env s) i SysMlock = 0) ->
  (forall ts pk k' e' s', is_u32 ts -> let m := opaque_CreateCredentialRequest n (kex_psk cfg) in
     built (channel_context s) RASTA_TYPE_KEX_REQUEST (ids_at (conn s) ts) m.2.2 pk ->
     client_secret k' = Some m.2.1 -> did s s' [pk] -> conn s' = asked_kex (conn s) -> sr_ok s' ->
     Q tt (shade K s' k' cfg e' (Datatypes.S n) f)) ->
  wp send_KexRequest Q (shade K s k cfg e n f).
Proof.
  intros S Hm HQ. destruct opaque_sizes as (P & _). destruct (opaque_request n (kex_psk cfg)) as (_ & _ & R2 & R3).
  unfold send_KexRequest, get_conn. do 3 (apply wp_bind, wp_gets). cbn [base kex_config].
  apply wp_bind, wp_on_base; [apply _|]. apply wp_now. intros ts s1 Hts D1 C1.
  assert (S1 : sr_ok s1) by (eapply (sr_ok_update _ _ _ (fun c => c)); [exact S|exact D1|exact C1|apply id_safe]).
  pose proof (did_frame _ _ _ D1) as F1. rewrite mux_shade by apply S.
  apply wp_bind, wp_createKexRequest; [intros j; by rewrite (lf_outcome _ _ F1)|]. intros pk s2 B D2 C2.
  pose proof (did_after _ _ _ _ D1 D2) as D12. rewrite C1 in C2. clear s1 S1 F1 D1 D2 C1.
  assert (S2 : sr_ok s2) by (eapply (sr_ok_update _ _ _ (fun c => c)); [exact S|exact D12|exact C2|apply id_safe]).
  apply wp_bind, wp_gets. cbn [kex_state]. apply wp_bind.
  apply wp_start_rekeying. intros e' s3 D3 C3. pose proof (did_after _ _ _ _ D12 D3) as D23. rewrite C2 in C3.
  clear s2 D12 C2 S2 D3. rename D23 into D3.
  assert (S3 : sr_ok s3) by (eapply (sr_ok_update _ _ _ (fun c => c)); [exact S|exact D3|exact C3|apply id_safe]).
  rewrite <- (did_context _ _ _ D3) in B. apply wp_bind. eapply wp_send_shade; [apply S3| |exact B|by eapply conn_ok_ids; [apply S|]|split; zle|done|lia|done|done|].
  { change (role (conn (rekeyed K s))) with (role (conn s)). rewrite <- C3. apply S3. }
  intros s4 D4 C4. apply wp_bind, wp_on_base; [apply _|]. apply wp_modify, wp_bind, wp_get_ms. intros now s5 D5 C5.
  apply wp_bind, wp_setk, wp_on_base; [apply blind_modify; reflexivity|]. apply wp_modify.
  set (s6 := s5 <| conn ::= _ |>).
  assert (D6 : did s s6 [pk]).
  { eapply did_after; [exact D3|]. eapply did_then; [exact D4|]. eapply did_after; [apply did_conn|].
    eapply did_after; [exact D5|apply did_conn]. }
  assert (C6 : conn s6 = asked_kex (conn s)) by (unfold s6; fields; rewrite C5; fields; by rewrite C4, C3).
  rewrite (did_context _ _ _ D3) in B.
  eapply (HQ ts pk); [done|exact B|done|done|done|].
  eapply sr_ok_update; [exact S|exact D6|exact C6|]. unfold asked_kex. safe_update.
Qed.

(** The response of the server, who has the password [pw] or a record of it. *)
Definition has_password (cfg : KexConfig) (pw : list Z) (ids : Opaque_Ids) : Prop :=
  if has_psk_record cfg then registered pw ids (psk_record cfg) else kex_psk cfg = pw.

Definition server_ids (c : rasta_connection) : Opaque_Ids :=
  rasta_ids_to_opaque_ids (htobe32 (my_id c)) (htobe32 (remote_id c)).
Definition client_ids (c : rasta_connection) : Opaque_Ids :=
  rasta_ids_to_opaque_ids (htobe32 (remote_id c)) (htobe32 (my_id c)).

(** What a server has after its response [m]. *)
Definition responding (m : list Z * list Z * list Z) (k : key_exchange_state) : Prop :=
  certificate_response k = m.1.1 /\ session_key k = m.1.2 /\ user_auth_server k = m.2.

Lemma wp_createKexResponse K s k cfg e n f Q i h pw pub isn :
  let ids := rasta_ids_to_opaque_ids (htobe32 (i_sender i)) (htobe32 (i_receiver i)) in
  has_password cfg pw ids -> zlen pub = OPAQUE_USER_SESSION_PUBLIC_LEN ->
  (forall rec r pk k' n', registered pw ids rec ->
     let m := (opaque_CreateCredentialResponse r pub rec ids (htobe32 isn)).2 in
     built h RASTA_TYPE_KEX_RESPONSE i m.1.1 pk -> responding m k' -> Q pk (shade K s k' cfg e n' f)) ->
  wp (createKexResponse i (h <| key := K |>) cfg pub isn) Q (shade K s k cfg e n f).
Proof.
  intros ids Hpw Hpub HQ. destruct opaque_sizes as (_ & P & _). unfold createKexResponse.
  assert (Hrest : forall rec k1 n1, registered pw ids rec -> user_record k1 = rec ->
    wp (ret ← kex_prepare_credential_response pub (i_sender i) (i_receiver i) isn;
        if negb (ret =? 0) then fail AbortCalled
        else k ← gets kex_state;
          lift (packet_with RASTA_TYPE_KEX_RESPONSE i OPAQUE_SERVER_SESSION_LEN (certificate_response k) (h <| key := K |>)))
      Q (shade K s k1 cfg e n1 f)).
  { intros rec k1 n1 Hrec Hk1. unfold kex_prepare_credential_response. fold ids. rewrite Hpub, Z.eqb_refl. cbn [negb].
    apply wp_bind, wp_bind, wp_gets, wp_bind, wp_draw. cbn [kex_state]. rewrite Hk1.
    destruct (opaque_response n1 pub rec ids (htobe32 isn)) as (E0 & R1 & R2 & _).
    specialize (HQ rec n1). revert E0 R1 R2 HQ.
    destruct (opaque_CreateCredentialResponse n1 pub rec ids (htobe32 isn)) as [ret [[resp sk] auth]].
    cbn [fst snd]. intros -> R1 R2 HQ. apply wp_bind, wp_setk, wp_ret. cbn [Z.eqb negb]. apply wp_bind, wp_gets, wp_lift.
    destruct (packet_with_ok RASTA_TYPE_KEX_RESPONSE i OPAQUE_SERVER_SESSION_LEN resp h K R1 P) as (pk & E & B).
    exists pk. split; [exact E|]. by apply HQ. }
  apply wp_bind. unfold has_password in Hpw. destruct (has_psk_record cfg).
  - apply wp_bind, wp_setk, wp_ret. cbn [Z.eqb negb]. rewrite Hpub, Z.eqb_refl. cbn [negb]. by apply (Hrest (psk_record cfg)).
  - unfold key_exchange_prepare_from_psk. fold ids. apply wp_bind, wp_draw.
    destruct (opaque_register n (kex_psk cfg) ids) as [E0 _].
    destruct (opaque_Register n (kex_psk cfg) ids) as [ret rec] eqn:Er. cbn in E0. subst ret.
    apply wp_bind, wp_setk, wp_ret. cbn [Z.eqb negb]. rewrite Hpub, Z.eqb_refl. cbn [negb].
    apply (Hrest rec); [|done]. exists n. by rewrite <- Hpw, Er.
Qed.

Lemma wp_answer_request K s k cfg e n f Q p pw : sr_ok s -> packet_fields p ->
  has_password cfg pw (server_ids (conn s)) -> zlen (p_data p) = OPAQUE_USER_SESSION_PUBLIC_LEN ->
  queue_full (fifo_send (conn s)) = false ->
  (forall rec r ts pk k' n' s', registered pw (server_ids (conn s)) rec -> is_u32 ts ->
     let m := (opaque_CreateCredentialResponse r (p_data p) rec (server_ids (conn s)) (htobe32 (sn_i (conn s)))).2 in
     built (channel_context s) RASTA_TYPE_KEX_RESPONSE (reply_ids (conn s) p ts) m.1.1 pk -> responding m k' ->
     did s s' [pk] -> exchanged p RASTA_CONNECTION_KEX_AUTH 1 (conn s) (conn s') -> sr_ok s' ->
     Q 0 (shade (session_key k') s' k' cfg e n' f)) ->
  wp (answer_kex_request p) Q (shade K s k cfg e n f).
Proof.
  intros S Hp Hpw Hpub Hfull HQ. destruct opaque_sizes as (_ & P & _).
  unfold answer_kex_request, get_conn. apply wp_bind, wp_get_ms. intros now s1 D1 C1.
  apply wp_bind, wp_setk. do 3 (apply wp_bind, wp_gets). cbn [base kex_config].
  apply wp_bind, wp_on_base; [apply _|]. apply wp_now. intros ts s2 Hts D2 C2.
  pose proof (did_after _ _ _ _ D1 D2) as D. rewrite C1 in C2.
  assert (S1 : sr_ok s1) by (eapply (sr_ok_update _ _ _ (fun c => c)); [exact S|exact D1|exact C1|apply id_safe]).
  assert (S2 : sr_ok s2) by (eapply (sr_ok_update _ _ _ (fun c => c)); [exact S|exact D|exact C2|apply id_safe]).
  rewrite mux_shade, (did_context _ _ _ D1) by apply S1. change (conn (rekeyed K s1)) with (conn s1). rewrite C1.
  apply wp_bind, (wp_createKexResponse _ _ _ _ _ _ _ _ _ _ pw); [done|done|].
  intros rec r pk k' n' Hrec. cbv zeta. change (rasta_ids_to_opaque_ids _ _) with (server_ids (conn s)) in *.
  destruct (opaque_response r (p_data p) rec (server_ids (conn s)) (htobe32 (sn_i (conn s)))) as (_ & R1 & R2 & R3 & _).
  specialize (HQ rec r ts pk k' n'). revert R1 R2 R3 HQ.
  generalize (opaque_CreateCredentialResponse r (p_data p) rec (server_ids (conn s)) (htobe32 (sn_i (conn s)))).2. intros m R1 R2 R3 HQ B Hk.
  assert (B' : built (channel_context s2) RASTA_TYPE_KEX_RESPONSE (reply_ids (conn s) p ts) m.1.1 pk) by (by rewrite (did_context _ _ _ D)).
  apply wp_bind. eapply wp_send_shade; [apply S2|rewrite <- C2; apply S2|exact B'| |split; zle|done|lia|done|done|].
  { destruct (ok_conn _ S), Hp. by split. }
  intros s3 D3 C3. rewrite C2 in C3. pose proof (did_after _ _ _ _ D D3) as D'.
  assert (S3 : sr_ok s3) by (eapply (sr_ok_update _ _ _ (fun c => c)); [exact S|exact D'|exact C3|apply id_safe]).
  apply (wp_settle _ _ _ _ _ _ _ _ _ p _ 1); [done|by apply attrs_sent_safe| |by rewrite C3|].
  { unfold take_attrs_sent, take_attrs. by split; fields. }
  intros s4 D4 S4 X. rewrite C3 in X. apply wp_bind, wp_set_key.
  - destruct Hk as (_ & -> & _). exact R3.
  - apply wp_ret, (HQ s4); [done|done|done|done|by eapply did_then|done|done].
Qed.

(** The client reads the response: with its key, or it closes the connection. *)
Lemma wp_recover K s k cfg e n f Q resp sec c : client_secret k = Some sec -> zlen resp = OPAQUE_SERVER_SESSION_LEN ->
  (forall f' s', did s s' [] -> conn s' = conn s ->
     let m := opaque_RecoverCredentials resp sec (htobe32 (sn_i c)) (client_ids c) in
     Q m.1 (shade K s' (k <| session_key := m.2.1 |> <| user_auth_server := m.2.2 |> <| client_secret := None |>) cfg e n f')) ->
  wp (kex_recover_credential resp (my_id c) (remote_id c) (sn_i c)) Q (shade K s k cfg e n f).
Proof.
  intros Hsec Hl HQ. unfold kex_recover_credential. rewrite Hl, Z.eqb_refl. cbn [negb].
  apply wp_bind, wp_gets. cbn [kex_state]. rewrite Hsec. fold (client_ids c). revert HQ.
  destruct (opaque_RecoverCredentials resp sec (htobe32 (sn_i c)) (client_ids c)) as [ret [sk auth]]. cbn [fst snd]. intros HQ.
  apply wp_bind, wp_setk, wp_bind, wp_on_base; [apply _|]. apply wp_syscall.
  apply wp_bind, wp_modify, wp_bind, wp_setk, wp_ret. apply HQ; [|done].
  split; [|done]. apply sent_nil; [|done..]. apply net_lower; [apply net_frame_call|done].
Qed.

Lemma wp_answer_response K s k cfg e n f Q p sec : sr_ok s -> packet_fields p -> client_secret k = Some sec ->
  zlen (p_data p) = OPAQUE_SERVER_SESSION_LEN -> queue_full (fifo_send (conn s)) = false ->
  let m := opaque_RecoverCredentials (p_data p) sec (htobe32 (sn_i (conn s))) (client_ids (conn s)) in
  (m.1 = 0 -> forall ts pk k' f' s', is_u32 ts ->
     built (channel_context s) RASTA_TYPE_KEX_AUTHENTICATION (reply_ids (conn s) p ts) m.2.2 pk ->
     session_key k' = m.2.1 -> client_secret k' = None -> did s s' [pk] ->
     exchanged p RASTA_CONNECTION_UP 1 (conn s) (conn s') -> sr_ok s' -> Q 1 (shade m.2.1 s' k' cfg e n f')) ->
  (m.1 <> 0 -> forall k' f' s' out, sent s s' out ->
     farewell (channel_context s) (conn s) RASTA_DISC_REASON_UNEXPECTEDTYPE 0 out ->
     conn s' = sr_reset_connection (conn s) -> sr_ok s' -> Q 1 (shade K s' k' cfg e n f')) ->
  wp (answer_kex_response p) Q (shade K s k cfg e n f).
Proof.
  intros S Hp Hsec Hl Hfull m HQ HQ'. destruct opaque_sizes as (_ & _ & P & _).
  destruct (opaque_recover (p_data p) sec (htobe32 (sn_i (conn s))) (client_ids (conn s))) as (R1 & R2 & R3).
  unfold answer_kex_response, get_conn. apply wp_bind, wp_gets. cbn [base]. change (conn (rekeyed K s)) with (conn s).
  apply wp_bind, (wp_recover _ _ _ _ _ _ _ _ _ sec); [done|done|]. intros f' s1 D1 C1. fold m in R1, R2, R3 |- *.
  cbv zeta. clearbody m.
  assert (S1 : sr_ok s1) by (eapply (sr_ok_update _ _ _ (fun c => c)); [exact S|exact D1|exact C1|apply id_safe]).
  destruct (Z.eqb_spec m.1 0) as [E|E]; cbn [negb].
  2:{ apply wp_bind. unfold close. apply wp_on_base; [apply _|]. apply wp_close_connection; [done|].
      intros s2 out D2 W C2 S2. apply wp_ret. rewrite (did_context _ _ _ D1), C1 in W. rewrite C1 in C2.
      apply (HQ' E _ _ s2 out); [by apply (did_sent_trans _ s1 _ [])|done|done|done]. }
  specialize (HQ E). apply wp_bind, wp_gets. cbn [base]. apply wp_bind, wp_on_base; [apply _|]. apply wp_now. intros ts s2 Hts D2 C2.
  pose proof (did_after _ _ _ _ D1 D2) as D. rewrite C1 in C2.
  assert (S2 : sr_ok s2) by (eapply (sr_ok_update _ _ _ (fun c => c)); [exact S|exact D|exact C2|apply id_safe]).
  rewrite mux_shade, (did_context _ _ _ D1) by apply S1.
  apply wp_bind, wp_gets, wp_bind, wp_lift. cbn [kex_state]. unfold opaque_createKexAuthentication. fields. rewrite R2.
  destruct (packet_with_ok RASTA_TYPE_KEX_AUTHENTICATION (reply_ids (conn s) p ts) _ m.2.2 (channel_context s) K R2 P) as (pk & Epk & B).
  exists pk. split; [exact Epk|].
  assert (B' : built (channel_context s2) RASTA_TYPE_KEX_AUTHENTICATION (reply_ids (conn s) p ts) m.2.2 pk) by (by rewrite (did_context _ _ _ D)).
  apply wp_bind. eapply wp_send_shade; [apply S2|rewrite <- C2; apply S2|exact B'| |split; zle|done|lia|done|done|].
  { destruct (ok_conn _ S), Hp. by split. }
  intros s3 D3 C3. rewrite C2 in C3. pose proof (did_after _ _ _ _ D D3) as D'.
  assert (S3 : sr_ok s3) by (eapply (sr_ok_update _ _ _ (fun c => c)); [exact S|exact D'|exact C3|apply id_safe]).
  apply (wp_settle _ _ _ _ _ _ _ _ _ p _ 1); [done|by apply attrs_sent_safe| |by rewrite C3|].
  { unfold take_attrs_sent, take_attrs. by split; fields. }
  intros s4 D4 S4 X. rewrite C3 in X. apply wp_bind, wp_set_key; [exact R1|].
  apply wp_ret, (HQ ts pk _ f' s4); [done|exact B|done|done|by eapply did_then|done|done].
Qed.

(** The server accepts the user. *)
Lemma wp_accept_auth K s k cfg e n f Q p : sr_ok s -> packet_fields p -> zlen (p_data p) = crypto_auth_hmacsha512_BYTES ->
  opaque_UserAuth (user_auth_server k) (p_data p) = 0 -> queue_full (fifo_send (conn s)) = false ->
  (forall s', did s s' [] -> exchanged p RASTA_CONNECTION_UP 0 (conn s) (conn s') -> sr_ok s' -> Q 1 (shade K s' k cfg e n f)) ->
  wp (accept_kex_auth p) Q (shade K s k cfg e n f).
Proof.
  intros S Hp Hl Ha Hfull HQ. unfold accept_kex_auth. apply wp_bind, wp_gets. cbn [kex_state].
  unfold kex_authenticate_user. rewrite Hl, Z.eqb_refl. cbn [negb]. rewrite Ha. cbn [Z.eqb negb].
  apply (wp_settle _ _ _ _ _ _ _ _ _ p _ 0); [done|by apply take_attrs_safe| |done|].
  { unfold take_attrs. split; fields; try done. rewrite Z.add_0_r. symmetry. apply u32_small, (ok_conn _ S). }
  intros s' D S' X. by apply wp_ret, HQ.
Qed.

(** ** The dispatch *)

(** The check for an exchange that was skipped strikes. *)
Definition late (x : kex_sys) : bool :=
  match kex_sr_rekeying_skipped x with Ok (b, _) => b | Fail _ => true end.

Lemma wp_not_late K s k cfg e n f (Q : bool -> kex_sys -> Prop) : late (shade K s k cfg e n f) = false ->
  (forall s', did s s' [] -> conn s' = conn s -> Q false (shade K s' k cfg e n f)) ->
  wp kex_sr_rekeying_skipped Q (shade K s k cfg e n f).
Proof.
  intros Hl HQ. revert Hl. unfold late.
  assert (W : wp kex_sr_rekeying_skipped (fun b x => exists s', did s s' [] /\ conn s' = conn s /\ x = shade K s' k cfg e n f)
    (shade K s k cfg e n f)).
  { assert (Hs : exists s', did s s' [] /\ conn s' = conn s /\ shade K s k cfg e n f = shade K s' k cfg e n f)
      by (exists s; split; [apply did_refl|done]).
    unfold kex_sr_rekeying_skipped, get_conn. do 3 (apply wp_bind, wp_gets).
    do 3 (case_if; [by apply wp_ret|]). apply wp_bind, wp_get_ms. intros now s' D C. apply wp_ret. by exists s'. }
  apply wp_ok in W as (b & x & E & s' & D & C & ->). rewrite E. intros ->. unfold wp. rewrite E. by apply HQ.
Qed.

(** The packets of the exchange, as the peer sees them, pass all checks. *)
Lemma wp_kex_gate K s k cfg e n f Q type i data p : sr_ok s -> seen type i data p -> ids_ok i ->
  type = RASTA_TYPE_KEX_REQUEST \/ type = RASTA_TYPE_KEX_RESPONSE \/ type = RASTA_TYPE_KEX_AUTHENTICATION ->
  i_sender i = remote_id (conn s) -> i_receiver i = my_id (conn s) -> i_sn i = sn_r (conn s) ->
  cs_r (conn s) <= i_cs i < sn_t (conn s) -> late (shade K s k cfg e n f) = false ->
  (forall s', did s s' [] -> conn s' = conn s -> sr_ok s' -> sr_sn_in_seq (conn s') p = true ->
     sr_cts_in_seq (conn s') (sending (config s')) p = true -> wp (kex_handle_received_packet p) Q (shade K s' k cfg e n f)) ->
  wp (kex_sr_receive p) Q (shade K s k cfg e n f).
Proof.
  intros S P Hi Ht Hs Hr Hsn Hcs Hl HQ. destruct (ok_conn _ S). destruct (cf_send_max _ (ok_config _ S)) as [M0 _].
  assert (T : forall types, existsb (Z.eqb type) types = false -> is_type p types = false)
    by (intros types Hty; unfold is_type; by rewrite (sn_type _ _ _ _ P)).
  assert (Hno : forall t, t = RASTA_TYPE_CONNREQ \/ t = RASTA_TYPE_CONNRESP -> (p_type p =? t) = false).
  { intros t Htt. rewrite (sn_type _ _ _ _ P). by destruct Ht as [-> | [-> | ->]], Htt as [-> | ->]. }
  unfold kex_sr_receive. rewrite !Hno, (sn_good _ _ _ _ P) by auto. cbn [Z.eqb].
  apply wp_bind, wp_gets. cbn [base]. change (conn (rekeyed K s)) with (conn s). change (config (rekeyed K s)) with (config s).
  assert (Hau : sr_message_authentic (conn s) p = true).
  { unfold sr_message_authentic. by rewrite (sn_sender _ _ _ _ P), (sn_receiver _ _ _ _ P), Hs, Hr, !Z.eqb_refl. }
  assert (Hrange : sr_sn_range_valid (conn s) (sending (config s)) p = true).
  { unfold sr_sn_range_valid. case_if; [done|]. rewrite (sn_sn _ _ _ _ P), Hsn, Z.sub_diag.
    change (u32 0) with 0. ztests. done. }
  assert (Hcv : sr_cs_valid (conn s) p = true).
  { unfold sr_cs_valid. rewrite !Hno by auto. rewrite (sn_cs _ _ _ _ P).
    rewrite !u32_small by (unfold is_u32 in *; lia). by ztests. }
  rewrite Hau, Hrange, Hcv. cbn [negb]. apply wp_bind, wp_not_late; [done|]. intros s' D C. apply HQ; [done|done| | |].
  - eapply (sr_ok_update _ _ _ (fun c => c)); [exact S|exact D|exact C|apply id_safe].
  - rewrite C. unfold sr_sn_in_seq. case_if; [done|]. by rewrite (sn_sn _ _ _ _ P), Hsn, Z.eqb_refl.
  - unfold sr_cts_in_seq. rewrite T; [done|]. by destruct Ht as [-> | [-> | ->]].
Qed.

(** ** Both sides *)

(** The endpoints expect each other's next packet; there is room for what the
    application wants to send. *)
Record aligned (x y : sys) : Prop := {
  al_ok : sr_ok x;
  al_remote : remote_id (conn x) = my_id (conn y);
  al_my : my_id (conn x) = remote_id (conn y);
  al_next : sn_r (conn x) = sn_t (conn y);
  al_confirms : cs_t (conn x) = sn_t (conn y) - 1;
  al_window : cs_r (conn x) < sn_t (conn x);
  al_room : queue_full (fifo_send (conn x)) = false
}.

(** The endpoint [x] has the key [K] in place of the one of [s]. *)
Definition with_key (K : list Z) (s : sys) (x : kex_sys) : Prop := base x = rekeyed K s.

Lemma late_client K s k cfg e n f : role (conn s) = RASTA_ROLE_CLIENT -> late (shade K s k cfg e n f) = false.
Proof.
  intros R. unfold late, kex_sr_rekeying_skipped, get_conn. do 3 erewrite run_ok by done. cbn [base].
  change (conn (rekeyed K s)) with (conn s). rewrite R. by case_bool_decide.
Qed.
Lemma late_waiting K s k cfg e n f : current_state (conn s) = RASTA_CONNECTION_KEX_REQ -> late (shade K s k cfg e n f) = false.
Proof.
  intros R. unfold late, kex_sr_rekeying_skipped, get_conn. do 3 erewrite run_ok by done. cbn [base].
  change (conn (rekeyed K s)) with (conn s). by rewrite R.
Qed.

Lemma late_never x : kex_rekeying_interval_ms (kex_config x) = 0 -> late x = false.
Proof.
  intros R. unfold late, kex_sr_rekeying_skipped, get_conn. do 3 erewrite run_ok by done. rewrite R.
  by repeat case_bool_decide.
Qed.

(** A request that reaches a server which waits for it, or may be rekeyed. *)
Definition expects_request (cfg : KexConfig) (c : rasta_connection) : Prop :=
  current_state c = RASTA_CONNECTION_KEX_REQ \/
  current_state c = RASTA_CONNECTION_UP /\ kex_rekeying_interval_ms cfg <> 0.

Lemma wp_request K s k cfg e n f Q i p pub pw : sr_ok s -> seen RASTA_TYPE_KEX_REQUEST i pub p -> ids_ok i ->
  i_sender i = remote_id (conn s) -> i_receiver i = my_id (conn s) -> i_sn i = sn_r (conn s) ->
  cs_r (conn s) <= i_cs i < sn_t (conn s) -> late (shade K s k cfg e n f) = false ->
  kex_mode cfg = KEX_OPAQUE -> expects_request cfg (conn s) -> has_password cfg pw (server_ids (conn s)) ->
  zlen pub = OPAQUE_USER_SESSION_PUBLIC_LEN -> queue_full (fifo_send (conn s)) = false ->
  (forall rec r ts pk k' n' s', registered pw (server_ids (conn s)) rec -> is_u32 ts ->
     let m := (opaque_CreateCredentialResponse r pub rec (server_ids (conn s)) (htobe32 (sn_i (conn s)))).2 in
     built (channel_context s) RASTA_TYPE_KEX_RESPONSE (reply_ids (conn s) p ts) m.1.1 pk -> responding m k' ->
     did s s' [pk] -> exchanged p RASTA_CONNECTION_KEX_AUTH 1 (conn s) (conn s') -> sr_ok s' ->
     Q 0 (shade (session_key k') s' k' cfg e n' f)) ->
  wp (kex_sr_receive p) Q (shade K s k cfg e n f).
Proof.
  intros S P Hi Hs Hr Hsn Hcs Hl Hmode Hst Hpw Hpub Hfull HQ.
  eapply wp_kex_gate; [done|exact P|done|auto|done|done|done|done|done|].
  intros s1 D1 C1 S1 Q1 Q2. unfold kex_handle_received_packet. rewrite (sn_type _ _ _ _ P). cbn [Z.eqb Pos.eqb].
  unfold handle_kex_request, get_conn. do 3 (apply wp_bind, wp_gets). cbn [base kex_config].
  change (conn (rekeyed K s1)) with (conn s1). change (config (rekeyed K s1)) with (config s1).
  rewrite Q1, Q2, Hmode, C1.
  replace (negb (bool_decide (current_state (conn s) = RASTA_CONNECTION_KEX_REQ)) && _) with false.
  2:{ symmetry. destruct Hst as [-> | [-> Hn]]; [done|]. cbn. rewrite orb_false_r. by apply Z.eqb_neq. }
  rewrite <- (sn_data _ _ _ _ P) in Hpub.
  apply (wp_answer_request _ _ _ _ _ _ _ _ _ pw); [done|by eapply seen_fields|by rewrite C1|done|by rewrite C1|].
  intros rec r ts pk k' n' s'. rewrite C1, (sn_data _ _ _ _ P), (did_context _ _ _ D1).
  intros Hrec Hts m B Hk D X S'. exact (HQ rec r ts pk k' n' s' Hrec Hts B Hk (did_after _ _ _ _ D1 D) X S').
Qed.

(** A response that reaches a client which waits for it. *)
Lemma wp_response K s k cfg e n f Q i p resp sec : sr_ok s -> seen RASTA_TYPE_KEX_RESPONSE i resp p -> ids_ok i ->
  i_sender i = remote_id (conn s) -> i_receiver i = my_id (conn s) -> i_sn i = sn_r (conn s) ->
  cs_r (conn s) <= i_cs i < sn_t (conn s) -> role (conn s) = RASTA_ROLE_CLIENT ->
  kex_mode cfg = KEX_OPAQUE -> current_state (conn s) = RASTA_CONNECTION_KEX_RESP -> client_secret k = Some sec ->
  zlen resp = OPAQUE_SERVER_SESSION_LEN -> queue_full (fifo_send (conn s)) = false ->
  let m := opaque_RecoverCredentials resp sec (htobe32 (sn_i (conn s))) (client_ids (conn s)) in
  (m.1 = 0 -> forall ts pk k' f' s', is_u32 ts ->
     built (channel_context s) RASTA_TYPE_KEX_AUTHENTICATION (reply_ids (conn s) p ts) m.2.2 pk ->
     session_key k' = m.2.1 -> client_secret k' = None -> did s s' [pk] ->
     exchanged p RASTA_CONNECTION_UP 1 (conn s) (conn s') -> sr_ok s' -> Q 1 (shade m.2.1 s' k' cfg e n f')) ->
  (m.1 <> 0 -> forall k' f' s' out, sent s s' out ->
     farewell (channel_context s) (conn s) RASTA_DISC_REASON_UNEXPECTEDTYPE 0 out ->
     conn s' = sr_reset_connection (conn s) -> sr_ok s' -> Q 1 (shade K s' k' cfg e n f')) ->
  wp (kex_sr_receive p) Q (shade K s k cfg e n f).
Proof.
  intros S P Hi Hs Hr Hsn Hcs Hro Hmode Hst Hsec Hlen Hfull m HQ HQ'.
  eapply wp_kex_gate; [done|exact P|done|auto|done|done|done|done|by apply late_client|].
  intros s1 D1 C1 S1 Q1 Q2. unfold kex_handle_received_packet. rewrite (sn_type _ _ _ _ P). cbn [Z.eqb Pos.eqb].
  unfold handle_kex_response, get_conn. do 3 (apply wp_bind, wp_gets). cbn [base kex_config].
  change (conn (rekeyed K s1)) with (conn s1). change (config (rekeyed K s1)) with (config s1).
  rewrite Q1, Q2, Hmode, C1, Hst. cbn [bool_decide negb].
  change (bool_decide (RASTA_CONNECTION_KEX_RESP = RASTA_CONNECTION_KEX_RESP)) with true. cbn [negb].
  apply (wp_answer_response _ _ _ _ _ _ _ _ _ sec); rewrite ?C1, ?(sn_data _ _ _ _ P), ?(did_context _ _ _ D1);
    [done|by eapply seen_fields|done|done|done| |]; fold m.
  - intros E ts pk k' f' s' Hts B Hk Hc D X S'. apply (HQ E ts pk k' f'); [done|done|done|done|by eapply did_after|done|done].
  - intros E k' f' s' out D W C S'. apply (HQ' E k' f' s' out); [by apply (did_sent_trans _ s1 _ [])|done|done|done].
Qed.

(** An authentication that reaches a server which waits for it. *)
Lemma wp_auth K s k cfg e n f Q i p auth : sr_ok s -> seen RASTA_TYPE_KEX_AUTHENTICATION i auth p -> ids_ok i ->
  i_sender i = remote_id (conn s) -> i_receiver i = my_id (conn s) -> i_sn i = sn_r (conn s) ->
  cs_r (conn s) <= i_cs i < sn_t (conn s) -> late (shade K s k cfg e n f) = false ->
  kex_mode cfg = KEX_OPAQUE -> current_state (conn s) = RASTA_CONNECTION_KEX_AUTH ->
  zlen auth = crypto_auth_hmacsha512_BYTES -> opaque_UserAuth (user_auth_server k) auth = 0 ->
  queue_full (fifo_send (conn s)) = false ->
  (forall s', did s s' [] -> exchanged p RASTA_CONNECTION_UP 0 (conn s) (conn s') -> sr_ok s' -> Q 1 (shade K s' k cfg e n f)) ->
  wp (kex_sr_receive p) Q (shade K s k cfg e n f).
Proof.
  intros S P Hi Hs Hr Hsn Hcs Hl Hmode Hst Hlen Ha Hfull HQ.
  eapply wp_kex_gate; [done|exact P|done|auto|done|done|done|done|done|].
  intros s1 D1 C1 S1 Q1 Q2. unfold kex_handle_received_packet. rewrite (sn_type _ _ _ _ P). cbn [Z.eqb Pos.eqb].
  unfold handle_kex_auth, get_conn. do 3 (apply wp_bind, wp_gets). cbn [base kex_config].
  change (conn (rekeyed K s1)) with (conn s1). change (config (rekeyed K s1)) with (config s1).
  rewrite Q1, Q2, Hmode, C1, Hst.
  change (bool_decide (RASTA_CONNECTION_KEX_AUTH = RASTA_CONNECTION_KEX_AUTH)) with true. cbn [negb].
  apply wp_accept_auth; rewrite ?C1, ?(sn_data _ _ _ _ P); [done|by eapply seen_fields|done|done|done|].
  intros s' D X S'. apply HQ; [by eapply did_after|done|done].
Qed.

(** ** The exchange *)

(** A client and a server that are about to exchange a key: [pwU] and [pwS] are the
    passwords they were given. *)
Record exchanging (pwU pwS : list Z) (sa sb : sys) (ca cb : KexConfig) : Prop := {
  xc_client : aligned sa sb;
  xc_server : aligned sb sa;
  xc_context : channel_context sb = channel_context sa;
  xc_role : role (conn sa) = RASTA_ROLE_CLIENT;
  xc_role' : role (conn sb) = RASTA_ROLE_SERVER;
  xc_mode : kex_mode ca = KEX_OPAQUE;
  xc_mode' : kex_mode cb = KEX_OPAQUE;
  xc_psk : kex_psk ca = pwU;
  xc_psk' : has_password cb pwS (server_ids (conn sb));
  xc_passwords : password_ok pwU /\ password_ok pwS;
  xc_mlock : forall i, outcome (env sa) i SysMlock = 0;
  xc_expects : expects_request cb (conn sb);
  xc_numbers : sn_t (conn sa) + 2 < 2 ^ 32 /\ sn_t (conn sb) + 1 < 2 ^ 32
}.

Lemma same_ids x y : aligned x y -> client_ids (conn x) = server_ids (conn y).
Proof. intros []. unfold client_ids, server_ids. congruence. Qed.

(** After the request and the response the client waits with its secret; the
    server has the key and waits for the authentication. *)
Record halfway (sa sb sa1 sb1 : sys) (ca : KexConfig) (rec : list Z) (n r : nat)
    (k : key_exchange_state) (k' : key_exchange_state) (i2 : packet_ids) (pk2 : RastaPacket) : Prop := {
  hw_asked : conn sa1 = asked_kex (conn sa);
  hw_client : sr_ok sa1;
  hw_context : channel_context sa1 = channel_context sa;
  hw_secret : client_secret k = Some (opaque_CreateCredentialRequest n (kex_psk ca)).2.1;
  hw_ids : i2 = mkIds (remote_id (conn sb)) (my_id (conn sb)) (sn_t (conn sb)) (sn_t (conn sa)) (i_ts i2) (i_cts i2);
  hw_ids_ok : ids_ok i2;
  hw_responding : responding (answers rec n r (kex_psk ca) (server_ids (conn sb)) (htobe32 (sn_i (conn sb)))).2 k';
  hw_response : built (channel_context sb) RASTA_TYPE_KEX_RESPONSE i2 (certificate_response k') pk2;
  hw_server : sr_ok sb1;
  hw_server_context : channel_context sb1 = channel_context sb;
  hw_state : current_state (conn sb1) = RASTA_CONNECTION_KEX_AUTH;
  hw_my : my_id (conn sb1) = my_id (conn sb); hw_remote : remote_id (conn sb1) = remote_id (conn sb);
  hw_sn_t : sn_t (conn sb1) = sn_t (conn sb) + 1; hw_sn_r : sn_r (conn sb1) = sn_t (conn sa) + 1;
  hw_cs_t : cs_t (conn sb1) = sn_t (conn sa); hw_cs_r : cs_r (conn sb1) = sn_t (conn sb) - 1;
  hw_room : queue_full (fifo_send (conn sb1)) = false
}.

Lemma wp_exchange_begins pwU pwS K K' sa sb ka kb ca cb ea eb na nb fa fb : exchanging pwU pwS sa sb ca cb ->
  late (shade K' sb kb cb eb nb fb) = false ->
  exists pk1 pk2 a1 b1,
    send_KexRequest (shade K sa ka ca ea na fa) = Ok (tt, a1) /\
    kex_sr_receive (received_packet (channel_context sb) pk1) (shade K' sb kb cb eb nb fb) = Ok (0, b1) /\
    exists sa1 sb1 k1 k1' e1 n1' rec r i2, did sa sa1 [pk1] /\ did sb sb1 [pk2] /\
      registered pwS (server_ids (conn sb)) rec /\ halfway sa sb sa1 sb1 ca rec na r k1 k1' i2 pk2 /\
      a1 = shade K sa1 k1 ca e1 (Datatypes.S na) fa /\ b1 = shade (session_key k1') sb1 k1' cb eb n1' fb.
Proof.
  intros X Hlate. destruct X as [A B Hx Hro Hro' Hm Hm' Hpw Hpw' _ Hlock Hexp [N1 N2]].
  destruct A as [Sa A1 A2 A3 A4 A5 A6], B as [Sb B1 B2 B3 B4 B5 B6].
  pose proof (ok_conn _ Sa) as Oa. pose proof (ok_conn _ Sb) as Ob. destruct (opaque_request na (kex_psk ca)) as (_ & _ & R2 & _).
  assert (W1 : wp send_KexRequest (fun _ x => exists ts pk k e s', is_u32 ts /\ x = shade K s' k ca e (Datatypes.S na) fa /\
     built (channel_context sa) RASTA_TYPE_KEX_REQUEST (ids_at (conn sa) ts) (opaque_CreateCredentialRequest na (kex_psk ca)).2.2 pk /\
     client_secret k = Some (opaque_CreateCredentialRequest na (kex_psk ca)).2.1 /\ did sa s' [pk] /\
     conn s' = asked_kex (conn sa) /\ sr_ok s') (shade K sa ka ca ea na fa)).
  { apply wp_send_KexRequest; [done|done|]. intros ts pk k' e' s' Hts m HB Hk D C S. by exists ts, pk, k', e', s'. }
  apply wp_ok in W1 as ([] & a1 & E1 & ts1 & pk1 & k1 & e1 & sa1 & Hts1 & -> & P1 & Hk1 & D1 & C1 & S1).
  rewrite <- Hx in P1. pose proof (built_seen _ _ _ _ _ P1) as Q1.
  assert (W2 : wp (kex_sr_receive (received_packet (channel_context sb) pk1)) (fun z x => z = 0 /\ exists rec r ts pk k n s',
     registered pwS (server_ids (conn sb)) rec /\ is_u32 ts /\
     (let m := (answers rec na r (kex_psk ca) (server_ids (conn sb)) (htobe32 (sn_i (conn sb)))).2 in
      built (channel_context sb) RASTA_TYPE_KEX_RESPONSE
        (reply_ids (conn sb) (received_packet (channel_context sb) pk1) ts) m.1.1 pk /\ responding m k) /\
     x = shade (session_key k) s' k cb eb n fb /\ did sb s' [pk] /\
     exchanged (received_packet (channel_context sb) pk1) RASTA_CONNECTION_KEX_AUTH 1 (conn sb) (conn s') /\ sr_ok s')
    (shade K' sb kb cb eb nb fb)).
  { eapply wp_request; [exact Sb|exact Q1|by eapply conn_ok_ids; [|]|done|done|done| |done|done|done|exact Hpw'|done|done|].
    - cbn [i_cs ids_at]. lia.
    - intros rec r ts pk k' n' s' Hrec Hts m HB Hk D E S. split; [done|]. by exists rec, r, ts, pk, k', n', s'. }
  apply wp_ok in W2 as (z & b1 & E2 & -> & rec & r & ts2 & pk2 & k2 & n2 & sb1 & Hrec & Hts2 & [P2 Hk2] & -> & D2 & Ex & S2).
  exists pk1, pk2. do 2 eexists. split; [exact E1|]. split; [exact E2|].
  exists sa1, sb1, k1, k2, e1, n2, rec, r, (reply_ids (conn sb) (received_packet (channel_context sb) pk1) ts2). split; [exact D1|]. split; [exact D2|]. split; [done|]. split; [|done].
  destruct Ex as [X1 X2 X3 X4 X5 X6 X7 X8 X9 X10 X11].
  split; try done.
  - by rewrite (did_context _ _ _ D1).
  - unfold reply_ids. cbn [i_ts i_cts]. by rewrite (sn_sn _ _ _ _ Q1).
  - destruct Oa, Ob. split; cbn [reply_ids i_receiver i_sender i_sn i_cs i_ts i_cts]; try done.
    + by rewrite (sn_sn _ _ _ _ Q1).
    + by rewrite (sn_ts _ _ _ _ Q1).
  - destruct Hk2 as (-> & _). exact P2.
  - by rewrite (did_context _ _ _ D2).
  - rewrite X6. apply u32_small. destruct (co_sn_t _ _ _ Ob). unfold is_u32. lia.
  - rewrite X7, (sn_sn _ _ _ _ Q1). cbn [ids_at i_sn]. apply u32_small. destruct (co_sn_t _ _ _ Oa). unfold is_u32. lia.
  - by rewrite X8, (sn_sn _ _ _ _ Q1).
  - rewrite X9, (sn_cs _ _ _ _ Q1). exact A4.
  - by rewrite X11.
Qed.

(** What the client makes of the response. *)
Definition recovered (c : rasta_connection) (n : nat) (psk : list Z) (k' : key_exchange_state) :=
  opaque_RecoverCredentials (certificate_response k') (opaque_CreateCredentialRequest n psk).2.1 (htobe32 (sn_i c)) (client_ids c).

Lemma wp_client_turn pwU pwS K sa sb sa1 sb1 ca cb rec n r k k' i2 pk2 e n1 f Q : exchanging pwU pwS sa sb ca cb ->
  halfway sa sb sa1 sb1 ca rec n r k k' i2 pk2 ->
  let m := recovered (conn sa) n (kex_psk ca) k' in
  let p := received_packet (channel_context sa) pk2 in
  (m.1 = 0 -> forall ts pk k2 f' s', is_u32 ts ->
     built (channel_context sa) RASTA_TYPE_KEX_AUTHENTICATION (reply_ids (conn sa1) p ts) m.2.2 pk ->
     session_key k2 = m.2.1 -> client_secret k2 = None -> did sa1 s' [pk] ->
     exchanged p RASTA_CONNECTION_UP 1 (conn sa1) (conn s') -> sr_ok s' -> Q 1 (shade m.2.1 s' k2 ca e n1 f')) ->
  (m.1 <> 0 -> forall k2 f' s' out, sent sa1 s' out ->
     farewell (channel_context sa) (conn sa1) RASTA_DISC_REASON_UNEXPECTEDTYPE 0 out ->
     conn s' = sr_reset_connection (conn sa1) -> sr_ok s' -> Q 1 (shade K s' k2 ca e n1 f')) ->
  wp (kex_sr_receive p) Q (shade K sa1 k ca e n1 f).
Proof.
  intros X Hw m p. destruct X as [A B Hx Hro _ Hm _ _ _ _ _ _ [N1 N2]].
  destruct A as [Sa A1 A2 A3 A4 A5 A6], B as [Sb _ _ B3 _ _ _].
  destruct Hw as [C1 S1 Hx1 Hsec Hi2 Hi2' [Hr1 _] P2 _ _ _ _ _ _ _ _ _ _].
  rewrite Hx in P2. pose proof (built_seen _ _ _ _ _ P2) as Q2. fold p in Q2.
  destruct (co_sn_t _ _ _ (ok_conn _ Sa)) as [Ta0 Ta1], (opaque_response r (opaque_CreateCredentialRequest n (kex_psk ca)).2.2 rec
    (server_ids (conn sb)) (htobe32 (sn_i (conn sb)))) as (_ & L & _).
  assert (Em : m = opaque_RecoverCredentials (certificate_response k') (opaque_CreateCredentialRequest n (kex_psk ca)).2.1
    (htobe32 (sn_i (conn sa1))) (client_ids (conn sa1))) by (rewrite C1; reflexivity).
  rewrite Em, <- Hx1. intros HQ HQ'.
  eapply wp_response; [exact S1|exact Q2|exact Hi2'| | | | | |exact Hm| |exact Hsec| | |exact HQ|exact HQ'].
  - rewrite Hi2, C1. cbn. congruence.
  - rewrite Hi2, C1. cbn. congruence.
  - rewrite Hi2, C1. cbn. congruence.
  - rewrite Hi2, C1. unfold asked_kex. fields. cbn [i_cs]. rewrite u32_small by (unfold is_u32; lia). lia.
  - by rewrite C1.
  - by rewrite C1.
  - rewrite Hr1. exact L.
  - by rewrite C1.
Qed.

(** With the right password, the client authenticates itself. *)
Lemma client_finishes pwU pwS K sa sb sa1 sb1 ca cb rec n r k k' i2 pk2 e n1 f : exchanging pwU pwS sa sb ca cb ->
  halfway sa sb sa1 sb1 ca rec n r k k' i2 pk2 ->
  let m := recovered (conn sa) n (kex_psk ca) k' in
  let p := received_packet (channel_context sa) pk2 in m.1 = 0 ->
  exists ts pk k2 f' s', kex_sr_receive p (shade K sa1 k ca e n1 f) = Ok (1, shade m.2.1 s' k2 ca e n1 f') /\ is_u32 ts /\
    built (channel_context sa) RASTA_TYPE_KEX_AUTHENTICATION (reply_ids (conn sa1) p ts) m.2.2 pk /\
    session_key k2 = m.2.1 /\ client_secret k2 = None /\ did sa1 s' [pk] /\
    exchanged p RASTA_CONNECTION_UP 1 (conn sa1) (conn s') /\ sr_ok s'.
Proof.
  intros X Hw m p E0.
  assert (W : wp (kex_sr_receive p) (fun z x => exists ts pk k2 f' s', (z, x) = (1, shade m.2.1 s' k2 ca e n1 f') /\ is_u32 ts /\
    built (channel_context sa) RASTA_TYPE_KEX_AUTHENTICATION (reply_ids (conn sa1) p ts) m.2.2 pk /\
    session_key k2 = m.2.1 /\ client_secret k2 = None /\ did sa1 s' [pk] /\
    exchanged p RASTA_CONNECTION_UP 1 (conn sa1) (conn s') /\ sr_ok s') (shade K sa1 k ca e n1 f)).
  { eapply (wp_client_turn _ _ _ _ _ _ _ _ _ _ _ _ _ _ _ _ _ _ _ _ X Hw); [|done].
    intros _ ts pk k2 f' s' Hts HB E1 E2 D Ex S. by exists ts, pk, k2, f', s'. }
  apply wp_ok in W as (z & x & E & ts & pk & k2 & f' & s' & [= -> ->] & R). exists ts, pk, k2, f', s'. by split.
Qed.

(** The authentication arrives at the server. *)
Lemma server_finishes pwU pwS sa sb sa1 sb1 ca cb rec n r k k' i2 pk2 ts pk3 auth e n1 f : exchanging pwU pwS sa sb ca cb ->
  halfway sa sb sa1 sb1 ca rec n r k k' i2 pk2 -> is_u32 ts ->
  built (channel_context sa) RASTA_TYPE_KEX_AUTHENTICATION
    (reply_ids (conn sa1) (received_packet (channel_context sa) pk2) ts) auth pk3 ->
  zlen auth = crypto_auth_hmacsha512_BYTES -> opaque_UserAuth (user_auth_server k') auth = 0 ->
  late (shade (session_key k') sb1 k' cb e n1 f) = false ->
  let p := received_packet (channel_context sb) pk3 in
  exists s', kex_sr_receive p (shade (session_key k') sb1 k' cb e n1 f) = Ok (1, shade (session_key k') s' k' cb e n1 f) /\
    did sb1 s' [] /\ exchanged p RASTA_CONNECTION_UP 0 (conn sb1) (conn s') /\ sr_ok s' /\
    seen RASTA_TYPE_KEX_AUTHENTICATION (mkIds (remote_id (conn sa)) (my_id (conn sa)) (sn_t (conn sa) + 1) (sn_t (conn sb)) ts
      (i_ts i2)) auth p.
Proof.
  intros X Hw Hts B3 Hlen Ha Hlate p. destruct X as [A B Hx _ _ _ Hm' _ _ _ _ _ [N1 N2]].
  destruct A as [Sa A1 A2 A3 A4 A5 A6], B as [Sb _ _ B3' _ _ _].
  destruct Hw as [C1 S1 Hx1 Hsec Hi2 Hi2' [Hr1 _] P2 S2 Hx2 V1 V2 V3 V4 V5 V6 V7 V8].
  assert (Q3 : seen RASTA_TYPE_KEX_AUTHENTICATION (reply_ids (conn sa1) (received_packet (channel_context sa) pk2) ts) auth p)
    by (unfold p; rewrite Hx; by apply built_seen).
  pose proof (built_seen _ _ _ _ _ P2) as Q2. rewrite Hx in Q2.
  destruct (co_sn_t _ _ _ (ok_conn _ Sa)) as [Ta0 Ta1].
  assert (Ei : reply_ids (conn sa1) (received_packet (channel_context sa) pk2) ts =
    mkIds (remote_id (conn sa)) (my_id (conn sa)) (sn_t (conn sa) + 1) (sn_t (conn sb)) ts (i_ts i2)).
  { unfold reply_ids. rewrite (sn_sn _ _ _ _ Q2), (sn_ts _ _ _ _ Q2), Hi2, C1. unfold asked_kex. fields. cbn [i_sn i_ts].
    by rewrite u32_small by (unfold is_u32; lia). }
  rewrite Ei in Q3.
  assert (Hi3 : ids_ok (mkIds (remote_id (conn sa)) (my_id (conn sa)) (sn_t (conn sa) + 1) (sn_t (conn sb)) ts (i_ts i2))).
  { destruct (ok_conn _ Sa), (ok_conn _ Sb), Hi2'. split; try done. unfold is_u32. cbn [i_sn]. lia. }
  assert (W : wp (kex_sr_receive p) (fun z x => exists s', (z, x) = (1, shade (session_key k') s' k' cb e n1 f) /\ did sb1 s' [] /\
    exchanged p RASTA_CONNECTION_UP 0 (conn sb1) (conn s') /\ sr_ok s') (shade (session_key k') sb1 k' cb e n1 f)).
  { eapply wp_auth; [exact S2|exact Q3|exact Hi3| | | | |done|done|done|exact Hlen|exact Ha|done|].
    - rewrite V3. exact A2.
    - rewrite V2. exact A1.
    - by rewrite V5.
    - rewrite V7, V4. cbn [i_cs]. lia.
    - intros s' D Ex S. by exists s'. }
  apply wp_ok in W as (z & x & E & s' & [= -> ->] & D & Ex & S). by exists s'.
Qed.

(** Both endpoints in step again. *)
Lemma exchange_in_step pwU pwS sa sb sa1 sb1 sa2 sb2 ca cb rec n r k k' i2 pk2 ts tc auth p3 :
  exchanging pwU pwS sa sb ca cb -> halfway sa sb sa1 sb1 ca rec n r k k' i2 pk2 ->
  exchanged (received_packet (channel_context sa) pk2) RASTA_CONNECTION_UP 1 (conn sa1) (conn sa2) ->
  exchanged p3 RASTA_CONNECTION_UP 0 (conn sb1) (conn sb2) ->
  seen RASTA_TYPE_KEX_AUTHENTICATION (mkIds (remote_id (conn sa)) (my_id (conn sa)) (sn_t (conn sa) + 1) (sn_t (conn sb)) ts tc)
    auth p3 -> sr_ok sa2 -> sr_ok sb2 -> in_step sa2 sb2 /\ in_step sb2 sa2.
Proof.
  intros X Hw [Y1 _ Y3 Y4 _ Y6 Y7 Y8 Y9 _ _] [Z1 _ Z3 Z4 _ Z6 Z7 Z8 Z9 _ _] Q3 S3 S4.
  destruct X as [[Sa A1 A2 A3 A4 A5 A6] [Sb B1 B2 B3 B4 B5 B6] Hx _ _ _ _ _ _ _ _ _ [N1 N2]].
  destruct Hw as [C1 _ _ _ Hi2 _ _ P2 _ _ _ V2 V3 V4 V5 V6 V7 _].
  pose proof (built_seen _ _ _ _ _ P2) as Q2. rewrite Hx in Q2.
  destruct (co_sn_t _ _ _ (ok_conn _ Sa)) as [Ta0 _], (co_sn_t _ _ _ (ok_conn _ Sb)) as [Tb0 _].
  rewrite (sn_sn _ _ _ _ Q2), Hi2 in Y7, Y8. rewrite (sn_cs _ _ _ _ Q2), Hi2 in Y9.
  rewrite (sn_sn _ _ _ _ Q3) in Z7, Z8. rewrite (sn_cs _ _ _ _ Q3) in Z9. cbn [i_sn i_cs] in *.
  rewrite C1 in Y3, Y4, Y6. unfold asked_kex in Y3, Y4. cbn in Y3, Y4.
  change (sn_t (asked_kex (conn sa))) with (u32 (sn_t (conn sa) + 1)) in Y6.
  rewrite u32_small in Y7 by (unfold is_u32; lia). rewrite u32_small in Z7 by (unfold is_u32; lia).
  rewrite (u32_small (sn_t (conn sa) + 1)), u32_small in Y6 by (unfold is_u32; lia).
  rewrite u32_small in Z6 by (unfold is_u32; lia).
  split; split; try done; try congruence; try lia.
Qed.



End Runs.

(** ** What the key is used for *)

(** C10. The session key protects nothing: what an endpoint sends, and what it hands
    to the safety layer of the packets it received, does not depend on the key in
    the hashing context that the exchange changes.  Sending a packet, heartbeats,
    retransmission requests and responses, closing, and the delivery of the defer
    queue to any upper layer that does not read the key itself have the same result,
    the same network trace and the same errors whatever that key is. *)
Theorem session_key_unused `{Transport} `{!TransportBlind} K s :
  (forall p r, redundancy_mux_send p r (rekeyed K s) = veiled K (redundancy_mux_send p r s)) /\
  (forall b, sendHeartbeat b (rekeyed K s) = veiled K (sendHeartbeat b s)) /\
  sendRetransmissionRequest (rekeyed K s) = veiled K (sendRetransmissionRequest s) /\
  sendRetransmissionResponse (rekeyed K s) = veiled K (sendRetransmissionResponse s) /\
  (forall reason details, sr_close_connection reason details (rekeyed K s) = veiled K (sr_close_connection reason details s)) /\
  (forall U : UpperLayer, (forall p, Blind (upper_receive p)) ->
     red_f_deliverDeferQueue (rekeyed K s) = veiled K (red_f_deliverDeferQueue s)).
Proof. repeat split; intros; apply blind. Qed.

(** ** Witnesses *)

(** An instance of the functions for examples, without any secrecy: messages have
    fields of fixed length, and the key is made of the password. *)
Definition field (n : nat) (l : list Z) : list Z := map (fun c => c mod 256) (take n (l ++ zeros (Z.of_nat n))).
Definition ids_field (i : Opaque_Ids) : list Z := field 8 (idU i ++ idS i).
Definition demo_record (pw : list Z) (ids : Opaque_Ids) : list Z := field 128 pw ++ ids_field ids.
Definition demo_response (pub rec : list Z) (ids : Opaque_Ids) (ctx : list Z) : list Z :=
  field 128 pub ++ field 136 rec ++ ids_field ids ++ field 4 ctx.
#[local] Arguments field : simpl never.
#[local] Arguments demo_record : simpl never.
#[local] Arguments demo_response : simpl never.

Definition demo_opaque : Opaque := {|
  OPAQUE_USER_RECORD_LEN := 136; OPAQUE_USER_SESSION_PUBLIC_LEN := 128; OPAQUE_USER_SESSION_SECRET_LEN := 0;
  OPAQUE_SERVER_SESSION_LEN := 276; OPAQUE_SHARED_SECRETBYTES := 64; crypto_auth_hmacsha512_BYTES := 64;
  opaque_Register := fun _ pw ids => (0, demo_record pw ids);
  opaque_CreateCredentialRequest := fun _ pw => (0, (pw, field 128 pw));
  opaque_CreateCredentialResponse := fun _ pub rec ids ctx => (0, (demo_response pub rec ids ctx, field 64 pub, field 64 pub));
  opaque_RecoverCredentials := fun resp sec ctx ids =>
    (if bool_decide (resp = demo_response (field 128 sec) (demo_record sec ids) ids ctx) then 0 else 1,
     (field 64 (field 128 sec), field 64 (field 128 sec)));
  opaque_UserAuth := fun a b => if bool_decide (a = b) then 0 else 1
|}.

Lemma length_field n l : length (field n l) = n.
Proof. unfold field. rewrite length_map, length_take, length_app. unfold zeros. rewrite length_replicate. lia. Qed.
Lemma zlen_field n l : zlen (field n l) = Z.of_nat n.
Proof. unfold zlen. by rewrite length_field. Qed.
Lemma field_bytes n l : bytes_ok (field n l).
Proof. apply Forall_map, Forall_true. intros c. unfold is_u8. apply Z.mod_pos_bound. lia. Qed.
Lemma map_bytes l : bytes_ok l -> map (fun c => c mod 256) l = l.
Proof. induction 1 as [|c l Hc _ IH]; [done|]. cbn. by rewrite IH, Z.mod_small. Qed.
Lemma field_app n l r : length l = n -> bytes_ok l -> field n (l ++ r) = l.
Proof. intros <- Hl. unfold field. rewrite <- app_assoc, take_app_length. by apply map_bytes. Qed.
Lemma field_exact n l : length l = n -> bytes_ok l -> field n l = l.
Proof. intros Hn Hl. pose proof (field_app n l [] Hn Hl) as E. by rewrite app_nil_r in E. Qed.
Lemma length_demo_record pw ids : length (demo_record pw ids) = 136%nat.
Proof. unfold demo_record, ids_field. by rewrite length_app, !length_field. Qed.
Lemma demo_record_bytes pw ids : bytes_ok (demo_record pw ids).
Proof. apply Forall_app. split; apply field_bytes. Qed.
Lemma demo_response_bytes pub rec ids ctx : bytes_ok (demo_response pub rec ids ctx).
Proof. repeat (apply Forall_app; split); apply field_bytes. Qed.

#[export] Instance demo_opaque_ok : @OpaqueOk demo_opaque.
Proof.
  split; cbn.
  - lia.
  - intros r pw ids. split; [done|]. unfold zlen. by rewrite length_demo_record.
  - intros r pw. repeat split; [by rewrite zlen_field|apply field_bytes].
  - intros r pub rec ids ctx. repeat split; [|apply demo_response_bytes|by rewrite zlen_field..].
    unfold zlen, demo_response, ids_field. by rewrite !length_app, !length_field.
  - intros resp sec ctx ids. repeat split; [by rewrite zlen_field..|apply field_bytes].
  - intros rec r2 r3 pw ids ctx _ [r ->]. cbn.
    by rewrite !bool_decide_eq_true_2 by (unfold demo_response; by rewrite ?(field_exact 128) by (rewrite ?length_field; auto using field_bytes)).
Qed.

(** Passwords are told from their padded form. *)
Lemma padded_inj a : forall b m n, Forall (fun c => 0 < c < 256) a -> Forall (fun c => 0 < c < 256) b ->
  a ++ replicate m 0 = b ++ replicate n 0 -> a = b.
Proof.
  induction a as [|x a IH]; intros [|y b] m n Ha Hb E; [done| | |].
  - destruct m; [done|]. injection E as <- _. apply Forall_cons in Hb as [? _]. lia.
  - destruct n; [done|]. injection E as -> _. apply Forall_cons in Ha as [? _]. lia.
  - apply Forall_cons in Ha as [_ Ha], Hb as [_ Hb]. injection E as -> E. f_equal. by eapply IH.
Qed.
Lemma field_password pw : password_ok pw -> field 128 pw = pw ++ replicate (128 - length pw) 0.
Proof.
  intros [Hl Hb]. unfold zlen, KEX_PSK_MAX in Hl. unfold field, zeros. rewrite take_app_ge by lia.
  rewrite take_replicate, Nat.min_l by lia. rewrite map_app. f_equal.
  - apply map_bytes. eapply Forall_impl; [exact Hb|]. intros c Hc. cbv beta in Hc. unfold is_u8. lia.
  - generalize (128 - length pw)%nat. intros k. induction k as [|k IH]; [done|]. cbn. by rewrite IH.
Qed.

Lemma word_field l : word_bytes l -> field 4 l = l.
Proof. intros [Hl Hb]. apply field_exact; [unfold zlen in Hl; lia|done]. Qed.
Lemma ids_field_inj i j : ids_words i -> ids_words j -> ids_field i = ids_field j -> i = j.
Proof.
  intros [[Hi1 Hi2] [Hi3 Hi4]] [[Hj1 Hj2] [Hj3 Hj4]]. unfold ids_field, zlen in *.
  rewrite !field_exact by (try (rewrite length_app; lia); by apply Forall_app).
  intros [E1 E2]%app_inj_1; [|lia]. destruct i, j. cbn in *. by subst.
Qed.

Lemma demo_opaque_binds : @OpaqueBinds demo_opaque.
Proof.
  intros rec r2 r3 pwS pwU ids ids' ctx ctx' HS HU Hi Hi' Hc Hc' [r ->]. cbn. case_bool_decide as E; [|done]. intros _.
  unfold demo_response in E. rewrite !(field_exact 128 (field 128 _)) in E by (rewrite ?length_field; auto using field_bytes).
  apply app_inj_1 in E as [_ E]; [|done]. rewrite !(field_exact 136) in E by (apply length_demo_record || apply demo_record_bytes).
  apply app_inj_1 in E as [E1 E]; [|by rewrite !length_demo_record].
  apply app_inj_1 in E as [E2 E3]; [|by unfold ids_field; rewrite !length_field].
  apply app_inj_1 in E1 as [E1 _]; [|by rewrite !length_field].
  rewrite !field_password in E1 by done. rewrite !word_field in E3 by done.
  split; [symmetry; by eapply padded_inj; [apply HS|apply HU|]|].
  split; [symmetry; by apply ids_field_inj|done].
Qed.

(** A client that is about to ask for a key, and a server that waits for it. *)
Definition demo_asking : sys := demo_sys RASTA_ROLE_CLIENT RASTA_CONNECTION_UP 7.
Definition demo_waiting : sys := demo_receiver <| conn ::= fun c => c <| current_state := RASTA_CONNECTION_KEX_REQ |> |>.
Definition demo_kex (pw : list Z) : KexConfig := mkKexConfig KEX_OPAQUE pw 0 false [].
Definition demo_kex_state : key_exchange_state := mkKexState [] None [] [] [] [] 0 0.
Definition demo_password : list Z := [115; 101; 115; 97; 109; 101].

Lemma demo_aligned : aligned demo_asking demo_waiting /\ aligned demo_waiting demo_asking.
Proof.
  split; split; try reflexivity.
  - apply demo_sr_ok. split; zle.
  - eapply (sr_ok_update demo_receiver); [exact (st_ok _ _ (proj2 demo_in_step))|apply did_conn|reflexivity|apply set_state_safe].
Qed.

Lemma demo_exchanging pwU pwS : password_ok pwU -> password_ok pwS ->
  exchanging (H2 := demo_opaque) pwU pwS demo_asking demo_waiting (demo_kex pwU) (demo_kex pwS).
Proof.
  intros HU HS. split; try done; try apply demo_aligned; try by left.
Qed.



Lemma session_key_unused_witness :
  redundancy_mux_send (H := udp) empty_packet RASTA_ROLE_CLIENT (rekeyed [1] demo_asking) =
  veiled [1] (redundancy_mux_send (H := udp) empty_packet RASTA_ROLE_CLIENT demo_asking).
Proof. exact (proj1 (session_key_unused (H := udp) [1] demo_asking) empty_packet RASTA_ROLE_CLIENT). Defined.
