(* ===== verification/Tls.v ===== *)
(** * TLS and DTLS (src/c/transport/ssl_utils.c, tls.c, dtls.c)

    The builds with ENABLE_TLS replace tcp.c by tls.c and udp.c by dtls.c.  wolfSSL
    is a parameter: what a call returns is an arbitrary function of the calls made
    before it, which are kept in a log, and of the call.  Pointers are numbers, and
    0 is NULL.  The fields that ENABLE_TLS adds to channels and sockets are kept
    beside the state of the default build.  Output to stderr is left out, as is the
    key log for Wireshark. *)

From stdpp Require Import base numbers list.
From Stdlib Require Import ZArith Lia.
From S2P Require Import Prelude.
From S2P Require Import World.
From S2P Require Import Config.
From S2P Require Import State.
From S2P Require Import Transport.

Local Open Scope Z_scope.
Local Open Scope record_scope.

(** ** wolfSSL *)

Inductive wolf_method := TLSv1_3_server | TLSv1_3_client | DTLSv1_2_server | DTLSv1_2_client.

Inductive wolf_call :=
| WolfInit
| CtxNew (m : wolf_method) | CtxLoadVerify (ctx : Z) (path : list Z)
| CtxUseCertificate (ctx : Z) (path : list Z) | CtxUsePrivateKey (ctx : Z) (path : list Z) | CtxFree (ctx : Z)
| SslNew (ctx : Z) | SslSetFd (ssl fd : Z) | SslCheckDomain (ssl : Z) (host : list Z) | SslKeepArrays (ssl : Z)
| SslSetPeer (ssl : Z) (peer : list Z * Z) | SslConnect (ssl : Z) | SslAccept (ssl : Z)
| SslNonblock (ssl : Z) | SslDtlsNonblock (ssl : Z)
| SslWrite (ssl : Z) (message : list Z) (len : Z) | SslRead (ssl max : Z) | SslGetError (ssl : Z)
| SslShutdown (ssl : Z) | SslFree (ssl : Z)
| SslPeerCertificate (ssl : Z) | X509Load (path : list Z) | X509Der (cert : Z) | X509Digest (cert : Z) | X509Free (cert : Z).

(** The returned number or pointer, and the bytes written to a buffer. *)
Record wolf_result := mkResult { status : Z; payload : list Z }.

Abbreviation wolf_log := (list (wolf_call * wolf_result)).

Class WolfSSL := {
  wolfSSL : wolf_log -> wolf_call -> wolf_result;
  SSL_SUCCESS : Z;
  SOCKET_PEER_CLOSED_E : Z;
  SSL_ERROR_WANT_READ : Z;
  SSL_ERROR_WANT_WRITE : Z
}.

(** ** The state *)

(* transport/transport.h:20-24 rasta_tls_connection_state *)
Inductive rasta_tls_connection_state :=
| RASTA_TLS_CONNECTION_READY
| RASTA_TLS_CONNECTION_ESTABLISHED
| RASTA_TLS_CONNECTION_CLOSED.
#[export] Instance tls_connection_state_eq : EqDecision rasta_tls_connection_state.
Proof. solve_decision. Defined.

(** What a transport channel and a transport socket have in this build. *)
(* transport/transport.h:52-56 rasta_transport_channel *)
Record tls_end := mkTlsEnd { ctx : Z; ssl : Z; tls_state : rasta_tls_connection_state }.
#[export] Instance eta_tls_end : Eta tls_end := fun e => mkTlsEnd (ctx e) (ssl e) (tls_state e).

Definition blank_end : tls_end := mkTlsEnd 0 0 RASTA_TLS_CONNECTION_READY.

(** [peeked n] is the sender of the datagram that waits at the [n]-th system call. *)
Record tls_sys := mkTlsSys {
  plain : sys;
  tls_channels : list tls_end;
  tls_sockets : list tls_end;
  wolfssl_initialized : bool;
  log : wolf_log;
  peeked : nat -> list Z * Z
}.
#[export] Instance eta_tls_sys : Eta tls_sys := fun s =>
  mkTlsSys (plain s) (tls_channels s) (tls_sockets s) (wolfssl_initialized s) (log s) (peeked s).

Definition on_plain {A} (m : M sys A) : M tls_sys A := fun s =>
  match m (plain s) with Ok (a, b) => Ok (a, s <| plain := b |>) | Fail e => Fail e end.

Definition channel_end (i : nat) : M tls_sys tls_end :=
  l ← gets tls_channels; match l !! i with Some e => mret e | None => fail OutOfBounds end.
Definition socket_end (k : nat) : M tls_sys tls_end :=
  l ← gets tls_sockets; match l !! k with Some e => mret e | None => fail OutOfBounds end.
Definition set_channel_end (i : nat) (f : tls_end -> tls_end) : M tls_sys unit :=
  _ ← channel_end i; modify (fun s => s <| tls_channels ::= alter f i |>).
Definition set_socket_end (k : nat) (f : tls_end -> tls_end) : M tls_sys unit :=
  _ ← socket_end k; modify (fun s => s <| tls_sockets ::= alter f k |>).

(** The pointers to the TLS configuration all point to the one of the handle. *)
Definition tls_config : M tls_sys rasta_config_tls := gets (fun s => tls (config (plain s))).

(* transport/dtls.c is_dtls_server *)
Definition is_dtls_server (cfg : rasta_config_tls) : bool :=
  match cert_path cfg, key_path cfg with Some _, Some _ => true | _, _ => false end.

Section Tls.
Context `{WolfSSL}.

Definition wolf (c : wolf_call) : M tls_sys wolf_result :=
  l ← gets log;
  let r := wolfSSL l c in
  _ ← modify (fun s => s <| log ::= fun l => l ++ [(c, r)] |>);
  mret r.
Definition wolf_status (c : wolf_call) : M tls_sys Z := r ← wolf c; mret (status r).
Definition wolf_ignore (c : wolf_call) : M tls_sys unit := _ ← wolf c; mret tt.
Definition wolf_require (c : wolf_call) : M tls_sys unit :=
  r ← wolf_status c; if r =? SSL_SUCCESS then mret tt else fail AbortCalled.
(** A pointer that must not be NULL. *)
Definition wolf_pointer (c : wolf_call) : M tls_sys Z :=
  r ← wolf_status c; if r =? 0 then fail AbortCalled else mret r.

(** ** ssl_utils.c *)

(* transport/ssl_utils.c wolfssl_initialize_if_necessary *)
Definition wolfssl_initialize_if_necessary : M tls_sys unit :=
  b ← gets wolfssl_initialized;
  when (negb b) (_ ← modify (fun s => s <| wolfssl_initialized := true |>); wolf_ignore WolfInit).

(* transport/ssl_utils.c wolfssl_start_server *)
Definition wolfssl_start_server (k : nat) (server_method : wolf_method) : M tls_sys unit :=
  cfg ← tls_config;
  _ ← wolfssl_initialize_if_necessary;
  x ← wolf_status (CtxNew server_method);
  _ ← set_socket_end k (fun e => e <| ctx := x |>);
  if x =? 0 then fail AbortCalled
  else
    match ca_cert_path cfg, cert_path cfg, key_path cfg with
    | Some ca_cert, Some cert, Some key =>
        _ ← wolf_require (CtxLoadVerify x ca_cert);
        _ ← wolf_require (CtxUseCertificate x cert);
        wolf_require (CtxUsePrivateKey x key)
    | _, _, _ => fail AbortCalled
    end.

(** [store] is the assignment to the context behind the first parameter. *)
(* transport/ssl_utils.c wolfssl_start_client *)
Definition wolfssl_start_client (store : Z -> M tls_sys unit) (client_method : wolf_method) : M tls_sys unit :=
  cfg ← tls_config;
  _ ← wolfssl_initialize_if_necessary;
  x ← wolf_status (CtxNew client_method);
  _ ← store x;
  if x =? 0 then fail AbortCalled
  else
    match ca_cert_path cfg with
    | None => fail AbortCalled
    | Some ca_cert =>
        _ ← wolf_require (CtxLoadVerify x ca_cert);
        match cert_path cfg, key_path cfg with
        | Some cert, Some key => _ ← wolf_require (CtxUseCertificate x cert); wolf_require (CtxUsePrivateKey x key)
        | _, _ => mret tt
        end
    end.

(* transport/ssl_utils.c:21-25 wolfssl_start_dtls_server *)
Definition new_socket_session (k : nat) : M tls_sys Z :=
  so ← socket_end k;
  p ← wolf_status (SslNew (ctx so));
  _ ← set_socket_end k (fun e => e <| ssl := p |>);
  if p =? 0 then fail AbortCalled else mret p.

(* transport/ssl_utils.c:27-28 wolfssl_start_dtls_server *)
Definition attach_socket_session (k : nat) (p : Z) : M tls_sys unit :=
  so ← on_plain (socket_at k);
  _ ← wolf_ignore (SslSetFd p (so_file_descriptor so));
  set_socket_end k (fun e => e <| tls_state := RASTA_TLS_CONNECTION_READY |>).

(* transport/ssl_utils.c wolfssl_start_dtls_server *)
Definition wolfssl_start_dtls_server (k : nat) : M tls_sys unit :=
  _ ← wolfssl_start_server k DTLSv1_2_server;
  p ← new_socket_session k;
  attach_socket_session k p.

(* transport/ssl_utils.c wolfssl_start_tls_server *)
Definition wolfssl_start_tls_server (k : nat) : M tls_sys unit := wolfssl_start_server k TLSv1_3_server.

(* transport/ssl_utils.c wolfssl_start_dtls_client *)
Definition wolfssl_start_dtls_client (k : nat) : M tls_sys unit :=
  _ ← wolfssl_start_client (fun x => set_socket_end k (fun e => e <| ctx := x |>)) DTLSv1_2_client;
  p ← new_socket_session k;
  cfg ← tls_config;
  _ ← match tls_hostname cfg with [] => mret tt | host => wolf_require (SslCheckDomain p host) end;
  attach_socket_session k p.

(* transport/ssl_utils.c wolfssl_start_tls_client *)
Definition wolfssl_start_tls_client (i : nat) : M tls_sys unit :=
  wolfssl_start_client (fun x => set_channel_end i (fun e => e <| ctx := x |>)) TLSv1_3_client.

(* transport/ssl_utils.c set_socket_async *)
Definition set_socket_async (wolfssl_async_method : wolf_call) : M tls_sys unit :=
  socket_flags ← on_plain (syscall_now SysFcntl);
  if socket_flags <? 0 then fail AbortCalled
  else
    r ← on_plain (syscall_now SysFcntl);
    if negb (r =? 0) then fail AbortCalled else wolf_ignore wolfssl_async_method.

(* transport/ssl_utils.c set_dtls_async *)
Definition set_dtls_async (p : Z) : M tls_sys unit := set_socket_async (SslDtlsNonblock p).
(* transport/ssl_utils.c set_tls_async *)
Definition set_tls_async (p : Z) : M tls_sys unit := set_socket_async (SslNonblock p).

(* transport/ssl_utils.c wolfssl_send *)
Definition wolfssl_send (p : Z) (message : list Z) : M tls_sys unit :=
  r ← wolf_status (SslWrite p message (s32 (zlen message)));
  if negb (r =? s32 (zlen message)) then fail AbortCalled else mret tt.

(* transport/ssl_utils.c wolfssl_send_tls *)
Definition wolfssl_send_tls (p : Z) (message : list Z) : M tls_sys unit := wolfssl_send p message.

(** As many bytes as there are, up to [max_buffer_len]: what the last call
    returned, and the bytes of all calls together. *)
(* transport/ssl_utils.c:198-207 wolfssl_receive_tls *)
Fixpoint read_loop (fuel : nat) (p : Z) (max_buffer_len : Z) (received : list Z) : M tls_sys (Z * list Z) :=
  r ← wolf (SslRead p (s32 max_buffer_len));
  let receive_len := status r in
  if receive_len <? 0 then mret (receive_len, received)
  else
    let max_buffer_len := u64 (max_buffer_len - receive_len) in
    let received := received ++ payload r in
    if (0 <? receive_len) && negb (max_buffer_len =? 0) then
      match fuel with
      | O => fail OutOfFuel
      | S fuel => read_loop fuel p max_buffer_len received
      end
    else mret (receive_len, received).

(** The buffer keeps what was read before the peer closed. *)
(* transport/ssl_utils.c wolfssl_receive_tls *)
Definition wolfssl_receive_tls (p : Z) (max_buffer_len : Z) : M tls_sys (Z * list Z) :=
  '(receive_len, received) ← read_loop (Z.to_nat max_buffer_len) p max_buffer_len [];
  if receive_len <? 0 then
    readErr ← wolf_status (SslGetError p);
    if readErr =? SOCKET_PEER_CLOSED_E then mret (-1, received)
    else if negb (readErr =? SSL_ERROR_WANT_READ) && negb (readErr =? SSL_ERROR_WANT_WRITE) then fail AbortCalled
    else mret (zlen received, received)
  else mret (zlen received, received).

Definition free_session (e : tls_end) : M tls_sys unit :=
  _ ← wolf_ignore (SslSetFd (ssl e) 0);
  _ ← wolf_ignore (SslShutdown (ssl e));
  _ ← wolf_ignore (SslFree (ssl e));
  wolf_ignore (CtxFree (ctx e)).

(* transport/ssl_utils.c wolfssl_cleanup_channel *)
Definition wolfssl_cleanup_channel (i : nat) : M tls_sys unit :=
  _ ← set_channel_end i (fun e => e <| tls_state := RASTA_TLS_CONNECTION_CLOSED |>);
  e ← channel_end i;
  _ ← free_session e;
  set_channel_end i (fun e => e <| ctx := 0 |> <| ssl := 0 |>).

(* transport/ssl_utils.c wolfssl_cleanup_socket *)
Definition wolfssl_cleanup_socket (k : nat) : M tls_sys unit :=
  _ ← set_socket_end k (fun e => e <| tls_state := RASTA_TLS_CONNECTION_CLOSED |>);
  e ← socket_end k;
  _ ← free_session e;
  set_socket_end k (fun e => e <| ctx := 0 |> <| ssl := 0 |>).

(* transport/ssl_utils.c:248-248 SHA256_BUFFER_LENGTH_BYTES *)
Definition SHA256_BUFFER_LENGTH_BYTES : Z := 64.

(* transport/ssl_utils.c generate_certificate_digest *)
Definition generate_certificate_digest (peer_cert : Z) : M tls_sys (list Z) :=
  _ ← wolf_pointer (X509Der peer_cert);
  r ← wolf (X509Digest peer_cert);
  if SHA256_BUFFER_LENGTH_BYTES <? zlen (payload r) then fail OutOfBounds
  else if negb (status r =? SSL_SUCCESS) then fail AbortCalled
  else mret (payload r).

(* transport/ssl_utils.c tls_pin_certificate *)
Definition tls_pin_certificate (p : Z) (peer_tls_cert_path : option (list Z)) : M tls_sys unit :=
  match peer_tls_cert_path with
  | None => mret tt
  | Some path =>
      peer_cert ← wolf_pointer (SslPeerCertificate p);
      pinned_cert ← wolf_pointer (X509Load path);
      peer_digest ← generate_certificate_digest peer_cert;
      pinned_digest ← generate_certificate_digest pinned_cert;
      if negb (zlen peer_digest =? zlen pinned_digest) then fail AbortCalled
      else if negb (bool_decide (peer_digest = pinned_digest)) then fail AbortCalled
      else _ ← wolf_ignore (X509Free pinned_cert); wolf_ignore (X509Free peer_cert)
  end.

(* transport/ssl_utils.c wolfssl_send_dtls *)
Definition wolfssl_send_dtls (i : nat) (message : list Z) (receiver : list Z * Z) : M tls_sys unit :=
  e ← channel_end i;
  _ ← when (negb (bool_decide (tls_state e = RASTA_TLS_CONNECTION_ESTABLISHED)))
    (_ ← wolf_ignore (SslSetPeer (ssl e) receiver);
     _ ← wolf_require (SslConnect (ssl e));
     cfg ← tls_config;
     _ ← tls_pin_certificate (ssl e) (peer_tls_cert_path cfg);
     _ ← set_channel_end i (fun e => e <| tls_state := RASTA_TLS_CONNECTION_ESTABLISHED |>);
     set_dtls_async (ssl e));
  wolfssl_send (ssl e) message.

End Tls.
