(* ===== verification/TlsTransport.v ===== *)
(** * The transports over TLS and DTLS (src/c/transport/tls.c, dtls.c, and tcp_base.c, udp_base.c in these builds)

    The functions of the transport interface as the builds with ENABLE_TLS have
    them, and [channel_accept_event] with the fields it hands to the channel.  The
    steps that the layers above take are the relation of TlsSafety. *)

From stdpp Require Import base numbers list.
From Stdlib Require Import ZArith Lia.
From S2P Require Import Prelude.
From S2P Require Import World.
From S2P Require Import Config.
From S2P Require Import State.
From S2P Require Import Transport.
From S2P Require Import Tls.

Local Open Scope Z_scope.
Local Open Scope record_scope.

Section TlsTransport.
Context `{WolfSSL}.

(** ** TLS over TCP *)

(* transport/tls.c tcp_listen *)
Definition tls_tcp_listen (k : nat) : M tls_sys unit := _ ← on_plain tcp_listen; wolfssl_start_tls_server k.

(* tcp_base.c transport_listen *)
Definition tls_transport_listen (k : nat) : M tls_sys unit :=
  _ ← tls_tcp_listen k;
  on_plain (set_socket k (fun so => so <| so_accept_event ::= enable_fd_event |>)).

(* transport/tls.c tcp_accept *)
Definition tls_tcp_accept (k : nat) : M tls_sys Z :=
  socket_fd ← on_plain (syscall_now SysAccept);
  if socket_fd <? 0 then fail AbortCalled
  else
    p ← new_socket_session k;
    _ ← wolf_ignore (SslSetFd p socket_fd);
    _ ← set_socket_end k (fun e => e <| tls_state := RASTA_TLS_CONNECTION_READY |>);
    r ← wolf_status (SslAccept p);
    if negb (r =? SSL_SUCCESS) then _ ← wolf_ignore (SslGetError p); fail AbortCalled
    else
      cfg ← tls_config;
      _ ← tls_pin_certificate p (peer_tls_cert_path cfg);
      _ ← set_tls_async p;
      mret socket_fd.

(* tcp_base.c transport_accept *)
Definition tls_transport_accept (k : nat) : M tls_sys (Z * (list Z * Z)) :=
  fd ← tls_tcp_accept k;
  r ← on_plain (syscall_now SysGetpeername);
  if negb (r =? 0) then fail AbortCalled
  else addr ← on_plain (gets (fun s => peer (env s) fd)); mret (fd, addr).

(** The peer that is not known loses its descriptor, not its session. *)
(* transport/events.c channel_accept_event *)
Definition tls_channel_accept_event (k : nat) : M tls_sys Z :=
  '(accepted, addr) ← tls_transport_accept k;
  channel ← on_plain (gets (fun s => find_channel_by_ip_address s addr));
  match channel with
  | Some i =>
      _ ← on_plain (set_channel i (fun c => c <| file_descriptor := accepted |>
             <| receive_event ::= (fun e => e <| fd := accepted |>) |>
             <| connected := true |> <| associated_socket := Some k |>));
      so ← socket_end k;
      _ ← set_channel_end i (fun _ => mkTlsEnd (ctx so) (ssl so) RASTA_TLS_CONNECTION_READY);
      _ ← on_plain (set_channel i (fun c => c <| receive_event ::= enable_fd_event |>));
      mret 0
  | None => _ ← on_plain (syscall_now SysClose); mret 0
  end.

(** The session of a connected channel: [false] if it cannot be set up. *)
(* transport/tls.c:168-202 tcp_connect *)
Definition tls_handshake (i : nat) (p : Z) : M tls_sys bool :=
  cfg ← tls_config;
  checked ← match tls_hostname cfg with
            | [] => mret true
            | host => r ← wolf_status (SslCheckDomain p host); mret (r =? SSL_SUCCESS)
            end;
  if negb checked then mret false
  else
    c ← on_plain (channel_at i);
    r ← wolf_status (SslSetFd p (file_descriptor c));
    if negb (r =? SSL_SUCCESS) then mret false
    else
      _ ← wolf_ignore (SslKeepArrays p);
      r ← wolf_status (SslConnect p);
      if negb (r =? SSL_SUCCESS) then _ ← wolf_ignore (SslGetError p); mret false
      else
        _ ← tls_pin_certificate p (peer_tls_cert_path cfg);
        _ ← set_tls_async p;
        mret true.

(** After a failure the session that was created stays with the channel. *)
(* transport/tls.c tcp_connect *)
Definition tls_tcp_connect (i : nat) : M tls_sys Z :=
  a ← on_plain (syscall_now SysInetAton);
  if a =? 0 then fail AbortCalled
  else
    r ← on_plain (syscall_now SysConnect);
    if r <? 0 then _ ← on_plain (set_channel i (fun c => c <| connected := false |>)); mret 1
    else
      e ← channel_end i;
      _ ← when (ctx e =? 0) (wolfssl_start_tls_client i);
      e ← channel_end i;
      p ← wolf_status (SslNew (ctx e));
      _ ← set_channel_end i (fun e => e <| ssl := p |>);
      if p =? 0 then _ ← wolf_ignore (SslGetError p); mret 1
      else
        ok ← tls_handshake i p;
        if negb ok then mret 1
        else _ ← on_plain (set_channel i (fun c => c <| connected := true |>)); mret 0.

(* tcp_base.c transport_connect *)
Definition tls_transport_connect (k i : nat) : M tls_sys Z :=
  so ← on_plain (socket_at k);
  _ ← on_plain (set_channel i (fun c => c <| file_descriptor := so_file_descriptor so |> <| associated_socket := Some k |>));
  r ← tls_tcp_connect i;
  if negb (r =? 0) then mret (-1)
  else
    _ ← on_plain (set_channel i (fun c => c <| receive_event ::= fun e => enable_fd_event (e <| fd := file_descriptor c |>) |>));
    mret 0.

(* tcp_base.c transport_redial *)
Definition tls_transport_redial (i : nat) : M tls_sys Z :=
  c ← on_plain (channel_at i);
  match associated_socket c with
  | None => fail NullDeref
  | Some k =>
      file_descriptor ← on_plain bsd_create_socket;
      _ ← on_plain (set_socket k (fun so => so <| so_file_descriptor := file_descriptor |>));
      so ← on_plain (socket_at k);
      ip_data ← on_plain (gets (fun s => connections (redundancy (config s)) !! Z.to_nat (so_id so)));
      match ip_data with
      | None => fail OutOfBounds
      | Some ip_data =>
          _ ← on_plain (tcp_transport_bind k (ip ip_data) (u16 (port ip_data)));
          r ← tls_transport_connect k i;
          if negb (r =? 0) then mret (-1)
          else
            _ ← on_plain (set_socket k (fun so => so <| so_receive_event ::= (fun e => e <| fd := file_descriptor |>) |>
                   <| so_accept_event ::= (fun e => e <| fd := file_descriptor |>) |>));
            mret 0
      end
  end.

(* transport/tls.c tcp_close *)
Definition tls_tcp_close (i : nat) : M tls_sys unit :=
  _ ← wolfssl_cleanup_channel i;
  c ← on_plain (channel_at i);
  on_plain (bsd_close (file_descriptor c)).

(* tcp_base.c transport_close_channel *)
Definition tls_transport_close_channel (i : nat) : M tls_sys unit :=
  c ← on_plain (channel_at i);
  _ ← when (connected c)
    (_ ← tls_tcp_close i;
     on_plain (set_channel i (fun c => c <| file_descriptor := -1 |> <| connected := false |>)));
  on_plain (set_channel i (fun c => c <| receive_event ::= disable_fd_event |>)).

(* transport/tls.c tcp_send *)
Definition tls_tcp_send (i : nat) (message : list Z) : M tls_sys unit :=
  e ← channel_end i; wolfssl_send_tls (ssl e) message.

(* tcp_base.c send_callback *)
Definition tls_send_callback (data_to_send : list Z) (i : nat) : M tls_sys unit := tls_tcp_send i data_to_send.

(* transport/tls.c tcp_receive *)
Definition tls_tcp_receive (i : nat) (max_buffer_len : Z) : M tls_sys (Z * list Z) :=
  e ← channel_end i; wolfssl_receive_tls (ssl e) max_buffer_len.

(* tcp_base.c receive_callback *)
Definition tls_receive_callback (i : nat) : M tls_sys (Z * list Z) := tls_tcp_receive i MAX_DEFER_QUEUE_MSG_SIZE.

(** ** DTLS over UDP *)

(* transport/dtls.c get_client_addr_from_socket *)
Definition get_client_addr_from_socket : M tls_sys (list Z * Z) :=
  n ← on_plain (gets (fun s => calls (env s)));
  received_bytes ← on_plain (syscall_now SysRecv);
  if received_bytes <? 0 then fail AbortCalled else gets (fun s => peeked s n).

(* transport/dtls.c wolfssl_accept *)
Definition wolfssl_accept (k : nat) : M tls_sys unit :=
  _ ← get_client_addr_from_socket;
  r ← on_plain (syscall_now SysConnect);
  if negb (r =? 0) then fail AbortCalled
  else
    so ← socket_end k;
    r ← wolf_status (SslAccept (ssl so));
    if negb (r =? SSL_SUCCESS) then _ ← wolf_ignore (SslGetError (ssl so)); fail AbortCalled
    else
      cfg ← tls_config;
      _ ← tls_pin_certificate (ssl so) (peer_tls_cert_path cfg);
      set_dtls_async (ssl so).

(** A channel that connected tells its socket. *)
(* transport/dtls.c:70-73 wolfssl_receive_dtls *)
Definition adopt_channel_session (k : nat) (channel : option nat) : M tls_sys unit :=
  match channel with
  | None => mret tt
  | Some i =>
      e ← channel_end i;
      when (bool_decide (tls_state e = RASTA_TLS_CONNECTION_ESTABLISHED))
        (set_socket_end k (fun so => so <| tls_state := RASTA_TLS_CONNECTION_ESTABLISHED |> <| ssl := ssl e |>))
  end.

(* transport/dtls.c:76-84 wolfssl_receive_dtls *)
Definition accept_dtls (k : nat) (channel : option nat) : M tls_sys unit :=
  _ ← wolfssl_accept k;
  _ ← set_socket_end k (fun so => so <| tls_state := RASTA_TLS_CONNECTION_ESTABLISHED |>);
  so ← socket_end k;
  match channel with
  | None => mret tt
  | Some i => set_channel_end i (fun e => e <| tls_state := tls_state so |> <| ssl := ssl so |>)
  end.

(* transport/dtls.c:88-105 wolfssl_receive_dtls *)
Definition read_dtls (p : Z) (max_buffer_len : Z) : M tls_sys (list Z) :=
  '(receive_len, received) ← read_loop (Z.to_nat max_buffer_len) p max_buffer_len [];
  if receive_len <? 0 then
    readErr ← wolf_status (SslGetError p);
    if negb (readErr =? SSL_ERROR_WANT_READ) && negb (readErr =? SSL_ERROR_WANT_WRITE) then fail AbortCalled
    else mret received
  else mret received.

(* transport/dtls.c wolfssl_receive_dtls *)
Definition wolfssl_receive_dtls (k : nat) (max_buffer_len : Z) : M tls_sys (Z * list Z * (list Z * Z)) :=
  sender ← get_client_addr_from_socket;
  channel ← on_plain (gets (fun s => find_channel_by_ip_address s sender));
  _ ← adopt_channel_session k channel;
  so ← socket_end k;
  match tls_state so with
  | RASTA_TLS_CONNECTION_READY => _ ← accept_dtls k channel; mret (0, [], sender)
  | RASTA_TLS_CONNECTION_ESTABLISHED =>
      received ← read_dtls (ssl so) max_buffer_len; mret (zlen received, received, sender)
  | RASTA_TLS_CONNECTION_CLOSED => mret (0, [], sender)
  end.

(* transport/dtls.c handle_tls_mode *)
Definition handle_tls_mode (k : nat) : M tls_sys unit :=
  cfg ← tls_config;
  if is_dtls_server cfg then wolfssl_start_dtls_server k else wolfssl_start_dtls_client k.

(* udp_base.c transport_bind *)
Definition dtls_transport_bind (k : nat) (ip : list Z) (port : Z) : M tls_sys bool :=
  bound ← on_plain (so ← socket_at k; bsd_bind_device (so_file_descriptor so) port ip);
  if bound : bool then _ ← handle_tls_mode k; mret true else mret false.

(* udp_base.c transport_connect *)
Definition dtls_transport_connect (k i : nat) : M tls_sys Z :=
  r ← on_plain (udp_transport_connect k i);
  so ← socket_end k;
  _ ← set_channel_end i (fun _ => mkTlsEnd (ctx so) (ssl so) RASTA_TLS_CONNECTION_READY);
  mret r.

(* transport/dtls.c udp_close *)
Definition dtls_udp_close (k : nat) : M tls_sys unit :=
  _ ← wolfssl_cleanup_socket k;
  so ← on_plain (socket_at k);
  on_plain (bsd_close (so_file_descriptor so)).

(* udp_base.c transport_close_socket *)
Definition dtls_transport_close_socket (k : nat) : M tls_sys unit :=
  _ ← dtls_udp_close k;
  on_plain (set_socket k (fun so => so <| so_file_descriptor := -1 |> <| so_receive_event ::= disable_fd_event |>)).

(* transport/dtls.c udp_send_sockaddr *)
Definition dtls_udp_send_sockaddr (i : nat) (message : list Z) (receiver : list Z * Z) : M tls_sys unit :=
  wolfssl_send_dtls i message receiver.

(* transport/dtls.c udp_send *)
Definition dtls_udp_send (i : nat) (message : list Z) (host : list Z) (port : Z) : M tls_sys unit :=
  receiver ← on_plain (host_port_to_sockaddr host port); dtls_udp_send_sockaddr i message receiver.

(* udp_base.c send_callback *)
Definition dtls_send_callback (data_to_send : list Z) (i : nat) : M tls_sys unit :=
  c ← on_plain (channel_at i);
  dtls_udp_send i data_to_send (remote_ip_address c) (remote_port c).

(* udp_base.c receive_callback *)
Definition dtls_receive_callback (k : nat) : M tls_sys (Z * list Z * (list Z * Z)) :=
  wolfssl_receive_dtls k MAX_DEFER_QUEUE_MSG_SIZE.

(* transport/dtls.c is_dtls_conn_ready *)
Definition is_dtls_conn_ready (e : tls_end) : bool := bool_decide (tls_state e = RASTA_TLS_CONNECTION_READY).

End TlsTransport.
