(* ===== verification/TlsLog.v ===== *)
(** * Sessions in the log of wolfSSL

    A session is what happened to a pointer since [wolfSSL_new] returned it.  The
    predicates below say of a log that a session was created from a context that
    verifies against the configured certificate authority, that its handshake
    succeeded and its peer has the pinned certificate; what the helpers of
    ssl_utils.c add to the log is stated with them.  Most code may end the process,
    so that the specifications are those of [wlp]. *)

From stdpp Require Import base numbers list.
From Stdlib Require Import ZArith Lia.
From S2P Require Import Prelude.
From S2P Require Import World.
From S2P Require Import Config.
From S2P Require Import State.
From S2P Require Import Transport.
From S2P Require Import Tls.
From S2P Require Import TlsTransport.

Local Open Scope Z_scope.
Local Open Scope record_scope.

Section Log.
Context `{WolfSSL}.
Implicit Types (l : wolf_log) (cfg : rasta_config_tls).

(** ** Logs *)

(** The entry is not about the life of [p]. *)
Definition spares (p : Z) (e : wolf_call * wolf_result) : Prop :=
  match e.1 with SslFree q => q <> p | SslNew _ => status e.2 <> p | _ => True end.

(** The object [p] was created and not freed. *)
Definition live (l : wolf_log) (p : Z) : Prop :=
  exists l1 l2 x r, l = l1 ++ (SslNew x, r) :: l2 /\ status r = p /\ Forall (spares p) l2.

Definition succeeded (c : wolf_call) (l : wolf_log) : Prop := exists r, (c, r) ∈ l /\ status r = SSL_SUCCESS.

(** The context [x] verifies peers against the configured authority. *)
Definition loaded cfg l (x : Z) : Prop := exists ca, ca_cert_path cfg = Some ca /\ succeeded (CtxLoadVerify x ca) l.

(** What happened to the session [p] since it was created. *)
Definition since cfg l (p : Z) (l2 : wolf_log) : Prop :=
  exists l1 x r, l = l1 ++ (SslNew x, r) :: l2 /\ status r = p /\ p <> 0 /\ loaded cfg l1 x /\ Forall (spares p) l2.

Definition host_checked cfg (p : Z) l : Prop :=
  match tls_hostname cfg with [] => True | host => succeeded (SslCheckDomain p host) l end.

(** The certificates of the peer and of the file have the same digest. *)
Definition same_digest (p : Z) (path : list Z) (l : wolf_log) : Prop :=
  exists peer pinned r1 r2 r3 r4 d1 d2,
    l = [(SslPeerCertificate p, r1); (X509Load path, r2); (X509Der peer, r3); (X509Digest peer, d1);
         (X509Der pinned, r4); (X509Digest pinned, d2)] /\
    status r1 = peer /\ status r2 = pinned /\ status d1 = SSL_SUCCESS /\ status d2 = SSL_SUCCESS /\ payload d1 = payload d2.
Definition pinned cfg (p : Z) l : Prop :=
  match peer_tls_cert_path cfg with
  | None => True
  | Some path => exists l1 l2 l3, l = l1 ++ l2 ++ l3 /\ same_digest p path l2
  end.

(** The handshake: as a server, or as a client that checked the name of the host;
    [exempt] clients need not. *)
Definition shaken (exempt : bool) cfg (p : Z) l : Prop :=
  succeeded (SslAccept p) l \/ succeeded (SslConnect p) l /\ (exempt = true \/ host_checked cfg p l).

Definition secured exempt cfg l (p : Z) : Prop := exists l2, since cfg l p l2 /\ shaken exempt cfg p l2 /\ pinned cfg p l2.

(** Application data goes through secured sessions only. *)
Definition transfers (c : wolf_call) : option Z :=
  match c with SslWrite p _ _ | SslRead p _ => Some p | _ => None end.
Definition protected exempt cfg l : Prop := forall l1 c r l2 p, l = l1 ++ (c, r) :: l2 ->
  transfers c = Some p -> secured exempt cfg l1 p.

(** Entries that start, end and use no session. *)
Definition neutral (e : wolf_call * wolf_result) : bool :=
  match e.1 with SslNew _ | SslFree _ | SslWrite _ _ _ | SslRead _ _ => false | _ => true end.
(** Entries that start and end no session. *)
Definition lasting (e : wolf_call * wolf_result) : bool :=
  match e.1 with SslNew _ | SslFree _ => false | _ => true end.

Lemma neutral_lasting l : Forall (fun e => neutral e = true) l -> Forall (fun e => lasting e = true) l.
Proof. intros Hl. eapply Forall_impl; [exact Hl|]. by intros [[]]. Qed.
Lemma lasting_spares p l : Forall (fun e => lasting e = true) l -> Forall (spares p) l.
Proof. intros Hl. eapply Forall_impl; [exact Hl|]. by intros [[]]. Qed.

Lemma succeeded_mono c l l' : l ⊆ l' -> succeeded c l -> succeeded c l'.
Proof. intros Hl (r & Hr & Hs). exists r. auto. Qed.
Lemma succeeded_app c l l' : succeeded c l -> succeeded c (l ++ l').
Proof. apply succeeded_mono. intros e He. apply elem_of_app. by left. Qed.
Lemma succeeded_app_r c l l' : succeeded c l' -> succeeded c (l ++ l').
Proof. apply succeeded_mono. intros e He. apply elem_of_app. by right. Qed.
Lemma succeeded_last c l r : status r = SSL_SUCCESS -> succeeded c (l ++ [(c, r)]).
Proof. intros Hr. exists r. split; [|done]. apply elem_of_app. right. by apply list_elem_of_singleton. Qed.
Lemma loaded_app cfg l l' x : loaded cfg l x -> loaded cfg (l ++ l') x.
Proof. intros (ca & Hc & Hs). exists ca. split; [done|]. by apply succeeded_app. Qed.
Lemma host_checked_app cfg p l l' : host_checked cfg p l -> host_checked cfg p (l ++ l').
Proof. unfold host_checked. destruct (tls_hostname cfg); [done|apply succeeded_app]. Qed.
Lemma host_checked_app_r cfg p l l' : host_checked cfg p l' -> host_checked cfg p (l ++ l').
Proof. unfold host_checked. destruct (tls_hostname cfg); [done|apply succeeded_app_r]. Qed.
Lemma pinned_app cfg p l l' : pinned cfg p l -> pinned cfg p (l ++ l').
Proof.
  unfold pinned. destruct (peer_tls_cert_path cfg); [|done]. intros (l1 & l2 & l3 & -> & D).
  exists l1, l2, (l3 ++ l'). by rewrite <- !app_assoc.
Qed.
Lemma pinned_app_r cfg p l l' : pinned cfg p l' -> pinned cfg p (l ++ l').
Proof.
  unfold pinned. destruct (peer_tls_cert_path cfg); [|done]. intros (l1 & l2 & l3 & -> & D).
  exists (l ++ l1), l2, l3. by rewrite <- !app_assoc.
Qed.
Lemma shaken_app b cfg p l l' : shaken b cfg p l -> shaken b cfg p (l ++ l').
Proof.
  intros [A | [C [E|E]]]; [left; by apply succeeded_app|right; split; [by apply succeeded_app|by left]..|].
  right. split; [by apply succeeded_app|right; by apply host_checked_app].
Qed.

Lemma since_app cfg l l' p l2 : since cfg l p l2 -> Forall (spares p) l' -> since cfg (l ++ l') p (l2 ++ l').
Proof.
  intros (l1 & x & r & -> & Hr & Hp & Hx & Hs) Hl. exists l1, x, r. rewrite <- app_assoc.
  repeat split; try done. by apply Forall_app.
Qed.
Lemma since_live cfg l p l2 : since cfg l p l2 -> live l p /\ p <> 0.
Proof. intros (l1 & x & r & -> & Hr & Hp & Hx & Hs). split; [|done]. by exists l1, l2, x, r. Qed.
Lemma since_new cfg l x r : loaded cfg l x -> status r <> 0 -> since cfg (l ++ [(SslNew x, r)]) (status r) [].
Proof. intros Hx Hr. by exists l, x, r. Qed.

Lemma secured_app b cfg l l' p : secured b cfg l p -> Forall (spares p) l' -> secured b cfg (l ++ l') p.
Proof.
  intros (l2 & Hs & Hk & Hp) Hl. exists (l2 ++ l'). split; [by apply since_app|].
  split; [by apply shaken_app|by apply pinned_app].
Qed.
Lemma secured_live b cfg l p : secured b cfg l p -> live l p /\ p <> 0.
Proof. intros (l2 & Hs & _). by eapply since_live. Qed.

Lemma protected_nil b cfg : protected b cfg [].
Proof. intros l1 c r l2 p E. by destruct l1. Qed.
Lemma protected_snoc b cfg l c r : protected b cfg l -> (forall p, transfers c = Some p -> secured b cfg l p) ->
  protected b cfg (l ++ [(c, r)]).
Proof.
  intros Hp Hc l1 c' r' l2 p E Ht. destruct l2 as [|e l3 _] using rev_ind.
  - apply app_inj_tail in E as [-> [= -> ->]]. by apply Hc.
  - rewrite app_comm_cons, app_assoc in E. apply app_inj_tail in E as [-> _]. by eapply Hp.
Qed.
Lemma protected_neutral b cfg l l' : protected b cfg l -> Forall (fun e => neutral e = true) l' -> protected b cfg (l ++ l').
Proof.
  intros Hp Hl. revert l Hp. induction Hl as [|[c r] l' Hc Hl IH]; intros l Hp; [by rewrite app_nil_r|].
  rewrite cons_middle, app_assoc. apply IH, protected_snoc; [done|]. intros p Ht. by destruct c.
Qed.

End Log.

Abbreviation all_neutral l := (Forall (fun e => neutral e = true) l).

(** ** What the helpers do *)

Section Helpers.
Context `{WolfSSL}.
Implicit Types (l : wolf_log) (cfg : rasta_config_tls).

(** Only entries were added to the log; the outside world may have moved on. *)
Record quiet (s s' : tls_sys) (l : wolf_log) : Prop := {
  q_channels : tls_channels s' = tls_channels s;
  q_sockets : tls_sockets s' = tls_sockets s;
  q_chan : chan (plain s') = chan (plain s);
  q_mux : mux (plain s') = mux (plain s);
  q_config : config (plain s') = config (plain s);
  q_log : log s' = log s ++ l
}.

Lemma quiet_refl s : quiet s s [].
Proof. split; try done. by rewrite app_nil_r. Qed.
Lemma quiet_trans s1 s2 s3 l l' : quiet s1 s2 l -> quiet s2 s3 l' -> quiet s1 s3 (l ++ l').
Proof. intros [] []. split; try congruence. rewrite q_log1, q_log0. by rewrite app_assoc. Qed.
Lemma quiet_then s1 s2 s3 l : quiet s1 s2 l -> quiet s2 s3 [] -> quiet s1 s3 l.
Proof. rewrite <- (app_nil_r l) at 2. apply quiet_trans. Qed.
Lemma quiet_after s1 s2 s3 l : quiet s1 s2 [] -> quiet s2 s3 l -> quiet s1 s3 l.
Proof. apply (quiet_trans _ _ _ []). Qed.

Lemma wlp_wolf c Q s : (forall s' r, r = wolfSSL (log s) c -> quiet s s' [(c, r)] -> Q r s') -> wlp (wolf c) Q s.
Proof. intros HQ. unfold wlp, wolf, mbind, M_bind, gets, modify, mret, M_ret. by apply HQ. Qed.
Lemma wlp_status c Q s : (forall s' r, r = wolfSSL (log s) c -> quiet s s' [(c, r)] -> Q (status r) s') -> wlp (wolf_status c) Q s.
Proof. intros HQ. apply wlp_bind, wlp_wolf. intros s' r E D. by apply wlp_ret, HQ. Qed.
Lemma wlp_ignore c Q s : (forall s' r, quiet s s' [(c, r)] -> Q tt s') -> wlp (wolf_ignore c) Q s.
Proof. intros HQ. apply wlp_bind, wlp_wolf. intros s' r E D. by eapply wlp_ret, HQ. Qed.
Lemma wlp_require c Q s : (forall s' r, quiet s s' [(c, r)] -> status r = SSL_SUCCESS -> Q tt s') -> wlp (wolf_require c) Q s.
Proof.
  intros HQ. apply wlp_bind, wlp_status. intros s' r E D. destruct (Z.eqb_spec (status r) SSL_SUCCESS); [|apply wlp_fail].
  by eapply wlp_ret, HQ.
Qed.
Lemma wlp_pointer c Q s : (forall s' r, quiet s s' [(c, r)] -> status r <> 0 -> Q (status r) s') -> wlp (wolf_pointer c) Q s.
Proof.
  intros HQ. apply wlp_bind, wlp_status. intros s' r E D. destruct (Z.eqb_spec (status r) 0); [apply wlp_fail|].
  by eapply wlp_ret, HQ.
Qed.

(** The parts of the default build. *)
Lemma wlp_plain {A} (m : M sys A) Q s : wlp m (fun a b => Q a (s <| plain := b |>)) (plain s) -> wlp (on_plain m) Q s.
Proof. unfold wlp, on_plain. by destruct (m (plain s)) as [[]|]. Qed.
Lemma wlp_syscall c Q s : (forall s' r, quiet s s' [] -> Q r s') -> wlp (on_plain (syscall_now c)) Q s.
Proof.
  intros HQ. apply wlp_plain. unfold wlp, syscall_now, on_world, do_syscall. apply HQ.
  split; try done. by rewrite app_nil_r.
Qed.
Lemma wlp_tls_config Q s : Q (tls (config (plain s))) s -> wlp tls_config Q s.
Proof. done. Qed.

Lemma wlp_channel_end i Q s : (forall e, tls_channels s !! i = Some e -> Q e s) -> wlp (channel_end i) Q s.
Proof. intros HQ. apply wlp_bind, wlp_gets. destruct (_ !! _) eqn:E; [by apply wlp_ret, HQ|apply wlp_fail]. Qed.
Lemma wlp_socket_end k Q s : (forall e, tls_sockets s !! k = Some e -> Q e s) -> wlp (socket_end k) Q s.
Proof. intros HQ. apply wlp_bind, wlp_gets. destruct (_ !! _) eqn:E; [by apply wlp_ret, HQ|apply wlp_fail]. Qed.
Lemma wlp_set_channel_end i f Q s : (forall e, tls_channels s !! i = Some e -> Q tt (s <| tls_channels ::= alter f i |>)) ->
  wlp (set_channel_end i f) Q s.
Proof. intros HQ. apply wlp_bind, wlp_channel_end. intros e He. apply wlp_modify. by eapply HQ. Qed.
Lemma wlp_set_socket_end k f Q s : (forall e, tls_sockets s !! k = Some e -> Q tt (s <| tls_sockets ::= alter f k |>)) ->
  wlp (set_socket_end k f) Q s.
Proof. intros HQ. apply wlp_bind, wlp_socket_end. intros e He. apply wlp_modify. by eapply HQ. Qed.

Lemma wlp_initialize Q s : (forall s' l, quiet s s' l -> all_neutral l -> Q tt s') -> wlp wolfssl_initialize_if_necessary Q s.
Proof.
  intros HQ. apply wlp_bind, wlp_gets, wlp_when; intros _; [|by eapply HQ; [apply quiet_refl|constructor]].
  apply wlp_bind, wlp_modify, wlp_ignore. intros s' r D. apply (HQ _ [(WolfInit, r)]); [|by repeat constructor].
  destruct D. by split.
Qed.

Lemma wlp_async c Q s : neutral (c, mkResult 0 []) = true -> (forall s' l, quiet s s' l -> all_neutral l -> Q tt s') ->
  wlp (set_socket_async c) Q s.
Proof.
  intros Hc HQ. apply wlp_bind, wlp_syscall. intros s1 r1 D1. destruct (_ <? 0); [apply wlp_fail|].
  apply wlp_bind, wlp_syscall. intros s2 r2 D2. destruct (negb _); [apply wlp_fail|].
  apply wlp_ignore. intros s3 r3 D3. eapply (HQ _ [_]); [eapply quiet_after, quiet_after; eassumption|].
  by repeat constructor.
Qed.

(** The digest of a certificate is the last entry. *)
Lemma wlp_digest c Q s : (forall s' r d, quiet s s' [(X509Der c, r); (X509Digest c, d)] -> status d = SSL_SUCCESS ->
     Q (payload d) s') -> wlp (generate_certificate_digest c) Q s.
Proof.
  intros HQ. apply wlp_bind, wlp_pointer. intros s1 r1 D1 _. apply wlp_bind, wlp_wolf. intros s2 d _ D2.
  destruct (_ <? _); [apply wlp_fail|]. destruct (Z.eqb_spec (status d) SSL_SUCCESS); [|apply wlp_fail].
  apply wlp_ret, (HQ _ r1); [|done]. by apply (quiet_trans _ _ _ [_] [_] D1).
Qed.

Lemma wlp_pin p cfg Q s : (forall s' l, quiet s s' l -> all_neutral l -> pinned cfg p l -> Q tt s') ->
  wlp (tls_pin_certificate p (peer_tls_cert_path cfg)) Q s.
Proof.
  intros HQ. unfold tls_pin_certificate, pinned in *. destruct (peer_tls_cert_path cfg) as [path|].
  2:{ by eapply wlp_ret, HQ; [apply quiet_refl|constructor|]. }
  apply wlp_bind, wlp_pointer. intros s1 r1 D1 _. apply wlp_bind, wlp_pointer. intros s2 r2 D2 _.
  apply wlp_bind, wlp_digest. intros s3 r3 d1 D3 G1. apply wlp_bind, wlp_digest. intros s4 r4 d2 D4 G2.
  destruct (negb (zlen _ =? zlen _)); [apply wlp_fail|]. case_bool_decide as E; [|apply wlp_fail]. cbn [negb].
  apply wlp_bind, wlp_ignore. intros s5 r5 D5. apply wlp_ignore. intros s6 r6 D6.
  pose proof (quiet_trans _ _ _ _ _ (quiet_trans _ _ _ _ _ (quiet_trans _ _ _ _ _ D1 D2) D3) D4) as D.
  pose proof (quiet_trans _ _ _ _ _ D5 D6) as D'. eapply HQ; [exact (quiet_trans _ _ _ _ _ D D')|by repeat constructor|].
  exists []. do 2 eexists. split; [reflexivity|].
  exists (status r1), (status r2), r1, r2, r3, r4, d1, d2. by split.
Qed.

Lemma wlp_credentials x cert key Q s : (forall s' l, quiet s s' l -> all_neutral l -> Q tt s') ->
  wlp (_ ← wolf_require (CtxUseCertificate x cert); wolf_require (CtxUsePrivateKey x key)) Q s.
Proof.
  intros HQ. apply wlp_bind, wlp_require. intros s1 r1 D1 _. apply wlp_require. intros s2 r2 D2 _.
  eapply HQ; [exact (quiet_trans _ _ _ _ _ D1 D2)|by repeat constructor].
Qed.

(** A new context is stored, and verifies against the configured authority. *)
Lemma wlp_start_client store m Q s : (forall s1 x l1, quiet s s1 l1 -> all_neutral l1 ->
    wlp (store x) (fun _ s2 => forall s3 l2, quiet s2 s3 l2 -> all_neutral l2 ->
      loaded (tls (config (plain s))) l2 x -> Q tt s3) s1) ->
  wlp (wolfssl_start_client store m) Q s.
Proof.
  intros HQ. unfold wolfssl_start_client. apply wlp_bind, wlp_tls_config. set (cfg := tls (config (plain s))) in *.
  apply wlp_bind, wlp_initialize. intros s1 l1 D1 N1. apply wlp_bind, wlp_status. intros s2 r2 _ D2.
  apply wlp_bind. eapply wlp_mono.
  { eapply HQ; [exact (quiet_trans _ _ _ _ _ D1 D2)|]. apply Forall_app. split; [done|by repeat constructor]. }
  intros [] s3 HQ3. destruct (status r2 =? 0); [apply wlp_fail|].
  destruct (ca_cert_path cfg) as [ca|] eqn:Eca; [|apply wlp_fail].
  apply wlp_bind, wlp_require. intros s4 r4 D4 G4.
  assert (L : forall l, loaded cfg ([(CtxLoadVerify (status r2) ca, r4)] ++ l) (status r2)).
  { intros l. exists ca. split; [done|]. apply succeeded_app. by apply (succeeded_last _ []). }
  assert (Hdone : forall s5 l, quiet s4 s5 l -> all_neutral l -> Q tt s5).
  { intros s5 l D5 N5. eapply HQ3; [exact (quiet_trans _ _ _ _ _ D4 D5)| |apply L].
    apply Forall_app. split; [by repeat constructor|done]. }
  destruct (cert_path cfg), (key_path cfg); [by apply wlp_credentials|by eapply wlp_ret, Hdone; [apply quiet_refl|]..].
Qed.

Lemma wlp_start_server k m Q s : (forall x s1 l1 e, quiet s s1 l1 -> all_neutral l1 -> tls_sockets s !! k = Some e ->
    forall s2 l2, quiet (s1 <| tls_sockets ::= alter (fun e => e <| ctx := x |>) k |>) s2 l2 -> all_neutral l2 ->
      loaded (tls (config (plain s))) l2 x -> Q tt s2) ->
  wlp (wolfssl_start_server k m) Q s.
Proof.
  intros HQ. unfold wolfssl_start_server. apply wlp_bind, wlp_tls_config. set (cfg := tls (config (plain s))) in *.
  apply wlp_bind, wlp_initialize. intros s1 l1 D1 N1. apply wlp_bind, wlp_status. intros s2 r2 _ D2.
  pose proof (quiet_trans _ _ _ _ _ D1 D2) as D. assert (N : all_neutral (l1 ++ [(CtxNew m, r2)])).
  { apply Forall_app. split; [done|by repeat constructor]. }
  apply wlp_bind, wlp_set_socket_end. intros e He. rewrite (q_sockets _ _ _ D) in He.
  destruct (status r2 =? 0); [apply wlp_fail|].
  destruct (ca_cert_path cfg) as [ca|] eqn:Eca; [|apply wlp_fail].
  destruct (cert_path cfg) as [cert|]; [|apply wlp_fail]. destruct (key_path cfg) as [pkey|]; [|apply wlp_fail].
  apply wlp_bind, wlp_require. intros s4 r4 D4 G4. apply wlp_credentials. intros s5 l D5 N5.
  eapply (HQ (status r2) s2 _ e D N He); [exact (quiet_trans _ _ _ _ _ D4 D5)| |].
  - apply Forall_app. split; [by repeat constructor|done].
  - exists ca. split; [done|]. apply succeeded_app. by apply (succeeded_last _ []).
Qed.

End Helpers.
