(* ===== verification/TlsSafety.v ===== *)
(** * TLS protects what is sent and received

    The steps the layers above take at the transport interface of a TLS or DTLS
    build, as relations, and the invariant of all states they reach: application
    data goes through sessions only whose handshake succeeded and whose peer was
    checked, as the configuration asks.  What such a layer does between these steps
    leaves channels and sockets alone. *)

From stdpp Require Import base numbers list relations.
From Stdlib Require Import ZArith Lia.
From S2P Require Import Prelude.
From S2P Require Import World.
From S2P Require Import Config.
From S2P Require Import State.
From S2P Require Import Transport.
From S2P Require Import Sample.
From S2P Require Import Tls.
From S2P Require Import TlsTransport.
From S2P Require Import TlsLog.

Local Open Scope Z_scope.
Local Open Scope record_scope.

(** What the documentation of wolfSSL says: objects that are in use are not
    allocated again, NULL is no session, and a read fits its buffer. *)
Class WolfOk `{WolfSSL} : Prop := {
  new_fresh : forall l x, status (wolfSSL l (SslNew x)) <> 0 -> ~ live l (status (wolfSSL l (SslNew x)));
  null_connect : forall l, status (wolfSSL l (SslConnect 0)) <> SSL_SUCCESS;
  null_accept : forall l, status (wolfSSL l (SslAccept 0)) <> SSL_SUCCESS;
  read_fits : forall l p max, 0 <= max -> let r := wolfSSL l (SslRead p max) in
    status r <= max /\ (0 <= status r -> zlen (payload r) = status r)
}.

Abbreviation tchannels s := (transport_channels (chan (plain s))).
Abbreviation tsockets s := (transport_sockets (mux (plain s))).

Section Safety.
Context `{WolfOk}.
Implicit Types (l : wolf_log) (cfg : rasta_config_tls) (s : tls_sys).

(** ** Progress at one channel *)

(** Everything but channel [i] stays as it is; no application data is transferred,
    and no session but [x] ends. *)
Record progress (i : nat) (x : Z) s s' l : Prop := {
  pg_config : config (plain s') = config (plain s);
  pg_log : log s' = log s ++ l;
  pg_channels : forall j, j <> i -> tchannels s' !! j = tchannels s !! j;
  pg_ends : forall j, j <> i -> tls_channels s' !! j = tls_channels s !! j;
  pg_listening : forall k so' e', tsockets s' !! k = Some so' -> tls_sockets s' !! k = Some e' ->
    fd_enabled (so_accept_event so') = true ->
    exists so e, tsockets s !! k = Some so /\ tls_sockets s !! k = Some e /\ fd_enabled (so_accept_event so) = true /\
      ctx e' = ctx e;
  pg_silent : Forall (fun e => transfers e.1 = None) l;
  pg_spares : forall q, live (log s) q -> q <> 0 -> q <> x -> Forall (spares q) l
}.

Lemma live_app l l' q : live l q -> Forall (spares q) l' -> live (l ++ l') q.
Proof.
  intros (l1 & l2 & x & r & -> & Hr & Hs) Hl. exists l1, (l2 ++ l'), x, r. rewrite <- app_assoc.
  repeat split; try done. by apply Forall_app.
Qed.

Lemma progress_trans i x s1 s2 s3 l l' : progress i x s1 s2 l -> progress i x s2 s3 l' -> progress i x s1 s3 (l ++ l').
Proof.
  intros [A1 A2 A3 A4 A5 A6 A7] [B1 B2 B3 B4 B5 B6 B7]. split.
  - congruence.
  - by rewrite B2, A2, app_assoc.
  - intros j Hj. by rewrite B3, A3.
  - intros j Hj. by rewrite B4, A4.
  - intros k so' e' G1 G2 G3. destruct (B5 _ _ _ G1 G2 G3) as (so2 & e2 & G4 & G5 & G6 & ->). by apply A5 with so2.
  - by apply Forall_app.
  - intros q Hq Hz Hx. apply Forall_app. split; [auto|]. apply B7; [|done..]. rewrite A2. apply live_app; auto.
Qed.

Lemma progress_weaken i x s s' l : progress i 0 s s' l -> progress i x s s' l.
Proof. intros []. split; auto. Qed.

Lemma neutral_silent l : all_neutral l -> Forall (fun e => transfers e.1 = None) l.
Proof. intros Hl. eapply Forall_impl; [exact Hl|]. by intros [[]]. Qed.
Lemma neutral_spares q l : all_neutral l -> Forall (spares q) l.
Proof. intros Hl. apply lasting_spares. by apply neutral_lasting. Qed.

Lemma quiet_progress i s s' l : quiet s s' l -> all_neutral l -> progress i 0 s s' l.
Proof.
  intros [Q1 Q2 Q3 Q4 Q5 Q6] N. split; try done.
  - by rewrite Q3.
  - by rewrite Q1.
  - intros k so' e' G1 G2 G3. rewrite Q4 in G1. rewrite Q2 in G2. by exists so', e'.
  - by apply neutral_silent.
  - intros q _ _ _. by apply neutral_spares.
Qed.

(** A change of nothing but channel [i]. *)
Lemma channel_progress i s f : progress i 0 s (s <| plain ::= fun b => b <| chan ::= fun c => c <| transport_channels ::= alter f i |> |> |>) [].
Proof.
  split; try done; try by rewrite ?app_nil_r.
  - intros j Hj. by apply list_lookup_alter_ne.
  - intros k so' e' G1 G2 G3. by exists so', e'.
Qed.
Lemma end_progress i s f : progress i 0 s (s <| tls_channels ::= alter f i |>) [].
Proof.
  split; try done; try by rewrite ?app_nil_r.
  - intros j Hj. by apply list_lookup_alter_ne.
  - intros k so' e' G1 G2 G3. by exists so', e'.
Qed.

(** Sockets keep their context, and whether they listen. *)
Lemma alter_listening {A} (l : list A) k g j a' : alter g k l !! j = Some a' ->
  exists a, l !! j = Some a /\ (a' = a \/ a' = g a).
Proof.
  rewrite list_lookup_alter. case_decide.
  - intros (a & Ha & ->)%fmap_Some. subst. exists a. auto.
  - intros Ha. exists a'. auto.
Qed.
Lemma socket_progress i s k g : (forall so, fd_enabled (so_accept_event (g so)) = true -> fd_enabled (so_accept_event so) = true) ->
  progress i 0 s (s <| plain ::= fun b => b <| mux ::= fun m => m <| transport_sockets ::= alter g k |> |> |>) [].
Proof.
  intros Hg. split; try done; try by rewrite ?app_nil_r.
  intros j so' e' G1 G2 G3. apply alter_listening in G1 as (so & Hso & [-> | ->]); exists so, e'; auto.
Qed.
Lemma socket_end_progress i s k g : (forall e, ctx (g e) = ctx e) -> progress i 0 s (s <| tls_sockets ::= alter g k |>) [].
Proof.
  intros Hg. split; try done; try by rewrite ?app_nil_r.
  intros j so' e' G1 G2 G3. apply alter_listening in G2 as (e & He & [-> | ->]); exists so', e; auto.
Qed.

(** A session is created: no other session is touched. *)
Lemma new_progress i s s' x r : r = wolfSSL (log s) (SslNew x) -> quiet s s' [(SslNew x, r)] -> progress i 0 s s' [(SslNew x, r)].
Proof.
  intros Hr [Q1 Q2 Q3 Q4 Q5 Q6]. split; try done.
  - by rewrite Q3.
  - by rewrite Q1.
  - intros k so' e' G1 G2 G3. rewrite Q4 in G1. rewrite Q2 in G2. by exists so', e'.
  - by repeat constructor.
  - intros q Hq Hz _. repeat constructor. unfold spares. cbn. intros E. subst.
    by apply (new_fresh (log s) x).
Qed.

(** ** The invariant of TLS over TCP *)

Record tls_ok cfg s : Prop := {
  to_config : tls (config (plain s)) = cfg;
  to_protected : protected false cfg (log s);
  to_listening : forall k so e, tsockets s !! k = Some so -> tls_sockets s !! k = Some e ->
    fd_enabled (so_accept_event so) = true -> loaded cfg (log s) (ctx e);
  to_context : forall i e, tls_channels s !! i = Some e -> ctx e <> 0 -> loaded cfg (log s) (ctx e);
  to_secured : forall i c e, tchannels s !! i = Some c -> tls_channels s !! i = Some e -> connected c = true ->
    secured false cfg (log s) (ssl e);
  to_enabled : forall i c, tchannels s !! i = Some c -> fd_enabled (receive_event c) = true -> connected c = true;
  to_distinct : forall i j c d e e', i <> j -> tchannels s !! i = Some c -> tchannels s !! j = Some d ->
    tls_channels s !! i = Some e -> tls_channels s !! j = Some e' -> connected c = true -> connected d = true -> ssl e <> ssl e'
}.

(** Channel [i] after some progress from [s]: its session is new, if it is connected. *)
Record healthy cfg i s s' : Prop := {
  hl_context : forall e, tls_channels s' !! i = Some e -> ctx e <> 0 -> loaded cfg (log s') (ctx e);
  hl_session : forall c e, tchannels s' !! i = Some c -> tls_channels s' !! i = Some e -> connected c = true ->
    secured false cfg (log s') (ssl e) /\ ~ live (log s) (ssl e);
  hl_enabled : forall c, tchannels s' !! i = Some c -> fd_enabled (receive_event c) = true -> connected c = true
}.

Lemma protected_silent b cfg l l' : protected b cfg l -> Forall (fun e => transfers e.1 = None) l' -> protected b cfg (l ++ l').
Proof.
  intros Hp Hl. revert l Hp. induction Hl as [|[c r] l' Hc Hl IH]; intros l Hp; [by rewrite app_nil_r|].
  rewrite cons_middle, app_assoc. apply IH, protected_snoc; [done|]. cbn in Hc. by rewrite Hc.
Qed.

Lemma tls_ok_progress cfg i x s s' l : tls_ok cfg s -> progress i x s s' l -> healthy cfg i s s' ->
  (forall j c e, j <> i -> tchannels s !! j = Some c -> tls_channels s !! j = Some e -> connected c = true -> ssl e <> x) ->
  tls_ok cfg s'.
Proof.
  intros [T1 T2 T3 T4 T5 T6 T7] [P1 P2 P3 P4 P5 P6 P7] [Hctx Hh He] Hx.
  assert (Hlive : forall j c e, j <> i -> tchannels s !! j = Some c -> tls_channels s !! j = Some e -> connected c = true ->
    live (log s) (ssl e) /\ secured false cfg (log s') (ssl e)).
  { intros j c e Hj Hc Hee Hco. pose proof (T5 j c e Hc Hee Hco) as S. destruct (secured_live _ _ _ _ S) as [L Z].
    split; [done|]. rewrite P2. apply secured_app; [done|]. apply P7; [done|done|by eapply Hx]. }
  split.
  - by rewrite P1.
  - rewrite P2. by apply protected_silent.
  - intros k so' e' G1 G2 G3. destruct (P5 _ _ _ G1 G2 G3) as (so & e & G4 & G5 & G6 & ->). rewrite P2. apply loaded_app. by eapply T3.
  - intros j e Hj Hz. destruct (decide (j = i)) as [-> | Hne].
    + by eapply Hctx.
    + rewrite P4 in Hj by done. rewrite P2. apply loaded_app. by eapply T4.
  - intros j c e Hc Hj Hco. destruct (decide (j = i)) as [-> | Hne].
    + by eapply Hh.
    + rewrite P3 in Hc by done. rewrite P4 in Hj by done. by eapply Hlive.
  - intros j c Hc Hen. destruct (decide (j = i)) as [-> | Hne]; [by eapply He|]. rewrite P3 in Hc by done. by eapply T6.
  - assert (Hone : forall j c d e e', j <> i -> tchannels s' !! i = Some c -> tchannels s' !! j = Some d ->
      tls_channels s' !! i = Some e -> tls_channels s' !! j = Some e' -> connected c = true -> connected d = true -> ssl e <> ssl e').
    { intros j c d e e' Hj C1 C2 E1 E2 Co1 Co2 E. rewrite P3 in C2 by done. rewrite P4 in E2 by done.
      destruct (Hh c e C1 E1 Co1) as [_ N]. apply N. rewrite E. by eapply Hlive. }
    intros j j' c d e e' Hjj C1 C2 E1 E2 Co1 Co2. destruct (decide (j = i)) as [-> | Hne]; [by eapply Hone|].
    destruct (decide (j' = i)) as [-> | Hne']; [intros E; symmetry in E; revert E; by eapply (Hone j)|].
    rewrite P3 in C1, C2 by done. rewrite P4 in E1, E2 by done. by eapply (T7 j j').
Qed.

(** No channel at all. *)
Definition nowhere s : nat := (length (tchannels s) + length (tls_channels s))%nat.
Lemma tls_ok_elsewhere cfg s s' l : tls_ok cfg s -> progress (nowhere s') 0 s s' l -> tls_ok cfg s'.
Proof.
  intros T P. assert (Hc : tchannels s' !! nowhere s' = None) by (apply lookup_ge_None; unfold nowhere; lia).
  assert (He : tls_channels s' !! nowhere s' = None) by (apply lookup_ge_None; unfold nowhere; lia).
  eapply tls_ok_progress; [exact T|exact P|split; congruence|].
  intros j c e _ H1 H2 H3 E. eapply (proj2 (secured_live _ _ _ _ (to_secured _ _ T j c e H1 H2 H3))); done.
Qed.

(** ** Setting up sessions *)

Lemma wlp_socket_session k Q s : (forall e s' r, tls_sockets s !! k = Some e -> status r <> 0 ->
    r = wolfSSL (log s) (SslNew (ctx e)) ->
    quiet (s <| tls_sockets ::= alter (fun e => e <| ssl := status r |>) k |>) s' [(SslNew (ctx e), r)] -> Q (status r) s') ->
  wlp (new_socket_session k) Q s.
Proof.
  intros HQ. unfold new_socket_session. apply wlp_bind, wlp_socket_end. intros e He. apply wlp_bind, wlp_status. intros s1 r Er D.
  apply wlp_bind, wlp_set_socket_end. intros e1 He1. destruct (Z.eqb_spec (status r) 0) as [|Hz]; [apply wlp_fail|].
  apply wlp_ret. eapply HQ; [exact He|done|exact Er|]. destruct D as [D1 D2 D3 D4 D5 D6]. split; fields; try done. by rewrite D2.
Qed.

(** The handshake of a client. *)
Lemma wlp_handshake i p Q s : (forall s' l ok, quiet s s' l -> all_neutral l ->
    (ok = true -> shaken false (tls (config (plain s))) p l /\ pinned (tls (config (plain s))) p l) -> Q ok s') ->
  wlp (tls_handshake i p) Q s.
Proof.
  intros HQ. unfold tls_handshake. apply wlp_bind, wlp_tls_config. set (cfg := tls (config (plain s))) in *.
  apply wlp_bind, (wlp_mono _ (fun checked s1 => exists l, quiet s s1 l /\ all_neutral l /\ (checked = true -> host_checked cfg p l))).
  { unfold host_checked. destruct (tls_hostname cfg) as [|h host]; [apply wlp_ret; exists []; split; [apply quiet_refl|done]|].
    apply wlp_bind, wlp_status. intros s1 r _ D. apply wlp_ret. exists [(SslCheckDomain p (h :: host), r)].
    split; [done|]. split; [by repeat constructor|]. intros E%Z.eqb_eq. by apply (succeeded_last _ []). }
  intros checked s1 (l1 & D1 & N1 & C1). assert (Hno : forall s2 l2, quiet s1 s2 l2 -> all_neutral l2 -> Q false s2).
  { intros s2 l2 D2 N2. eapply HQ; [exact (quiet_trans _ _ _ _ _ D1 D2)|by apply Forall_app|done]. }
  destruct checked; cbn [negb]; [|by eapply wlp_ret, Hno; [apply quiet_refl|]].
  apply wlp_bind, wlp_plain, wlp_bind, wlp_gets. destruct (_ !! _) as [c|]; [|apply wlp_fail]. apply wlp_ret.
  replace (s1 <| plain := plain s1 |>) with s1 by (by destruct s1).
  apply wlp_bind, wlp_status. intros s2 r2 _ D2. destruct (negb (_ =? _)); [by eapply wlp_ret, Hno; [exact D2|repeat constructor]|].
  apply wlp_bind, wlp_ignore. intros s3 r3 D3. apply wlp_bind, wlp_status. intros s4 r4 _ D4.
  pose proof (quiet_trans _ _ _ _ _ (quiet_trans _ _ _ _ _ D2 D3) D4) as D.
  destruct (Z.eqb_spec (status r4) SSL_SUCCESS) as [G|G]; cbn [negb].
  2:{ apply wlp_bind, wlp_ignore. intros s5 r5 D5. eapply wlp_ret, Hno; [exact (quiet_trans _ _ _ _ _ D D5)|by repeat constructor]. }
  apply wlp_bind, wlp_pin. intros s5 l5 D5 N5 P5. apply wlp_bind, wlp_async; [done|]. intros s6 l6 D6 N6.
  pose proof (quiet_trans _ _ _ _ _ (quiet_trans _ _ _ _ _ (quiet_trans _ _ _ _ _ D1 D) D5) D6) as D'.
  apply wlp_ret. eapply HQ; [exact D'| |].
  - repeat (apply Forall_app; split); try done; by repeat constructor.
  - intros _. split; [|by apply pinned_app, pinned_app_r].
    right. split; [|right; by apply host_checked_app, host_checked_app, host_checked_app, C1].
    by apply succeeded_app, succeeded_app, succeeded_app_r, succeeded_last.
Qed.

(** ** Parts of the default build *)

Lemma plain_same s : s <| plain := plain s |> = s.
Proof. by destruct s. Qed.
Lemma wlp_plain_gets {A} (f : sys -> A) Q s : Q (f (plain s)) s -> wlp (on_plain (gets f)) Q s.
Proof. intros HQ. apply wlp_plain, wlp_gets. by rewrite plain_same. Qed.
Lemma wlp_plain_channel_at i Q s : (forall c, tchannels s !! i = Some c -> Q c s) -> wlp (on_plain (channel_at i)) Q s.
Proof.
  intros HQ. apply wlp_plain, wlp_bind, wlp_gets. destruct (_ !! i) eqn:E; [|apply wlp_fail]. apply wlp_ret.
  rewrite plain_same. by apply HQ.
Qed.
Lemma wlp_plain_socket_at k Q s : (forall so, tsockets s !! k = Some so -> Q so s) -> wlp (on_plain (socket_at k)) Q s.
Proof.
  intros HQ. apply wlp_plain, wlp_bind, wlp_gets. destruct (_ !! k) eqn:E; [|apply wlp_fail]. apply wlp_ret.
  rewrite plain_same. by apply HQ.
Qed.
Abbreviation with_channel f i s :=
  (s <| plain ::= fun b => b <| chan ::= fun c => c <| transport_channels ::= alter f i |> |> |>).
Abbreviation with_socket g k s :=
  (s <| plain ::= fun b => b <| mux ::= fun m => m <| transport_sockets ::= alter g k |> |> |>).
Lemma wlp_plain_set_channel i f Q s : (forall c, tchannels s !! i = Some c -> Q tt (with_channel f i s)) ->
  wlp (on_plain (set_channel i f)) Q s.
Proof.
  intros HQ. apply wlp_plain, wlp_bind, wlp_bind, wlp_gets. destruct (_ !! i) eqn:E; [|apply wlp_fail].
  apply wlp_ret, wlp_modify. by eapply HQ.
Qed.
Lemma wlp_plain_set_socket k g Q s : (forall so, tsockets s !! k = Some so -> Q tt (with_socket g k s)) ->
  wlp (on_plain (set_socket k g)) Q s.
Proof.
  intros HQ. apply wlp_plain, wlp_bind, wlp_bind, wlp_gets. destruct (_ !! k) eqn:E; [|apply wlp_fail].
  apply wlp_ret, wlp_modify. by eapply HQ.
Qed.

(** What uses system calls only changes nothing but the outside world. *)
Definition outside {A} (m : M sys A) : Prop := forall b a b', m b = Ok (a, b') -> exists w, b' = b <| env := w |>.
Lemma wlp_outside {A} (m : M sys A) Q s : outside m -> (forall a s', quiet s s' [] -> Q a s') -> wlp (on_plain m) Q s.
Proof.
  intros Hm HQ. apply wlp_plain. unfold wlp. destruct (m (plain s)) as [[a b']|] eqn:E; [|done].
  apply Hm in E as [w ->]. apply HQ. split; try done. by rewrite app_nil_r.
Qed.
Lemma outside_ret {A} (a : A) : outside (mret a).
Proof. intros b a' b' [= <- <-]. exists (env b). by destruct b. Qed.
Lemma outside_fail {A} e : outside (A := A) (fail e).
Proof. by intros b a b'. Qed.
Lemma outside_gets {A} (f : sys -> A) : outside (gets f).
Proof. intros b a' b' [= <- <-]. exists (env b). by destruct b. Qed.
Lemma outside_bind {A B} (m : M sys A) (k : A -> M sys B) : outside m -> (forall a, outside (k a)) -> outside (m ≫= k).
Proof.
  intros Hm Hk b x b2 E. unfold mbind, M_bind in E. destruct (m b) as [[a b1]|] eqn:E1; [|done].
  destruct (Hm _ _ _ E1) as [w1 ->], (Hk _ _ _ _ E) as [w2 ->]. by exists w2.
Qed.
Lemma outside_syscall c : outside (syscall_now c).
Proof. intros b a b' [= _ <-]. by eexists. Qed.
Ltac outside :=
  repeat first [apply outside_bind; [|intros ?] | apply outside_syscall | apply outside_gets | apply outside_ret | apply outside_fail
    | case_match].
Lemma outside_listen : outside tcp_listen.
Proof. unfold tcp_listen. outside. Qed.
Lemma outside_close fd : outside (bsd_close fd).
Proof. unfold bsd_close, when. outside. Qed.
Lemma outside_create : outside bsd_create_socket.
Proof. unfold bsd_create_socket. outside. Qed.
Lemma outside_tcp_bind k ip port : outside (tcp_transport_bind k ip port).
Proof. unfold tcp_transport_bind, bsd_bind_device, socket_at. outside. Qed.

(** ** The steps of TLS over TCP *)

Lemma tls_ok_quiet cfg s s' l : tls_ok cfg s -> quiet s s' l -> all_neutral l -> tls_ok cfg s'.
Proof. intros T Q N. eapply tls_ok_elsewhere; [exact T|]. by apply quiet_progress. Qed.

Lemma listen_safe cfg k s : tls_ok cfg s -> wlp (tls_transport_listen k) (fun _ => tls_ok cfg) s.
Proof.
  intros T. unfold tls_transport_listen, tls_tcp_listen, wolfssl_start_tls_server.
  apply wlp_bind, wlp_bind, wlp_outside; [apply outside_listen|]. intros _ s1 D1.
  assert (T1 : tls_ok cfg s1) by (eapply tls_ok_quiet; [exact T|exact D1|constructor]). clear s D1 T.
  apply wlp_start_server. intros x s2 l2 e D2 N2 He s3 l3 D3 N3 L. rewrite (to_config _ _ T1) in L.
  assert (T2 : tls_ok cfg s2) by (by eapply tls_ok_quiet). clear s1 T1 D2 He.
  apply wlp_plain_set_socket. intros so Hso. destruct T2 as [U1 U2 U3 U4 U5 U6 U7], D3 as [Q1 Q2 Q3 Q4 Q5 Q6].
  cbn in Q1, Q2, Q3, Q4, Q5, Q6.
  assert (Hl : forall y, loaded cfg (log s2) y -> loaded cfg (log s3) y) by (intros y Hy; rewrite Q6; by apply loaded_app).
  split; fields.
  - by rewrite Q5.
  - rewrite Q6. by apply protected_neutral.
  - intros j so' e'. rewrite Q4, Q2, !list_lookup_alter. case_decide.
    + intros _ (e1 & _ & ->)%fmap_Some _. cbn. rewrite Q6. destruct L as (ca & Hca & Hs). exists ca.
      split; [done|by apply succeeded_app_r].
    + intros G1 G2 G3. by eapply Hl, U3.
  - intros j e'. rewrite Q1. intros H1 H2. by eapply Hl, U4.
  - intros j c e'. rewrite Q3, Q1. intros H1 H2 H3. rewrite Q6. apply secured_app; [by eapply U5|by apply neutral_spares].
  - intros j c. rewrite Q3. apply U6.
  - intros j j' c d e' e''. rewrite Q3, Q1. apply U7.
Qed.

(** The session of a socket, from its creation to a handshake that succeeded. *)
Lemma new_secured b cfg l x r l2 : loaded cfg l x -> status r <> 0 -> all_neutral l2 -> shaken b cfg (status r) l2 ->
  pinned cfg (status r) l2 -> secured b cfg (l ++ (SslNew x, r) :: l2) (status r).
Proof.
  intros L Z N S P. exists l2. split; [|done]. exists l, x, r. repeat split; try done. by apply neutral_spares.
Qed.

Lemma wlp_tls_tcp_accept cfg k Q s : tls_ok cfg s ->
  (forall e, tls_sockets s !! k = Some e -> loaded cfg (log s) (ctx e)) ->
  (forall fd s' l e, (forall i, progress i 0 s s' l) -> tchannels s' = tchannels s -> tls_channels s' = tls_channels s ->
     tls_sockets s' !! k = Some e -> loaded cfg (log s') (ctx e) -> secured false cfg (log s') (ssl e) -> ~ live (log s) (ssl e) ->
     Q fd s') ->
  wlp (tls_tcp_accept k) Q s.
Proof.
  intros T L HQ. unfold tls_tcp_accept. apply wlp_bind, wlp_syscall. intros s1 fd D1. destruct (fd <? 0); [apply wlp_fail|].
  apply wlp_bind, wlp_socket_session. intros e s2 r He Hz Er D2.
  pose proof (quiet_progress) as QP.
  assert (Hl : loaded cfg (log s1) (ctx e)).
  { rewrite (q_sockets _ _ _ D1) in He. rewrite (q_log _ _ _ D1). by apply loaded_app, L. }
  assert (He2 : tls_sockets s2 !! k = Some (e <| ssl := status r |>)).
  { rewrite (q_sockets _ _ _ D2). fields. by rewrite list_lookup_alter, decide_True, He by done. }
  assert (F : ~ live (log s) (status r)).
  { rewrite <- (app_nil_r (log s)), <- (q_log _ _ _ D1), Er. apply new_fresh. by rewrite <- Er. }
  assert (P2 : forall i, progress i 0 s s2 [(SslNew (ctx e), r)]).
  { intros i. apply (progress_trans _ _ _ s1 _ [] _); [by apply QP; [|constructor]|].
    eapply (progress_trans _ _ _ _ _ [] _); [by apply (socket_end_progress i s1 k (fun e => e <| ssl := status r |>))|].
    by apply new_progress. }
  assert (C2 : tchannels s2 = tchannels s) by (rewrite (q_chan _ _ _ D2); fields; by rewrite (q_chan _ _ _ D1)).
  assert (E2 : tls_channels s2 = tls_channels s) by (rewrite (q_channels _ _ _ D2); fields; by rewrite (q_channels _ _ _ D1)).
  apply wlp_bind, wlp_ignore. intros s3 r3 D3. apply wlp_bind, wlp_set_socket_end. intros e3 He3.
  apply wlp_bind, wlp_status. intros s4 r4 _ D4. destruct (Z.eqb_spec (status r4) SSL_SUCCESS) as [G|G]; cbn [negb].
  2:{ apply wlp_bind, wlp_ignore. intros s5 r5 D5. apply wlp_fail. }
  apply wlp_bind, wlp_tls_config.
  assert (Hcfg : tls (config (plain s4)) = cfg).
  { rewrite (q_config _ _ _ D4). fields. rewrite (q_config _ _ _ D3), (pg_config _ _ _ _ _ (P2 0%nat)). apply T. }
  rewrite Hcfg. apply wlp_bind, wlp_pin. intros s5 l5 D5 N5 Pin. apply wlp_bind, wlp_async; [done|]. intros s6 l6 D6 N6.
  pose proof (quiet_trans _ _ _ _ _ (quiet_trans _ _ _ _ _ D4 D5) D6) as D.
  assert (N : all_neutral (([(SslAccept (status r), r4)] ++ l5) ++ l6)).
  { repeat (apply Forall_app; split); try done; by repeat constructor. }
  rewrite (q_sockets _ _ _ D3), He2 in He3. injection He3 as <-.
  assert (He6 : tls_sockets s6 !! k = Some (e <| ssl := status r |> <| tls_state := RASTA_TLS_CONNECTION_READY |>)).
  { rewrite (q_sockets _ _ _ D). fields. rewrite (q_sockets _ _ _ D3), list_lookup_alter, decide_True, He2 by done. done. }
  assert (P : forall i, progress i 0 s s6 ([(SslNew (ctx e), r)] ++ [(SslSetFd (status r) fd, r3)] ++ ([(SslAccept (status r), r4)] ++ l5) ++ l6)).
  { intros i. eapply progress_trans; [apply P2|]. eapply progress_trans; [by apply QP; [exact D3|repeat constructor]|].
    eapply (progress_trans _ _ _ _ _ []); [by apply (socket_end_progress i s3 k (fun e => e <| tls_state := RASTA_TLS_CONNECTION_READY |>))|]. by apply QP. }
  apply wlp_ret. eapply (HQ fd s6 _ _ P); [| |exact He6| | |done].
  - rewrite (q_chan _ _ _ D). fields. by rewrite (q_chan _ _ _ D3).
  - rewrite (q_channels _ _ _ D). fields. by rewrite (q_channels _ _ _ D3).
  - rewrite (pg_log _ _ _ _ _ (P 0%nat)). apply loaded_app. rewrite (q_log _ _ _ D1), app_nil_r in Hl. exact Hl.
  - rewrite (pg_log _ _ _ _ _ (P 0%nat)). cbn [ssl app]. apply new_secured; [|done| | |].
    + rewrite (q_log _ _ _ D1), app_nil_r in Hl. exact Hl.
    + apply Forall_cons. by split.
    + left. exists r4. split; [|done]. right. left.
    + apply (pinned_app_r _ _ [_]), (pinned_app_r _ _ [_]). by apply pinned_app.
Qed.

Lemma accept_safe cfg k s so : tls_ok cfg s -> tsockets s !! k = Some so -> fd_enabled (so_accept_event so) = true ->
  wlp (tls_channel_accept_event k) (fun _ => tls_ok cfg) s.
Proof.
  intros T Hso Hen. unfold tls_channel_accept_event, tls_transport_accept. apply wlp_bind, wlp_bind.
  eapply wlp_tls_tcp_accept; [exact T|intros e He; by eapply to_listening|]. intros fd s1 l e P C1 E1 He L S F.
  apply wlp_bind, wlp_syscall. intros s2 r D2. destruct (negb _); [apply wlp_fail|].
  apply wlp_bind, wlp_plain_gets, wlp_ret, wlp_bind, wlp_plain_gets.
  assert (P2 : forall i, progress i 0 s s2 l).
  { intros i. rewrite <- (app_nil_r l). eapply progress_trans; [apply P|]. by apply quiet_progress; [|constructor]. }
  destruct (find_channel_by_ip_address _ _) as [i|].
  2:{ apply wlp_bind, wlp_syscall. intros s3 r3 D3. apply wlp_ret, (tls_ok_elsewhere _ _ _ l T).
      rewrite <- (app_nil_r l). eapply progress_trans; [apply P2|]. by apply quiet_progress; [|constructor]. }
  apply wlp_bind, wlp_plain_set_channel. intros c Hc. apply wlp_bind, wlp_socket_end. intros e2 He2.
  apply wlp_bind, wlp_set_channel_end. intros e3 He3. apply wlp_bind, wlp_plain_set_channel. intros c3 Hc3. apply wlp_ret.
  cbn in He2. rewrite (q_sockets _ _ _ D2), He in He2. injection He2 as <-.
  eapply (tls_ok_progress _ i 0 s _ l T).
  - rewrite <- (app_nil_r l). eapply progress_trans; [apply P2|]. eapply (progress_trans _ _ _ _ _ [] []); [apply channel_progress|].
    eapply (progress_trans _ _ _ _ _ [] []); [apply end_progress|apply channel_progress].
  - assert (Hlog : log s2 = log s1) by (by rewrite (q_log _ _ _ D2), app_nil_r). split; fields; rewrite ?Hlog.
    + intros e'. rewrite list_lookup_alter, decide_True by done. intros (e1 & _ & ->)%fmap_Some _. exact L.
    + intros c' e' _. rewrite list_lookup_alter, decide_True by done. intros (e1 & _ & ->)%fmap_Some _. by split.
    + intros c'. rewrite !list_lookup_alter, !decide_True by done. rewrite <- option_fmap_compose.
      intros (c1 & _ & ->)%fmap_Some. done.
  - intros j d e' _ H1 H2 H3 E. eapply (proj2 (secured_live _ _ _ _ (to_secured _ _ T j d e' H1 H2 H3))); done.
Qed.

(** A channel that is not connected. *)
Definition idle i s : Prop := forall c, tchannels s !! i = Some c -> connected c = false /\ fd_enabled (receive_event c) = false.
Definition context_loaded cfg i s : Prop := forall e, tls_channels s !! i = Some e -> ctx e <> 0 -> loaded cfg (log s) (ctx e).

Lemma secured_not_null cfg s : tls_ok cfg s -> forall i, forall j c e, j <> i -> tchannels s !! j = Some c ->
  tls_channels s !! j = Some e -> connected c = true -> ssl e <> 0.
Proof. intros T i j c e _ G1 G2 G3. exact (proj2 (secured_live _ _ _ _ (to_secured _ _ T j c e G1 G2 G3))). Qed.

Lemma tls_ok_idle cfg i s s' l : tls_ok cfg s -> progress i 0 s s' l -> idle i s' -> context_loaded cfg i s' -> tls_ok cfg s'.
Proof.
  intros T P I C. eapply tls_ok_progress; [exact T|exact P| |by eapply secured_not_null].
  split; [exact C|..].
  - intros c e Hc _ Hco. destruct (I c Hc). congruence.
  - intros c Hc He. destruct (I c Hc). congruence.
Qed.

Lemma context_loaded_progress cfg i j s s' l : context_loaded cfg i s -> progress j 0 s s' l ->
  tls_channels s' !! i = tls_channels s !! i -> context_loaded cfg i s'.
Proof.
  intros C P E e He Hz. rewrite E in He. rewrite (pg_log _ _ _ _ _ P). by apply loaded_app, C.
Qed.

(** The client's context is there when a session is created from it. *)
Lemma wlp_client_context cfg i e Q s : tls (config (plain s)) = cfg -> tls_channels s !! i = Some e -> context_loaded cfg i s ->
  (forall s' l e', progress i 0 s s' l -> tchannels s' = tchannels s -> tls_channels s' !! i = Some e' ->
     loaded cfg (log s') (ctx e') -> Q tt s') ->
  wlp (when (ctx e =? 0) (wolfssl_start_tls_client i)) Q s.
Proof.
  intros Hcfg He C HQ. apply wlp_when.
  - intros _. unfold wolfssl_start_tls_client. apply wlp_start_client. intros s1 x l1 D1 N1.
    apply wlp_set_channel_end. intros e1 He1 s3 l2 D2 N2 L. rewrite Hcfg in L.
    assert (P : progress i 0 s s3 (l1 ++ l2)).
    { eapply progress_trans; [by apply quiet_progress|].
      eapply (progress_trans _ _ _ _ _ []); [apply (end_progress i s1 (fun e => e <| ctx := x |>))|by apply quiet_progress]. }
    eapply (HQ s3 _ (e1 <| ctx := x |>)); [exact P|..].
    + rewrite (q_chan _ _ _ D2). fields. by rewrite (q_chan _ _ _ D1).
    + rewrite (q_channels _ _ _ D2). fields. by rewrite list_lookup_alter, decide_True, He1 by done.
    + rewrite (q_log _ _ _ D2). destruct L as (ca & Hca & Hs). exists ca. split; [done|]. by apply succeeded_app_r.
  - intros Hz%Z.eqb_neq. eapply (HQ s [] e); [by apply quiet_progress; [apply quiet_refl|]|done|done|by apply C].
Qed.

Lemma wlp_tls_tcp_connect cfg i s : tls_ok cfg s -> idle i s ->
  wlp (tls_tcp_connect i) (fun z s' => tls_ok cfg s' /\ forall c, tchannels s' !! i = Some c ->
    if z =? 0 then connected c = true else connected c = false /\ fd_enabled (receive_event c) = false) s.
Proof.
  intros T I. unfold tls_tcp_connect. apply wlp_bind, wlp_syscall. intros s1 r1 D1. destruct (r1 =? 0); [apply wlp_fail|].
  apply wlp_bind, wlp_syscall. intros s2 r2 D2. pose proof (quiet_trans _ _ _ _ _ D1 D2) as D. cbn [app] in D.
  assert (P : progress i 0 s s2 []) by (by apply quiet_progress). clear s1 r1 D1 D2.
  assert (I2 : idle i s2) by (intros c; rewrite (q_chan _ _ _ D); apply I).
  assert (C2 : context_loaded cfg i s2).
  { eapply (context_loaded_progress _ _ i); [intros e; apply (to_context _ _ T)|exact P|by rewrite (q_channels _ _ _ D)]. }
  assert (T2 : tls_ok cfg s2) by (by eapply tls_ok_idle). clear s D P T I. rename s2 into s, T2 into T, I2 into I, C2 into C.
  destruct (r2 <? 0).
  { apply wlp_bind, wlp_plain_set_channel. intros c Hc. apply wlp_ret.
    assert (I' : idle i (with_channel (fun c => c <| connected := false |>) i s)).
    { intros c'. fields. rewrite list_lookup_alter, decide_True, Hc by done. intros [= <-]. split; [done|]. exact (proj2 (I c Hc)). }
    split; [|exact I']. eapply (tls_ok_idle _ i); [exact T|apply channel_progress|exact I'|exact C]. }
  apply wlp_bind, wlp_channel_end. intros e He. apply wlp_bind, (wlp_client_context cfg); [apply T|done|done|].
  intros s1 l1 e1 P1 C1 He1 L1. apply wlp_bind, wlp_channel_end. intros e' He'.
  assert (e' = e1) as -> by congruence. apply wlp_bind, wlp_status. intros s2 r Er D2.
  apply wlp_bind, wlp_set_channel_end. intros e2 He2. set (s3 := s2 <| tls_channels ::= _ |>).
  assert (P3 : progress i 0 s s3 (l1 ++ [(SslNew (ctx e1), r)])).
  { eapply progress_trans; [exact P1|]. rewrite <- (app_nil_r [_]).
    eapply progress_trans; [eapply new_progress; [exact Er|exact D2]|apply end_progress]. }
  assert (H3 : tls_channels s3 !! i = Some (e1 <| ssl := status r |>)).
  { unfold s3. fields. rewrite list_lookup_alter, decide_True, (q_channels _ _ _ D2), He1 by done. done. }
  assert (HC : tchannels s3 = tchannels s) by (unfold s3; fields; by rewrite (q_chan _ _ _ D2)).
  assert (Hfail : forall s4 l4, quiet s3 s4 l4 -> all_neutral l4 -> tls_ok cfg s4 /\ idle i s4).
  { intros s4 l4 D4 N4. assert (I4 : idle i s4) by (intros c; rewrite (q_chan _ _ _ D4), HC; apply I). split; [|exact I4].
    assert (P4 : progress i 0 s s4 ((l1 ++ [(SslNew (ctx e1), r)]) ++ l4)) by (eapply progress_trans; [exact P3|by apply quiet_progress]).
    eapply tls_ok_idle; [exact T|exact P4|exact I4|].
    intros e4. rewrite (q_channels _ _ _ D4), H3. intros [= <-] _. cbn [ctx].
    rewrite (q_log _ _ _ D4). apply loaded_app. unfold s3. fields. rewrite (q_log _ _ _ D2). by apply loaded_app. }
  destruct (Z.eqb_spec (status r) 0) as [Hz|Hz].
  { apply wlp_bind, wlp_ignore. intros s4 r4 D4. apply wlp_ret. eapply Hfail; [exact D4|by repeat constructor]. }
  apply wlp_bind, wlp_handshake. intros s4 l4 ok D4 N4 Hok. destruct ok; cbn [negb]; [|by eapply wlp_ret, Hfail].
  assert (Hcfg : tls (config (plain s3)) = cfg) by (rewrite (pg_config _ _ _ _ _ P3); apply T). rewrite Hcfg in Hok.
  destruct (Hok eq_refl) as [Sh Pin]. apply wlp_bind, wlp_plain_set_channel. intros c Hc. apply wlp_ret.
  assert (H4 : tls_channels s4 !! i = Some (e1 <| ssl := status r |>)) by (by rewrite (q_channels _ _ _ D4)).
  assert (Hlog : log s4 = (log s1) ++ (SslNew (ctx e1), r) :: l4).
  { rewrite (q_log _ _ _ D4). unfold s3. fields. rewrite (q_log _ _ _ D2). by rewrite <- app_assoc. }
  split.
  2:{ intros c'. fields. rewrite list_lookup_alter, decide_True, Hc by done. by intros [= <-]. }
  eapply (tls_ok_progress _ i 0 s _ (((l1 ++ [(SslNew (ctx e1), r)]) ++ l4) ++ [])); [exact T| | |by eapply secured_not_null].
  - eapply progress_trans; [|apply channel_progress]. eapply progress_trans; [exact P3|by apply quiet_progress].
  - split; fields.
    + intros e'. rewrite H4. intros [= <-] _. rewrite Hlog. by apply loaded_app.
    + intros c' e' _. rewrite H4. intros [= <-] _. cbn [ssl]. split.
      * rewrite Hlog. by apply new_secured.
      * intros F. apply (new_fresh (log s1) (ctx e1)); rewrite <- Er; [done|]. rewrite (pg_log _ _ _ _ _ P1).
        apply live_app; [done|]. apply (pg_spares _ _ _ _ _ P1); done.
    + intros c'. rewrite list_lookup_alter, decide_True, Hc by done. by intros [= <-].
Qed.

(** Changes of a channel that connect nothing. *)
Lemma tls_ok_calm cfg f i s : tls_ok cfg s -> (forall c, tchannels s !! i = Some c ->
    (connected (f c) = true -> connected c = true) /\ (fd_enabled (receive_event (f c)) = true -> connected (f c) = true)) ->
  tls_ok cfg (with_channel f i s).
Proof.
  intros [U1 U2 U3 U4 U5 U6 U7] Hf.
  assert (Hch : forall j d, alter f i (tchannels s) !! j = Some d -> exists c, tchannels s !! j = Some c /\
    (connected d = true -> connected c = true) /\ (fd_enabled (receive_event d) = true -> connected d = true)).
  { intros j d. rewrite list_lookup_alter. case_decide as E.
    - intros (c & Hc & ->)%fmap_Some. subst. exists c. split; [done|by apply Hf].
    - intros Hd. exists d. split; [done|]. split; [done|]. by eapply U6. }
  split; fields; try done.
  - intros j d e Hd He Hco. destruct (Hch j d Hd) as (c & Hc & Hco' & _). by eapply U5; [exact Hc| |apply Hco'].
  - intros j d Hd. by destruct (Hch j d Hd) as (c & _ & _ & G).
  - intros j j' d d' e e' Hj Hd Hd' He He' Co Co'. destruct (Hch j d Hd) as (c & Hc & G & _), (Hch j' d' Hd') as (c' & Hc' & G' & _).
    eapply (U7 j j'); [done|exact Hc|exact Hc'|done|done|by apply G|by apply G'].
Qed.

(** Changes of a socket that do not make it listen. *)
Lemma tls_ok_socket cfg g k s : tls_ok cfg s ->
  (forall so, fd_enabled (so_accept_event (g so)) = true -> fd_enabled (so_accept_event so) = true) ->
  tls_ok cfg (with_socket g k s).
Proof.
  intros T Hg. eapply tls_ok_elsewhere; [exact T|]. by apply socket_progress.
Qed.

Lemma connect_safe cfg k i s : tls_ok cfg s -> idle i s -> wlp (tls_transport_connect k i) (fun _ => tls_ok cfg) s.
Proof.
  intros T I. unfold tls_transport_connect. apply wlp_bind, wlp_plain_socket_at. intros so _.
  apply wlp_bind, wlp_plain_set_channel. intros c Hc. set (s1 := s <| plain ::= _ |>).
  assert (I1 : idle i s1).
  { intros c'. unfold s1. fields. rewrite list_lookup_alter, decide_True, Hc by done. intros [= <-]. exact (I c Hc). }
  assert (T1 : tls_ok cfg s1).
  { eapply tls_ok_idle; [exact T|apply channel_progress|exact I1|]. intros e. apply (to_context _ _ T). }
  apply wlp_bind. eapply wlp_mono; [by apply (wlp_tls_tcp_connect cfg)|]. intros z s2 [T2 C2].
  destruct (Z.eqb_spec z 0) as [-> | Hz]; cbn [negb]; [|by apply wlp_ret].
  apply wlp_bind, wlp_plain_set_channel. intros c2 Hc2. apply wlp_ret, tls_ok_calm; [done|].
  intros c3 Hc3. split; [done|]. intros _. exact (C2 c3 Hc3).
Qed.

Lemma redial_safe cfg i s : tls_ok cfg s -> idle i s -> wlp (tls_transport_redial i) (fun _ => tls_ok cfg) s.
Proof.
  intros T I. unfold tls_transport_redial. apply wlp_bind, wlp_plain_channel_at. intros c Hc.
  destruct (associated_socket c) as [k|]; [|apply wlp_fail].
  apply wlp_bind, wlp_outside; [apply outside_create|]. intros fd s1 D1.
  assert (T1 : tls_ok cfg s1) by (by eapply tls_ok_quiet).
  apply wlp_bind, wlp_plain_set_socket. intros so1 _. apply wlp_bind, wlp_plain_socket_at. intros so2 _.
  apply wlp_bind, wlp_plain_gets. destruct (connections _ !! _) as [ip_data|]; [|apply wlp_fail].
  apply wlp_bind, wlp_outside; [apply outside_tcp_bind|]. intros _ s2 D2.
  assert (T2 : tls_ok cfg s2) by (eapply tls_ok_quiet; [|exact D2|done]; by apply tls_ok_socket).
  apply wlp_bind. eapply wlp_mono.
  { apply (connect_safe cfg); [exact T2|]. intros c'. rewrite (q_chan _ _ _ D2). fields. rewrite (q_chan _ _ _ D1). apply I. }
  intros z s3 T3. destruct (negb _); [by apply wlp_ret|].
  apply wlp_bind, wlp_plain_set_socket. intros so3 _. apply wlp_ret. by apply tls_ok_socket.
Qed.

(** A connected channel is closed: its session ends. *)
Lemma close_safe cfg i s : tls_ok cfg s -> wlp (tls_transport_close_channel i) (fun _ => tls_ok cfg) s.
Proof.
  intros T. unfold tls_transport_close_channel. apply wlp_bind, wlp_plain_channel_at. intros c Hc.
  apply wlp_bind, wlp_when.
  2:{ intros Hco. apply wlp_plain_set_channel. intros c1 Hc1. apply tls_ok_calm; [done|]. done. }
  intros Hco. unfold tls_tcp_close, wolfssl_cleanup_channel. apply wlp_bind, wlp_bind, wlp_bind, wlp_set_channel_end.
  intros e He. apply wlp_bind, wlp_channel_end. intros e1. fields. rewrite list_lookup_alter, decide_True, He by done.
  intros [= <-]. cbn [ctx ssl]. unfold free_session. cbn [ctx ssl].
  apply wlp_bind, wlp_bind, wlp_ignore. intros s2 r2 D2. apply wlp_bind, wlp_ignore. intros s3 r3 D3.
  apply wlp_bind, wlp_ignore. intros s4 r4 D4. apply wlp_ignore. intros s5 r5 D5.
  pose proof (quiet_trans _ _ _ _ _ (quiet_trans _ _ _ _ _ (quiet_trans _ _ _ _ _ D2 D3) D4) D5) as D. clear D2 D3 D4 D5 s2 s3 s4.
  apply wlp_set_channel_end. intros e5 He5. apply wlp_bind, wlp_plain_channel_at. intros c6 Hc6.
  apply wlp_outside; [apply outside_close|]. intros _ s7 D7. apply wlp_plain_set_channel. intros c8 Hc8.
  apply wlp_plain_set_channel. intros c9 Hc9. destruct D as [Q1 Q2 Q3 Q4 Q5 Q6], D7 as [R1 R2 R3 R4 R5 R6].
  cbn in Q1, Q2, Q3, Q4, Q5, Q6, R1, R2, R3, R4, R5, R6.
  eapply (tls_ok_progress _ i (ssl e) s); [exact T| | |].
  - split; fields; rewrite ?R1, ?R2, ?R3, ?R4, ?R5, ?R6, ?Q1, ?Q2, ?Q3, ?Q4, ?Q5, ?Q6.
    + done.
    + by rewrite app_nil_r.
    + intros j Hj. by rewrite !list_lookup_alter_ne.
    + intros j Hj. by rewrite !list_lookup_alter_ne.
    + intros k so' e' G1 G2 G3. by exists so', e'.
    + by repeat constructor.
    + intros q _ _ Hq. repeat constructor. cbn. congruence.
  - split; fields; rewrite ?R1, ?R3, ?Q1, ?Q3.
    + intros e'. rewrite !list_lookup_alter, !decide_True, He by done. by intros [= <-].
    + intros c' e'. rewrite !list_lookup_alter, !decide_True, Hc by done. by intros [= <-].
    + intros c'. rewrite !list_lookup_alter, !decide_True, Hc by done. by intros [= <-].
  - intros j d e' Hj G1 G2 G3. by apply (to_distinct _ _ T j i d c).
Qed.

(** ** Data *)

Abbreviation all_lasting l := (Forall (fun e => lasting e = true) l).

Lemma wlp_send b cfg p message Q s : protected b cfg (log s) -> secured b cfg (log s) p ->
  (forall s' l, quiet s s' l -> all_lasting l -> protected b cfg (log s') -> Q tt s') -> wlp (wolfssl_send p message) Q s.
Proof.
  intros P S HQ. unfold wolfssl_send. apply wlp_bind, wlp_status. intros s1 r _ D. destruct (negb _); [apply wlp_fail|].
  eapply wlp_ret, HQ; [exact D|by repeat constructor|]. rewrite (q_log _ _ _ D). apply protected_snoc; [done|].
  by intros q [= <-].
Qed.

Lemma wlp_read_loop b cfg p Q fuel : forall max received s, protected b cfg (log s) -> secured b cfg (log s) p ->
  (forall z s' l, quiet s s' l -> all_lasting l -> protected b cfg (log s') -> Q z s') ->
  wlp (read_loop fuel p max received) Q s.
Proof.
  induction fuel as [|fuel IH]; intros max received s P S HQ; cbn [read_loop]; apply wlp_bind, wlp_wolf; intros s1 r _ D.
  all: assert (P1 : protected b cfg (log s1)) by (rewrite (q_log _ _ _ D); apply protected_snoc; [done|by intros q [= <-]]).
  all: assert (Hnow : forall z, Q z s1) by (intros z; by eapply HQ; [exact D|repeat constructor|]).
  all: destruct (_ <? 0); [by apply wlp_ret|]; cbv zeta; destruct (_ && _); [|by apply wlp_ret].
  { apply wlp_fail. }
  apply IH; [done| |].
  - rewrite (q_log _ _ _ D). apply secured_app; [done|]. by repeat constructor.
  - intros z s2 l2 D2 N2 P2. eapply HQ; [exact (quiet_trans _ _ _ _ _ D D2)| |done]. apply Forall_cons. by split.
Qed.

Lemma tls_ok_lasting cfg s s' l : tls_ok cfg s -> quiet s s' l -> all_lasting l -> protected false cfg (log s') -> tls_ok cfg s'.
Proof.
  intros [U1 U2 U3 U4 U5 U6 U7] [Q1 Q2 Q3 Q4 Q5 Q6] N P. split; rewrite ?Q1, ?Q2, ?Q3, ?Q4, ?Q5; try done.
  - intros k so e G1 G2 G3. rewrite Q6. by eapply loaded_app, U3.
  - intros i e G1 G2. rewrite Q6. by eapply loaded_app, U4.
  - intros i c e G1 G2 G3. rewrite Q6. apply secured_app; [by eapply U5|]. by apply lasting_spares.
Qed.

Lemma send_safe cfg i c data s : tls_ok cfg s -> tchannels s !! i = Some c -> connected c = true ->
  wlp (tls_send_callback data i) (fun _ => tls_ok cfg) s.
Proof.
  intros T Hc Hco. unfold tls_send_callback, tls_tcp_send, wolfssl_send_tls. apply wlp_bind, wlp_channel_end. intros e He.
  eapply wlp_send; [apply T|by eapply to_secured|]. intros s' l D N P. by eapply tls_ok_lasting.
Qed.

Lemma receive_safe cfg i c s : tls_ok cfg s -> tchannels s !! i = Some c -> fd_enabled (receive_event c) = true ->
  wlp (tls_receive_callback i) (fun _ => tls_ok cfg) s.
Proof.
  intros T Hc Hen. unfold tls_receive_callback, tls_tcp_receive, wolfssl_receive_tls. apply wlp_bind, wlp_channel_end. intros e He.
  pose proof (to_enabled _ _ T i c Hc Hen) as Hco.
  apply wlp_bind. eapply wlp_read_loop; [apply T|by eapply to_secured|]. intros [n data] s1 l D N P.
  assert (T1 : tls_ok cfg s1) by (by eapply tls_ok_lasting). destruct (n <? 0); [|by apply wlp_ret].
  apply wlp_bind, wlp_status. intros s2 r _ D2. assert (T2 : tls_ok cfg s2) by (eapply tls_ok_quiet; [exact T1|exact D2|by repeat constructor]).
  destruct (_ =? _); [by apply wlp_ret|]. destruct (_ && _); [apply wlp_fail|by apply wlp_ret].
Qed.

(** ** All runs of TLS over TCP *)

(** What [channel_receive_event] does to the channel when nothing came. *)
Definition broken (i : nat) s : tls_sys :=
  with_channel (fun c => c <| connected := false |> <| receive_event ::= disable_fd_event |>) i s.

(** What steps outside of the transport leave alone. *)
Definition connections_of (b : sys) : list (bool * fd_event) * list fd_event :=
  ((fun c => (connected c, receive_event c)) <$> transport_channels (chan b), so_accept_event <$> transport_sockets (mux b)).

Lemma connections_channel b b' i c : connections_of b' = connections_of b -> transport_channels (chan b') !! i = Some c ->
  exists d, transport_channels (chan b) !! i = Some d /\ connected c = connected d /\ receive_event c = receive_event d.
Proof.
  intros [= E _] Hc. assert (G : ((fun c => (connected c, receive_event c)) <$> transport_channels (chan b)) !! i = Some (connected c, receive_event c)).
  { rewrite <- E, list_lookup_fmap, Hc. done. }
  rewrite list_lookup_fmap in G. apply fmap_Some in G as (d & Hd & [= -> ->]). by exists d.
Qed.
Lemma connections_socket b b' k so : connections_of b' = connections_of b -> transport_sockets (mux b') !! k = Some so ->
  exists so', transport_sockets (mux b) !! k = Some so' /\ so_accept_event so = so_accept_event so'.
Proof.
  intros [= _ E] Hc. assert (G : (so_accept_event <$> transport_sockets (mux b)) !! k = Some (so_accept_event so)).
  { rewrite <- E, list_lookup_fmap, Hc. done. }
  rewrite list_lookup_fmap in G. apply fmap_Some in G as (d & Hd & ->). by exists d.
Qed.

(** The steps of the layers above: they send on connected channels, connect and
    redial channels that are not, accept on sockets that listen and receive on
    channels whose event is enabled. *)
Inductive tls_step : tls_sys -> tls_sys -> Prop :=
| TlsListen k s s' : tls_transport_listen k s = Ok (tt, s') -> tls_step s s'
| TlsAccept k so z s s' : tsockets s !! k = Some so -> fd_enabled (so_accept_event so) = true ->
    tls_channel_accept_event k s = Ok (z, s') -> tls_step s s'
| TlsConnect k i z s s' : idle i s -> tls_transport_connect k i s = Ok (z, s') -> tls_step s s'
| TlsRedial i z s s' : idle i s -> tls_transport_redial i s = Ok (z, s') -> tls_step s s'
| TlsSend i c data s s' : tchannels s !! i = Some c -> connected c = true ->
    tls_send_callback data i s = Ok (tt, s') -> tls_step s s'
| TlsReceive i c len data s s' : tchannels s !! i = Some c -> fd_enabled (receive_event c) = true ->
    tls_receive_callback i s = Ok ((len, data), s') -> tls_step s (if len <=? 0 then broken i s' else s')
| TlsClose i s s' : tls_transport_close_channel i s = Ok (tt, s') -> tls_step s s'
| TlsCloseSocket k s s' : on_plain (tcp_transport_close_socket k) s = Ok (tt, s') -> tls_step s s'
| TlsOther b s : connections_of b = connections_of (plain s) -> config b = config (plain s) -> tls_step s (s <| plain := b |>).

Lemma on_plain_bind {A B} (m : M sys A) (k : A -> M sys B) s Q :
  wlp (on_plain m) (fun a => wlp (on_plain (k a)) Q) s -> wlp (on_plain (m ≫= k)) Q s.
Proof. unfold wlp, on_plain, mbind, M_bind. cbn. by destruct (m (plain s)) as [[]|]. Qed.

Lemma close_socket_safe cfg k s : tls_ok cfg s -> wlp (on_plain (tcp_transport_close_socket k)) (fun _ => tls_ok cfg) s.
Proof.
  intros T. unfold tcp_transport_close_socket. apply on_plain_bind, wlp_plain_socket_at. intros so _. apply on_plain_bind.
  eapply (wlp_mono _ (fun _ => tls_ok cfg)).
  2:{ intros _ s1 T1. apply wlp_plain_set_socket. intros so1 _. by apply tls_ok_socket. }
  unfold when. destruct (negb _); [|by apply wlp_plain, wlp_ret; rewrite plain_same].
  apply on_plain_bind, wlp_outside; [apply outside_close|]. intros _ s1 D1.
  assert (T1 : tls_ok cfg s1) by (by eapply tls_ok_quiet). apply wlp_plain_set_socket. intros so1 _. by apply tls_ok_socket.
Qed.

Lemma tls_step_ok cfg s s' : tls_step s s' -> tls_ok cfg s -> tls_ok cfg s'.
Proof.
  intros St T. destruct St as [k s s' E|k so z s s' H1 H2 E|k i z s s' I E|i z s s' I E|i c data s s' H1 H2 E
    |i c len data s s' H1 H2 E|i s s' E|k s s' E|b s H1 H2].
  - exact (wlp_run _ _ _ _ _ (listen_safe cfg k s T) E).
  - exact (wlp_run _ _ _ _ _ (accept_safe cfg k s so T H1 H2) E).
  - exact (wlp_run _ _ _ _ _ (connect_safe cfg k i s T I) E).
  - exact (wlp_run _ _ _ _ _ (redial_safe cfg i s T I) E).
  - exact (wlp_run _ _ _ _ _ (send_safe cfg i c data s T H1 H2) E).
  - pose proof (wlp_run _ _ _ _ _ (receive_safe cfg i c s T H1 H2) E) as T'. destruct (len <=? 0); [|exact T'].
    by apply tls_ok_calm.
  - exact (wlp_run _ _ _ _ _ (close_safe cfg i s T) E).
  - exact (wlp_run _ _ _ _ _ (close_socket_safe cfg k s T) E).
  - destruct T as [U1 U2 U3 U4 U5 U6 U7]. split; fields; try done.
    + by rewrite H2.
    + intros k so e Hso He Hen. destruct (connections_socket _ _ _ _ H1 Hso) as (so' & Hso' & Eq). rewrite Eq in Hen. by eapply U3.
    + intros i c e Hc He Hco. destruct (connections_channel _ _ _ _ H1 Hc) as (d & Hd & E1 & _). rewrite E1 in Hco. by eapply U5.
    + intros i c Hc Hen. destruct (connections_channel _ _ _ _ H1 Hc) as (d & Hd & E1 & E2). rewrite E1. rewrite E2 in Hen. by eapply U6.
    + intros i j c c' e e' Hij Hc Hc' He He' Co Co'. destruct (connections_channel _ _ _ _ H1 Hc) as (d & Hd & E1 & _).
      destruct (connections_channel _ _ _ _ H1 Hc') as (d' & Hd' & E1' & _). rewrite E1 in Co. rewrite E1' in Co'.
      by apply (U7 i j d d').
Qed.

(** A process that has made no session yet. *)
Record unused s : Prop := {
  un_log : log s = [];
  un_idle : forall i c, tchannels s !! i = Some c -> connected c = false /\ fd_enabled (receive_event c) = false;
  un_listening : forall k so, tsockets s !! k = Some so -> fd_enabled (so_accept_event so) = false;
  un_channels : forall i e, tls_channels s !! i = Some e -> e = blank_end;
  un_sockets : forall k e, tls_sockets s !! k = Some e -> e = blank_end
}.

Lemma unused_tls_ok s : unused s -> tls_ok (tls (config (plain s))) s.
Proof.
  intros [L I S C K]. split; try done.
  - rewrite L. apply protected_nil.
  - intros k so e Hso _. by rewrite (S k so Hso).
  - intros i e He. by rewrite (C i e He).
  - intros i c e Hc _. destruct (I i c Hc). congruence.
  - intros i c Hc. destruct (I i c Hc). congruence.
  - intros i j c d e e' _ Hc _ _ _ Hco. destruct (I i c Hc). congruence.
Qed.

(** ** The invariant of DTLS over UDP *)

Definition prepared cfg l p : Prop := exists l2, since cfg l p l2 /\ (is_dtls_server cfg = true \/ host_checked cfg p l2).
Record end_ok cfg l (e : tls_end) : Prop := {
  eo_session : ssl e = 0 \/ prepared cfg l (ssl e);
  eo_established : tls_state e = RASTA_TLS_CONNECTION_ESTABLISHED -> secured (is_dtls_server cfg) cfg l (ssl e)
}.
Record dtls_ok cfg s : Prop := {
  do_config : tls (config (plain s)) = cfg;
  do_protected : protected (is_dtls_server cfg) cfg (log s);
  do_sockets : forall k e, tls_sockets s !! k = Some e -> end_ok cfg (log s) e;
  do_channels : forall i e, tls_channels s !! i = Some e -> end_ok cfg (log s) e
}.

Definition keeps l l' : Prop := forall q, live l q -> q <> 0 -> Forall (spares q) l'.

Lemma prepared_app cfg l l' p : prepared cfg l p -> keeps l l' -> prepared cfg (l ++ l') p.
Proof.
  intros (l2 & S & C) K. destruct (since_live _ _ _ _ S) as [L Z]. exists (l2 ++ l'). split; [apply since_app; auto|].
  destruct C as [C|C]; [by left|right; by apply host_checked_app].
Qed.
Lemma end_ok_app cfg l l' e : end_ok cfg l e -> keeps l l' -> end_ok cfg (l ++ l') e.
Proof.
  intros [S E] K. split.
  - destruct S as [S|S]; [by left|right; by apply prepared_app].
  - intros St. pose proof (E St) as Se. destruct (secured_live _ _ _ _ Se) as [L Z]. apply secured_app; auto.
Qed.

Lemma dtls_ok_update cfg s s' l : dtls_ok cfg s -> config (plain s') = config (plain s) -> log s' = log s ++ l ->
  keeps (log s) l -> protected (is_dtls_server cfg) cfg (log s') ->
  (forall k e, tls_sockets s' !! k = Some e -> tls_sockets s !! k = Some e \/ end_ok cfg (log s') e) ->
  (forall i e, tls_channels s' !! i = Some e -> tls_channels s !! i = Some e \/ end_ok cfg (log s') e) ->
  dtls_ok cfg s'.
Proof.
  intros [D1 D2 D3 D4] C L K P Hs Hc. split; [by rewrite C|done|..].
  - intros k e He. destruct (Hs k e He) as [G|G]; [|done]. rewrite L. apply end_ok_app; [by eapply D3|done].
  - intros k e He. destruct (Hc k e He) as [G|G]; [|done]. rewrite L. apply end_ok_app; [by eapply D4|done].
Qed.

Lemma keeps_lasting l l' : all_lasting l' -> keeps l l'.
Proof. intros N q _ _. by apply lasting_spares. Qed.
Lemma keeps_app l l1 l2 : keeps l l1 -> keeps (l ++ l1) l2 -> keeps l (l1 ++ l2).
Proof. intros K1 K2 q L Z. apply Forall_app. split; [by apply K1|]. apply K2; [|done]. apply live_app; auto. Qed.
Lemma keeps_new l x r : r = wolfSSL l (SslNew x) -> keeps l [(SslNew x, r)].
Proof. intros Hr q L Z. repeat constructor. cbn. intros E. subst. by apply (new_fresh l x). Qed.

Lemma dtls_ok_quiet cfg s s' l : dtls_ok cfg s -> quiet s s' l -> all_lasting l ->
  protected (is_dtls_server cfg) cfg (log s') -> dtls_ok cfg s'.
Proof.
  intros D [Q1 Q2 Q3 Q4 Q5 Q6] N P. eapply (dtls_ok_update _ s); [done|done|exact Q6|by apply keeps_lasting|done|..].
  - intros k e. rewrite Q2. by left.
  - intros k e. rewrite Q1. by left.
Qed.
Lemma dtls_ok_neutral cfg s s' l : dtls_ok cfg s -> quiet s s' l -> all_neutral l -> dtls_ok cfg s'.
Proof.
  intros D Q N. eapply dtls_ok_quiet; [done|exact Q|by apply neutral_lasting|]. rewrite (q_log _ _ _ Q).
  apply protected_neutral; [apply D|done].
Qed.

(** One end changes, to one that is in order. *)
Lemma dtls_ok_socket cfg k g s : dtls_ok cfg s -> (forall e, tls_sockets s !! k = Some e -> end_ok cfg (log s) (g e)) ->
  dtls_ok cfg (s <| tls_sockets ::= alter g k |>).
Proof.
  intros D Hg. eapply (dtls_ok_update _ s _ []); [done|done|by rewrite app_nil_r|by apply keeps_lasting|apply D| |by left].
  fields. intros j e. rewrite list_lookup_alter. case_decide; [|by left]. intros (e' & He & ->)%fmap_Some. subst. right. by apply Hg.
Qed.
Lemma dtls_ok_channel cfg i g s : dtls_ok cfg s -> (forall e, tls_channels s !! i = Some e -> end_ok cfg (log s) (g e)) ->
  dtls_ok cfg (s <| tls_channels ::= alter g i |>).
Proof.
  intros D Hg. eapply (dtls_ok_update _ s _ []); [done|done|by rewrite app_nil_r|by apply keeps_lasting|apply D|by left|].
  fields. intros j e. rewrite list_lookup_alter. case_decide; [|by left]. intros (e' & He & ->)%fmap_Some. subst. right. by apply Hg.
Qed.

(** ** The steps of DTLS *)

(** A new session for a socket, whose context is there. *)
Lemma session_safe cfg k (chk : Z -> M tls_sys unit) s : dtls_ok cfg s ->
  (forall e, tls_sockets s !! k = Some e -> loaded cfg (log s) (ctx e)) ->
  (forall p s1, tls (config (plain s1)) = cfg -> wlp (chk p) (fun _ s2 => exists l, quiet s1 s2 l /\ all_neutral l /\
     (is_dtls_server cfg = true \/ host_checked cfg p l)) s1) ->
  wlp (p ← new_socket_session k; _ ← chk p; attach_socket_session k p) (fun _ => dtls_ok cfg) s.
Proof.
  intros D L Hchk. apply wlp_bind, wlp_socket_session. intros e s1 r He Hz Er D1. apply wlp_bind. eapply wlp_mono.
  { apply Hchk. rewrite (q_config _ _ _ D1). apply D. }
  intros _ s2 (l2 & D2 & N2 & Hc). apply wlp_bind, wlp_plain_socket_at. intros so _. apply wlp_bind, wlp_ignore. intros s3 r3 D3.
  apply wlp_set_socket_end. intros e3 He3.
  pose proof (quiet_trans _ _ _ _ _ (quiet_trans _ _ _ _ _ D1 D2) D3) as [Q1 Q2 Q3 Q4 Q5 Q6]. cbn in Q1, Q2, Q5, Q6.
  eapply (dtls_ok_update _ s); [exact D|exact Q5|exact Q6|..]; fields.
  - apply (keeps_app _ [_]); [by apply keeps_new|]. apply keeps_lasting, neutral_lasting, Forall_app. split; [done|by repeat constructor].
  - rewrite Q6. apply protected_silent; [apply D|]. apply Forall_cons. split; [done|].
    apply neutral_silent, Forall_app. split; [done|by repeat constructor].
  - intros j e'. rewrite Q2, !list_lookup_alter. case_decide as Ej; [|by left]. subst j. rewrite decide_True, He by done.
    intros [= <-]. right. split; [right|done]. cbn [ssl]. rewrite Q6. exists (l2 ++ [(SslSetFd (status r) (so_file_descriptor so), r3)]). split.
    + exists (log s), (ctx e), r. repeat split; try done; [by apply L|]. apply neutral_spares, Forall_app. split; [done|by repeat constructor].
    + destruct Hc as [Hc|Hc]; [by left|right; by apply host_checked_app].
  - intros j e'. rewrite Q1. by left.
Qed.

Lemma started cfg k x s s1 s2 l1 l2 e : dtls_ok cfg s -> quiet s s1 l1 -> all_neutral l1 -> tls_sockets s !! k = Some e ->
  quiet (s1 <| tls_sockets ::= alter (fun e => e <| ctx := x |>) k |>) s2 l2 -> all_neutral l2 -> loaded cfg l2 x ->
  dtls_ok cfg s2 /\ forall e', tls_sockets s2 !! k = Some e' -> loaded cfg (log s2) (ctx e').
Proof.
  intros D D1 N1 He D2 N2 L. assert (O1 : dtls_ok cfg s1) by (by eapply dtls_ok_neutral). split.
  - eapply dtls_ok_neutral; [|exact D2|done]. apply dtls_ok_socket; [done|]. intros e1 He1.
    destruct (do_sockets _ _ O1 _ _ He1) as [A B]. by split.
  - intros e'. rewrite (q_sockets _ _ _ D2). fields. rewrite (q_sockets _ _ _ D1), list_lookup_alter, decide_True, He by done.
    intros [= <-]. cbn [ctx]. rewrite (q_log _ _ _ D2). destruct L as (ca & Hca & Hs). exists ca. split; [done|by apply succeeded_app_r].
Qed.

Lemma handle_tls_mode_safe cfg k s : dtls_ok cfg s -> wlp (handle_tls_mode k) (fun _ => dtls_ok cfg) s.
Proof.
  intros D. pose proof (do_config _ _ D) as Hcfg. unfold handle_tls_mode. apply wlp_bind, wlp_tls_config. rewrite Hcfg.
  destruct (is_dtls_server cfg) eqn:Esrv.
  - unfold wolfssl_start_dtls_server. apply wlp_bind, wlp_start_server. intros x s1 l1 e D1 N1 He s2 l2 D2 N2 L.
    rewrite Hcfg in L. destruct (started _ _ _ _ _ _ _ _ _ D D1 N1 He D2 N2 L) as [D3 L3].
    change (wlp (p ← new_socket_session k; _ ← (mret tt : M tls_sys unit); attach_socket_session k p) (fun _ => dtls_ok cfg) s2).
    apply (session_safe _ _ (fun _ => mret tt)); [done|done|]. intros p s3 _. apply wlp_ret. exists [].
    split; [apply quiet_refl|]. split; [constructor|by left].
  - unfold wolfssl_start_dtls_client. apply wlp_bind, wlp_start_client. intros s1 x l1 D1 N1.
    apply wlp_set_socket_end. intros e He s2 l2 D2 N2 L. rewrite Hcfg in L. rewrite (q_sockets _ _ _ D1) in He.
    destruct (started _ _ _ _ _ _ _ _ _ D D1 N1 He D2 N2 L) as [D3 L3].
    change (wlp (p ← new_socket_session k; _ ← (cfg ← tls_config;
      match tls_hostname cfg with [] => mret tt | host => wolf_require (SslCheckDomain p host) end : M tls_sys unit);
      attach_socket_session k p) (fun _ => dtls_ok cfg) s2).
    apply (session_safe _ _ (fun p => cfg ← tls_config;
      match tls_hostname cfg with [] => mret tt | host => wolf_require (SslCheckDomain p host) end)); [done|done|].
    intros p s3 Hc3. apply wlp_bind, wlp_tls_config. rewrite Hc3. unfold host_checked. destruct (tls_hostname cfg) as [|h host].
    + apply wlp_ret. exists []. split; [apply quiet_refl|]. split; [constructor|by right].
    + apply wlp_require. intros s4 r D4 G. exists [(SslCheckDomain p (h :: host), r)]. split; [done|].
      split; [by repeat constructor|right]. by apply (succeeded_last _ []).
Qed.

Lemma dtls_bind_safe cfg k ip port s : dtls_ok cfg s -> wlp (dtls_transport_bind k ip port) (fun _ => dtls_ok cfg) s.
Proof.
  intros D. unfold dtls_transport_bind. apply wlp_bind, wlp_outside.
  { unfold socket_at, bsd_bind_device. outside. }
  intros b s1 D1. assert (O1 : dtls_ok cfg s1) by (by eapply dtls_ok_neutral). destruct b; [|by apply wlp_ret].
  apply wlp_bind. eapply wlp_mono; [by apply handle_tls_mode_safe|]. intros [] s2 D2. by apply wlp_ret.
Qed.

Lemma dtls_connect_safe cfg k i s : dtls_ok cfg s -> wlp (dtls_transport_connect k i) (fun _ => dtls_ok cfg) s.
Proof.
  intros D. unfold dtls_transport_connect, udp_transport_connect. apply wlp_bind.
  assert (Hp : forall b, config b = config (plain s) -> dtls_ok cfg (s <| plain := b |>)).
  { intros b Hb. destruct D as [D1 D2 D3 D4]. split; fields; try done. by rewrite Hb. }
  apply on_plain_bind, wlp_plain_set_socket. intros so1 _. apply on_plain_bind, wlp_plain_socket_at. intros so2 _.
  apply on_plain_bind, wlp_plain_set_channel. intros c _. apply wlp_plain, wlp_ret.
  apply wlp_bind, wlp_socket_end. intros e He. apply wlp_bind, wlp_set_channel_end. intros e1 He1. apply wlp_ret.
  apply dtls_ok_channel; [by apply Hp|]. intros e2 He2. destruct (do_sockets _ _ D _ _ He) as [A B]. by split.
Qed.

(** A handshake that succeeded, and a peer that was checked. *)
Lemma prepared_secured cfg l p l' : prepared cfg l p -> all_neutral l' ->
  succeeded (SslConnect p) l' \/ succeeded (SslAccept p) l' -> pinned cfg p l' ->
  secured (is_dtls_server cfg) cfg (l ++ l') p.
Proof.
  intros (l2 & S & C) N Hs Hp. exists (l2 ++ l'). split; [apply since_app; [done|by apply neutral_spares]|].
  split; [|by apply pinned_app_r]. destruct Hs as [Hs|Hs]; [right|left; by apply succeeded_app_r].
  split; [by apply succeeded_app_r|]. destruct C as [C|C]; [by left|right; by apply host_checked_app].
Qed.

Lemma end_prepared cfg l e : end_ok cfg l e -> ssl e <> 0 -> prepared cfg l (ssl e).
Proof. intros [[S|S] _] Z; [done|exact S]. Qed.

Lemma send_dtls_safe cfg i message receiver s : dtls_ok cfg s -> wlp (wolfssl_send_dtls i message receiver) (fun _ => dtls_ok cfg) s.
Proof.
  intros D. unfold wolfssl_send_dtls. apply wlp_bind, wlp_channel_end. intros e He. pose proof (do_channels _ _ D _ _ He) as Eo.
  apply wlp_bind. eapply (wlp_mono _ (fun _ s1 => dtls_ok cfg s1 /\ secured (is_dtls_server cfg) cfg (log s1) (ssl e))).
  2:{ intros _ s1 [D1 S1]. eapply wlp_send; [apply D1|exact S1|]. intros s2 l D2 N2 P2. by eapply dtls_ok_quiet. }
  apply wlp_when; [intros _|intros Hst; split; [done|apply Eo]].
  2:{ apply negb_false_iff in Hst. by apply bool_decide_eq_true in Hst. }
  apply wlp_bind, wlp_ignore. intros s1 r1 D1. unfold wolf_require. apply wlp_bind, wlp_bind, wlp_status. intros s2 r2 E2 D2.
  destruct (Z.eqb_spec (status r2) SSL_SUCCESS) as [G|]; [|apply wlp_fail]. apply wlp_ret.
  assert (Hz : ssl e <> 0) by (intros Hz; rewrite Hz in E2; rewrite E2 in G; by apply (null_connect (log s1))).
  apply wlp_bind, wlp_tls_config. pose proof (quiet_trans _ _ _ _ _ D1 D2) as D12.
  rewrite (q_config _ _ _ D12), (do_config _ _ D). apply wlp_bind, wlp_pin. intros s3 l3 D3 N3 Pin.
  pose proof (quiet_trans _ _ _ _ _ D12 D3) as D13.
  assert (N : all_neutral (([(SslSetPeer (ssl e) receiver, r1)] ++ [(SslConnect (ssl e), r2)]) ++ l3)).
  { apply Forall_app. split; [by repeat constructor|done]. }
  assert (S3 : secured (is_dtls_server cfg) cfg (log s3) (ssl e)).
  { rewrite (q_log _ _ _ D13). apply prepared_secured; [by apply end_prepared|done| |by apply pinned_app_r].
    left. by apply succeeded_app, succeeded_last. }
  apply wlp_bind, wlp_set_channel_end. intros e3 He3. rewrite (q_channels _ _ _ D13), He in He3. injection He3 as <-.
  apply wlp_async; [done|]. intros s4 l4 D4 N4. split.
  - eapply dtls_ok_neutral; [|exact D4|done]. apply dtls_ok_channel; [by eapply dtls_ok_neutral|].
    intros e'. rewrite (q_channels _ _ _ D13), He. intros [= <-]. split; [|done]. cbn [ssl]. right.
    rewrite (q_log _ _ _ D13). apply prepared_app; [by apply (end_prepared _ _ e)|]. by apply keeps_lasting, neutral_lasting.
  - rewrite (q_log _ _ _ D4). apply secured_app; [exact S3|by apply neutral_spares].
Qed.

Lemma dtls_send_safe cfg i data s : dtls_ok cfg s -> wlp (dtls_send_callback data i) (fun _ => dtls_ok cfg) s.
Proof.
  intros D. unfold dtls_send_callback, dtls_udp_send, dtls_udp_send_sockaddr. apply wlp_bind, wlp_plain_channel_at. intros c _.
  apply wlp_bind, wlp_outside; [unfold host_port_to_sockaddr; outside|]. intros a s1 D1.
  apply send_dtls_safe. by eapply dtls_ok_neutral.
Qed.

Lemma wlp_client_addr Q s : (forall a s', quiet s s' [] -> Q a s') -> wlp get_client_addr_from_socket Q s.
Proof.
  intros HQ. unfold get_client_addr_from_socket. apply wlp_bind, wlp_plain_gets, wlp_bind, wlp_syscall. intros s1 r D.
  destruct (r <? 0); [apply wlp_fail|]. by apply wlp_gets, HQ.
Qed.

(** The accept of a socket whose session is prepared. *)
Lemma wlp_wolfssl_accept cfg k e Q s : dtls_ok cfg s -> tls_sockets s !! k = Some e ->
  (forall s' l, quiet s s' l -> all_neutral l -> secured (is_dtls_server cfg) cfg (log s') (ssl e) -> Q tt s') ->
  wlp (wolfssl_accept k) Q s.
Proof.
  intros D He HQ. pose proof (do_sockets _ _ D _ _ He) as Eo. unfold wolfssl_accept. apply wlp_bind, wlp_client_addr. intros a s1 D1.
  apply wlp_bind, wlp_syscall. intros s2 r2 D2. destruct (negb _); [apply wlp_fail|].
  pose proof (quiet_trans _ _ _ _ _ D1 D2) as D12. cbn [app] in D12.
  apply wlp_bind, wlp_socket_end. intros e2. rewrite (q_sockets _ _ _ D12), He. intros [= <-].
  apply wlp_bind, wlp_status. intros s3 r3 E3 D3. destruct (Z.eqb_spec (status r3) SSL_SUCCESS) as [G|G]; cbn [negb].
  2:{ apply wlp_bind, wlp_ignore. intros s4 r4 D4. apply wlp_fail. }
  assert (Hz : ssl e <> 0) by (intros Hz; rewrite Hz in E3; rewrite E3 in G; by apply (null_accept (log s2))).
  pose proof (quiet_trans _ _ _ _ _ D12 D3) as D13. cbn [app] in D13.
  apply wlp_bind, wlp_tls_config. rewrite (q_config _ _ _ D13), (do_config _ _ D). apply wlp_bind, wlp_pin. intros s4 l4 D4 N4 Pin.
  apply wlp_async; [done|]. intros s5 l5 D5 N5. pose proof (quiet_trans _ _ _ _ _ (quiet_trans _ _ _ _ _ D13 D4) D5) as D15.
  assert (N : all_neutral (([(SslAccept (ssl e), r3)] ++ l4) ++ l5)).
  { repeat (apply Forall_app; split); try done. by repeat constructor. }
  eapply HQ; [exact D15|exact N|]. rewrite (q_log _ _ _ D15). apply prepared_secured; [by apply end_prepared|done| |].
  - right. apply succeeded_app, succeeded_app. by apply (succeeded_last _ []).
  - by apply pinned_app, pinned_app_r.
Qed.

Lemma accept_dtls_safe cfg k ch s : dtls_ok cfg s -> wlp (accept_dtls k ch) (fun _ => dtls_ok cfg) s.
Proof.
  intros D. unfold accept_dtls. apply wlp_bind. destruct (tls_sockets s !! k) as [e|] eqn:He.
  2:{ unfold wolfssl_accept. apply wlp_bind, wlp_client_addr. intros a s1 D1. apply wlp_bind, wlp_syscall. intros s2 r2 D2.
      destruct (negb _); [apply wlp_fail|]. apply wlp_bind, wlp_socket_end. intros e.
      rewrite (q_sockets _ _ _ D2), (q_sockets _ _ _ D1). congruence. }
  apply (wlp_wolfssl_accept cfg k e); [done|done|]. intros s1 l D1 N1 S1.
  assert (O1 : dtls_ok cfg s1) by (by eapply dtls_ok_neutral).
  apply wlp_bind, wlp_set_socket_end. intros e1. rewrite (q_sockets _ _ _ D1), He. intros [= <-].
  apply wlp_bind, wlp_socket_end. intros e2. fields. rewrite (q_sockets _ _ _ D1), list_lookup_alter, decide_True, He by done.
  intros [= <-]. cbn [tls_state ssl].
  assert (So : (ssl e = 0 \/ prepared cfg (log s1) (ssl e))).
  { apply (do_sockets _ _ O1 k e). by rewrite (q_sockets _ _ _ D1). }
  assert (O2 : dtls_ok cfg (s1 <| tls_sockets ::= alter (fun so => so <| tls_state := RASTA_TLS_CONNECTION_ESTABLISHED |>) k |>)).
  { apply dtls_ok_socket; [done|]. intros e'. rewrite (q_sockets _ _ _ D1), He. intros [= <-]. by split. }
  destruct ch as [i|]; [|by apply wlp_ret]. apply wlp_set_channel_end. intros e4 He4. apply dtls_ok_channel; [exact O2|].
  intros e5 _. by split.
Qed.

Lemma adopt_safe cfg k ch s : dtls_ok cfg s -> wlp (adopt_channel_session k ch) (fun _ => dtls_ok cfg) s.
Proof.
  intros D. unfold adopt_channel_session. destruct ch as [i|]; [|by apply wlp_ret].
  apply wlp_bind, wlp_channel_end. intros e He. apply wlp_when; [intros Hst%bool_decide_eq_true|done].
  apply wlp_set_socket_end. intros so Hso. destruct (do_channels _ _ D _ _ He) as [A B].
  apply dtls_ok_socket; [done|]. intros so' _. split; [done|]. intros _. by apply B.
Qed.

Lemma dtls_receive_safe cfg k s : dtls_ok cfg s -> wlp (dtls_receive_callback k) (fun _ => dtls_ok cfg) s.
Proof.
  intros D. unfold dtls_receive_callback, wolfssl_receive_dtls. apply wlp_bind, wlp_client_addr. intros a s1 D1.
  apply wlp_bind, wlp_plain_gets, wlp_bind. assert (O1 : dtls_ok cfg s1) by (by eapply dtls_ok_neutral).
  eapply wlp_mono; [by apply adopt_safe|]. intros [] s2 O2. apply wlp_bind, wlp_socket_end. intros so Hso.
  pose proof (do_sockets _ _ O2 _ _ Hso) as [_ Es]. destruct (tls_state so) eqn:St; [| |by apply wlp_ret].
  - apply wlp_bind. eapply wlp_mono; [by apply accept_dtls_safe|]. intros [] s3 O3. by apply wlp_ret.
  - apply wlp_bind. unfold read_dtls. apply wlp_bind.
    eapply wlp_read_loop; [apply O2|by apply Es|]. intros [n data] s3 l D3 N3 P3.
    assert (O3 : dtls_ok cfg s3) by (by eapply dtls_ok_quiet). destruct (n <? 0); [|by apply wlp_ret].
    apply wlp_bind, wlp_status. intros s4 r _ D4. destruct (_ && _); [apply wlp_fail|].
    apply wlp_ret, wlp_ret. eapply dtls_ok_neutral; [exact O3|exact D4|by repeat constructor].
Qed.

(** The steps of the layers above, until the sockets are closed. *)
Inductive dtls_step : tls_sys -> tls_sys -> Prop :=
| DtlsBind k ip port b s s' : dtls_transport_bind k ip port s = Ok (b, s') -> dtls_step s s'
| DtlsConnect k i z s s' : dtls_transport_connect k i s = Ok (z, s') -> dtls_step s s'
| DtlsSend i data s s' : dtls_send_callback data i s = Ok (tt, s') -> dtls_step s s'
| DtlsReceive k r s s' : dtls_receive_callback k s = Ok (r, s') -> dtls_step s s'
| DtlsOther b s : config b = config (plain s) -> dtls_step s (s <| plain := b |>).

Lemma dtls_step_ok cfg s s' : dtls_step s s' -> dtls_ok cfg s -> dtls_ok cfg s'.
Proof.
  intros St D. destruct St as [k ip port b s s' E|k i z s s' E|i data s s' E|k r s s' E|b s Hb].
  - exact (wlp_run _ _ _ _ _ (dtls_bind_safe cfg k ip port s D) E).
  - exact (wlp_run _ _ _ _ _ (dtls_connect_safe cfg k i s D) E).
  - exact (wlp_run _ _ _ _ _ (dtls_send_safe cfg i data s D) E).
  - exact (wlp_run _ _ _ _ _ (dtls_receive_safe cfg k s D) E).
  - destruct D as [D1 D2 D3 D4]. split; fields; try done. by rewrite Hb.
Qed.

Lemma blank_end_ok cfg l : end_ok cfg l blank_end.
Proof. split; [by left|done]. Qed.
Lemma unused_dtls_ok s : unused s -> dtls_ok (tls (config (plain s))) s.
Proof.
  intros [L I S C K]. split; [done|rewrite L; apply protected_nil|..].
  - intros k e He. rewrite (K k e He). apply blank_end_ok.
  - intros k e He. rewrite (C k e He). apply blank_end_ok.
Qed.

(** ** The theorems *)



(** A read of at most [max] bytes ends, and stays in the buffer. *)
Lemma read_loop_total p : forall fuel max received s, 0 < max <= Z.of_nat fuel -> max < 2 ^ 31 ->
  exists n data s', read_loop fuel p max received s = Ok ((n, data), s') /\ zlen received <= zlen data <= zlen received + max.
Proof.
  induction fuel as [|fuel IH]; intros max received s Hm Hb; [lia|]. cbn [read_loop].
  assert (Es : s32 max = max) by mlia. rewrite Es.
  destruct (read_fits (log s) p max ltac:(lia)) as [R1 R2]. unfold wolf.
  erewrite run_ok; [|reflexivity]. cbv zeta. set (r := wolfSSL (log s) (SslRead p max)) in *.
  destruct (Z.ltb_spec (status r) 0) as [|Hn]; [do 3 eexists; split; [reflexivity|lia]|].
  assert (El : zlen (received ++ payload r) = zlen received + status r) by (rewrite zlen_app; rewrite R2; lia).
  assert (Eu : u64 (max - status r) = max - status r) by mlia. rewrite Eu.
  destruct (Z.ltb_spec 0 (status r)) as [Hp|Hp]; cbn [andb]; [|do 3 eexists; split; [reflexivity|lia]].
  destruct (Z.eqb_spec (max - status r) 0) as [Hz|Hz]; cbn [negb]; [do 3 eexists; split; [reflexivity|lia]|].
  destruct (IH (max - status r) (received ++ payload r) (s <| log ::= fun l => l ++ [(SslRead p max, r)] |>)) as (n & data & s' & E & L); [lia|lia|].
  exists n, data, s'. split; [exact E|lia].
Qed.


End Safety.

(** ** Witnesses *)

(** An instance for examples: objects are numbered, handshakes succeed, all
    certificates have the same digest, and there is always something to read. *)
Definition fresh_pointer (l : wolf_log) : Z := 1 + foldr (fun e m => Z.max (status e.2) m) 0 l.
Definition demo_answer (l : wolf_log) (c : wolf_call) : wolf_result :=
  match c with
  | CtxNew _ | SslNew _ => mkResult (fresh_pointer l) []
  | SslConnect p | SslAccept p => mkResult (if p =? 0 then 0 else 1) []
  | SslWrite _ _ len => mkResult len []
  | SslRead _ max => mkResult (Z.min max 2) (take (Z.to_nat (Z.min max 2)) [104; 105])
  | X509Digest _ => mkResult 1 [42]
  | _ => mkResult 1 []
  end.
#[local] Instance demo_wolfssl : WolfSSL := {|
  wolfSSL := demo_answer; SSL_SUCCESS := 1; SOCKET_PEER_CLOSED_E := -397; SSL_ERROR_WANT_READ := 2; SSL_ERROR_WANT_WRITE := 3
|}.

Lemma fresh_pointer_above l e : e ∈ l -> status e.2 < fresh_pointer l.
Proof.
  unfold fresh_pointer. induction 1 as [e l|e e' l _ IH]; cbn; lia.
Qed.
#[local] Instance demo_wolfssl_ok : WolfOk.
Proof.
  split; cbn; try done.
  - intros l x _ (l1 & l2 & y & r & -> & E & _).
    assert (Hin : (SslNew y, r) ∈ l1 ++ (SslNew y, r) :: l2) by (apply elem_of_app; right; left).
    apply fresh_pointer_above in Hin. cbn [snd] in Hin. lia.
  - intros l p max Hm. split; [lia|]. intros _. unfold zlen. rewrite length_take. cbn. lia.
Qed.

#[local] Instance eta_config : Eta rasta_config_info := fun c =>
  mkConfig (initial_sequence_number c) (accepted_versions c) (sending c) (receive c) (retransmission c)
    (redundancy c) (redundancy_remote c) (general c) (tls c) (kex c).

(** An endpoint with TLS: one channel, one socket, a pinned certificate. *)
Definition demo_tls_config (own : option (list Z)) : rasta_config_tls := mkTls (Some [99; 97]) own own [104] (Some [112]).
Definition demo_plain (own : option (list Z)) : sys :=
  Sample.demo_up <| config ::= fun c => c <| tls := demo_tls_config own |> |>
    <| chan ::= fun c => c <| transport_channels ::= fmap (fun c => c <| connected := false |> <| receive_event ::= disable_fd_event |>) |> |>
    <| env ::= fun w => w <| outcome := fun _ c => match c with SysSocket | SysAccept => 3 | SysInetAton => 1 | _ => 0 end |> |>.
Definition demo_tls (own : option (list Z)) : tls_sys :=
  mkTlsSys (demo_plain own) [blank_end] [blank_end] false [] (fun _ => (Sample.demo_address, 8888)).

Lemma demo_unused own : unused (demo_tls own).
Proof.
  split; [done|..]; intros [|[|i]] x; cbn; intros E; inversion E; done.
Qed.



Definition state_after {A} (r : res (A * tls_sys)) : tls_sys :=
  match r with Ok (_, s) => s | Fail _ => demo_tls None end.
Definition returned {A} (r : res (A * tls_sys)) : option A := match r with Ok (a, _) => Some a | Fail _ => None end.
Lemma returned_ok {A} (r : res (A * tls_sys)) a : returned r = Some a -> r = Ok (a, state_after r).
Proof. destruct r as [[b s]|e]; [by intros [= ->]|done]. Qed.

Ltac demo_returned d := unfold d at 1; apply returned_ok; vm_compute; reflexivity.

(** A client that connects and sends over TLS. *)
Definition demo_connected : tls_sys := state_after (tls_transport_connect 0 0 (demo_tls None)).
Definition demo_sent : tls_sys := state_after (tls_send_callback [104; 105] 0 demo_connected).


(** A server that accepts a session over DTLS, and reads in the next call. *)
Definition demo_bound : tls_sys := state_after (dtls_transport_bind 0 [48] 0 (demo_tls (Some [99]))).
Definition demo_accepted : tls_sys := state_after (dtls_receive_callback 0 demo_bound).
Definition demo_read : tls_sys := state_after (dtls_receive_callback 0 demo_accepted).


