(* ===== verification/Rcat.v ===== *)
(** * The example program rcat (src/examples/rcat/c/rcat.c)

    The client of the library that sends what is typed and prints what it receives,
    from the bound sockets to the clean-up.  The callback for the standard input is
    an event of the application that runs inside of the event loop, so that the
    theorems of Service apply to it.  The configuration is read and the library set
    up before, which is the subject of Startup. *)

From stdpp Require Import base numbers list.
From Stdlib Require Import ZArith Lia.
From S2P Require Import Prelude.
From S2P Require Import Fifo.
From S2P Require Import Crc.
From S2P Require Import Hashing.
From S2P Require Import Packet.
From S2P Require Import Factory.
From S2P Require Import DeferQueue.
From S2P Require Import World.
From S2P Require Import Config.
From S2P Require Import State.
From S2P Require Import Sample.
From S2P Require Import Transport.
From S2P Require Import Redundancy.
From S2P Require Import Connection.
From S2P Require Import Retransmission.
From S2P Require Import Handlers.
From S2P Require Import Session.
From S2P Require Import Events.
From S2P Require Import EventLoop.
From S2P Require Import Rasta.
From S2P Require Import Service.

Local Open Scope Z_scope.
Local Open Scope record_scope.

(* rcat/c/rcat.c:14-14 BUF_SIZE *)
Definition BUF_SIZE : Z := 500.
Definition NEWLINE : Z := 10.
Definition STDIN_FILENO : Z := 0.
Definition EV_READABLE : Z := 1.

(** [typed n] is what [getchar] returns, one character after the other, to a
    callback that runs after the [n]-th system call, until the end of the file. *)
Class Stdin := typed : nat -> list Z.

Section Rcat.
Context `{Transport} `{Stdin}.

(** The characters in [buf] were read before. *)
(* rcat/c/rcat.c:32-54 send_input_data *)
Fixpoint send_chars (chars buf : list Z) : M sys Z :=
  match chars with
  | [] =>
      _ ← when (0 <? zlen buf) (_ ← rasta_send buf; mret tt);
      _ ← rasta_disconnect;
      mret 1
  | c :: chars =>
      let buf := buf ++ [c] in
      if c =? NEWLINE then _ ← rasta_send buf; mret 0
      else if zlen buf <? BUF_SIZE then send_chars chars buf
      else _ ← rasta_send buf; send_chars chars []
  end.

(* rcat/c/rcat.c send_input_data *)
Definition send_input_data : M sys Z :=
  n ← gets (fun s => calls (env s));
  send_chars (typed n) [].

(* rcat/c/rcat.c:67-71 main *)
Definition input_available_event : fd_event := mkFdEvent STDIN_FILENO EV_READABLE false.

(* rcat/c/rcat.c:127-128 main *)
Definition input_events : Application := [(enable_fd_event input_available_event, send_input_data)].

(** What is printed is the result; the loop has [n] rounds. *)
(* rcat/c/rcat.c:130-135 main *)
Fixpoint print_received {App : Application} (n rounds fuel : nat) (printed : list (list Z)) : M sys (list (list Z)) :=
  received ← rasta_recv rounds fuel BUF_SIZE;
  match received with
  | None => mret printed
  | Some buf =>
      if 0 <? zlen buf then
        r ← syscall_now SysWrite;
        if r =? -1 then mret printed
        else
          match n with
          | O => fail OutOfFuel
          | S n => print_received n rounds fuel (printed ++ [buf])
          end
      else mret printed
  end.

(** The sender; without a connection the program ends at once. *)
(* rcat/c/rcat.c:114-138 main *)
Definition rcat_send (n rounds fuel : nat) : M sys (option (list (list Z))) :=
  _ ← rasta_bind;
  c ← rasta_connect (App := no_events) fuel;
  if negb c then mret None
  else
    printed ← print_received (App := input_events) n rounds fuel [];
    _ ← rasta_cleanup;
    mret (Some printed).

(** The receiver. *)
(* rcat/c/rcat.c:82-104 main *)
Definition rcat_receive (n rounds fuel : nat) : M sys (option (list (list Z))) :=
  _ ← rasta_bind;
  _ ← rasta_listen;
  c ← rasta_accept (App := no_events) fuel;
  if negb c then mret None
  else
    printed ← print_received (App := input_events) n rounds fuel [];
    _ ← rasta_cleanup;
    mret (Some printed).

End Rcat.

(** ** What is sent *)

(** The messages that the characters make, and whether the end of the file came
    before the end of the line. *)
Fixpoint pieces (chars buf : list Z) : list (list Z) * bool :=
  match chars with
  | [] => (if 0 <? zlen buf then [buf] else [], true)
  | c :: chars =>
      let buf := buf ++ [c] in
      if c =? NEWLINE then ([buf], false)
      else if zlen buf <? BUF_SIZE then pieces chars buf
      else let '(l, eof) := pieces chars [] in (buf :: l, eof)
  end.

(** The characters up to the end of the line. *)
Fixpoint line (chars : list Z) : list Z :=
  match chars with [] => [] | c :: chars => if c =? NEWLINE then [c] else c :: line chars end.

Fixpoint send_each `{Transport} (l : list (list Z)) : M sys unit :=
  match l with [] => mret tt | m :: l => _ ← rasta_send m; send_each l end.

(** The messages of a text are the text, in parts that fit the buffer. *)
Lemma pieces_concat chars : forall buf, concat (fst (pieces chars buf)) = buf ++ line chars.
Proof.
  induction chars as [|c chars IH]; intros buf; cbn [pieces line].
  - case_if; cbn; [done|]. zbool. destruct buf as [|x buf]; [done|]. unfold zlen in *. cbn [length] in *. lia.
  - case_if; [cbn; by rewrite app_nil_r|]. case_if; [rewrite IH; by rewrite <- app_assoc|].
    specialize (IH []). destruct (pieces chars []) as [l eof]. cbn in *. by rewrite IH, <- app_assoc.
Qed.

Lemma pieces_size chars : forall buf, zlen buf < BUF_SIZE -> Forall (fun m => 1 <= zlen m <= BUF_SIZE) (fst (pieces chars buf)).
Proof.
  induction chars as [|c chars IH]; intros buf Hb; cbn [pieces].
  - case_if; cbn; repeat constructor; zbool; lia.
  - assert (E : zlen (buf ++ [c]) = zlen buf + 1) by (by rewrite zlen_app). pose proof (zlen_nonneg buf).
    case_if; [repeat constructor; lia|]. case_if; zbool; [by apply IH|].
    specialize (IH [] ltac:(done)). destruct (pieces chars []) as [l eof]. constructor; [lia|done].
Qed.

Lemma pieces_end chars : forall buf, snd (pieces chars buf) = negb (bool_decide (NEWLINE ∈ chars)).
Proof.
  induction chars as [|c chars IH]; intros buf; cbn [pieces]; [done|].
  destruct (Z.eqb_spec c NEWLINE) as [->|Hc]; [by rewrite bool_decide_eq_true_2 by (by left)|].
  assert (E : bool_decide (NEWLINE ∈ c :: chars) = bool_decide (NEWLINE ∈ chars)).
  { apply bool_decide_ext. rewrite elem_of_cons. naive_solver. }
  rewrite E. case_if; [apply IH|]. specialize (IH []). by destruct (pieces chars []).
Qed.

Definition end_of_input `{Transport} (eof : bool) : M sys Z := if eof then _ ← rasta_disconnect; mret 1 else mret 0.

Lemma send_chars_pieces `{Transport} chars : forall buf s,
  send_chars chars buf s = (_ ← send_each (fst (pieces chars buf)); end_of_input (snd (pieces chars buf))) s.
Proof.
  induction chars as [|c chars IH]; intros buf s; cbn [send_chars pieces].
  - case_if; cbn [fst snd send_each when end_of_input]; unfold mbind, M_bind; [by destruct (rasta_send buf s) as [[]|]|done].
  - case_if; [|case_if; [by rewrite IH|]].
    + cbn [fst snd send_each end_of_input]. unfold mbind, M_bind. by destruct (rasta_send _ s) as [[]|].
    + specialize (IH []). destruct (pieces chars []) as [l eof]. cbn [fst snd send_each] in *. revert IH. unfold mbind, M_bind.
      intros IH. destruct (rasta_send _ s) as [[]|]; [by rewrite IH|done].
Qed.

(** ** The callback keeps the endpoint *)

Section Safety.
Context `{TransportOk} `{Stdin}.

(** The configuration lets a packet be filled with messages of the buffer's size. *)
Definition room_for_lines (cfg : rasta_config_info) : Prop :=
  0 <= max_packet (sending cfg) /\ max_packet (sending cfg) * (2 + BUF_SIZE) <= PAYLOAD_MAX.
Definition typed_bytes : Prop := forall n, bytes_ok (typed n).

Lemma piece_fits cfg m : room_for_lines cfg -> bytes_ok m -> zlen m <= BUF_SIZE -> msg_fits cfg m.
Proof. intros [G1 G2] Hb Hl. split; [done|]. nia. Qed.

Lemma line_bytes chars : bytes_ok chars -> bytes_ok (line chars).
Proof. induction 1 as [|c chars Hc _ IH]; cbn; [constructor|]. case_if; constructor; done || constructor. Qed.

Lemma pieces_bytes chars : bytes_ok chars -> Forall bytes_ok (fst (pieces chars [])).
Proof.
  intros Hb%line_bytes. pose proof (pieces_concat chars []) as E. cbn [app] in E. rewrite <- E in Hb.
  clear E. induction (fst (pieces chars [])) as [|m l IH]; [constructor|]. cbn in Hb. apply bytes_ok_app in Hb as [G1 G2].
  constructor; auto.
Qed.

Lemma send_each_kept l : forall s0 s, kept s0 s -> Forall (msg_fits (config s0)) l -> wp (send_each l) (fun _ => kept s0) s.
Proof.
  induction l as [|m l IH]; intros s0 s K Hl; cbn [send_each]; [by apply wp_ret|]. apply Forall_cons in Hl as [Hm Hl].
  apply wp_bind. eapply wp_mono; [apply send_kept; [apply K|]|].
  - rewrite (kp_config _ _ K). by constructor.
  - intros r s1 K1. apply IH; [by eapply kept_trans|done].
Qed.

Lemma send_input_kept s : room_for_lines (config s) -> typed_bytes -> endpoint_ok s -> wp send_input_data (fun _ => kept s) s.
Proof.
  intros Hr Ht E. unfold send_input_data. apply wp_bind, wp_gets. set (chars := typed _).
  assert (Hf : Forall (msg_fits (config s)) (fst (pieces chars []))).
  { pose proof (pieces_bytes chars (Ht _)) as Hb. pose proof (pieces_size chars [] ltac:(done)) as Hs.
    apply Forall_forall. intros m Hm. rewrite Forall_forall in Hb, Hs. apply piece_fits; [done|by apply Hb|by apply Hs]. }
  unfold wp. rewrite send_chars_pieces.
  fold (wp (_ ← send_each (fst (pieces chars [])); end_of_input (snd (pieces chars []))) (fun _ => kept s) s).
  apply wp_bind. eapply wp_mono; [apply (send_each_kept _ s); [by apply kept_refl|done]|]. intros ? s1 K1.
  unfold end_of_input. destruct (snd _); [|by apply wp_ret]. apply wp_bind. eapply wp_mono; [apply disconnect_kept, K1|].
  intros ? s2 K2. apply wp_ret. exact (kept_trans _ _ _ K1 K2).
Qed.

#[export] Instance input_events_ok cfg : room_for_lines cfg -> typed_bytes -> ApplicationOk input_events cfg.
Proof.
  intros Hr Ht e callback [= -> ->]%list_elem_of_singleton s E Ec. apply send_input_kept; [by rewrite Ec|done|done].
Qed.

(** ** From the sockets to the clean-up *)

(** What the socket calls of binding, listening and closing do. *)
Record quiet_net (s s' : sys) : Prop := {
  qn_frame : net_frame s s';
  qn_attachment : attachment s' = attachment s;
  qn_trace : trace (env s') = trace (env s)
}.

Lemma quiet_net_refl s : quiet_net s s.
Proof. done. Qed.
Lemma quiet_net_trans s1 s2 s3 : quiet_net s1 s2 -> quiet_net s2 s3 -> quiet_net s1 s3.
Proof. intros [] []. split; [by etrans|congruence..]. Qed.

Lemma quiet_net_endpoint s s' : quiet_net s s' -> endpoint_ok s -> endpoint_ok s'.
Proof.
  intros [F A T] E. eapply endpoint_upheld; [by apply upheld_net|exact E|by rewrite (nf_chan _ _ F)|].
  rewrite (nf_inbox _ _ F). apply (bo_inbox _ _ (ep_base _ E)).
Qed.
Lemma quiet_net_server s s' : quiet_net s s' -> quiet_net (as_server s) (as_server s').
Proof. intros [[] A T]. split; [|done..]. split; try done. unfold as_server. fields. congruence. Qed.

Lemma bind_sockets_quiet n : forall i success s0 s, quiet_net s0 s -> net_good (env s0) ->
  so_id <$> transport_sockets (mux s0) = numbers s0 -> (i + n <= length (transport_sockets (mux s0)))%nat ->
  wp (bind_sockets n i success) (fun _ => quiet_net s0) s.
Proof.
  induction n as [|n IH]; intros i success s0 s Q Hg Hn Hi; cbn [bind_sockets]; [by apply wp_ret|].
  apply wp_bind, wp_gets. pose proof (qn_frame _ _ Q) as F. rewrite (nf_config _ _ F).
  destruct (lookup_lt_is_Some_2 (connections (redundancy (config s0))) i) as [d ->].
  { rewrite <- (numbers_length s0 _ _ Hn). lia. }
  apply wp_bind. eapply wp_mono.
  - apply bind_ok; [by eapply net_frame_good|]. rewrite (net_frame_sockets _ _ F). lia.
  - intros ok s1 (F1 & A1 & T1). apply IH; [by eapply quiet_net_trans|done|done|lia].
Qed.

Lemma sockets_quiet n body s0 s : quiet_net s0 s -> net_good (env s0) -> (n <= length (transport_sockets (mux s0)))%nat ->
  (forall i s', net_good (env s') -> (i < length (transport_sockets (mux s')))%nat -> wp (body i) (fun _ => quiet_net s') s') ->
  wp (for_up n 0 body) (fun _ => quiet_net s0) s.
Proof.
  intros Q Hg Hn Hb. apply (for_up_inv _ 0 _ (fun _ => quiet_net s0)); [done|]. intros i s' Hi Q'.
  pose proof (qn_frame _ _ Q') as F. eapply wp_mono; [apply Hb; [by eapply net_frame_good|rewrite (net_frame_sockets _ _ F); lia]|].
  intros ? s2. by apply quiet_net_trans.
Qed.

Lemma bind_quiet s : endpoint_ok (as_server s) -> wp rasta_bind (fun _ => quiet_net s) s.
Proof.
  intros E. unfold rasta_bind, redundancy_mux_bind. apply wp_bind, wp_gets.
  apply bind_sockets_quiet; [done|apply (lk_net _ (ok_link _ (bo_sr _ _ (ep_base _ E))))|apply (bo_sockets _ _ (ep_base _ E))|lia].
Qed.

Lemma free_elements_total n : forall s, wp (free_elements n) (fun _ _ => True) s.
Proof.
  induction n as [|n IH]; intros s; cbn [free_elements]; apply wp_bind, wp_gets; destruct (queue_pop _) as [[e|] q];
    apply wp_bind, wp_modify; try (by apply wp_ret); apply IH.
Qed.

Lemma cleanup_total s : endpoint_ok s -> wp rasta_cleanup (fun _ _ => True) s.
Proof.
  intros E. unfold rasta_cleanup, sr_cleanup, redundancy_mux_close. apply wp_bind, wp_bind, wp_gets, wp_bind.
  eapply wp_mono; [apply (sockets_quiet _ _ s); [done|apply (lk_net _ (ok_link _ (bo_sr _ _ (ep_base _ E))))|done|]|].
  - intros i s' Hg Hi. eapply wp_mono; [by apply close_socket_ok|]. by intros ? s2 (F & A & T).
  - intros [] s1 _. apply wp_modify, wp_bind, wp_gets, wp_bind. eapply wp_mono; [apply free_elements_total|].
    intros ? s2 _. by apply wp_modify.
Qed.

(** A client that was set up and not connected before. *)
Lemma connect_fresh fuel s : endpoint_ok (as_server s) ->
  runs (rasta_connect (App := no_events) fuel) (fun r s' => config s' = config s /\ (r = true -> endpoint_ok s')) s.
Proof.
  intros E. unfold rasta_connect, sr_connect.
  eapply (runs_seq _ _ (fun r s1 => config s1 = config s /\ (r = true -> endpoint_ok s1))).
  - apply runs_wp, wp_request_connection; [done| |].
    + intros s' U _ _. split; [apply U|done].
    + intros s1 s' pk Op. pose proof (opens_kept _ _ _ _ E Op) as K. split; [apply K|]. intros _. apply K.
  - intros r s1 [Ec E1]. destruct r; [|by apply runs_wp, wp_ret]. specialize (E1 eq_refl).
    eapply runs_seq; [by apply (loop_kept (app_cfg := config s1) (AppOk := no_events_ok _) _ s1), kept_refl|]. intros [] s2 K2. apply runs_wp.
    eapply wp_mono; [apply outcome_kept, K2|]. intros r s3 K3. pose proof (kept_trans _ _ _ K2 K3) as K.
    split; [by rewrite (kp_config _ _ K)|]. intros _. apply K.
Qed.

Lemma listen_quiet s : endpoint_ok (as_server s) -> wp rasta_listen (fun _ => quiet_net s) s.
Proof.
  intros E. unfold rasta_listen, sr_listen, redundancy_mux_listen_channels. apply wp_bind, wp_gets.
  apply (sockets_quiet _ _ s); [done|apply (lk_net _ (ok_link _ (bo_sr _ _ (ep_base _ E))))|done|].
  intros i s' Hg Hi. eapply wp_mono; [by apply listen_ok|]. by intros ? s2 (F & A & T).
Qed.

(** A message is received into the buffer. *)
Lemma recv_fits {App : Application} rounds fuel len s buf s' : 0 <= len ->
  rasta_recv rounds fuel len s = Ok (Some buf, s') -> zlen buf <= len.
Proof.
  intros Hl. unfold rasta_recv, mbind, M_bind. destruct (await_message rounds fuel s) as [[u s1]|]; [|done]. cbn.
  case_if; [done|]. destruct (queue_pop _) as [[e|] q]; [|done]. cbn. intros [= <- _]. unfold zlen.
  rewrite length_take. case_if; zbool; lia.
Qed.

Definition printable (printed : list (list Z)) : Prop := Forall (fun m => 1 <= zlen m <= BUF_SIZE) printed.

Lemma print_kept {App : Application} n rounds fuel : forall printed s0 s, ApplicationOk App (config s0) -> kept s0 s -> printable printed ->
  runs (print_received n rounds fuel printed) (fun printed' s' => kept s0 s' /\ printable printed') s.
Proof.
  induction n as [|n IH]; intros printed s0 s A K P; cbn [print_received].
  all: assert (R : runs (rasta_recv rounds fuel BUF_SIZE) (fun r s1 => kept s0 s1 /\ forall buf, r = Some buf -> zlen buf <= BUF_SIZE) s).
  1,3: pose proof (recv_kept (app_cfg := config s0) rounds fuel BUF_SIZE s (kp_ok _ _ K) (kp_config _ _ K)) as R; unfold runs in *;
    destruct (rasta_recv rounds fuel BUF_SIZE s) as [[r s1]|] eqn:Er; [|done]; split; [by eapply kept_trans|];
    intros buf ->; by eapply recv_fits in Er.
  all: eapply runs_seq; [exact R|]; clear R; intros [buf|] s1 [K1 Hb]; [|by apply runs_wp, wp_ret]; specialize (Hb _ eq_refl).
  all: case_if; [|by apply runs_wp, wp_ret]; zbool; apply runs_bind; eapply wp_mono; [apply syscall_kept, K1|]; intros r s2 K2;
    pose proof (kept_trans _ _ _ K1 K2); case_if; [by apply runs_wp, wp_ret|].
  - done.
  - apply IH; [done|done|]. apply Forall_app. split; [done|]. constructor; [lia|constructor].
Qed.

(** The receiver. Before its first connection request a server has the role of a
    client, whose channels must be attached to sockets. *)
Lemma rcat_receive_safe n rounds fuel s : endpoint_ok s -> room_for_lines (config s) -> typed_bytes ->
  runs (rcat_receive n rounds fuel) (fun r _ => forall printed, r = Some printed -> printable printed) s.
Proof.
  intros E Hr Ht. unfold rcat_receive. apply runs_bind. eapply wp_mono; [by apply bind_quiet, endpoint_server|]. intros ? s1 Q1.
  pose proof (quiet_net_endpoint _ _ Q1 E) as E1. apply runs_bind. eapply wp_mono; [by apply listen_quiet, endpoint_server|].
  intros ? s2 Q2. pose proof (quiet_net_endpoint _ _ Q2 E1) as E2. pose proof (quiet_net_trans _ _ _ Q1 Q2) as Q.
  eapply runs_seq; [by apply (accept_kept (app_cfg := config s2) (AppOk := no_events_ok _))|]. intros c s3 K3.
  destruct c; cbn [negb]; [|by apply runs_wp, wp_ret]. eapply runs_seq.
  - apply (print_kept n rounds fuel [] s3 s3); [|apply kept_refl, K3|constructor].
    apply input_events_ok; [|done]. by rewrite (kp_config _ _ K3), (nf_config _ _ (qn_frame _ _ Q)).
  - intros printed s4 [K4 P4]. apply runs_wp, wp_bind. eapply wp_mono; [apply cleanup_total, K4|].
    intros [] s5 _. apply wp_ret. by intros ? [= <-].
Qed.

End Safety.

(** ** Properties *)

Section Properties.
Context `{TransportOk} `{Stdin}.

(** What is typed is sent unchanged: the callback of rcat hands the text up to
    the end of the line, or of the file, to the library as messages of 1 to 500
    bytes, in order, whose concatenation is that text; at the end of the file, and
    only then, it disconnects and ends the event loop. *)
Theorem send_input_data_spec s :
  let chars := typed (calls (env s)) in
  exists messages,
    send_input_data s = (_ ← send_each messages; end_of_input (negb (bool_decide (NEWLINE ∈ chars)))) s /\
    concat messages = line chars /\ Forall (fun m => 1 <= zlen m <= BUF_SIZE) messages.
Proof.
  intros chars. exists (fst (pieces chars [])). split; [|split; [apply pieces_concat|by apply pieces_size]].
  rewrite <- (pieces_end chars []). apply send_chars_pieces.
Qed.


End Properties.

(** ** Witnesses *)

#[local] Instance demo_typed : Stdin := fun _ => [104; 105; 10].

(** The response of the server and a message from it. *)
Definition demo_response : RastaPacket :=
  mkPacket 50 RASTA_TYPE_CONNRESP 0x60 0x61 100 7 1000 960 (connection_data 20 RASTA_VERSION) [] 0.
Definition demo_message : RastaPacket :=
  mkPacket 40 RASTA_TYPE_DATA 0x60 0x61 101 8 1001 1000 (encode [[104; 105]]) [] 0.
Definition demo_frames : list (list Z) :=
  [red_wire demo_ctx (createRedundancyPacket 0 demo_response crc_init_opt_b);
   red_wire demo_ctx (createRedundancyPacket 1 demo_message crc_init_opt_b)].
Definition demo_client : sys := demo_fresh <| env ::= fun w => w <| inbox := (fun f => ((demo_address, 8888), f)) <$> demo_frames |> |>.

Lemma demo_sendable pk : In pk [demo_response; demo_message] -> sendable (as_server demo_fresh) pk.
Proof.
  assert (W : Forall (packet_wf demo_ctx) [demo_response; demo_message]).
  { constructor; [|constructor; [|constructor]]; (split; [reflexivity|cbn; unfold is_u16, is_u32, RASTA_TYPE_CONNRESP, RASTA_TYPE_DATA; lia..|]).
    - apply connection_data_bytes.
    - apply (bool_decide_unpack _). vm_compute. exact I. }
  rewrite Forall_forall in W. intros Hin. split; [apply W; by apply list_elem_of_In|].
  destruct Hin as [<-|[<-|[]]]; split; try (vm_compute; discriminate).
  - by intros [?|?].
  - intros _. by exists [[104; 105]].
Qed.

Lemma demo_client_ok : endpoint_ok (as_server demo_client).
Proof.
  assert (L : link_ok (as_server demo_fresh)) by apply (bo_sr _ _ (ep_base _ demo_fresh_ok)).
  eapply (endpoint_upheld (as_server demo_fresh)); [by split|exact demo_fresh_ok|done|].
  assert (F : Forall (tame (as_server demo_fresh)) demo_frames).
  { apply Forall_cons; split; [|apply Forall_cons; split; [|done]]; (apply spoken_tame; [exact L| |vm_compute; discriminate]).
    - exists 0, demo_response. split; [apply demo_sendable; by left|done].
    - exists 1, demo_message. split; [apply demo_sendable; right; by left|done]. }
  unfold demo_client, as_server. fields. apply Forall_fmap. exact F.
Qed.

Definition printed_text (r : res (option (list (list Z)) * sys)) : option (list Z) :=
  match r with Ok (Some printed, _) => Some (concat printed) | _ => None end.

